(** * Sales Enquiry Management: the data synchronization core

    A shallow embedding of the TypeScript sources and the properties of
    the specification that were checked against them.

    The repository holds two generations of the core:
      - the service with a local fallback, [src/services/mockDb.ts]
        ([MockDb]), and its [App] ([AppLocal]): remote failures demote the
        session to the browser storage;
      - the online-only service ([OnlineDb]), with [subscribe] and live
        snapshots, and its [App] ([AppOnline]): remote failures are thrown
        to the caller.
    Both are embedded, next to [src/types.ts] and the mail channel of
    [src/services/mailService.ts] ([MailService]).

    Conventions.  An [async] method is run to completion as one sequential
    unit of work.  The outcome of every call to an external collaborator
    (document store, blob storage, browser storage, mail API) is read from
    an environment.  Every method returns, next to its completion and the
    final state, the events it emitted, in order.  The libraries that the
    mail channel calls (JSON texts, crypto-js, base64) are interfaces;
    what is assumed of them is stated where it is used.

    The file has two parts: the definitions, then the properties. *)

From Stdlib Require Import String Ascii List Bool Arith ZArith Lia.
From Stdlib Require Import Decimal DecimalZ DecimalPos.
Import ListNotations.
Local Open Scope string_scope.
Local Open Scope list_scope.

Set Implicit Arguments.
Set Warnings "-register-all".

(* ===================================================================== *)
(** ** JavaScript values *)
(* ===================================================================== *)

(** A JavaScript [number].  The finite values are the integers, the
    fractions (every finite number that is no integer is [m / 10^e] for one
    [m] that 10 does not divide and one [e]) and the negative zero; then come
    the three values that have no JSON literal. *)
Inductive number : Type :=
| Finite (z : Z)
| Fraction (m : Z) (e : positive)
| NegZero
| NaN
| PosInfinity
| NegInfinity.

(** Plain JavaScript data: what a field of type [any] can hold here.  An
    object is the list of its own properties in property order. *)
Inductive jsval : Type :=
| VUndefined
| VNull
| VBool (b : bool)
| VNum (n : number)
| VStr (s : string)
| VArr (items : list jsval)
| VObj (props : list (string * jsval)).

(** [obj[key]]: the value of the first property named [key]. *)
Fixpoint lookup {A : Type} (key : string) (props : list (string * A)) : option A :=
  match props with
  | [] => None
  | (k, v) :: rest => if String.eqb k key then Some v else lookup key rest
  end.

(** No name occurs twice. *)
Fixpoint distinct (keys : list string) : bool :=
  match keys with
  | [] => true
  | k :: rest => negb (existsb (String.eqb k) rest) && distinct rest
  end.

(** [obj[key] = v]: an existing property keeps its place, a new one goes
    last. *)
Fixpoint assign {A : Type} (key : string) (v : A) (props : list (string * A))
  : list (string * A) :=
  match props with
  | [] => [(key, v)]
  | (k, w) :: rest =>
      if String.eqb k key then (k, v) :: rest else (k, w) :: assign key v rest
  end.

(** [{ ...base, ...over }] on property lists. *)
Definition spread {A : Type} (base over : list (string * A)) : list (string * A) :=
  fold_left (fun acc kv => assign (fst kv) (snd kv) acc) over base.

(** [{ ...base, ...over }] on one typed field: a field present in the
    partial object wins. *)
Definition merge {A : Type} (base : A) (over : option A) : A :=
  match over with
  | Some v => v
  | None => base
  end.

(* ===================================================================== *)
(** ** src/types.ts *)
(* ===================================================================== *)

Inductive UserRole : Type :=
| SUPER_ADMIN | ORG_ADMIN | RSM | SALES_ENG | DEALER | DSE.

Definition UserRole_eqb (a b : UserRole) : bool :=
  match a, b with
  | SUPER_ADMIN, SUPER_ADMIN | ORG_ADMIN, ORG_ADMIN | RSM, RSM
  | SALES_ENG, SALES_ENG | DEALER, DEALER | DSE, DSE => true
  | _, _ => false
  end.

Record Organization : Type := mkOrganization {
  org_id : string;
  org_name : string;
  adminEmail : string;
  org_isApproved : bool;
  org_createdAt : string
}.

Record UserHierarchy : Type := mkUserHierarchy {
  rsmEmail : option string;
  seEmails : option (list string);
  dealerEmails : option (list string);
  dseEmails : option (list string)
}.

Record User : Type := mkUser {
  user_id : string;
  email : string;
  user_name : string;
  password : option string;
  parentId : option string;
  role : UserRole;
  organizationId : string;
  organizationName : string;
  isApproved : bool;
  hierarchy : option UserHierarchy
}.

Record Customer : Type := mkCustomer {
  cust_id : string;
  createdBy : string;
  cust_organizationId : string;
  cust_name : string;
  address : string;
  pinCode : string;
  contactPerson : string;
  contactNumber : string;
  businessSector : string;
  tungaloyShare : number;
  annualPotential : number;
  competitors : list (string * number);
  fyPlan : string
}.

Inductive AttachmentType : Type := photo | document.

Record Attachment : Type := mkAttachment {
  att_name : string;
  att_data : string;            (* Base64 or URL *)
  att_type : AttachmentType
}.

(** [AnyPlan].  The service reads [id] and [attachments]; every other
    property of the three plan variants (type tag, customer and organization
    reference, technical and commercial attributes, status log) is carried
    in [plan_fields] and only ever copied or overwritten by a spread. *)
Record AnyPlan : Type := mkPlan {
  plan_id : string;
  attachments : option (list Attachment);
  plan_fields : list (string * jsval)
}.

(** [Partial<Organization>], [Partial<User>], [Partial<AnyPlan>].  A
    property of a partial object is absent ([None]) or holds a value of its
    type; a property that the full type allows to be missing may also hold
    [undefined] ([Some None]), and a spread then copies that. *)
Record PartialOrganization : Type := mkPartialOrganization {
  po_id : option string;
  po_name : option string;
  po_adminEmail : option string;
  po_isApproved : option bool;
  po_createdAt : option string
}.

Record PartialUser : Type := mkPartialUser {
  pu_id : option string;
  pu_email : option string;
  pu_name : option string;
  pu_password : option (option string);
  pu_parentId : option (option string);
  pu_role : option UserRole;
  pu_organizationId : option string;
  pu_organizationName : option string;
  pu_isApproved : option bool;
  pu_hierarchy : option (option UserHierarchy)
}.

Record PartialPlan : Type := mkPartialPlan {
  pp_id : option string;
  pp_attachments : option (option (list Attachment));
  pp_fields : list (string * jsval)
}.

(** [{ ...o, ...updates }] *)
Definition spreadOrganization (o : Organization) (u : PartialOrganization) : Organization :=
  {| org_id := merge (org_id o) (po_id u);
     org_name := merge (org_name o) (po_name u);
     adminEmail := merge (adminEmail o) (po_adminEmail u);
     org_isApproved := merge (org_isApproved o) (po_isApproved u);
     org_createdAt := merge (org_createdAt o) (po_createdAt u) |}.

Definition spreadUser (x : User) (u : PartialUser) : User :=
  {| user_id := merge (user_id x) (pu_id u);
     email := merge (email x) (pu_email u);
     user_name := merge (user_name x) (pu_name u);
     password := merge (password x) (pu_password u);
     parentId := merge (parentId x) (pu_parentId u);
     role := merge (role x) (pu_role u);
     organizationId := merge (organizationId x) (pu_organizationId u);
     organizationName := merge (organizationName x) (pu_organizationName u);
     isApproved := merge (isApproved x) (pu_isApproved u);
     hierarchy := merge (hierarchy x) (pu_hierarchy u) |}.

Definition spreadPlan (p : AnyPlan) (u : PartialPlan) : AnyPlan :=
  {| plan_id := merge (plan_id p) (pp_id u);
     attachments := merge (attachments p) (pp_attachments u);
     plan_fields := spread (plan_fields p) (pp_fields u) |}.

(** [interface AppData] and [INITIAL_DATA]. *)
Record AppData : Type := mkAppData {
  organizations : list Organization;
  users : list User;
  customers : list Customer;
  plans : list AnyPlan
}.

Definition INITIAL_DATA : AppData :=
  {| organizations := []; users := []; customers := []; plans := [] |}.

Definition set_organizations (d : AppData) (l : list Organization) : AppData :=
  {| organizations := l; users := users d; customers := customers d; plans := plans d |}.
Definition set_users (d : AppData) (l : list User) : AppData :=
  {| organizations := organizations d; users := l; customers := customers d; plans := plans d |}.
Definition set_customers (d : AppData) (l : list Customer) : AppData :=
  {| organizations := organizations d; users := users d; customers := l; plans := plans d |}.
Definition set_plans (d : AppData) (l : list AnyPlan) : AppData :=
  {| organizations := organizations d; users := users d; customers := customers d; plans := l |}.

(** [Array.prototype.find] *)
Definition array_find {A : Type} (p : A -> bool) (l : list A) : option A := find p l.

(** [Array.prototype.push] *)
Definition push {A : Type} (l : list A) (x : A) : list A := l ++ [x].

(* ===================================================================== *)
(** ** [JSON.stringify] and [JSON.parse] on values *)
(* ===================================================================== *)

(** A JSON document: what a JSON text denotes. *)
Inductive json : Type :=
| JNull
| JBool (b : bool)
| JNum (z : Z)
| JDec (m : Z) (e : positive)       (* the number m / 10^e *)
| JStr (s : string)
| JArr (items : list json)
| JObj (members : list (string * json)).

(** The properties of an object that have a serialization, in order. *)
Fixpoint collect {A B : Type} (f : A -> option B) (props : list (string * A))
  : list (string * B) :=
  match props with
  | [] => []
  | (k, x) :: rest =>
      match f x with
      | Some y => (k, y) :: collect f rest
      | None => collect f rest
      end
  end.

(** The value-to-document half of [JSON.stringify] (SerializeJSONProperty):
    [undefined] has no serialization; inside an array it becomes [null],
    as a property value it makes the property disappear; a number that is
    not finite becomes [null]; the negative zero is written as [0]. *)
Fixpoint serialize (v : jsval) : option json :=
  match v with
  | VUndefined => None
  | VNull => Some JNull
  | VBool b => Some (JBool b)
  | VNum (Finite z) => Some (JNum z)
  | VNum (Fraction m e) => Some (JDec m e)
  | VNum NegZero => Some (JNum 0)
  | VNum _ => Some JNull
  | VStr s => Some (JStr s)
  | VArr items =>
      Some (JArr (map (fun x => match serialize x with
                                | Some j => j
                                | None => JNull
                                end) items))
  | VObj props => Some (JObj (collect serialize props))
  end.

(** The members of an object are defined one after the other; a repeated
    name overwrites. *)
Fixpoint define {A B : Type} (f : A -> B) (members : list (string * A))
         (acc : list (string * B)) : list (string * B) :=
  match members with
  | [] => acc
  | (k, x) :: rest => define f rest (assign k (f x) acc)
  end.

(** The document-to-value half of [JSON.parse]. *)
Fixpoint revive (j : json) : jsval :=
  match j with
  | JNull => VNull
  | JBool b => VBool b
  | JNum z => VNum (Finite z)
  | JDec m e => VNum (Fraction m e)
  | JStr s => VStr s
  | JArr items => VArr (map revive items)
  | JObj members => VObj (define revive members [])
  end.

(** What [JSON.parse] reads from the text that [JSON.stringify] wrote for
    an object or an array.  (Whatever the text, if the platform reads what
    it writes: see [JsonText_correct].) *)
Definition reparsed (v : jsval) : jsval :=
  match serialize v with
  | Some j => revive j
  | None => VUndefined
  end.

(* ===================================================================== *)
(** ** The records of src/types.ts as JavaScript objects *)
(* ===================================================================== *)

(** The service with a local fallback writes [this.data] to the browser
    storage with [JSON.stringify] and assigns to [this.data] what
    [JSON.parse] reads from there, whatever it is.  [...Object] is the
    object of a record (an optional property that is absent or [undefined]
    is left out, which is what [JSON.stringify] makes of both; the order of
    the properties is one that the object may have, and nothing here
    depends on it); [read...] gives the record of a value that has the
    properties of the type, each with a value of its type, and no other
    property.  A plan may have any property beside [id] and [attachments]:
    they are its [plan_fields]. *)
Definition UserRole_name (r : UserRole) : string :=
  match r with
  | SUPER_ADMIN => "SUPER_ADMIN"
  | ORG_ADMIN => "ORG_ADMIN"
  | RSM => "RSM"
  | SALES_ENG => "SALES_ENG"
  | DEALER => "DEALER"
  | DSE => "DSE"
  end.

Definition AttachmentType_name (t : AttachmentType) : string :=
  match t with
  | photo => "photo"
  | document => "document"
  end.

Definition optional {A : Type} (key : string) (f : A -> jsval) (x : option A)
  : list (string * jsval) :=
  match x with
  | Some a => [(key, f a)]
  | None => []
  end.

Definition stringArray (l : list string) : jsval := VArr (map VStr l).

Definition organizationObject (o : Organization) : jsval :=
  VObj [("id", VStr (org_id o)); ("name", VStr (org_name o));
        ("adminEmail", VStr (adminEmail o)); ("isApproved", VBool (org_isApproved o));
        ("createdAt", VStr (org_createdAt o))].

Definition hierarchyObject (h : UserHierarchy) : jsval :=
  VObj (optional "rsmEmail" VStr (rsmEmail h)
        ++ optional "seEmails" stringArray (seEmails h)
        ++ optional "dealerEmails" stringArray (dealerEmails h)
        ++ optional "dseEmails" stringArray (dseEmails h)).

Definition userObject (u : User) : jsval :=
  VObj ([("id", VStr (user_id u)); ("email", VStr (email u)); ("name", VStr (user_name u))]
        ++ optional "password" VStr (password u)
        ++ optional "parentId" VStr (parentId u)
        ++ [("role", VStr (UserRole_name (role u)));
            ("organizationId", VStr (organizationId u));
            ("organizationName", VStr (organizationName u));
            ("isApproved", VBool (isApproved u))]
        ++ optional "hierarchy" hierarchyObject (hierarchy u)).

Definition competitorObject (c : string * number) : jsval :=
  VObj [("name", VStr (fst c)); ("share", VNum (snd c))].

Definition customerObject (c : Customer) : jsval :=
  VObj [("id", VStr (cust_id c)); ("createdBy", VStr (createdBy c));
        ("organizationId", VStr (cust_organizationId c)); ("name", VStr (cust_name c));
        ("address", VStr (address c)); ("pinCode", VStr (pinCode c));
        ("contactPerson", VStr (contactPerson c));
        ("contactNumber", VStr (contactNumber c));
        ("businessSector", VStr (businessSector c));
        ("tungaloyShare", VNum (tungaloyShare c));
        ("annualPotential", VNum (annualPotential c));
        ("competitors", VArr (map competitorObject (competitors c)));
        ("fyPlan", VStr (fyPlan c))].

Definition attachmentObject (a : Attachment) : jsval :=
  VObj [("name", VStr (att_name a)); ("data", VStr (att_data a));
        ("type", VStr (AttachmentType_name (att_type a)))].

Definition attachmentArray (l : list Attachment) : jsval := VArr (map attachmentObject l).

Definition planObject (p : AnyPlan) : jsval :=
  VObj (("id", VStr (plan_id p))
        :: optional "attachments" attachmentArray (attachments p) ++ plan_fields p).

Definition dataObject (d : AppData) : jsval :=
  VObj [("organizations", VArr (map organizationObject (organizations d)));
        ("users", VArr (map userObject (users d)));
        ("customers", VArr (map customerObject (customers d)));
        ("plans", VArr (map planObject (plans d)))].

(** Reading. *)
Definition andAlso {A B : Type} (x : option A) (k : A -> option B) : option B :=
  match x with
  | Some a => k a
  | None => None
  end.

Declare Scope read_scope.
Delimit Scope read_scope with read.
Notation "x <<- m ;; k" := (andAlso m (fun x => k))
  (at level 61, m at next level, right associativity) : read_scope.

Definition readString (v : jsval) : option string :=
  match v with
  | VStr s => Some s
  | _ => None
  end.

Definition readBool (v : jsval) : option bool :=
  match v with
  | VBool b => Some b
  | _ => None
  end.

Definition readNumber (v : jsval) : option number :=
  match v with
  | VNum n => Some n
  | _ => None
  end.

Fixpoint readAll {A : Type} (read : jsval -> option A) (items : list jsval)
  : option (list A) :=
  match items with
  | [] => Some []
  | x :: rest =>
      match read x, readAll read rest with
      | Some a, Some l => Some (a :: l)
      | _, _ => None
      end
  end.

Definition readArray {A : Type} (read : jsval -> option A) (v : jsval) : option (list A) :=
  match v with
  | VArr items => readAll read items
  | _ => None
  end.

(** The object has no property beside those named [keys], and none
    twice. *)
Definition onlyKeys (keys : list string) (props : list (string * jsval)) : bool :=
  distinct (map fst props)
  && forallb (fun kv => existsb (String.eqb (fst kv)) keys) props.

(** A property that the type requires, and one that it allows. *)
Definition required {A : Type} (read : jsval -> option A) (key : string)
           (props : list (string * jsval)) : option A :=
  match lookup key props with
  | Some v => read v
  | None => None
  end.

Definition allowed {A : Type} (read : jsval -> option A) (key : string)
           (props : list (string * jsval)) : option (option A) :=
  match lookup key props with
  | None | Some VUndefined => Some None
  | Some v => option_map Some (read v)
  end.

Definition readUserRole (v : jsval) : option UserRole :=
  match v with
  | VStr name =>
      if String.eqb name "SUPER_ADMIN" then Some SUPER_ADMIN
      else if String.eqb name "ORG_ADMIN" then Some ORG_ADMIN
      else if String.eqb name "RSM" then Some RSM
      else if String.eqb name "SALES_ENG" then Some SALES_ENG
      else if String.eqb name "DEALER" then Some DEALER
      else if String.eqb name "DSE" then Some DSE
      else None
  | _ => None
  end.

Definition readAttachmentType (v : jsval) : option AttachmentType :=
  match v with
  | VStr name =>
      if String.eqb name "photo" then Some photo
      else if String.eqb name "document" then Some document
      else None
  | _ => None
  end.

Local Open Scope read_scope.

Definition readOrganization (v : jsval) : option Organization :=
  match v with
  | VObj props =>
      if onlyKeys ["id"; "name"; "adminEmail"; "isApproved"; "createdAt"] props then
        id <<- required readString "id" props ;;
        name <<- required readString "name" props ;;
        mail <<- required readString "adminEmail" props ;;
        approved <<- required readBool "isApproved" props ;;
        created <<- required readString "createdAt" props ;;
        Some {| org_id := id; org_name := name; adminEmail := mail;
                org_isApproved := approved; org_createdAt := created |}
      else None
  | _ => None
  end.

Definition readHierarchy (v : jsval) : option UserHierarchy :=
  match v with
  | VObj props =>
      if onlyKeys ["rsmEmail"; "seEmails"; "dealerEmails"; "dseEmails"] props then
        rsm <<- allowed readString "rsmEmail" props ;;
        se <<- allowed (readArray readString) "seEmails" props ;;
        dealer <<- allowed (readArray readString) "dealerEmails" props ;;
        dse <<- allowed (readArray readString) "dseEmails" props ;;
        Some {| rsmEmail := rsm; seEmails := se; dealerEmails := dealer; dseEmails := dse |}
      else None
  | _ => None
  end.

Definition readUser (v : jsval) : option User :=
  match v with
  | VObj props =>
      if onlyKeys ["id"; "email"; "name"; "password"; "parentId"; "role"; "organizationId"; "organizationName"; "isApproved"; "hierarchy"] props then
        id <<- required readString "id" props ;;
        mail <<- required readString "email" props ;;
        name <<- required readString "name" props ;;
        pw <<- allowed readString "password" props ;;
        parent <<- allowed readString "parentId" props ;;
        r <<- required readUserRole "role" props ;;
        orgId <<- required readString "organizationId" props ;;
        orgName <<- required readString "organizationName" props ;;
        approved <<- required readBool "isApproved" props ;;
        h <<- allowed readHierarchy "hierarchy" props ;;
        Some {| user_id := id; email := mail; user_name := name; password := pw;
                parentId := parent; role := r; organizationId := orgId;
                organizationName := orgName; isApproved := approved; hierarchy := h |}
      else None
  | _ => None
  end.

Definition readCompetitor (v : jsval) : option (string * number) :=
  match v with
  | VObj props =>
      if onlyKeys ["name"; "share"] props then
        name <<- required readString "name" props ;;
        share <<- required readNumber "share" props ;;
        Some (name, share)
      else None
  | _ => None
  end.

Definition readCustomer (v : jsval) : option Customer :=
  match v with
  | VObj props =>
      if onlyKeys ["id"; "createdBy"; "organizationId"; "name"; "address"; "pinCode"; "contactPerson"; "contactNumber"; "businessSector"; "tungaloyShare"; "annualPotential"; "competitors"; "fyPlan"] props then
        id <<- required readString "id" props ;;
        creator <<- required readString "createdBy" props ;;
        orgId <<- required readString "organizationId" props ;;
        name <<- required readString "name" props ;;
        addr <<- required readString "address" props ;;
        pin <<- required readString "pinCode" props ;;
        person <<- required readString "contactPerson" props ;;
        phone <<- required readString "contactNumber" props ;;
        sector <<- required readString "businessSector" props ;;
        share <<- required readNumber "tungaloyShare" props ;;
        potential <<- required readNumber "annualPotential" props ;;
        others <<- required (readArray readCompetitor) "competitors" props ;;
        fy <<- required readString "fyPlan" props ;;
        Some {| cust_id := id; createdBy := creator; cust_organizationId := orgId;
                cust_name := name; address := addr; pinCode := pin;
                contactPerson := person; contactNumber := phone;
                businessSector := sector; tungaloyShare := share;
                annualPotential := potential; competitors := others; fyPlan := fy |}
      else None
  | _ => None
  end.

Definition readAttachment (v : jsval) : option Attachment :=
  match v with
  | VObj props =>
      if onlyKeys ["name"; "data"; "type"] props then
        name <<- required readString "name" props ;;
        payload <<- required readString "data" props ;;
        kind <<- required readAttachmentType "type" props ;;
        Some {| att_name := name; att_data := payload; att_type := kind |}
      else None
  | _ => None
  end.

(** The properties of a plan other than [id] and [attachments]. *)
Definition otherFields (props : list (string * jsval)) : list (string * jsval) :=
  filter (fun kv => negb (String.eqb (fst kv) "id" || String.eqb (fst kv) "attachments"))
         props.

Definition readPlan (v : jsval) : option AnyPlan :=
  match v with
  | VObj props =>
      id <<- required readString "id" props ;;
      atts <<- allowed (readArray readAttachment) "attachments" props ;;
      Some {| plan_id := id; attachments := atts; plan_fields := otherFields props |}
  | _ => None
  end.

Definition readAppData (v : jsval) : option AppData :=
  match v with
  | VObj props =>
      if onlyKeys ["organizations"; "users"; "customers"; "plans"] props then
        orgs <<- required (readArray readOrganization) "organizations" props ;;
        usrs <<- required (readArray readUser) "users" props ;;
        custs <<- required (readArray readCustomer) "customers" props ;;
        pls <<- required (readArray readPlan) "plans" props ;;
        Some {| organizations := orgs; users := usrs; customers := custs; plans := pls |}
      else None
  | _ => None
  end.

Local Close Scope read_scope.

(* ===================================================================== *)
(** ** Effects: completions, events, the environment *)
(* ===================================================================== *)

(** How a call ends: it returns, or it throws (a rejected promise). *)
Inductive completion (A : Type) : Type :=
| Normal (a : A)
| Throw (message : string).
Arguments Normal {A} a.
Arguments Throw {A} message.

(** The four collections of the remote document store. *)
Inductive collection : Type :=
| c_organizations | c_users | c_customers | c_plans.

(** What a method does that is visible outside it.  [ok] records how the
    collaborator answered. *)
Inductive event : Type :=
| EvGetDocs (c : collection) (ok : bool)            (* getDocs(collection(..)) *)
| EvSetDoc (c : collection) (id : string) (ok : bool)   (* setDoc(doc(..), rec) *)
| EvUpdateDoc (c : collection) (id : string) (ok : bool) (* updateDoc(doc(..), upd) *)
| EvUploadString (name : string) (ok : bool)        (* uploadString(ref, data) *)
| EvGetDownloadURL (name : string) (ok : bool)      (* getDownloadURL(ref) *)
| EvLocal (c : collection)        (* a write method or a listener writes this.data.<c> *)
| EvSetItem (ok : bool)                             (* localStorage.setItem *)
| EvOnSnapshot (c : collection) (ok : bool)         (* onSnapshot(collection(..), f) *)
| EvCallback (cb : nat)                             (* a subscriber is invoked *)
| EvSendMail (raw : string) (ok : bool)             (* gmail.users.messages.send *)
| EvListMessages (ok : bool)                        (* gmail.users.messages.list *)
| EvGetMessage (id : string) (ok : bool).           (* gmail.users.messages.get *)

(** The environment: the answer to the [n]-th external call.  [None] is a
    rejection (or a thrown exception); the payload of [Some] is the value
    the call resolves to, where it has one that matters (a download URL). *)
Record Env : Type := mkEnv {
  answer : nat -> option string;
  cloud : AppData              (* what a bulk read of the store resolves to,
                                  documents already passed through sanitizeDoc *)
}.

Section Effects.
Variable S : Type.

Record Result (A : Type) : Type := mkResult {
  outcome : completion A;
  final : S;
  emitted : list event
}.

Definition M (A : Type) : Type := S -> Result A.

Definition ret {A : Type} (a : A) : M A :=
  fun s => {| outcome := Normal a; final := s; emitted := [] |}.

Definition throw {A : Type} (message : string) : M A :=
  fun s => {| outcome := Throw message; final := s; emitted := [] |}.

Definition bind {A B : Type} (m : M A) (f : A -> M B) : M B :=
  fun s =>
    let r := m s in
    match outcome r with
    | Normal a =>
        let r' := f a (final r) in
        {| outcome := outcome r'; final := final r';
           emitted := emitted r ++ emitted r' |}
    | Throw e => {| outcome := Throw e; final := final r; emitted := emitted r |}
    end.

(** [try { body } catch (e) { handler }] *)
Definition try_catch {A : Type} (body : M A) (handler : string -> M A) : M A :=
  fun s =>
    let r := body s in
    match outcome r with
    | Normal a => r
    | Throw e =>
        let r' := handler e (final r) in
        {| outcome := outcome r'; final := final r';
           emitted := emitted r ++ emitted r' |}
    end.

(** [try { body } finally { cleanup }] *)
Definition try_finally {A : Type} (body : M A) (cleanup : M unit) : M A :=
  fun s =>
    let r := body s in
    let r' := cleanup (final r) in
    match outcome r' with
    | Normal _ =>
        {| outcome := outcome r; final := final r';
           emitted := emitted r ++ emitted r' |}
    | Throw e =>
        {| outcome := Throw e; final := final r';
           emitted := emitted r ++ emitted r' |}
    end.

Definition get : M S :=
  fun s => {| outcome := Normal s; final := s; emitted := [] |}.

Definition put (s' : S) : M unit :=
  fun _ => {| outcome := Normal tt; final := s'; emitted := [] |}.

Definition modify (f : S -> S) : M unit :=
  fun s => {| outcome := Normal tt; final := f s; emitted := [] |}.

Definition emit (e : event) : M unit :=
  fun s => {| outcome := Normal tt; final := s; emitted := [e] |}.

Definition when (b : bool) (m : M unit) : M unit :=
  if b then m else ret tt.
End Effects.

Arguments ret {S A} a.
Arguments throw {S A} message.
Arguments get {S}.
Arguments put {S} s'.
Arguments modify {S} f.
Arguments emit {S} e.

Declare Scope eff_scope.
Delimit Scope eff_scope with eff.
Notation "x <- m ;; k" := (bind m (fun x => k))
  (at level 61, m at next level, right associativity) : eff_scope.
Notation "m ;; k" := (bind m (fun _ => k))
  (at level 61, right associativity) : eff_scope.
Local Open Scope eff_scope.

(** The same for code during which the state changes its type: it starts
    on a state [S] and ends on a state [T].  [inj] is what a state [S] is
    as a state [T]. *)
Definition entering {S T A : Type} (inj : S -> T) (m : M S A) : S -> Result T A :=
  fun s =>
    let r := m s in
    {| outcome := outcome r; final := inj (final r); emitted := emitted r |}.

Definition bind_from {S T A B : Type} (m : S -> Result T A) (f : A -> M T B)
  : S -> Result T B :=
  fun s =>
    let r := m s in
    match outcome r with
    | Normal a =>
        let r' := f a (final r) in
        {| outcome := outcome r'; final := final r';
           emitted := emitted r ++ emitted r' |}
    | Throw e => {| outcome := Throw e; final := final r; emitted := emitted r |}
    end.

Definition try_catch_into {S T A : Type} (inj : S -> T) (body : M S A)
           (handler : string -> S -> Result T A) : S -> Result T A :=
  fun s =>
    let r := body s in
    match outcome r with
    | Normal a => {| outcome := Normal a; final := inj (final r); emitted := emitted r |}
    | Throw e =>
        let r' := handler e (final r) in
        {| outcome := outcome r'; final := final r';
           emitted := emitted r ++ emitted r' |}
    end.

Definition try_finally_from {S T A : Type} (body : S -> Result T A) (cleanup : M T unit)
  : S -> Result T A :=
  fun s =>
    let r := body s in
    let r' := cleanup (final r) in
    match outcome r' with
    | Normal _ =>
        {| outcome := outcome r; final := final r';
           emitted := emitted r ++ emitted r' |}
    | Throw e =>
        {| outcome := Throw e; final := final r';
           emitted := emitted r ++ emitted r' |}
    end.

(** A request of a caller: one of the seven write methods of a
    [DatabaseService], with its arguments. *)
Inductive write : Type :=
| AddOrganization (org : Organization)
| UpdateOrganization (id : string) (updates : PartialOrganization)
| AddUser (u : User)
| UpdateUser (userId : string) (updates : PartialUser)
| AddCustomer (customer : Customer)
| AddPlan (plan : AnyPlan)
| UpdatePlan (planId : string) (updates : PartialPlan).

(** The collection a write is about. *)
Definition target (w : write) : collection :=
  match w with
  | AddOrganization _ | UpdateOrganization _ _ => c_organizations
  | AddUser _ | UpdateUser _ _ => c_users
  | AddCustomer _ => c_customers
  | AddPlan _ | UpdatePlan _ _ => c_plans
  end.

(** Reading the events of a run. *)
Definition commit_of (e : event) : option bool :=
  match e with
  | EvSetDoc _ _ ok | EvUpdateDoc _ _ ok => Some ok
  | _ => None
  end.

Definition is_failed_commit (e : event) : bool :=
  match commit_of e with
  | Some false => true
  | _ => false
  end.

Definition is_failed_upload (e : event) : bool :=
  match e with
  | EvUploadString _ false | EvGetDownloadURL _ false => true
  | _ => false
  end.

(** A call that reaches the remote side: document store or blob storage. *)
Definition is_remote (e : event) : bool :=
  match e with
  | EvGetDocs _ _ | EvSetDoc _ _ _ | EvUpdateDoc _ _ _
  | EvUploadString _ _ | EvGetDownloadURL _ _ | EvOnSnapshot _ _ => true
  | _ => false
  end.

Definition is_save (e : event) : bool :=
  match e with
  | EvSetItem _ => true
  | _ => false
  end.

Definition is_local (e : event) : bool :=
  match e with
  | EvLocal _ => true
  | _ => false
  end.

(** Every write of a local collection comes after a remote commit that
    succeeded ([committed]: one has been seen already). *)
Fixpoint commit_first (committed : bool) (evs : list event) : bool :=
  match evs with
  | [] => true
  | e :: rest =>
      match e with
      | EvLocal _ => committed && commit_first committed rest
      | _ =>
          match commit_of e with
          | Some ok => commit_first (committed || ok) rest
          | None => commit_first committed rest
          end
      end
  end.

(** Every remote commit is attempted after a write of a local collection
    ([written]: one has been seen already). *)
Fixpoint local_first (written : bool) (evs : list event) : bool :=
  match evs with
  | [] => true
  | e :: rest =>
      match e with
      | EvLocal _ => local_first true rest
      | _ =>
          match commit_of e with
          | Some _ => written && local_first written rest
          | None => local_first written rest
          end
      end
  end.

(** [a.data.startsWith('http')]: the attachment is a remote URL already. *)
Definition is_url (a : Attachment) : bool := String.prefix "http" (att_data a).

(* ===================================================================== *)
(** ** src/services/mockDb.ts: the service with a local fallback *)
(* ===================================================================== *)

Module MockDb.

(** The item [sales_tracker_offline_data] of the browser storage, a text,
    by what [JSON.parse] makes of it: it throws, or it returns a value.  (An
    empty text is falsy, and [loadFromLocal] does with it what it does with
    a text that [JSON.parse] rejects.) *)
Inductive stored : Type :=
| Corrupt (text : string)
| Parsed (v : jsval).

(** The text that [JSON.stringify] writes for the collections [d]. *)
Definition Snapshot (d : AppData) : stored := Parsed (reparsed (dataObject d)).

(** The fields of the class, then its surroundings: the browser storage
    and the number of external calls made so far. *)
Record DatabaseService : Type := mkService {
  data : AppData;
  initialized : bool;
  isOffline : bool;
  localStorage : option stored;
  calls : nat
}.

(** [new DatabaseService()] in a browser whose storage holds [saved]. *)
Definition create (saved : option stored) : DatabaseService :=
  {| data := INITIAL_DATA; initialized := false; isOffline := false;
     localStorage := saved; calls := 0 |}.

Definition set_data (d : AppData) (s : DatabaseService) : DatabaseService :=
  {| data := d; initialized := initialized s; isOffline := isOffline s;
     localStorage := localStorage s; calls := calls s |}.
Definition set_initialized (b : bool) (s : DatabaseService) : DatabaseService :=
  {| data := data s; initialized := b; isOffline := isOffline s;
     localStorage := localStorage s; calls := calls s |}.
Definition set_isOffline (b : bool) (s : DatabaseService) : DatabaseService :=
  {| data := data s; initialized := initialized s; isOffline := b;
     localStorage := localStorage s; calls := calls s |}.
Definition set_localStorage (v : option stored) (s : DatabaseService) : DatabaseService :=
  {| data := data s; initialized := initialized s; isOffline := isOffline s;
     localStorage := v; calls := calls s |}.
(** One more external call has been made. *)
Definition tick (s : DatabaseService) : DatabaseService :=
  {| data := data s; initialized := initialized s; isOffline := isOffline s;
     localStorage := localStorage s; calls := S (calls s) |}.

Definition Eff := M DatabaseService.

(** [this.data] is declared an [AppData], but [loadFromLocal] assigns to it
    what [JSON.parse] returns.  [Sound s]: [this.data] is the [AppData]
    [data s].  [Astray v s]: [this.data] is the value [v], which is not the
    object of an [AppData] (a property is missing or has a value of another
    type, or there is a property that the types do not have); the other
    fields of the class and the surroundings are those of [s] (the [data] of
    [s] is the object that [v] replaced). *)
Inductive Loaded : Type :=
| Sound (s : DatabaseService)
| Astray (v : jsval) (s : DatabaseService).

Definition service (l : Loaded) : DatabaseService :=
  match l with
  | Sound s => s
  | Astray _ s => s
  end.

(** An assignment to a field other than [this.data]. *)
Definition onFields (f : DatabaseService -> DatabaseService) (l : Loaded) : Loaded :=
  match l with
  | Sound s => Sound (f s)
  | Astray v s => Astray v (f s)
  end.

Section Service.
Variable env : Env.
(** The entries of [firebaseConfig]. *)
Variable firebaseConfig : list (string * string).

(** One awaited call to a collaborator: it resolves or rejects as the
    environment says. *)
Definition await (call : bool -> event) : Eff string :=
  fun s =>
    match answer env (calls s) with
    | Some v => {| outcome := Normal v; final := tick s; emitted := [call true] |}
    | None => {| outcome := Throw "rejected"; final := tick s; emitted := [call false] |}
    end.

(** [Promise.all] over bulk reads: every read is issued, the whole
    rejects when one of them does. *)
Fixpoint awaitAll (cs : list collection) : Eff bool :=
  match cs with
  | [] => ret true
  | c :: rest =>
      fun s =>
        let ok := match answer env (calls s) with Some _ => true | None => false end in
        let r := awaitAll rest (tick s) in
        {| outcome := match outcome r with
                      | Normal b => Normal (ok && b)
                      | Throw e => Throw e
                      end;
           final := final r;
           emitted := EvGetDocs c ok :: emitted r |}
  end.

Definition saveToLocal : Eff unit :=
  s <- get ;;
  when (isOffline s)
    (try_catch
       (fun s =>
          match answer env (calls s) with
          | Some _ =>
              {| outcome := Normal tt;
                 final := set_localStorage (Some (Snapshot (data s))) (tick s);
                 emitted := [EvSetItem true] |}
          | None =>
              {| outcome := Throw "QuotaExceededError"; final := tick s;
                 emitted := [EvSetItem false] |}
          end)
       (fun _ => ret tt)).

Definition seedOfflineData : Eff unit :=
  modify (set_data {| organizations := []; customers := []; plans := []; users := [] |}) ;;
  saveToLocal.

(** [loadFromLocal].  [this.data = JSON.parse(saved)] is the place where
    [this.data] may stop being an [AppData]. *)
Definition loadFromLocal : DatabaseService -> Result Loaded unit :=
  fun s =>
    match localStorage s with
    | Some (Parsed v) =>
        {| outcome := Normal tt;
           final := match readAppData v with
                    | Some d => Sound (set_data d s)
                    | None => Astray v s
                    end;
           emitted := [] |}
    | Some (Corrupt _) => entering Sound seedOfflineData s
    | None => entering Sound seedOfflineData s
    end.

Definition superEmail : string := "keerthithiruvarasan@gmail.com".
Definition altEmail : string := "keerthithiruvarsan@gmail.com".

Definition bootstrapAdmin : User :=
  {| user_id := "super_admin_session";
     user_name := "Keerthi (Super Admin)";
     email := superEmail;
     password := Some "123456789@Asdf";
     parentId := None;
     role := SUPER_ADMIN;
     organizationId := "system_global";
     organizationName := "System";
     isApproved := true;
     hierarchy := None |}.

Definition isSuperAdminAccount (u : User) : bool :=
  (String.eqb (email u) superEmail || String.eqb (email u) altEmail)
  && UserRole_eqb (role u) SUPER_ADMIN.

Definition ensureSuperAdmin : Eff unit :=
  s <- get ;;
  match array_find isSuperAdminAccount (users (data s)) with
  | Some _ => ret tt
  | None =>
      modify (fun s => set_data (set_users (data s) (push (users (data s)) bootstrapAdmin)) s)
  end.

(** The object that [ensureSuperAdmin] pushes. *)
Definition bootstrapAdminObject : jsval :=
  VObj [("id", VStr "super_admin_session");
        ("name", VStr "Keerthi (Super Admin)");
        ("email", VStr superEmail);
        ("password", VStr "123456789@Asdf");
        ("role", VStr "SUPER_ADMIN");
        ("organizationId", VStr "system_global");
        ("organizationName", VStr "System");
        ("isApproved", VBool true)].

(** The callback of [find] on an element that is any value: reading a
    property of [null] throws, a value that is no object has neither
    property. *)
Definition isSuperAdminValue (u : jsval) : completion bool :=
  match u with
  | VUndefined | VNull => Throw "TypeError"
  | VObj props =>
      Normal (match lookup "email" props with
              | Some (VStr e) => String.eqb e superEmail || String.eqb e altEmail
              | _ => false
              end
              && match lookup "role" props with
                 | Some (VStr r) => String.eqb r "SUPER_ADMIN"
                 | _ => false
                 end)
  | _ => Normal false
  end.

Fixpoint findSuperAdminValue (us : list jsval) : completion (option jsval) :=
  match us with
  | [] => Normal None
  | u :: rest =>
      match isSuperAdminValue u with
      | Throw e => Throw e
      | Normal true => Normal (Some u)
      | Normal false => findSuperAdminValue rest
      end
  end.

(** [ensureSuperAdmin] when [this.data] is the value [v]: the value that
    [this.data] is afterwards.  [this.data.users.find] throws unless [v] is
    an object whose [users] is an array. *)
Definition ensureSuperAdminOn (v : jsval) : completion jsval :=
  match v with
  | VObj props =>
      match lookup "users" props with
      | Some (VArr us) =>
          match findSuperAdminValue us with
          | Throw e => Throw e
          | Normal (Some _) => Normal v
          | Normal None =>
              Normal (VObj (assign "users" (VArr (push us bootstrapAdminObject)) props))
          end
      | _ => Throw "TypeError"
      end
  | _ => Throw "TypeError"
  end.

(** [ensureSuperAdmin], whatever [this.data] is. *)
Definition ensureSuperAdminLoaded : M Loaded unit :=
  fun l =>
    match l with
    | Sound s => entering Sound ensureSuperAdmin s
    | Astray v s =>
        match ensureSuperAdminOn v with
        | Normal v' => {| outcome := Normal tt; final := Astray v' s; emitted := [] |}
        | Throw e => {| outcome := Throw e; final := l; emitted := [] |}
        end
    end.

Definition init : DatabaseService -> Result Loaded unit :=
  fun s =>
    if initialized s then entering Sound (ret tt) s
    else if Nat.eqb (List.length firebaseConfig) 0 then
      bind_from (fun s => loadFromLocal (set_isOffline true s))
        (fun _ =>
           modify (onFields (set_initialized true)) ;;
           ensureSuperAdminLoaded) s
    else
      try_finally_from
        (try_catch_into Sound
           (ok <- awaitAll [c_organizations; c_users; c_customers; c_plans] ;;
            if ok then
              modify (fun s => set_data (set_organizations (data s) (organizations (cloud env))) s) ;;
              modify (fun s => set_data (set_users (data s) (users (cloud env))) s) ;;
              modify (fun s => set_data (set_customers (data s) (customers (cloud env))) s) ;;
              modify (fun s => set_data (set_plans (data s) (plans (cloud env))) s) ;;
              modify (set_isOffline false)
            else throw "rejected")
           (fun _ s => loadFromLocal (set_isOffline true s)))
        (modify (onFields (set_initialized true)) ;;
         ensureSuperAdminLoaded)
        s.

Definition isOfflineMode : Eff bool :=
  s <- get ;; ret (isOffline s).

(** The loop of [uploadAttachments]. *)
Fixpoint uploadEach (files uploaded : list Attachment) : Eff (list Attachment) :=
  match files with
  | [] => ret uploaded
  | file :: rest =>
      if is_url file then
        uploadEach rest (push uploaded file)
      else
        uploaded' <-
          try_catch
            (_ <- await (EvUploadString (att_name file)) ;;
             url <- await (EvGetDownloadURL (att_name file)) ;;
             ret (push uploaded
                    {| att_name := att_name file; att_data := url;
                       att_type := att_type file |}))
            (fun _ => ret (push uploaded file)) ;;
        uploadEach rest uploaded'
  end.

Definition uploadAttachments (atts : option (list Attachment)) : Eff (list Attachment) :=
  match atts with
  | None => ret []
  | Some [] => ret []
  | Some files =>
      s <- get ;;
      if isOffline s then ret files else uploadEach files []
  end.

(** READ METHODS *)
Definition getOrganizations (s : DatabaseService) := organizations (data s).
Definition getUsers (s : DatabaseService) := users (data s).
Definition getCustomers (s : DatabaseService) := customers (data s).
Definition getPlans (s : DatabaseService) := plans (data s).

(** WRITE METHODS.  Each of them ends with the same statement,
    [if (this.isOffline) saveToLocal() else try { await <remote> }
     catch { this.isOffline = true; saveToLocal() }]. *)
Definition thenCommit (remote : Eff string) : Eff unit :=
  s <- get ;;
  if isOffline s then saveToLocal
  else
    try_catch (_ <- remote ;; ret tt)
              (fun _ => modify (set_isOffline true) ;; saveToLocal).

Definition writeLocal (c : collection) (f : AppData -> AppData) : Eff unit :=
  modify (fun s => set_data (f (data s)) s) ;; emit (EvLocal c).

Definition addOrganization (org : Organization) : Eff unit :=
  writeLocal c_organizations (fun d => set_organizations d (push (organizations d) org)) ;;
  thenCommit (await (EvSetDoc c_organizations (org_id org))).

Definition updateOrganization (id : string) (updates : PartialOrganization) : Eff unit :=
  writeLocal c_organizations
    (fun d => set_organizations d
       (map (fun o => if String.eqb (org_id o) id then spreadOrganization o updates else o)
            (organizations d))) ;;
  thenCommit (await (EvUpdateDoc c_organizations id)).

Definition addUser (user : User) : Eff unit :=
  writeLocal c_users (fun d => set_users d (push (users d) user)) ;;
  thenCommit (await (EvSetDoc c_users (user_id user))).

Definition updateUser (userId : string) (updates : PartialUser) : Eff unit :=
  writeLocal c_users
    (fun d => set_users d
       (map (fun u => if String.eqb (user_id u) userId then spreadUser u updates else u)
            (users d))) ;;
  thenCommit (await (EvUpdateDoc c_users userId)).

Definition addCustomer (customer : Customer) : Eff unit :=
  writeLocal c_customers (fun d => set_customers d (push (customers d) customer)) ;;
  thenCommit (await (EvSetDoc c_customers (cust_id customer))).

Definition addPlan (plan : AnyPlan) : Eff unit :=
  processedAttachments <- uploadAttachments (attachments plan) ;;
  let planToSave :=
    {| plan_id := plan_id plan; attachments := Some processedAttachments;
       plan_fields := plan_fields plan |} in
  writeLocal c_plans (fun d => set_plans d (push (plans d) planToSave)) ;;
  thenCommit (await (EvSetDoc c_plans (plan_id plan))).

Definition updatePlan (planId : string) (updates : PartialPlan) : Eff unit :=
  updates' <-
    match pp_attachments updates with
    | Some (Some atts) =>
        processed <- uploadAttachments (Some atts) ;;
        ret {| pp_id := pp_id updates; pp_attachments := Some (Some processed);
               pp_fields := pp_fields updates |}
    | _ => ret updates
    end ;;
  writeLocal c_plans
    (fun d => set_plans d
       (map (fun p => if String.eqb (plan_id p) planId then spreadPlan p updates' else p)
            (plans d))) ;;
  thenCommit (await (EvUpdateDoc c_plans planId)).
(** Dispatch of a request to its method. *)
Definition perform (w : write) : Eff unit :=
  match w with
  | AddOrganization org => addOrganization org
  | UpdateOrganization id updates => updateOrganization id updates
  | AddUser u => addUser u
  | UpdateUser userId updates => updateUser userId updates
  | AddCustomer customer => addCustomer customer
  | AddPlan plan => addPlan plan
  | UpdatePlan planId updates => updatePlan planId updates
  end.

(** Requests served one after the other; a request that throws does not
    stop the session. *)
Fixpoint performAll (ws : list write) : Eff unit :=
  match ws with
  | [] => ret tt
  | w :: rest => try_catch (perform w) (fun _ => ret tt) ;; performAll rest
  end.
End Service.

End MockDb.

(* ===================================================================== *)
(** ** The online-only [DatabaseService] (with [subscribe]) *)
(* ===================================================================== *)

Module OnlineDb.

(** A subscriber is a function object, compared by identity ([cb !==
    callback]): it is named by a number.  What a subscriber does when it is
    invoked is given by [reaction]: it may register and deregister
    subscribers. *)
Inductive reaction : Type :=
| Subscribe (cb : nat)         (* db.subscribe(cb) *)
| Unsubscribe (cb : nat).      (* the handle that subscribe(cb) returned *)

Record DatabaseService : Type := mkService {
  data : AppData;
  initialized : bool;
  isOnline : bool;
  listeners : list collection;     (* the unsubscribe functions of onSnapshot *)
  subscribers : list nat;
  calls : nat
}.

Definition create : DatabaseService :=
  {| data := INITIAL_DATA; initialized := false; isOnline := false;
     listeners := []; subscribers := []; calls := 0 |}.

Definition set_data (d : AppData) (s : DatabaseService) : DatabaseService :=
  {| data := d; initialized := initialized s; isOnline := isOnline s;
     listeners := listeners s; subscribers := subscribers s; calls := calls s |}.
Definition set_initialized (b : bool) (s : DatabaseService) : DatabaseService :=
  {| data := data s; initialized := b; isOnline := isOnline s;
     listeners := listeners s; subscribers := subscribers s; calls := calls s |}.
Definition set_isOnline (b : bool) (s : DatabaseService) : DatabaseService :=
  {| data := data s; initialized := initialized s; isOnline := b;
     listeners := listeners s; subscribers := subscribers s; calls := calls s |}.
Definition set_listeners (l : list collection) (s : DatabaseService) : DatabaseService :=
  {| data := data s; initialized := initialized s; isOnline := isOnline s;
     listeners := l; subscribers := subscribers s; calls := calls s |}.
Definition set_subscribers (l : list nat) (s : DatabaseService) : DatabaseService :=
  {| data := data s; initialized := initialized s; isOnline := isOnline s;
     listeners := listeners s; subscribers := l; calls := calls s |}.
(** One more external call has been made. *)
Definition tick (s : DatabaseService) : DatabaseService :=
  {| data := data s; initialized := initialized s; isOnline := isOnline s;
     listeners := listeners s; subscribers := subscribers s; calls := S (calls s) |}.

Definition Eff := M DatabaseService.

(** A full snapshot of one collection, as a listener receives it. *)
Inductive snapshot : Type :=
| SnapOrganizations (docs : list Organization)
| SnapUsers (docs : list User)
| SnapCustomers (docs : list Customer)
| SnapPlans (docs : list AnyPlan).

Section Service.
Variable env : Env.
Variable firebaseConfig : list (string * string).
Variable reactions : nat -> list reaction.

Definition await (call : bool -> event) : Eff string :=
  fun s =>
    match answer env (calls s) with
    | Some v => {| outcome := Normal v; final := tick s; emitted := [call true] |}
    | None => {| outcome := Throw "rejected"; final := tick s; emitted := [call false] |}
    end.

(** [subscribe]: the callback is pushed; the value returned is the
    closure that filters it out again, named here by the callback. *)
Definition subscribe (callback : nat) : Eff nat :=
  modify (fun s => set_subscribers (push (subscribers s) callback) s) ;;
  ret callback.

(** Invoking the function that [subscribe callback] returned. *)
Definition unsubscribe (callback : nat) : Eff unit :=
  modify (fun s =>
    set_subscribers (filter (fun cb => negb (Nat.eqb cb callback)) (subscribers s)) s).

Definition react (r : reaction) : Eff unit :=
  match r with
  | Subscribe cb => _ <- subscribe cb ;; ret tt
  | Unsubscribe cb => unsubscribe cb
  end.

Fixpoint forEach {A : Type} (f : A -> Eff unit) (l : list A) : Eff unit :=
  match l with
  | [] => ret tt
  | x :: rest => f x ;; forEach f rest
  end.

(** [cb()] *)
Definition invoke (cb : nat) : Eff unit :=
  emit (EvCallback cb) ;; forEach react (reactions cb).

(** [this.subscribers.forEach(cb => cb())]: the elements visited are
    those of the array when the loop starts. *)
Definition notifySubscribers : Eff unit :=
  s <- get ;; forEach invoke (subscribers s).

Definition writeLocal (c : collection) (f : AppData -> AppData) : Eff unit :=
  modify (fun s => set_data (f (data s)) s) ;; emit (EvLocal c).

(** The body of the four [onSnapshot] listeners. *)
Definition onSnapshotDelivered (snap : snapshot) : Eff unit :=
  match snap with
  | SnapOrganizations docs =>
      writeLocal c_organizations (fun d => set_organizations d docs)
  | SnapUsers docs => writeLocal c_users (fun d => set_users d docs)
  | SnapCustomers docs => writeLocal c_customers (fun d => set_customers d docs)
  | SnapPlans docs => writeLocal c_plans (fun d => set_plans d docs)
  end ;;
  notifySubscribers.

Definition init : Eff unit :=
  s <- get ;;
  if initialized s then ret tt
  else if Nat.eqb (List.length firebaseConfig) 0 then
    modify (set_isOnline false) ;;
    throw "Missing Firebase Configuration. App cannot start in online mode."
  else
    try_catch
      (modify (set_isOnline true) ;;
       _ <- await (EvOnSnapshot c_organizations) ;;
       _ <- await (EvOnSnapshot c_users) ;;
       _ <- await (EvOnSnapshot c_customers) ;;
       _ <- await (EvOnSnapshot c_plans) ;;
       modify (fun s => set_listeners
                 (listeners s ++ [c_organizations; c_users; c_customers; c_plans]) s) ;;
       modify (set_initialized true))
      (fun _ =>
         modify (set_isOnline false) ;;
         throw "Failed to connect to backend server. Please check internet connection.").

Fixpoint uploadEach (files uploaded : list Attachment) : Eff (list Attachment) :=
  match files with
  | [] => ret uploaded
  | file :: rest =>
      if is_url file then
        uploadEach rest (push uploaded file)
      else
        uploaded' <-
          try_catch
            (_ <- await (EvUploadString (att_name file)) ;;
             url <- await (EvGetDownloadURL (att_name file)) ;;
             ret (push uploaded
                    {| att_name := att_name file; att_data := url;
                       att_type := att_type file |}))
            (fun e => throw e) ;;
        uploadEach rest uploaded'
  end.

Definition uploadAttachments (atts : option (list Attachment)) : Eff (list Attachment) :=
  match atts with
  | None => ret []
  | Some [] => ret []
  | Some files =>
      s <- get ;;
      if negb (isOnline s) then throw "Cannot upload files while offline"
      else uploadEach files []
  end.

(** READ METHODS *)
Definition getOrganizations (s : DatabaseService) := organizations (data s).
Definition getUsers (s : DatabaseService) := users (data s).
Definition getCustomers (s : DatabaseService) := customers (data s).
Definition getPlans (s : DatabaseService) := plans (data s).

(** WRITE METHODS *)
Definition addOrganization (org : Organization) : Eff unit :=
  _ <- await (EvSetDoc c_organizations (org_id org)) ;;
  writeLocal c_organizations (fun d => set_organizations d (push (organizations d) org)).

Definition updateOrganization (id : string) (updates : PartialOrganization) : Eff unit :=
  _ <- await (EvUpdateDoc c_organizations id) ;;
  writeLocal c_organizations
    (fun d => set_organizations d
       (map (fun o => if String.eqb (org_id o) id then spreadOrganization o updates else o)
            (organizations d))).

Definition addUser (user : User) : Eff unit :=
  _ <- await (EvSetDoc c_users (user_id user)) ;;
  writeLocal c_users (fun d => set_users d (push (users d) user)).

Definition updateUser (userId : string) (updates : PartialUser) : Eff unit :=
  _ <- await (EvUpdateDoc c_users userId) ;;
  writeLocal c_users
    (fun d => set_users d
       (map (fun u => if String.eqb (user_id u) userId then spreadUser u updates else u)
            (users d))).

Definition addCustomer (customer : Customer) : Eff unit :=
  _ <- await (EvSetDoc c_customers (cust_id customer)) ;;
  writeLocal c_customers (fun d => set_customers d (push (customers d) customer)).

Definition addPlan (plan : AnyPlan) : Eff unit :=
  processedAttachments <- uploadAttachments (attachments plan) ;;
  let planToSave :=
    {| plan_id := plan_id plan; attachments := Some processedAttachments;
       plan_fields := plan_fields plan |} in
  _ <- await (EvSetDoc c_plans (plan_id plan)) ;;
  writeLocal c_plans (fun d => set_plans d (push (plans d) planToSave)).

Definition updatePlan (planId : string) (updates : PartialPlan) : Eff unit :=
  updates' <-
    match pp_attachments updates with
    | Some (Some atts) =>
        processed <- uploadAttachments (Some atts) ;;
        ret {| pp_id := pp_id updates; pp_attachments := Some (Some processed);
               pp_fields := pp_fields updates |}
    | _ => ret updates
    end ;;
  _ <- await (EvUpdateDoc c_plans planId) ;;
  writeLocal c_plans
    (fun d => set_plans d
       (map (fun p => if String.eqb (plan_id p) planId then spreadPlan p updates' else p)
            (plans d))).
(** Dispatch of a request to its method. *)
Definition perform (w : write) : Eff unit :=
  match w with
  | AddOrganization org => addOrganization org
  | UpdateOrganization id updates => updateOrganization id updates
  | AddUser u => addUser u
  | UpdateUser userId updates => updateUser userId updates
  | AddCustomer customer => addCustomer customer
  | AddPlan plan => addPlan plan
  | UpdatePlan planId updates => updatePlan planId updates
  end.

(** Requests served one after the other; a request that throws does not
    stop the session. *)
Fixpoint performAll (ws : list write) : Eff unit :=
  match ws with
  | [] => ret tt
  | w :: rest => try_catch (perform w) (fun _ => ret tt) ;; performAll rest
  end.

(** What happens to the service during a session: the store delivers a
    snapshot to a listener, a caller issues a write, an observer is
    registered, a deregistration handle is invoked. *)
Inductive activity : Type :=
| Deliver (snap : snapshot)
| Request (w : write)
| Register (cb : nat)
| Deregister (cb : nat).

Definition act (a : activity) : Eff unit :=
  match a with
  | Deliver snap => onSnapshotDelivered snap
  | Request w => try_catch (perform w) (fun _ => ret tt)
  | Register cb => _ <- subscribe cb ;; ret tt
  | Deregister cb => unsubscribe cb
  end.

Fixpoint session (acts : list activity) : Eff unit :=
  match acts with
  | [] => ret tt
  | a :: rest => act a ;; session rest
  end.
End Service.

End OnlineDb.

(* ===================================================================== *)
(** ** Strings of the standard library of JavaScript *)
(* ===================================================================== *)

(** A string is the sequence of the bytes of its UTF-8 form.

    [trim] strips the white space and the line terminators of ECMAScript:
    U+0009 to U+000D and U+0020 (one byte each), U+00A0 (two bytes), and
    U+1680, U+2000 to U+200A, U+2028, U+2029, U+202F, U+205F, U+3000 and
    U+FEFF (three bytes each). *)
Definition byte (n : nat) (c : ascii) : bool := Nat.eqb (nat_of_ascii c) n.

Definition space1 (c : ascii) : bool :=
  byte 32 c || byte 9 c || byte 10 c || byte 11 c || byte 12 c || byte 13 c.

Definition space2 (c1 c2 : ascii) : bool :=
  byte 194 c1 && byte 160 c2.                                  (* U+00A0 *)

Definition space3 (c1 c2 c3 : ascii) : bool :=
  (byte 225 c1 && (byte 154 c2 && byte 128 c3))                (* U+1680 *)
  || (byte 226 c1 &&
      ((byte 128 c2 &&
        (byte 128 c3 || byte 129 c3 || byte 130 c3 || byte 131 c3    (* U+2000.. *)
         || byte 132 c3 || byte 133 c3 || byte 134 c3 || byte 135 c3
         || byte 136 c3 || byte 137 c3 || byte 138 c3                (* ..U+200A *)
         || byte 168 c3 || byte 169 c3                               (* U+2028, U+2029 *)
         || byte 175 c3))                                            (* U+202F *)
       || (byte 129 c2 && byte 159 c3)))                             (* U+205F *)
  || (byte 227 c1 && (byte 128 c2 && byte 128 c3))             (* U+3000 *)
  || (byte 239 c1 && (byte 187 c2 && byte 191 c3)).            (* U+FEFF *)

(** The string without the white space at its start; [two] and [three]
    recognize the characters of two and of three bytes. *)
Fixpoint stripSpace (two : ascii -> ascii -> bool) (three : ascii -> ascii -> ascii -> bool)
         (s : string) : string :=
  match s with
  | EmptyString => EmptyString
  | String c1 r1 =>
      if space1 c1 then stripSpace two three r1
      else
        match r1 with
        | String c2 r2 =>
            if two c1 c2 then stripSpace two three r2
            else
              match r2 with
              | String c3 r3 => if three c1 c2 c3 then stripSpace two three r3 else s
              | EmptyString => s
              end
        | EmptyString => s
        end
  end.

Definition trimStart (s : string) : string := stripSpace space2 space3 s.

Fixpoint string_rev (s : string) : string :=
  match s with
  | EmptyString => EmptyString
  | String c rest => (string_rev rest ++ String c EmptyString)%string
  end.

(** The same from the end: the bytes of a character come last byte
    first. *)
Definition trimEnd (s : string) : string :=
  string_rev
    (stripSpace (fun c2 c1 => space2 c1 c2) (fun c3 c2 c1 => space3 c1 c2 c3)
                (string_rev s)).

Definition trim (s : string) : string := trimEnd (trimStart s).

(** [toLowerCase] maps the letters A to Z.  (The platform also maps the
    capital letters outside ASCII; that part of its table is not embedded:
    such letters are left as they are.) *)

Definition lower (c : ascii) : ascii :=
  let n := nat_of_ascii c in
  if Nat.leb 65 n && Nat.leb n 90 then ascii_of_nat (n + 32) else c.

Fixpoint toLowerCase (s : string) : string :=
  match s with
  | EmptyString => EmptyString
  | String c rest => String (lower c) (toLowerCase rest)
  end.

(** [s.includes(c)] for a one-character needle. *)
Fixpoint includes (c : ascii) (s : string) : bool :=
  match s with
  | EmptyString => false
  | String d rest => Ascii.eqb d c || includes c rest
  end.

(** Truthiness of a string: the empty string is falsy. *)
Definition truthy_string (s : string) : bool :=
  match s with
  | EmptyString => false
  | String _ _ => true
  end.

(* ===================================================================== *)
(** ** [App.login], in the two [App] components *)
(* ===================================================================== *)

Record AppState : Type := mkAppState {
  user : option User;
  currentPage : string;
  editingId : option string
}.

Record LoginResult : Type := mkLoginResult {
  success : bool;
  message : option string
}.

Definition setUser (u : User) (st : AppState) : AppState :=
  {| user := Some u; currentPage := currentPage st; editingId := editingId st |}.
Definition setCurrentPage (page : string) (st : AppState) : AppState :=
  {| user := user st; currentPage := page; editingId := editingId st |}.

Definition failure (msg : string) : LoginResult :=
  {| success := false; message := Some msg |}.

Definition orgNamed (orgName : string) (o : Organization) : bool :=
  String.eqb (toLowerCase (org_name o)) (toLowerCase (trim orgName)).

Definition hasCredentials (orgId cleanEmail cleanPass : string) (u : User) : bool :=
  String.eqb (organizationId u) orgId
  && String.eqb (email u) cleanEmail
  && match password u with
     | Some p => String.eqb p cleanPass
     | None => false
     end.

(** The [App] of the online-only service.  [orgs] and [usrs] are
    [db.getOrganizations()] and [db.getUsers()]. *)
Module AppOnline.

Definition login (orgs : list Organization) (usrs : list User)
           (orgName email pass : string) (st : AppState) : LoginResult * AppState :=
  let cleanEmail := trim email in
  let cleanPass := trim pass in
  match array_find (orgNamed orgName) orgs with
  | None => (failure "Organization not found.", st)
  | Some org =>
      if negb (org_isApproved org) && negb (String.eqb (org_id org) "system_global") then
        (failure "Organization is pending approval by Super Admin.", st)
      else
        match array_find (hasCredentials (org_id org) cleanEmail cleanPass) usrs with
        | Some found =>
            if negb (isApproved found) then
              (failure "Account locked or pending approval.", st)
            else
              ({| success := true; message := None |},
               setCurrentPage "home" (setUser found st))
        | None =>
            (failure "Invalid User ID or Password for this Organization.", st)
        end
  end.

End AppOnline.

(** The [App] of the service with a local fallback. *)
Module AppLocal.

Definition ephemeralSuperAdmin (cleanEmail : string) : User :=
  {| user_id := "super_admin_session";
     user_name := "Super Admin";
     email := cleanEmail;
     password := None;
     parentId := None;
     role := SUPER_ADMIN;
     organizationId := "system_global";
     organizationName := "System";
     isApproved := true;
     hierarchy := None |}.

Definition hardcoded (cleanEmail cleanPass : string) : bool :=
  (String.eqb cleanEmail "keerthithiruvarasan@gmail.com"
   || String.eqb cleanEmail "keerthithiruvarsan@gmail.com")
  && String.eqb cleanPass "123456789@Asdf".

Definition login (orgs : list Organization) (usrs : list User)
           (orgName email pass : string) (st : AppState) : LoginResult * AppState :=
  let cleanEmail := trim email in
  let cleanPass := trim pass in
  if hardcoded cleanEmail cleanPass then
    let superAdmin :=
      match array_find (fun u => UserRole_eqb (role u) SUPER_ADMIN) usrs with
      | Some u => u
      | None => ephemeralSuperAdmin cleanEmail
      end in
    ({| success := true; message := None |},
     setCurrentPage "home" (setUser superAdmin st))
  else
    match array_find (orgNamed orgName) orgs with
    | None => (failure "Organization not found.", st)
    | Some org =>
        if negb (org_isApproved org) then
          (failure "Organization is pending approval by Super Admin.", st)
        else
          match array_find (hasCredentials (org_id org) cleanEmail cleanPass) usrs with
          | Some found =>
              if negb (isApproved found) then
                (failure "Account locked or pending approval.", st)
              else
                ({| success := true; message := None |},
                 setCurrentPage "home" (setUser found st))
          | None =>
              (failure "Invalid User ID or Password for this Organization.", st)
          end
    end.

End AppLocal.

(* ===================================================================== *)
(** ** The rest of the [App] component: session and navigation *)
(* ===================================================================== *)

(** These functions are the same in the two [App] components. *)
Definition logout (st : AppState) : AppState :=
  {| user := None; currentPage := "login"; editingId := None |}.

Definition handleNavigate (page : string) (st : AppState) : AppState :=
  {| user := user st; currentPage := page; editingId := None |}.

Definition handleEdit (id page : string) (st : AppState) : AppState :=
  {| user := user st; currentPage := page; editingId := Some id |}.

(** The element that [renderPage] returns, with the props that depend on
    the state.  ([DashboardPage] is [Home] in the [App] with a local
    fallback.) *)
Inductive element : Type :=
| LoginPage
| DashboardPage
| AddCustomerPage
| MyCustomersPage
| MyEnquiriesPage
| ProjectPlanPage (editing : option string)
| ConversionPlanPage (editing : option string)
| RetentionPlanPage (editing : option string)
| AdminPanelPage.

Definition renderPage (st : AppState) : element :=
  match user st with
  | None => LoginPage
  | Some _ =>
      if String.eqb (currentPage st) "home" then DashboardPage
      else if String.eqb (currentPage st) "add-customer" then AddCustomerPage
      else if String.eqb (currentPage st) "my-customers" then MyCustomersPage
      else if String.eqb (currentPage st) "my-enquiries" then MyEnquiriesPage
      else if String.eqb (currentPage st) "new-project" then ProjectPlanPage (editingId st)
      else if String.eqb (currentPage st) "conversion" then ConversionPlanPage (editingId st)
      else if String.eqb (currentPage st) "retention" then RetentionPlanPage (editingId st)
      else if String.eqb (currentPage st) "admin" then AdminPanelPage
      else DashboardPage
  end.

(** [isAdmin]: the condition under which the header shows the button that
    leads to the page [admin]. *)
Definition isAdmin (st : AppState) : bool :=
  match user st with
  | Some u =>
      UserRole_eqb (role u) RSM || UserRole_eqb (role u) ORG_ADMIN
      || UserRole_eqb (role u) SUPER_ADMIN
  | None => false
  end.

(** What a user does in the header and on the pages. *)
Inductive gesture : Type :=
| Navigate (page : string)
| Edit (id page : string)
| Logout.

Definition handle (g : gesture) (st : AppState) : AppState :=
  match g with
  | Navigate page => handleNavigate page st
  | Edit id page => handleEdit id page st
  | Logout => logout st
  end.

Definition handleAll (gs : list gesture) (st : AppState) : AppState :=
  fold_left (fun st g => handle g st) gs st.

(* ===================================================================== *)
(** ** src/pages/Login.tsx *)
(* ===================================================================== *)

(** Code of a component with state of its own ([F]) that calls a service
    with state [S]. *)
Definition onService {F S A : Type} (m : M S A) : M (F * S) A :=
  fun fs =>
    let r := m (snd fs) in
    {| outcome := outcome r; final := (fst fs, final r); emitted := emitted r |}.

(** A state setter of the component. *)
Definition setState {F S : Type} (f : F -> F) : M (F * S) unit :=
  modify (fun fs => (f (fst fs), snd fs)).

(** The state of the [Login] component. *)
Record LoginForm : Type := mkLoginForm {
  isRegistering : bool;
  fld_orgName : string;
  fld_email : string;
  fld_password : string;
  regOrgName : string;
  regAdminName : string;
  regEmail : string;
  regPassword : string;
  error : string;
  notice : string;                (* the state variable [success] *)
  loading : bool
}.

Definition setIsRegistering (b : bool) (f : LoginForm) : LoginForm :=
  {| isRegistering := b; fld_orgName := fld_orgName f; fld_email := fld_email f;
     fld_password := fld_password f; regOrgName := regOrgName f;
     regAdminName := regAdminName f; regEmail := regEmail f;
     regPassword := regPassword f; error := error f; notice := notice f;
     loading := loading f |}.
Definition setOrgName (v : string) (f : LoginForm) : LoginForm :=
  {| isRegistering := isRegistering f; fld_orgName := v; fld_email := fld_email f;
     fld_password := fld_password f; regOrgName := regOrgName f;
     regAdminName := regAdminName f; regEmail := regEmail f;
     regPassword := regPassword f; error := error f; notice := notice f;
     loading := loading f |}.
Definition setEmail (v : string) (f : LoginForm) : LoginForm :=
  {| isRegistering := isRegistering f; fld_orgName := fld_orgName f; fld_email := v;
     fld_password := fld_password f; regOrgName := regOrgName f;
     regAdminName := regAdminName f; regEmail := regEmail f;
     regPassword := regPassword f; error := error f; notice := notice f;
     loading := loading f |}.
Definition setRegOrgName (v : string) (f : LoginForm) : LoginForm :=
  {| isRegistering := isRegistering f; fld_orgName := fld_orgName f;
     fld_email := fld_email f; fld_password := fld_password f; regOrgName := v;
     regAdminName := regAdminName f; regEmail := regEmail f;
     regPassword := regPassword f; error := error f; notice := notice f;
     loading := loading f |}.
Definition setRegAdminName (v : string) (f : LoginForm) : LoginForm :=
  {| isRegistering := isRegistering f; fld_orgName := fld_orgName f;
     fld_email := fld_email f; fld_password := fld_password f;
     regOrgName := regOrgName f; regAdminName := v; regEmail := regEmail f;
     regPassword := regPassword f; error := error f; notice := notice f;
     loading := loading f |}.
Definition setRegEmail (v : string) (f : LoginForm) : LoginForm :=
  {| isRegistering := isRegistering f; fld_orgName := fld_orgName f;
     fld_email := fld_email f; fld_password := fld_password f;
     regOrgName := regOrgName f; regAdminName := regAdminName f; regEmail := v;
     regPassword := regPassword f; error := error f; notice := notice f;
     loading := loading f |}.
Definition setRegPassword (v : string) (f : LoginForm) : LoginForm :=
  {| isRegistering := isRegistering f; fld_orgName := fld_orgName f;
     fld_email := fld_email f; fld_password := fld_password f;
     regOrgName := regOrgName f; regAdminName := regAdminName f;
     regEmail := regEmail f; regPassword := v; error := error f; notice := notice f;
     loading := loading f |}.
Definition setError (v : string) (f : LoginForm) : LoginForm :=
  {| isRegistering := isRegistering f; fld_orgName := fld_orgName f;
     fld_email := fld_email f; fld_password := fld_password f;
     regOrgName := regOrgName f; regAdminName := regAdminName f;
     regEmail := regEmail f; regPassword := regPassword f; error := v;
     notice := notice f; loading := loading f |}.
Definition setSuccess (v : string) (f : LoginForm) : LoginForm :=
  {| isRegistering := isRegistering f; fld_orgName := fld_orgName f;
     fld_email := fld_email f; fld_password := fld_password f;
     regOrgName := regOrgName f; regAdminName := regAdminName f;
     regEmail := regEmail f; regPassword := regPassword f; error := error f;
     notice := v; loading := loading f |}.
Definition setLoading (b : bool) (f : LoginForm) : LoginForm :=
  {| isRegistering := isRegistering f; fld_orgName := fld_orgName f;
     fld_email := fld_email f; fld_password := fld_password f;
     regOrgName := regOrgName f; regAdminName := regAdminName f;
     regEmail := regEmail f; regPassword := regPassword f; error := error f;
     notice := notice f; loading := b |}.

(** [result.message || 'Login failed'] *)
Definition messageOr (fallback : string) (m : option string) : string :=
  match m with
  | Some text => if truthy_string text then text else fallback
  | None => fallback
  end.

(** [handleLoginSubmit].  [onLogin] is the prop of the component; the
    state next to the form is the one that [onLogin] works on. *)
Definition handleLoginSubmit {S : Type}
           (onLogin : string -> string -> string -> M S LoginResult)
  : M (LoginForm * S) unit :=
  fs <- get ;;
  let form := fst fs in
  setState (setError EmptyString) ;;
  setState (setSuccess EmptyString) ;;
  setState (setLoading true) ;;
  try_finally
    (try_catch
       (result <- onService (onLogin (fld_orgName form) (fld_email form) (fld_password form)) ;;
        if negb (success result)
        then setState (setError (messageOr "Login failed" (message result)))
        else ret tt)
       (fun _ => setState (setError "An unexpected error occurred.")))
    (setState (setLoading false)).

(** The [login] of an [App] as the prop [onLogin]. *)
Definition asProp (login : string -> string -> string -> AppState -> LoginResult * AppState)
  : string -> string -> string -> M AppState LoginResult :=
  fun orgName address pass st =>
    {| outcome := Normal (fst (login orgName address pass st));
       final := snd (login orgName address pass st);
       emitted := [] |}.

Section Registration.
(** The database service that the page imports: its state and the three
    methods that the page calls. *)
Variable S : Type.
Variable getOrganizations : S -> list Organization.
Variable addOrganization : Organization -> M S unit.
Variable addUser : User -> M S unit.
(** [Math.random().toString(36).substr(2, 9)], drawn for the organization
    and for the user, and [new Date().toISOString()]. *)
Variable orgRandom : string.
Variable userRandom : string.
Variable now : string.

Definition handleRegisterSubmit : M (LoginForm * S) unit :=
  fs <- get ;;
  let form := fst fs in
  setState (setError EmptyString) ;;
  setState (setSuccess EmptyString) ;;
  setState (setLoading true) ;;
  try_finally
    (try_catch
       (fs <- get ;;
        let existingOrgs := getOrganizations (snd fs) in
        if existsb (orgNamed (regOrgName form)) existingOrgs then
          setState (setError "Organization name already registered.") ;;
          setState (setLoading false)
        else
          let orgId := ("org_" ++ orgRandom)%string in
          onService (addOrganization
            {| org_id := orgId;
               org_name := trim (regOrgName form);
               adminEmail := trim (regEmail form);
               org_isApproved := false;
               org_createdAt := now |}) ;;
          onService (addUser
            {| user_id := ("user_" ++ userRandom)%string;
               email := trim (regEmail form);
               user_name := trim (regAdminName form);
               password := Some (trim (regPassword form));
               parentId := None;
               role := ORG_ADMIN;
               organizationId := orgId;
               organizationName := trim (regOrgName form);
               isApproved := true;
               hierarchy := None |}) ;;
          setState (setSuccess "Registration successful! Please wait for Super Admin approval.") ;;
          setState (setIsRegistering false) ;;
          setState (setOrgName (regOrgName form)) ;;
          setState (setEmail (regEmail form)) ;;
          setState (setRegOrgName EmptyString) ;;
          setState (setRegAdminName EmptyString) ;;
          setState (setRegEmail EmptyString) ;;
          setState (setRegPassword EmptyString))
       (fun e => setState (setError ("Registration failed: " ++ e)%string)))
    (setState (setLoading false)).
End Registration.

(* ===================================================================== *)
(** ** src/services/mailService.ts *)
(* ===================================================================== *)

(** *** JSON texts, as the platform provides them *)

(** The text half of [JSON.stringify] and [JSON.parse]: the grammar of JSON
    texts, an interface of the platform. *)
Class JsonText : Type := {
  print : json -> string;
  parse : string -> completion json     (* throws SyntaxError *)
}.

(** What the platform guarantees of it. *)
Definition JsonText_correct (J : JsonText) : Prop :=
  forall j : json, parse (print j) = Normal j.

(** The part of crypto-js that the service calls.  Encryption with a
    passphrase draws a random salt: [entropy] stands for it. *)
Class CryptoJS : Type := {
  WordArray : Type;
  (** [CryptoJS.AES.encrypt(message, passphrase).toString()]; the message is
      what [JSON.stringify] returned, a string or [undefined]. *)
  AES_encrypt : string -> option string -> string -> completion string;
  (** [CryptoJS.AES.decrypt(ciphertext, passphrase)] *)
  AES_decrypt : string -> string -> completion WordArray;
  (** [bytes.toString(CryptoJS.enc.Utf8)]; throws on malformed UTF-8 *)
  Utf8_stringify : WordArray -> completion string
}.

(** What crypto-js guarantees: decrypting with the passphrase used for
    encrypting gives the bytes of the message back. *)
Definition CryptoJS_correct (C : CryptoJS) : Prop :=
  forall (entropy message passphrase : string),
  exists (ciphertext : string) (bytes : WordArray),
    AES_encrypt entropy (Some message) passphrase = Normal ciphertext /\
    AES_decrypt ciphertext passphrase = Normal bytes /\
    Utf8_stringify bytes = Normal message.

(** [btoa] and [atob]. *)
Class Base64 : Type := {
  btoa : string -> completion string;
  atob : string -> completion string
}.

(** Sequencing and [try]/[catch] on completions, for code without state. *)
Definition andThen {A B : Type} (c : completion A) (k : A -> completion B) : completion B :=
  match c with
  | Normal a => k a
  | Throw e => Throw e
  end.

Definition catch {A : Type} (c : completion A) (handler : string -> completion A)
  : completion A :=
  match c with
  | Normal a => Normal a
  | Throw e => handler e
  end.

(** Truthiness of a value ([if (data)]). *)
Definition truthy (v : jsval) : bool :=
  match v with
  | VUndefined | VNull => false
  | VBool b => b
  | VNum (Finite z) => negb (Z.eqb z 0)
  | VNum (Fraction m _) => negb (Z.eqb m 0)
  | VNum NegZero | VNum NaN => false
  | VNum _ => true
  | VStr s => truthy_string s
  | VArr _ | VObj _ => true
  end.

Module MailService.

Definition APP_SECRET_KEY : string := "SALES_TRACKER_SECURE_KEY_V1".
Definition SYNC_SUBJECT_PREFIX : string := "[ST_SYNC]".

Inductive PacketType : Type := PLAN | CUSTOMER | USER_REG.

Definition PacketType_name (t : PacketType) : string :=
  match t with
  | PLAN => "PLAN"
  | CUSTOMER => "CUSTOMER"
  | USER_REG => "USER_REG"
  end.

Record SyncPacket : Type := mkSyncPacket {
  pkt_type : PacketType;
  pkt_data : jsval;               (* data: any *)
  pkt_timestamp : string;
  pkt_sender : string
}.

(** A packet as the object it is. *)
Definition packetObject (p : SyncPacket) : jsval :=
  VObj [("type", VStr (PacketType_name (pkt_type p)));
        ("data", pkt_data p);
        ("timestamp", VStr (pkt_timestamp p));
        ("sender", VStr (pkt_sender p))].

(** One message of the inbox, as [messages.get] returns it: the preview
    and, when there is one, [payload.body.data]. *)
Record MessageDetail : Type := mkMessageDetail {
  snippet : string;
  payload_body_data : option string
}.

(** The mail API and the randomness of the session. *)
Record Gmail : Type := mkGmail {
  entropy : string;
  sendResult : bool;                             (* does messages.send resolve *)
  listResult : option (option (list string));    (* rejected | result.messages?: ids *)
  getResult : string -> option MessageDetail     (* rejected | result *)
}.

Record MailService : Type := mkMailService {
  gapiInited : bool;
  gisInited : bool;
  accessToken : option string
}.

Definition Eff := M MailService.

Section Service.
Context {J : JsonText} {C : CryptoJS} {B : Base64}.
Variable gmail : Gmail.

Definition JSON_stringify (v : jsval) : option string :=
  option_map print (serialize v).

Definition JSON_parse (text : string) : completion jsval :=
  andThen (parse text) (fun j => Normal (revive j)).

(** ENCRYPTION / DECRYPTION *)
Definition encrypt (data : jsval) : completion string :=
  AES_encrypt (entropy gmail) (JSON_stringify data) APP_SECRET_KEY.

Definition decrypt (ciphertext : string) : completion jsval :=
  catch
    (andThen (AES_decrypt ciphertext APP_SECRET_KEY) (fun bytes =>
     andThen (Utf8_stringify bytes) (fun text =>
     JSON_parse text)))
    (fun _ => Normal VNull).

(** [!this.accessToken] *)
Definition hasToken (s : MailService) : bool :=
  match accessToken s with
  | Some t => truthy_string t
  | None => false
  end.

(** [Set.prototype.add], the set being the list of its elements in
    insertion order. *)
Definition set_add (x : string) (set : list string) : list string :=
  if existsb (String.eqb x) set then set else set ++ [x].

Definition add_all (xs : option (list string)) (set : list string) : list string :=
  match xs with
  | Some l => fold_left (fun acc e => set_add e acc) l set
  | None => set
  end.

(** The set [recipients] of [broadcastData]. *)
Definition recipients (u : User) : list string :=
  let r0 := set_add (email u) [] in
  match hierarchy u with
  | None => r0
  | Some h =>
      let r1 := match rsmEmail h with
                | Some m => if truthy_string m then set_add m r0 else r0
                | None => r0
                end in
      let r2 := add_all (seEmails h) r1 in
      let r3 := add_all (dealerEmails h) r2 in
      add_all (dseEmails h) r3
  end.

Definition validAddress (e : string) : bool :=
  truthy_string e && includes "@" e.

(** [Array.from(recipients).filter(e => e && e.includes('@'))] *)
Definition recipientList (u : User) : list string :=
  filter validAddress (recipients u).

Definition newline : string := String (ascii_of_nat 10) EmptyString.

Definition replaceAll (from to : ascii) (s : string) : string :=
  string_of_list_ascii
    (map (fun c => if Ascii.eqb c from then to else c) (list_ascii_of_string s)).

(** [s.replace(/=+$/, '')] *)
Definition stripPadding (s : string) : string :=
  string_rev
    ((fix drop (t : string) : string :=
        match t with
        | String c rest => if Ascii.eqb c "=" then drop rest else t
        | EmptyString => EmptyString
        end) (string_rev s)).

Definition emailContent (to : list string) (subject body : string) : string :=
  String.concat newline
    [ ("To: " ++ hd "undefined" to)%string;
      ("Bcc: " ++ String.concat ", " to)%string;
      ("Subject: " ++ subject)%string;
      ("Content-Type: text/plain; charset=" ++ String (ascii_of_nat 34) "UTF-8"
         ++ String (ascii_of_nat 34) EmptyString)%string;
      "Content-Transfer-Encoding: 7bit";
      EmptyString;
      body ].

Definition lift {A : Type} (c : completion A) : Eff A :=
  fun s => {| outcome := c; final := s; emitted := [] |}.

Definition sendEmail (to : list string) (subject body : string) : Eff unit :=
  encoded <- lift (btoa (emailContent to subject body)) ;;
  let base64EncodedEmail :=
    stripPadding (replaceAll "/" "_" (replaceAll "+" "-" encoded)) in
  if sendResult gmail then emit (EvSendMail base64EncodedEmail true)
  else emit (EvSendMail base64EncodedEmail false) ;; throw "rejected".

(** SENDING DATA *)
Definition broadcastData (packet : SyncPacket) (u : User) : Eff unit :=
  s <- get ;;
  if negb (hasToken s) then throw "Not Authenticated"
  else
    encryptedBody <- lift (encrypt (packetObject packet)) ;;
    let subject :=
      (SYNC_SUBJECT_PREFIX ++ " " ++ PacketType_name (pkt_type packet)
         ++ " " ++ pkt_timestamp packet)%string in
    match recipientList u with
    | [] => ret tt
    | to => sendEmail to subject encryptedBody
    end.

(** The text of a message: [payload.body.data] decoded when there is
    one, the preview otherwise. *)
Definition messageBody (detail : MessageDetail) : completion string :=
  match payload_body_data detail with
  | Some d =>
      if truthy_string d
      then atob (replaceAll "_" "/" (replaceAll "-" "+" d))
      else Normal (snippet detail)
  | None => Normal (snippet detail)
  end.

(** The body of the loop of [fetchLatestData]. *)
Definition fetchOne (id : string) (packets : list jsval) : Eff (list jsval) :=
  match getResult gmail id with
  | None => emit (EvGetMessage id false) ;; throw "rejected"
  | Some detail =>
      emit (EvGetMessage id true) ;;
      body <- lift (messageBody detail) ;;
      data <- lift (decrypt body) ;;
      if truthy data then ret (push packets data) else ret packets
  end.

Fixpoint fetchEach (messages : list string) (packets : list jsval) : Eff (list jsval) :=
  match messages with
  | [] => ret packets
  | id :: rest =>
      packets' <- fetchOne id packets ;;
      fetchEach rest packets'
  end.

(** RECEIVING DATA *)
Definition fetchLatestData : Eff (list jsval) :=
  s <- get ;;
  if negb (gapiInited s) || negb (hasToken s) then ret []
  else
    try_catch
      (match listResult gmail with
       | None => emit (EvListMessages false) ;; throw "rejected"
       | Some found =>
           emit (EvListMessages true) ;;
           match found with
           | None => ret []
           | Some [] => ret []
           | Some messages => fetchEach messages []
           end
       end)
      (fun _ => ret []).
End Service.

End MailService.

(* ===================================================================== *)
(** ** [sanitizeDoc], the helper of both services *)
(* ===================================================================== *)

(** What [d.data()] returns for a document of the store: JSON-like data,
    timestamps and references to documents.  A timestamp is the object whose
    [toDate] is a function; [iso] is its [toDate().toISOString()].  A
    reference is the object with the properties [firestore] and [path]; its
    path names a document and is not empty.  (Geographic points and byte
    strings are left out.)  A map holds no function. *)
Inductive docval : Type :=
| DNull
| DBool (b : bool)
| DNum (n : number)
| DStr (s : string)
| DArr (items : list docval)
| DMap (fields : list (string * docval))
| DTimestamp (iso : string)
| DReference (path : string).

(** Truthiness of such a value ([data.firestore && data.path]). *)
Definition truthy_doc (v : docval) : bool :=
  match v with
  | DNull => false
  | DBool b => b
  | DNum (Finite z) => negb (Z.eqb z 0)
  | DNum (Fraction m _) => negb (Z.eqb m 0)
  | DNum NegZero | DNum NaN => false
  | DNum _ => true
  | DStr s => truthy_string s
  | DArr _ | DMap _ | DTimestamp _ | DReference _ => true
  end.

(** [sanitizeDoc].  The first two tests return what is falsy or no object
    as it is; an array is mapped; an object with a [toDate] function gives
    its ISO text; an object with truthy [firestore] and [path] gives its
    [path], as it is; any other object is copied key by key. *)
Fixpoint sanitizeDoc (data : docval) : docval :=
  match data with
  | DNull | DBool _ | DNum _ | DStr _ => data
  | DArr items => DArr (map sanitizeDoc items)
  | DTimestamp iso => DStr iso
  | DReference path => DStr path
  | DMap fields =>
      match lookup "firestore" fields, lookup "path" fields with
      | Some f, Some p =>
          if truthy_doc f && truthy_doc p then p
          else DMap (define sanitizeDoc fields [])
      | _, _ => DMap (define sanitizeDoc fields [])
      end
  end.

(* ===================================================================== *)
(** ** Implementations of the interfaces of the platform *)
(* ===================================================================== *)

(** The theorems about the mail service hold for every JSON text codec, cipher
    and transfer coding.  To run the service on inputs, here is one of each:
    compact JSON texts, a stream cipher, and the identity coding. *)

(** An implementation of the interface [JsonText]: compact JSON texts (no
    white space), with the two escapes that a string needs; an integer is
    written in decimal, a fraction [m / 10^e] in exponent form, [m] followed
    by [e-] and [e]. *)
Module CompactJson.

Local Open Scope char_scope.

Definition quote : ascii := ascii_of_nat 34.
Definition backslash : ascii := ascii_of_nat 92.

Fixpoint uint_chars (d : uint) : list ascii :=
  match d with
  | Nil => []
  | D0 r => "0" :: uint_chars r
  | D1 r => "1" :: uint_chars r
  | D2 r => "2" :: uint_chars r
  | D3 r => "3" :: uint_chars r
  | D4 r => "4" :: uint_chars r
  | D5 r => "5" :: uint_chars r
  | D6 r => "6" :: uint_chars r
  | D7 r => "7" :: uint_chars r
  | D8 r => "8" :: uint_chars r
  | D9 r => "9" :: uint_chars r
  end.

Definition print_Z (z : Z) : list ascii :=
  match Z.to_int z with
  | Pos d => uint_chars d
  | Neg d => "-" :: uint_chars d
  end.

Definition escape (c : ascii) : list ascii :=
  if Ascii.eqb c quote || Ascii.eqb c backslash then [backslash; c] else [c].

Definition print_string (s : string) : list ascii :=
  quote :: flat_map escape (list_ascii_of_string s) ++ [quote].

(** The texts of a list, with a separator between them. *)
Fixpoint join (sep : ascii) (texts : list (list ascii)) : list ascii :=
  match texts with
  | [] => []
  | [t] => t
  | t :: rest => t ++ sep :: join sep rest
  end.

Fixpoint print_chars (j : json) : list ascii :=
  match j with
  | JNull => ["n"; "u"; "l"; "l"]
  | JBool true => ["t"; "r"; "u"; "e"]
  | JBool false => ["f"; "a"; "l"; "s"; "e"]
  | JNum z => print_Z z
  | JDec m e => print_Z m ++ "e" :: "-" :: uint_chars (Pos.to_uint e)
  | JStr s => print_string s
  | JArr items => "[" :: join "," (map print_chars items) ++ ["]"]
  | JObj members =>
      "{" :: join "," (map (fun kv => match kv with
                                      | (k, v) => print_string k ++ ":" :: print_chars v
                                      end) members) ++ ["}"]
  end.

(** Reading. *)
Definition digit_of (c : ascii) : option (uint -> uint) :=
  if Ascii.eqb c "0" then Some D0 else
  if Ascii.eqb c "1" then Some D1 else
  if Ascii.eqb c "2" then Some D2 else
  if Ascii.eqb c "3" then Some D3 else
  if Ascii.eqb c "4" then Some D4 else
  if Ascii.eqb c "5" then Some D5 else
  if Ascii.eqb c "6" then Some D6 else
  if Ascii.eqb c "7" then Some D7 else
  if Ascii.eqb c "8" then Some D8 else
  if Ascii.eqb c "9" then Some D9 else None.

(** The longest prefix of digits. *)
Fixpoint read_digits (s : list ascii) : uint * list ascii :=
  match s with
  | [] => (Nil, [])
  | c :: r =>
      match digit_of c with
      | Some d => let (u, r') := read_digits r in (d u, r')
      | None => (Nil, s)
      end
  end.

(** What follows the digits of a number: an exponent, or nothing. *)
Definition read_exponent (z : Z) (s : list ascii) : option (json * list ascii) :=
  match s with
  | c :: r =>
      if Ascii.eqb c "e" then
        match r with
        | d :: r1 =>
            if Ascii.eqb d "-" then
              match read_digits r1 with
              | (Nil, _) => None
              | (u, r') =>
                  match Pos.of_uint u with
                  | Npos e => Some (JDec z e, r')
                  | N0 => None
                  end
              end
            else None
        | [] => None
        end
      else Some (JNum z, s)
  | [] => Some (JNum z, s)
  end.

Definition read_number (s : list ascii) : option (json * list ascii) :=
  match s with
  | [] => None
  | c :: r =>
      if Ascii.eqb c "-" then
        match read_digits r with
        | (Nil, _) => None
        | (u, r') => read_exponent (Z.of_int (Neg u)) r'
        end
      else
        match read_digits s with
        | (Nil, _) => None
        | (u, r') => read_exponent (Z.of_int (Pos u)) r'
        end
  end.

(** The characters of a string up to its closing quote. *)
Fixpoint read_string (s : list ascii) : option (list ascii * list ascii) :=
  match s with
  | [] => None
  | c :: r =>
      if Ascii.eqb c quote then Some ([], r)
      else if Ascii.eqb c backslash then
        match r with
        | d :: r' =>
            if Ascii.eqb d quote || Ascii.eqb d backslash then
              match read_string r' with
              | Some (cs, rest) => Some (d :: cs, rest)
              | None => None
              end
            else None
        | [] => None
        end
      else
        match read_string r with
        | Some (cs, rest) => Some (c :: cs, rest)
        | None => None
        end
  end.

(** [strip word s]: [s] without its prefix [word]. *)
Fixpoint strip (word s : list ascii) : option (list ascii) :=
  match word, s with
  | [], _ => Some s
  | w :: word', c :: r => if Ascii.eqb w c then strip word' r else None
  | _ :: _, [] => None
  end.

Definition starts_with (c : ascii) (s : list ascii) : bool :=
  match s with
  | d :: _ => Ascii.eqb d c
  | [] => false
  end.

Fixpoint read_value (fuel : nat) (s : list ascii) : option (json * list ascii) :=
  match fuel with
  | 0 => None
  | S fuel' =>
      match s with
      | [] => None
      | c :: r =>
          if Ascii.eqb c "n" then
            option_map (fun r' => (JNull, r')) (strip ["u"; "l"; "l"] r)
          else if Ascii.eqb c "t" then
            option_map (fun r' => (JBool true, r')) (strip ["r"; "u"; "e"] r)
          else if Ascii.eqb c "f" then
            option_map (fun r' => (JBool false, r')) (strip ["a"; "l"; "s"; "e"] r)
          else if Ascii.eqb c quote then
            match read_string r with
            | Some (cs, r') => Some (JStr (string_of_list_ascii cs), r')
            | None => None
            end
          else if Ascii.eqb c "[" then
            if starts_with "]" r then Some (JArr [], tl r)
            else
              match read_items fuel' r with
              | Some (items, r') => Some (JArr items, r')
              | None => None
              end
          else if Ascii.eqb c "{" then
            if starts_with "}" r then Some (JObj [], tl r)
            else
              match read_members fuel' r with
              | Some (members, r') => Some (JObj members, r')
              | None => None
              end
          else read_number s
      end
  end
(** One item at least, up to and including the closing bracket. *)
with read_items (fuel : nat) (s : list ascii) : option (list json * list ascii) :=
  match fuel with
  | 0 => None
  | S fuel' =>
      match read_value fuel' s with
      | Some (v, c :: r) =>
          if Ascii.eqb c "," then
            match read_items fuel' r with
            | Some (vs, r') => Some (v :: vs, r')
            | None => None
            end
          else if Ascii.eqb c "]" then Some ([v], r)
          else None
      | _ => None
      end
  end
(** One member at least, up to and including the closing brace. *)
with read_members (fuel : nat) (s : list ascii)
  : option (list (string * json) * list ascii) :=
  match fuel with
  | 0 => None
  | S fuel' =>
      match s with
      | q :: s1 =>
          if Ascii.eqb q quote then
            match read_string s1 with
            | Some (k, colon :: s2) =>
                if Ascii.eqb colon ":" then
                  match read_value fuel' s2 with
                  | Some (v, c :: r) =>
                      if Ascii.eqb c "," then
                        match read_members fuel' r with
                        | Some (ms, r') => Some ((string_of_list_ascii k, v) :: ms, r')
                        | None => None
                        end
                      else if Ascii.eqb c "}" then Some ([(string_of_list_ascii k, v)], r)
                      else None
                  | _ => None
                  end
                else None
            | _ => None
            end
          else None
      | [] => None
      end
  end.

Definition print_text (j : json) : string := string_of_list_ascii (print_chars j).

Definition parse_text (text : string) : completion json :=
  match read_value (S (String.length text)) (list_ascii_of_string text) with
  | Some (j, []) => Normal j
  | _ => Throw "SyntaxError"
  end.

(** The text that follows a number must not go on with a digit or with
    an exponent. *)
Definition no_digit (rest : list ascii) : Prop :=
  match rest with
  | [] => True
  | c :: _ => digit_of c = None /\ Ascii.eqb c "e" = false
  end.

(** Fuel that suffices for reading the text of a document. *)
Fixpoint need (j : json) : nat :=
  match j with
  | JArr items => S (list_sum (map (fun x => S (need x)) items))
  | JObj members =>
      S (list_sum (map (fun kv => match kv with (_, v) => S (need v) end) members))
  | _ => 1
  end.

Definition print_member (kv : string * json) : list ascii :=
  match kv with
  | (k, v) => print_string k ++ ":" :: print_chars v
  end.

Definition reads (j : json) : Prop :=
  forall (fuel : nat) (rest : list ascii),
    need j <= fuel -> no_digit rest ->
    read_value fuel (print_chars j ++ rest) = Some (j, rest).

End CompactJson.

#[export] Instance compactJson : JsonText :=
  {| print := CompactJson.print_text; parse := CompactJson.parse_text |}.

(** An implementation of the interface [CryptoJS]: a symmetric stream
    cipher that combines the message with the repeated passphrase. *)
Module StreamCipher.

Definition xor_ascii (a b : ascii) : ascii :=
  match a, b with
  | Ascii a0 a1 a2 a3 a4 a5 a6 a7, Ascii b0 b1 b2 b3 b4 b5 b6 b7 =>
      Ascii (xorb a0 b0) (xorb a1 b1) (xorb a2 b2) (xorb a3 b3)
            (xorb a4 b4) (xorb a5 b5) (xorb a6 b6) (xorb a7 b7)
  end.

(** [key] is the passphrase, [ahead] what is left of it in this round. *)
Fixpoint combine (key ahead : list ascii) (message : list ascii) : list ascii :=
  match message with
  | [] => []
  | c :: rest =>
      match ahead with
      | k :: ks => xor_ascii c k :: combine key ks rest
      | [] =>
          match key with
          | k :: ks => xor_ascii c k :: combine key ks rest
          | [] => c :: combine key [] rest
          end
      end
  end.

Definition apply (passphrase message : string) : string :=
  string_of_list_ascii
    (combine (list_ascii_of_string passphrase) [] (list_ascii_of_string message)).

End StreamCipher.

#[export] Instance streamCipher : CryptoJS :=
  {| WordArray := string;
     AES_encrypt := fun _ message passphrase =>
       Normal (StreamCipher.apply passphrase
                 (match message with Some m => m | None => EmptyString end));
     AES_decrypt := fun ciphertext passphrase =>
       Normal (StreamCipher.apply passphrase ciphertext);
     Utf8_stringify := fun bytes => Normal bytes |}.

(** An implementation of the interface [Base64] that leaves the text as it
    is. *)
#[export] Instance identityCoding : Base64 :=
  {| btoa := fun s => Normal s; atob := fun s => Normal s |}.

(* ===================================================================== *)
(** ** Induction on documents and values *)
(* ===================================================================== *)

Section json_induction.
Variable P : json -> Prop.
Hypothesis HNull : P JNull.
Hypothesis HBool : forall b, P (JBool b).
Hypothesis HNum : forall z, P (JNum z).
Hypothesis HDec : forall m e, P (JDec m e).
Hypothesis HStr : forall s, P (JStr s).
Hypothesis HArr : forall items, Forall P items -> P (JArr items).
Hypothesis HObj : forall members, Forall (fun kv => P (snd kv)) members -> P (JObj members).

Fixpoint json_nested_ind (j : json) : P j :=
  match j with
  | JNull => HNull
  | JBool b => HBool b
  | JNum z => HNum z
  | JDec m e => HDec m e
  | JStr s => HStr s
  | JArr items =>
      HArr ((fix all (l : list json) : Forall P l :=
               match l with
               | [] => Forall_nil P
               | x :: r => Forall_cons x (json_nested_ind x) (all r)
               end) items)
  | JObj members =>
      HObj ((fix all (l : list (string * json)) : Forall (fun kv => P (snd kv)) l :=
               match l with
               | [] => Forall_nil _
               | kv :: r => Forall_cons kv (json_nested_ind (snd kv)) (all r)
               end) members)
  end.
End json_induction.

Section jsval_induction.
Variable P : jsval -> Prop.
Hypothesis HUndefined : P VUndefined.
Hypothesis HNull : P VNull.
Hypothesis HBool : forall b, P (VBool b).
Hypothesis HNum : forall n, P (VNum n).
Hypothesis HStr : forall s, P (VStr s).
Hypothesis HArr : forall items, Forall P items -> P (VArr items).
Hypothesis HObj : forall props, Forall (fun kv => P (snd kv)) props -> P (VObj props).

Fixpoint jsval_nested_ind (v : jsval) : P v :=
  match v with
  | VUndefined => HUndefined
  | VNull => HNull
  | VBool b => HBool b
  | VNum n => HNum n
  | VStr s => HStr s
  | VArr items =>
      HArr ((fix all (l : list jsval) : Forall P l :=
               match l with
               | [] => Forall_nil P
               | x :: r => Forall_cons x (jsval_nested_ind x) (all r)
               end) items)
  | VObj props =>
      HObj ((fix all (l : list (string * jsval)) : Forall (fun kv => P (snd kv)) l :=
               match l with
               | [] => Forall_nil _
               | kv :: r => Forall_cons kv (jsval_nested_ind (snd kv)) (all r)
               end) props)
  end.
End jsval_induction.

Section docval_induction.
Variable P : docval -> Prop.
Hypothesis HNull : P DNull.
Hypothesis HBool : forall b, P (DBool b).
Hypothesis HNum : forall n, P (DNum n).
Hypothesis HStr : forall s, P (DStr s).
Hypothesis HArr : forall items, Forall P items -> P (DArr items).
Hypothesis HMap : forall fields, Forall (fun kv => P (snd kv)) fields -> P (DMap fields).
Hypothesis HTimestamp : forall iso, P (DTimestamp iso).
Hypothesis HReference : forall path, P (DReference path).

Fixpoint docval_nested_ind (v : docval) : P v :=
  match v with
  | DNull => HNull
  | DBool b => HBool b
  | DNum n => HNum n
  | DStr s => HStr s
  | DArr items =>
      HArr ((fix all (l : list docval) : Forall P l :=
               match l with
               | [] => Forall_nil P
               | x :: rest => Forall_cons x (docval_nested_ind x) (all rest)
               end) items)
  | DMap fields =>
      HMap ((fix all (l : list (string * docval)) : Forall (fun kv => P (snd kv)) l :=
               match l with
               | [] => Forall_nil _
               | kv :: rest =>
                   Forall_cons (P := fun kv => P (snd kv)) kv
                     (docval_nested_ind (snd kv)) (all rest)
               end) fields)
  | DTimestamp iso => HTimestamp iso
  | DReference path => HReference path
  end.
End docval_induction.

(* ===================================================================== *)
(** ** Vocabulary of the properties *)
(* ===================================================================== *)

(** A call to the blob storage. *)
Definition is_upload (e : event) : bool :=
  match e with
  | EvUploadString _ _ | EvGetDownloadURL _ _ => true
  | _ => false
  end.

(** How [uploadAttachments] may change one attachment: it is returned as
    it is, payload included, or, if it is no remote URL yet, with a download
    URL in the place of its payload. *)
Definition uploaded_form (a a' : Attachment) : Prop :=
  a' = a \/
  (is_url a = false /\
   exists url, a' = {| att_name := att_name a; att_data := url; att_type := att_type a |}).

(** The same in a run that emitted [evs]: the payload is replaced only if
    the blob storage has returned a download URL for the attachment. *)
Definition uploaded_in (evs : list event) (a a' : Attachment) : Prop :=
  a' = a \/
  (is_url a = false /\
   In (EvGetDownloadURL (att_name a) true) evs /\
   exists url, a' = {| att_name := att_name a; att_data := url; att_type := att_type a |}).



(** [attachments || []] *)
Definition files_of (atts : option (list Attachment)) : list Attachment :=
  match atts with
  | Some files => files
  | None => []
  end.

(** The record of a write as it sits in the collections afterwards. *)
Definition stored_as (w : write) (before after : AppData) : Prop :=
  match w with
  | AddOrganization org =>
      organizations after = push (organizations before) org
  | UpdateOrganization id updates =>
      organizations after =
      map (fun o => if String.eqb (org_id o) id then spreadOrganization o updates else o)
          (organizations before)
  | AddUser u =>
      users after = push (users before) u
  | UpdateUser userId updates =>
      users after =
      map (fun u => if String.eqb (user_id u) userId then spreadUser u updates else u)
          (users before)
  | AddCustomer customer =>
      customers after = push (customers before) customer
  | AddPlan plan =>
      exists processed,
        Forall2 uploaded_form (files_of (attachments plan)) processed /\
        plans after =
        push (plans before)
             {| plan_id := plan_id plan; attachments := Some processed;
                plan_fields := plan_fields plan |}
  | UpdatePlan planId updates =>
      exists updates',
        pp_id updates' = pp_id updates /\
        pp_fields updates' = pp_fields updates /\
        match pp_attachments updates with
        | Some (Some files) =>
            exists processed,
              pp_attachments updates' = Some (Some processed) /\
              Forall2 uploaded_form files processed
        | other => pp_attachments updates' = other
        end /\
        plans after =
        map (fun p => if String.eqb (plan_id p) planId then spreadPlan p updates' else p)
            (plans before)
  end.







(** The remote commit that a write issues. *)
Definition commit_event (w : write) (ok : bool) : event :=
  match w with
  | AddOrganization org => EvSetDoc c_organizations (org_id org) ok
  | UpdateOrganization id _ => EvUpdateDoc c_organizations id ok
  | AddUser u => EvSetDoc c_users (user_id u) ok
  | UpdateUser userId _ => EvUpdateDoc c_users userId ok
  | AddCustomer customer => EvSetDoc c_customers (cust_id customer) ok
  | AddPlan plan => EvSetDoc c_plans (plan_id plan) ok
  | UpdatePlan planId _ => EvUpdateDoc c_plans planId ok
  end.

(** A remote commit, whatever its outcome. *)
Definition is_commit (e : event) : bool :=
  match commit_of e with
  | Some _ => true
  | None => false
  end.


(** What [loadFromLocal] leaves in [this.data], if that is an [AppData]:
    the collections read from the text of the browser storage, or the empty
    seed when there is no text or [JSON.parse] rejects it. *)
Definition localData (saved : option MockDb.stored) : option AppData :=
  match saved with
  | Some (MockDb.Parsed v) => readAppData v
  | _ => Some {| organizations := []; customers := []; plans := []; users := [] |}
  end.

(** Do the four bulk reads that start at call [n] all resolve? *)
Definition cloudReads (env : Env) (n : nat) : bool :=
  forallb (fun k => match answer env (n + k) with Some _ => true | None => false end)
          [0; 1; 2; 3].

(** Does [init] turn to the browser storage: there is no configuration,
    or one of the four bulk reads is rejected. *)
Definition turnsToStorage (env : Env) (firebaseConfig : list (string * string))
           (s : MockDb.DatabaseService) : bool :=
  Nat.eqb (List.length firebaseConfig) 0 || negb (cloudReads env (MockDb.calls s)).

(** The data that [init] loads, if that is an [AppData]: the four
    collections of the store when it is configured and the four bulk reads
    resolve, what the browser storage gives otherwise. *)
Definition loadedData (env : Env) (firebaseConfig : list (string * string))
           (s : MockDb.DatabaseService) : option AppData :=
  if turnsToStorage env firebaseConfig s
  then localData (MockDb.localStorage s)
  else Some (cloud env).

(** [ensureSuperAdmin] on a list of users. *)
Definition ensured (l : list User) : list User :=
  if existsb MockDb.isSuperAdminAccount l then l else push l MockDb.bootstrapAdmin.

(** [this.data.users] when [this.data] is the value [v], if that is an
    array. *)
Definition usersArray (v : jsval) : option (list jsval) :=
  match v with
  | VObj props =>
      match lookup "users" props with
      | Some (VArr us) => Some us
      | _ => None
      end
  | _ => None
  end.

(** An approved user with role SUPER_ADMIN. *)
Definition isApprovedSuperAdmin (u : User) : bool :=
  isApproved u && UserRole_eqb (role u) SUPER_ADMIN.

(** The event is an invocation of the subscriber [cb]. *)
Definition is_callback_of (cb : nat) (e : event) : bool :=
  match e with
  | EvCallback c => Nat.eqb c cb
  | _ => false
  end.

(** [cb] is not among the subscribers of [s]. *)
Definition absent (cb : nat) (s : OnlineDb.DatabaseService) : Prop :=
  ~ In cb (OnlineDb.subscribers s).

(** The answer of [login] for an organization that waits for approval. *)
Definition pendingApproval : LoginResult :=
  failure "Organization is pending approval by Super Admin.".

(** Data that JSON represents: no [undefined], no number that is not
    finite, no negative zero, and the properties of an object have distinct
    names.  A fraction is written in the one way that [number] describes. *)
Fixpoint plain (v : jsval) : bool :=
  match v with
  | VUndefined => false
  | VNull | VBool _ | VStr _ => true
  | VNum (Finite _) => true
  | VNum (Fraction m _) => negb (Z.eqb (Z.modulo m 10) 0)
  | VNum _ => false
  | VArr items => forallb plain items
  | VObj props =>
      distinct (map fst props)
      && forallb (fun kv => match kv with (_, x) => plain x end) props
  end.

(** A plan whose other properties are not named [id] or [attachments]. *)
Definition tidy (p : AnyPlan) : bool :=
  forallb (fun kv => negb (String.eqb (fst kv) "id" || String.eqb (fst kv) "attachments"))
          (plan_fields p).

(** Collections that JSON represents: their object is [plain] (no
    [undefined], no number that is not finite, no negative zero, no property
    name twice), and the plans are tidy. *)
Definition storable (d : AppData) : bool :=
  plain (dataObject d) && forallb tidy (plans d).

(** The value that [decrypt] returns. *)
Definition decoded {J : JsonText} {C : CryptoJS} (ciphertext : string) : jsval :=
  match MailService.decrypt ciphertext with
  | Normal v => v
  | Throw _ => VNull
  end.

(** [data.firestore && data.path] on the fields of a map. *)
Definition looks_like_reference (fields : list (string * docval)) : bool :=
  match lookup "firestore" fields, lookup "path" fields with
  | Some f, Some p => truthy_doc f && truthy_doc p
  | _, _ => false
  end.

(** A document whose maps are objects (no field name twice) none of which
    has the two properties by which [sanitizeDoc] tells a reference. *)
Fixpoint regular (v : docval) : bool :=
  match v with
  | DArr items => forallb regular items
  | DMap fields =>
      distinct (map fst fields)
      && negb (looks_like_reference fields)
      && forallb (fun kv => match kv with (_, x) => regular x end) fields
  | _ => true
  end.

(** A document without timestamps and references. *)
Fixpoint jsonlike (v : docval) : bool :=
  match v with
  | DTimestamp _ | DReference _ => false
  | DArr items => forallb jsonlike items
  | DMap fields => forallb (fun kv => match kv with (_, x) => jsonlike x end) fields
  | _ => true
  end.

(** [sanitized v v']: [v'] is [v] with every timestamp replaced by its ISO
    text and every reference by its path; arrays keep their length and
    order, maps their field names and the order of these. *)
Inductive sanitized : docval -> docval -> Prop :=
| sanitized_null : sanitized DNull DNull
| sanitized_bool (b : bool) : sanitized (DBool b) (DBool b)
| sanitized_num (n : number) : sanitized (DNum n) (DNum n)
| sanitized_str (s : string) : sanitized (DStr s) (DStr s)
| sanitized_timestamp (iso : string) : sanitized (DTimestamp iso) (DStr iso)
| sanitized_reference (path : string) : sanitized (DReference path) (DStr path)
| sanitized_arr (items items' : list docval) :
    Forall2 sanitized items items' -> sanitized (DArr items) (DArr items')
| sanitized_map (fields fields' : list (string * docval)) :
    Forall2 (fun kv kv' => fst kv' = fst kv /\ sanitized (snd kv) (snd kv')) fields fields' ->
    sanitized (DMap fields) (DMap fields').

(** The collections other than [c] are the same in [d] and [d']. *)
Definition same_except (c : collection) (d d' : AppData) : Prop :=
  (c <> c_organizations -> organizations d' = organizations d) /\
  (c <> c_users -> users d' = users d) /\
  (c <> c_customers -> customers d' = customers d) /\
  (c <> c_plans -> plans d' = plans d).

(** The write is an update of a record whose id no record of its
    collection has. *)
Definition updates_unknown_id (w : write) (d : AppData) : bool :=
  match w with
  | UpdateOrganization id _ =>
      negb (existsb (fun o => String.eqb (org_id o) id) (organizations d))
  | UpdateUser userId _ =>
      negb (existsb (fun u => String.eqb (user_id u) userId) (users d))
  | UpdatePlan planId _ =>
      negb (existsb (fun p => String.eqb (plan_id p) planId) (plans d))
  | _ => false
  end.

(** Did the call with number [n] resolve? *)
Definition resolves (env : Env) (n : nat) : bool :=
  match answer env n with
  | Some _ => true
  | None => false
  end.

(** The state of the service with a local fallback after [saveToLocal] in
    offline mode: the snapshot is in the browser storage if [setItem]
    returned. *)
Definition saved (env : Env) (s : MockDb.DatabaseService) : MockDb.DatabaseService :=
  if resolves env (MockDb.calls s)
  then MockDb.set_localStorage (Some (MockDb.Snapshot (MockDb.data s))) (MockDb.tick s)
  else MockDb.tick s.

(** Do the four registrations of listeners that start at call [n] all
    return? *)
Definition listenersAttach (env : Env) (n : nat) : bool :=
  resolves env n && resolves env (1 + n) && resolves env (2 + n) && resolves env (3 + n).

(** The collection that a snapshot is about, and the collections after it
    has replaced its own. *)
Definition snapshot_collection (snap : OnlineDb.snapshot) : collection :=
  match snap with
  | OnlineDb.SnapOrganizations _ => c_organizations
  | OnlineDb.SnapUsers _ => c_users
  | OnlineDb.SnapCustomers _ => c_customers
  | OnlineDb.SnapPlans _ => c_plans
  end.

Definition replaced (snap : OnlineDb.snapshot) (d : AppData) : AppData :=
  match snap with
  | OnlineDb.SnapOrganizations docs => set_organizations d docs
  | OnlineDb.SnapUsers docs => set_users d docs
  | OnlineDb.SnapCustomers docs => set_customers d docs
  | OnlineDb.SnapPlans docs => set_plans d docs
  end.

(** The event is the invocation of a subscriber. *)
Definition is_callback (e : event) : bool :=
  match e with
  | EvCallback _ => true
  | _ => false
  end.

(** The event is the registration of a listener with the store. *)
Definition is_registration (e : event) : bool :=
  match e with
  | EvOnSnapshot _ _ => true
  | _ => false
  end.

(** The answer of a [login] that succeeded. *)
Definition admitted : LoginResult := {| success := true; message := None |}.

(** The four messages with which [login] refuses. *)
Definition refusals : list string :=
  ["Organization not found.";
   "Organization is pending approval by Super Admin.";
   "Account locked or pending approval.";
   "Invalid User ID or Password for this Organization."].

(** The white space and the line terminators of ECMAScript, each as the
    bytes of its UTF-8 form. *)
Definition bytes (l : list nat) : string := string_of_list_ascii (map ascii_of_nat l).

Definition whiteSpace : list string :=
  map bytes
    [[9]; [10]; [11]; [12]; [13]; [32];
     [194; 160];
     [225; 154; 128];
     [226; 128; 128]; [226; 128; 129]; [226; 128; 130]; [226; 128; 131];
     [226; 128; 132]; [226; 128; 133]; [226; 128; 134]; [226; 128; 135];
     [226; 128; 136]; [226; 128; 137]; [226; 128; 138];
     [226; 128; 168]; [226; 128; 169]; [226; 128; 175];
     [226; 129; 159];
     [227; 128; 128];
     [239; 187; 191]].

(** The string that a list of characters makes, and a string of white
    space only. *)
Definition joined (chars : list string) : string := String.concat EmptyString chars.

Definition blank (p : string) : Prop :=
  exists chars, Forall (fun c => In c whiteSpace) chars /\ p = joined chars.

(** The number of bytes of the white space character with which a string
    starts: 0 when it starts with none.  ([stripSpace] removes that many
    bytes and goes on.) *)
Definition spaceAhead (two : ascii -> ascii -> bool) (three : ascii -> ascii -> ascii -> bool)
           (s : string) : nat :=
  match s with
  | EmptyString => 0
  | String c1 r1 =>
      if space1 c1 then 1
      else
        match r1 with
        | String c2 r2 =>
            if two c1 c2 then 2
            else
              match r2 with
              | String c3 _ => if three c1 c2 c3 then 3 else 0
              | EmptyString => 0
              end
        | EmptyString => 0
        end
  end.

(** The pages of [renderPage]: the names of the pages without props and
    of the three plan pages, with the element of each, and all eight
    names. *)
Definition plainPages : list (string * element) :=
  [("home", DashboardPage); ("add-customer", AddCustomerPage);
   ("my-customers", MyCustomersPage); ("my-enquiries", MyEnquiriesPage);
   ("admin", AdminPanelPage)].

Definition planPages : list (string * (option string -> element)) :=
  [("new-project", ProjectPlanPage); ("conversion", ConversionPlanPage);
   ("retention", RetentionPlanPage)].

Definition pageNames : list string := map fst plainPages ++ map fst planPages.

(** The organization and the account that the registration form makes. *)
Definition registeredOrganization (orgRandom now : string) (form : LoginForm) : Organization :=
  {| org_id := ("org_" ++ orgRandom)%string;
     org_name := trim (regOrgName form);
     adminEmail := trim (regEmail form);
     org_isApproved := false;
     org_createdAt := now |}.

Definition registeredAdmin (orgRandom userRandom : string) (form : LoginForm) : User :=
  {| user_id := ("user_" ++ userRandom)%string;
     email := trim (regEmail form);
     user_name := trim (regAdminName form);
     password := Some (trim (regPassword form));
     parentId := None;
     role := ORG_ADMIN;
     organizationId := ("org_" ++ orgRandom)%string;
     organizationName := trim (regOrgName form);
     isApproved := true;
     hierarchy := None |}.

(** The form when a handler starts: messages cleared, [loading] set. *)
Definition submitting (form : LoginForm) : LoginForm :=
  setLoading true (setSuccess EmptyString (setError EmptyString form)).

(** The form after a registration that succeeded. *)
Definition registered (form : LoginForm) : LoginForm :=
  setLoading false
    (setRegPassword EmptyString (setRegEmail EmptyString (setRegAdminName EmptyString (setRegOrgName EmptyString
       (setEmail (regEmail form) (setOrgName (regOrgName form)
          (setIsRegistering false
             (setSuccess "Registration successful! Please wait for Super Admin approval."
                (submitting form))))))))).

(** The form after a handler that ended with the error [text]. *)
Definition refusedWith (text : string) (form : LoginForm) : LoginForm :=
  setLoading false (setError text (submitting form)).

(** The update with which the super admin approves an organization. *)
Definition approveOrganization : PartialOrganization :=
  {| po_id := None; po_name := None; po_adminEmail := None;
     po_isApproved := Some true; po_createdAt := None |}.

(** The loop of [s.replace(/=+$/, '')], on the reversed string. *)
Fixpoint dropPadding (t : string) : string :=
  match t with
  | String c rest => if Ascii.eqb c "=" then dropPadding rest else t
  | EmptyString => EmptyString
  end.

(** What [sendEmail] does to the base64 text of a mail, and what
    [fetchLatestData] does to the data of a body before [atob]. *)
Definition toUrlSafe (encoded : string) : string :=
  MailService.stripPadding
    (MailService.replaceAll "/" "_" (MailService.replaceAll "+" "-" encoded)).

Definition fromUrlSafe (data : string) : string :=
  MailService.replaceAll "_" "/" (MailService.replaceAll "-" "+" data).

(** The event is a message handed to the mail API for sending. *)
Definition is_send (e : event) : bool :=
  match e with
  | EvSendMail _ _ => true
  | _ => false
  end.

(** The subject line of the mail of a packet. *)
Definition subjectOf (packet : MailService.SyncPacket) : string :=
  (MailService.SYNC_SUBJECT_PREFIX ++ " "
     ++ MailService.PacketType_name (MailService.pkt_type packet)
     ++ " " ++ MailService.pkt_timestamp packet)%string.


(** The mail API does not deliver the message, or [atob] throws on the
    data of its body. *)
Definition unreadable {B : Base64} (gmail : MailService.Gmail) (id : string) : bool :=
  match MailService.getResult gmail id with
  | None => true
  | Some detail =>
      match MailService.messageBody detail with
      | Normal _ => false
      | Throw _ => true
      end
  end.

(** The event is a message that the mail API accepted. *)
Definition is_accepted (e : event) : bool :=
  match e with
  | EvSendMail _ ok => ok
  | _ => false
  end.

(* ===================================================================== *)
(** ** Sample data *)
(* ===================================================================== *)

Definition sampleCustomer : Customer :=
  {| cust_id := "cust_1"; createdBy := "user_1"; cust_organizationId := "org_acme";
     cust_name := "Precision Tools"; address := "12 Mill Road"; pinCode := "600001";
     contactPerson := "R. Kumar"; contactNumber := "0440000000";
     businessSector := "Automotive"; tungaloyShare := Finite 20;
     annualPotential := Finite 150; competitors := [("Other", Finite 80)];
     fyPlan := "FY25" |}.

(** A customer whose potential was computed from text that is no number. *)
Definition customerWithoutPotential : Customer :=
  {| cust_id := "cust_2"; createdBy := "user_1"; cust_organizationId := "org_acme";
     cust_name := "Fine Castings"; address := "3 Foundry Lane"; pinCode := "600002";
     contactPerson := "S. Mani"; contactNumber := "0440000001";
     businessSector := "Castings"; tungaloyShare := Finite 10;
     annualPotential := NaN; competitors := [];
     fyPlan := "FY25" |}.

Definition inlinePhoto : Attachment :=
  {| att_name := "photo.png"; att_data := "data:image/png;base64,AAAA"; att_type := photo |}.


Definition samplePlan : AnyPlan :=
  {| plan_id := "plan_1"; attachments := Some [inlinePhoto];
     plan_fields := [("type", VStr "CONVERSION"); ("customerId", VStr "cust_1");
                     ("organizationId", VStr "org_acme"); ("status", VStr "OPEN")] |}.


(** The first external call is rejected, the later ones resolve. *)
Definition firstCallFails : Env :=
  {| answer := fun n => match n with 0 => None | _ => Some "https://files.test/blob" end;
     cloud := INITIAL_DATA |}.

(** The service with a local fallback, initialized and connected. *)
Definition connected : MockDb.DatabaseService :=
  {| MockDb.data := INITIAL_DATA; MockDb.initialized := true; MockDb.isOffline := false;
     MockDb.localStorage := None; MockDb.calls := 0 |}.


(** The online-only service, connected. *)
Definition online : OnlineDb.DatabaseService :=
  {| OnlineDb.data := INITIAL_DATA; OnlineDb.initialized := true; OnlineDb.isOnline := true;
     OnlineDb.listeners := [c_organizations; c_users; c_customers; c_plans];
     OnlineDb.subscribers := []; OnlineDb.calls := 0 |}.

(** The second external call fails: the upload resolves, the download
    address does not. *)
Definition secondCallFails : Env :=
  {| answer := fun n => match n with 1 => None | _ => Some "https://files.test/blob" end;
     cloud := INITIAL_DATA |}.

Definition unapprovedAdmin : User :=
  {| user_id := "u_root"; email := "keerthithiruvarasan@gmail.com";
     user_name := "Keerthi"; password := Some "secret"; parentId := None;
     role := SUPER_ADMIN; organizationId := "system_global";
     organizationName := "System"; isApproved := false; hierarchy := None |}.

(** A store that answers every call and holds one user. *)
Definition storeWithUnapprovedAdmin : Env :=
  {| answer := fun _ => Some "ok";
     cloud := {| organizations := []; users := [unapprovedAdmin];
                 customers := []; plans := [] |} |}.

Definition someConfig : list (string * string) := [("projectId", "sales-tracker")].

Definition quiet : nat -> list OnlineDb.reaction := fun _ => [].

Definition acme : Organization :=
  {| org_id := "org_acme"; org_name := "Acme"; adminEmail := "admin@acme.test";
     org_isApproved := false; org_createdAt := "2024-01-01T00:00:00.000Z" |}.

Definition acmeAdmin : User :=
  {| user_id := "user_1"; email := "admin@acme.test"; user_name := "Ada";
     password := Some "pass1234"; parentId := None; role := ORG_ADMIN;
     organizationId := "org_acme"; organizationName := "Acme";
     isApproved := true; hierarchy := None |}.

(** The admin of an organization registered, like [acme], on the
    registration form, with the address and password that the [App] with a
    local fallback accepts first. *)
Definition acmeIntruder : User :=
  {| user_id := "user_2"; email := "keerthithiruvarasan@gmail.com"; user_name := "Eve";
     password := Some "123456789@Asdf"; parentId := None; role := ORG_ADMIN;
     organizationId := "org_acme"; organizationName := "Acme";
     isApproved := true; hierarchy := None |}.

Definition loggedOut : AppState :=
  {| user := None; currentPage := "login"; editingId := None |}.

Definition signedIn : MailService.MailService :=
  {| MailService.gapiInited := true; MailService.gisInited := true;
     MailService.accessToken := Some "ya29.token" |}.

Definition signedOut : MailService.MailService :=
  {| MailService.gapiInited := true; MailService.gisInited := true;
     MailService.accessToken := None |}.

Definition customerData : jsval :=
  VObj [("id", VStr "cust_1"); ("name", VStr "Precision Tools");
        ("annualPotential", VNum (Finite 150));
        ("competitors", VArr [VObj [("name", VStr "Other"); ("share", VNum (Finite 80))]])].

Definition customerPacket : MailService.SyncPacket :=
  {| MailService.pkt_type := MailService.CUSTOMER; MailService.pkt_data := customerData;
     MailService.pkt_timestamp := "2024-05-01T10:00:00.000Z";
     MailService.pkt_sender := "se@acme.test" |}.

(** A customer whose potential was entered as text that is no number. *)
Definition nanPacket : MailService.SyncPacket :=
  {| MailService.pkt_type := MailService.CUSTOMER;
     MailService.pkt_data := VObj [("id", VStr "cust_2"); ("annualPotential", VNum NaN)];
     MailService.pkt_timestamp := "2024-05-01T10:00:00.000Z";
     MailService.pkt_sender := "se@acme.test" |}.

Definition nulledPacket : MailService.SyncPacket :=
  {| MailService.pkt_type := MailService.CUSTOMER;
     MailService.pkt_data := VObj [("id", VStr "cust_2"); ("annualPotential", VNull)];
     MailService.pkt_timestamp := "2024-05-01T10:00:00.000Z";
     MailService.pkt_sender := "se@acme.test" |}.

(** A customer whose potential is the negative zero, and what comes back
    for it. *)
Definition negZeroPacket : MailService.SyncPacket :=
  {| MailService.pkt_type := MailService.CUSTOMER;
     MailService.pkt_data := VObj [("id", VStr "cust_3"); ("annualPotential", VNum NegZero)];
     MailService.pkt_timestamp := "2024-05-01T10:00:00.000Z";
     MailService.pkt_sender := "se@acme.test" |}.

Definition zeroedPacket : MailService.SyncPacket :=
  {| MailService.pkt_type := MailService.CUSTOMER;
     MailService.pkt_data := VObj [("id", VStr "cust_3"); ("annualPotential", VNum (Finite 0))];
     MailService.pkt_timestamp := "2024-05-01T10:00:00.000Z";
     MailService.pkt_sender := "se@acme.test" |}.

(** A customer whose potential is 12.5 and whose competitor has a share of
    -0.25. *)
Definition fractionPacket : MailService.SyncPacket :=
  {| MailService.pkt_type := MailService.CUSTOMER;
     MailService.pkt_data :=
       VObj [("id", VStr "cust_4"); ("annualPotential", VNum (Fraction 125 1));
             ("competitors",
              VArr [VObj [("name", VStr "Other"); ("share", VNum (Fraction (-25) 2))]])];
     MailService.pkt_timestamp := "2024-05-01T10:00:00.000Z";
     MailService.pkt_sender := "se@acme.test" |}.

(** White space: a no-break space, a space and an ideographic space; a
    tab and a line separator. *)
Definition paddingA : string := bytes [194; 160; 32; 227; 128; 128].
Definition paddingB : string := bytes [9; 226; 128; 168].

(** An inbox with a foreign message between two envelopes. *)
Definition inbox : MailService.Gmail :=
  {| MailService.entropy := "salt";
     MailService.sendResult := true;
     MailService.listResult := Some (Some ["m1"; "m2"; "m3"]);
     MailService.getResult := fun id =>
       if String.eqb id "m2" then
         Some {| MailService.snippet := "Meeting moved to Friday";
                 MailService.payload_body_data := None |}
       else
         Some {| MailService.snippet :=
                   match MailService.encrypt
                           {| MailService.entropy := "salt"; MailService.sendResult := true;
                              MailService.listResult := None;
                              MailService.getResult := fun _ => None |}
                           (MailService.packetObject customerPacket) with
                   | Normal envelope => envelope
                   | Throw _ => EmptyString
                   end;
                 MailService.payload_body_data := None |} |}.

Definition plainUser (address : string) (h : option UserHierarchy) : User :=
  {| user_id := "user_9"; email := address; user_name := "Field Engineer";
     password := Some "pw"; parentId := None; role := SALES_ENG;
     organizationId := "org_acme"; organizationName := "Acme";
     isApproved := true; hierarchy := h |}.

Definition sampleHierarchy : UserHierarchy :=
  {| rsmEmail := Some "rsm@acme.test";
     seEmails := Some ["se@acme.test"; "rsm@acme.test"];
     dealerEmails := Some ["dealer-without-address"; "dealer@acme.test"];
     dseEmails := None |}.

(** A plan document as the store holds it. *)
Definition planDocument : docval :=
  DMap [("id", DStr "plan_1");
        ("createdAt", DTimestamp "2024-05-01T10:00:00.000Z");
        ("customer", DReference "customers/cust_1");
        ("updateStatusLog",
         DArr [DMap [("status", DStr "OPEN");
                     ("timestamp", DTimestamp "2024-05-02T08:30:00.000Z")]]);
        ("valueLakhs", DNum (Finite 3))].

(** Every external call resolves. *)
Definition allCallsResolve : Env :=
  {| answer := fun _ => Some "https://files.test/blob"; cloud := INITIAL_DATA |}.

(** No external call resolves. *)
Definition noCallResolves : Env :=
  {| answer := fun _ => None; cloud := INITIAL_DATA |}.

(** The service with a local fallback, initialized and offline. *)
Definition disconnected : MockDb.DatabaseService :=
  MockDb.set_isOffline true connected.

(** What an earlier offline session left in the browser storage. *)
Definition earlierSession : AppData :=
  {| organizations := []; users := [acmeAdmin]; customers := [sampleCustomer]; plans := [] |}.

(** The two services, connected, with the records of that session. *)
Definition connectedWithRecords : MockDb.DatabaseService :=
  {| MockDb.data := earlierSession; MockDb.initialized := true; MockDb.isOffline := false;
     MockDb.localStorage := None; MockDb.calls := 0 |}.

Definition onlineWithRecords : OnlineDb.DatabaseService :=
  {| OnlineDb.data := earlierSession; OnlineDb.initialized := true;
     OnlineDb.isOnline := true;
     OnlineDb.listeners := [c_organizations; c_users; c_customers; c_plans];
     OnlineDb.subscribers := []; OnlineDb.calls := 0 |}.

(** An update of a user that approves the account. *)
Definition approval : PartialUser :=
  {| pu_id := None; pu_email := None; pu_name := None; pu_password := None;
     pu_parentId := None; pu_role := None; pu_organizationId := None;
     pu_organizationName := None; pu_isApproved := Some true; pu_hierarchy := None |}.



(** A subscriber that, when it is invoked, deregisters the subscriber 8
    and registers the subscriber 9. *)
Definition busy : nat -> list OnlineDb.reaction :=
  fun cb => match cb with
            | 7 => [OnlineDb.Unsubscribe 8; OnlineDb.Subscribe 9]
            | _ => []
            end.

(** The third external call is rejected. *)
Definition thirdCallFails : Env :=
  {| answer := fun n => match n with 2 => None | _ => Some "ok" end;
     cloud := INITIAL_DATA |}.

(** The organization [acme] after the super admin has approved it. *)
Definition acmeApproved : Organization :=
  {| org_id := "org_acme"; org_name := "Acme"; adminEmail := "admin@acme.test";
     org_isApproved := true; org_createdAt := "2024-01-01T00:00:00.000Z" |}.

(** A dealer of [acme]. *)
Definition acmeDealer : User :=
  {| user_id := "user_3"; email := "dealer@acme.test"; user_name := "Dee";
     password := Some "dealer-pass"; parentId := Some "user_1"; role := DEALER;
     organizationId := "org_acme"; organizationName := "Acme";
     isApproved := true; hierarchy := None |}.

(** An account whose password was stored with a blank at its end. *)
Definition paddedAccount : User :=
  {| user_id := "user_4"; email := "se@acme.test"; user_name := "Sam";
     password := Some "se-pass "; parentId := Some "user_1"; role := SALES_ENG;
     organizationId := "org_acme"; organizationName := "Acme";
     isApproved := true; hierarchy := None |}.

(** The session of the dealer, on the dashboard. *)
Definition dealerSession : AppState :=
  {| user := Some acmeDealer; currentPage := "home"; editingId := None |}.

(** The registration form, filled in. *)
Definition filledForm : LoginForm :=
  {| isRegistering := true; fld_orgName := EmptyString; fld_email := EmptyString;
     fld_password := EmptyString;
     regOrgName := " Global Tech "; regAdminName := "John Doe";
     regEmail := "admin@globaltech.test"; regPassword := "s3cret";
     error := EmptyString; notice := EmptyString; loading := false |}.

(** An inbox whose second message cannot be fetched. *)
Definition brokenInbox : MailService.Gmail :=
  {| MailService.entropy := MailService.entropy inbox;
     MailService.sendResult := true;
     MailService.listResult := Some (Some ["m1"; "m2"; "m3"]);
     MailService.getResult := fun id =>
       if String.eqb id "m2" then None else MailService.getResult inbox id |}.

(* ===================================================================== *)
(** * Properties *)
(* ===================================================================== *)

(** Running a sequence whose first part returns. *)
Lemma bind_run {S A B : Type} (m : M S A) (f : A -> M S B) (s : S) (a : A) :
  outcome (m s) = Normal a ->
  bind m f s =
  {| outcome := outcome (f a (final (m s)));
     final := final (f a (final (m s)));
     emitted := emitted (m s) ++ emitted (f a (final (m s))) |}.
Proof. intros H. unfold bind. rewrite H. reflexivity. Qed.

(** The laws of sequencing. *)
Lemma bind_ret_l {S A B : Type} (a : A) (f : A -> M S B) (s : S) :
  bind (ret a) f s = f a s.
Proof. unfold bind, ret. cbn. destruct (f a s); reflexivity. Qed.

Lemma bind_ret_r {S A : Type} (m : M S A) (s : S) :
  bind m ret s = m s.
Proof.
  unfold bind, ret. destruct (m s) as [[a|e] t evs]; cbn; rewrite ?app_nil_r; reflexivity.
Qed.

Lemma bind_assoc {S A B C : Type} (m : M S A) (f : A -> M S B) (g : B -> M S C) (s : S) :
  bind (bind m f) g s = bind m (fun a => bind (f a) g) s.
Proof.
  unfold bind. destruct (m s) as [[a|e] t evs]; cbn; [|reflexivity].
  destruct (f a t) as [[b|e] t' evs']; cbn; [|reflexivity].
  destruct (g b t') as [o t2 evs2]; cbn. rewrite app_assoc. reflexivity.
Qed.

(** Running a sequence whose first part throws. *)
Lemma bind_throw {S A B : Type} (m : M S A) (f : A -> M S B) (s : S) (e : string) :
  outcome (m s) = Throw e ->
  bind m f s = {| outcome := Throw e; final := final (m s); emitted := emitted (m s) |}.
Proof. intros H. unfold bind. rewrite H. reflexivity. Qed.

(** ** The definitions run *)

Example trim_strips_both_ends : trim "  Acme Tools  " = "Acme Tools".
Proof. reflexivity. Qed.

Example toLowerCase_maps_letters : toLowerCase "AcMe-42" = "acme-42".
Proof. reflexivity. Qed.

Example spread_overrides_in_place :
  spread [("status", VStr "OPEN"); ("valueLakhs", VNum (Finite 3))]
         [("status", VStr "WON"); ("updateStatus", VStr "closed")]
  = [("status", VStr "WON"); ("valueLakhs", VNum (Finite 3)); ("updateStatus", VStr "closed")].
Proof. reflexivity. Qed.

Example online_addCustomer_commits_then_writes :
  emitted (OnlineDb.addCustomer
             {| answer := fun _ => Some "ok"; cloud := INITIAL_DATA |} sampleCustomer online)
  = [EvSetDoc c_customers "cust_1" true; EvLocal c_customers].
Proof. reflexivity. Qed.

Example parse_rejects_the_empty_text : parse EmptyString = Throw "SyntaxError".
Proof. reflexivity. Qed.

Example parse_rejects_a_trailing_comma : parse "[1,]" = Throw "SyntaxError".
Proof. reflexivity. Qed.

Example parse_reads_nested_documents :
  parse "[1,[true,null],{},-20]"
  = Normal (JArr [JNum 1; JArr [JBool true; JNull]; JObj []; JNum (-20)]).
Proof. vm_compute. reflexivity. Qed.

Example serialize_drops_undefined :
  serialize (VObj [("a", VUndefined); ("b", VArr [VUndefined; VNum NaN])])
  = Some (JObj [("b", JArr [JNull; JNull])]).
Proof. reflexivity. Qed.

Example broadcast_sends_one_message :
  let r := MailService.broadcastData inbox customerPacket
             (plainUser "se@acme.test" (Some sampleHierarchy)) signedIn in
  outcome r = Normal tt /\ List.length (emitted r) = 1.
Proof. vm_compute. split; reflexivity. Qed.

(** ** The service with a local fallback *)

Lemma uploaded_form_refl (a : Attachment) : uploaded_form a a.
Proof. left. reflexivity. Qed.

Lemma uploaded_in_form (evs : list event) (a a' : Attachment) :
  uploaded_in evs a a' -> uploaded_form a a'.
Proof. intros [H | (Hu & _ & Hx)]; [left; exact H | right; split; assumption]. Qed.

Lemma uploaded_in_later (pre evs : list event) (a a' : Attachment) :
  uploaded_in evs a a' -> uploaded_in (pre ++ evs) a a'.
Proof.
  intros [H | (Hu & Hin & Hx)]; [left; exact H|].
  right. split; [exact Hu|]. split; [|exact Hx]. apply in_or_app. right. exact Hin.
Qed.

Lemma Forall2_uploaded_in_later (pre evs : list event) (l l' : list Attachment) :
  Forall2 (uploaded_in evs) l l' -> Forall2 (uploaded_in (pre ++ evs)) l l'.
Proof. induction 1; constructor; auto using uploaded_in_later. Qed.

Lemma Forall2_uploaded_in_form (evs : list event) (l l' : list Attachment) :
  Forall2 (uploaded_in evs) l l' -> Forall2 uploaded_form l l'.
Proof. induction 1; constructor; eauto using uploaded_in_form. Qed.

Lemma Forall2_uploaded_form_refl (l : list Attachment) : Forall2 uploaded_form l l.
Proof. induction l; constructor; auto using uploaded_form_refl. Qed.

Section MockDbFacts.
Variable env : Env.

Import MockDb.

(** One attachment that is no remote URL yet: two calls to the blob
    storage; when one of them is rejected the attachment is pushed as it
    is. *)
Lemma mock_uploadOne_spec (file : Attachment) (uploaded : list Attachment)
      (s : DatabaseService) :
  let r := try_catch
             (_ <- await env (EvUploadString (att_name file)) ;;
              url <- await env (EvGetDownloadURL (att_name file)) ;;
              ret (push uploaded
                     {| att_name := att_name file; att_data := url;
                        att_type := att_type file |}))
             (fun _ => ret (push uploaded file)) s in
  data (final r) = data s /\
  isOffline (final r) = isOffline s /\
  initialized (final r) = initialized s /\
  localStorage (final r) = localStorage s /\
  forallb is_upload (emitted r) = true /\
  ((outcome r = Normal (push uploaded file)) \/
   (exists url,
      outcome r = Normal (push uploaded {| att_name := att_name file; att_data := url;
                                           att_type := att_type file |}) /\
      In (EvGetDownloadURL (att_name file) true) (emitted r))).
Proof.
  unfold try_catch, await, bind, ret. cbn.
  destruct (answer env (calls s)) as [v|]; cbn;
    [destruct (answer env (S (calls s))) as [url|]; cbn|].
  - repeat split; auto. right. exists url. split; [reflexivity|]. right. left. reflexivity.
  - repeat split; auto.
  - repeat split; auto.
Qed.

Lemma mock_uploadEach_spec (files uploaded : list Attachment) (s : DatabaseService) :
  exists processed,
    outcome (uploadEach env files uploaded s) = Normal (uploaded ++ processed) /\
    Forall2 (uploaded_in (emitted (uploadEach env files uploaded s))) files processed /\
    data (final (uploadEach env files uploaded s)) = data s /\
    isOffline (final (uploadEach env files uploaded s)) = isOffline s /\
    initialized (final (uploadEach env files uploaded s)) = initialized s /\
    forallb is_upload (emitted (uploadEach env files uploaded s)) = true /\
    localStorage (final (uploadEach env files uploaded s)) = localStorage s.
Proof.
  revert uploaded s. induction files as [|file rest IH]; intros uploaded s.
  - exists []. cbn. rewrite app_nil_r. repeat split; constructor.
  - cbn [uploadEach]. destruct (is_url file) eqn:Hurl.
    + destruct (IH (push uploaded file) s)
        as (processed & Ho & Hf & Hd & Hoff & Hi & He & Hl).
      exists (file :: processed). unfold push in *. rewrite Ho, <- app_assoc.
      repeat split; auto. constructor; [left; reflexivity|exact Hf].
    + pose proof (mock_uploadOne_spec file uploaded s) as Hone. cbv zeta in Hone.
      set (one := try_catch _ _) in *.
      destruct Hone as (Hd1 & Hoff1 & Hi1 & Hl1 & He1 & Hcase).
      assert (Hstep : forall x, outcome (one s) = Normal (push uploaded x) ->
                uploaded_in (emitted (one s)) file x ->
                exists processed,
                  outcome ((uploaded' <- one ;; uploadEach env rest uploaded') s)
                    = Normal (uploaded ++ processed) /\
                  Forall2 (uploaded_in
                             (emitted ((uploaded' <- one ;; uploadEach env rest uploaded') s)))
                          (file :: rest) processed /\
                  data (final ((uploaded' <- one ;; uploadEach env rest uploaded') s))
                    = data s /\
                  isOffline (final ((uploaded' <- one ;; uploadEach env rest uploaded') s))
                    = isOffline s /\
                  initialized (final ((uploaded' <- one ;; uploadEach env rest uploaded') s))
                    = initialized s /\
                  forallb is_upload
                    (emitted ((uploaded' <- one ;; uploadEach env rest uploaded') s)) = true /\
                  localStorage (final ((uploaded' <- one ;; uploadEach env rest uploaded') s))
                    = localStorage s).
      { intros x Hx Hin.
        destruct (IH (push uploaded x) (final (one s)))
          as (processed & Ho & Hf & Hd & Hoff & Hi & He & Hl).
        exists (x :: processed). rewrite (bind_run _ _ _ Hx).
        cbn [outcome final emitted]. unfold push in *.
        rewrite Ho, <- app_assoc, Hd, Hoff, Hi, Hl, forallb_app, He1, He.
        repeat split; auto.
        constructor.
        - destruct Hin as [H | (Hu & Hev & Hurl')]; [left; exact H|].
          right. split; [exact Hu|]. split; [|exact Hurl'].
          apply in_or_app. left. exact Hev.
        - apply Forall2_uploaded_in_later. exact Hf. }
      destruct Hcase as [Hkept | (url & Hnew & Hev)].
      * apply (Hstep file Hkept). left. reflexivity.
      * apply (Hstep _ Hnew). right. split; [exact Hurl|]. split; [exact Hev|].
        exists url. reflexivity.
Qed.




Lemma mock_uploadAttachments_spec (atts : option (list Attachment)) (s : DatabaseService) :
  exists processed,
    outcome (uploadAttachments env atts s) = Normal processed /\
    Forall2 uploaded_form (files_of atts) processed /\
    data (final (uploadAttachments env atts s)) = data s /\
    isOffline (final (uploadAttachments env atts s)) = isOffline s /\
    initialized (final (uploadAttachments env atts s)) = initialized s /\
    forallb is_upload (emitted (uploadAttachments env atts s)) = true /\
    (isOffline s = true ->
     emitted (uploadAttachments env atts s) = [] /\ processed = files_of atts) /\
    Forall2 (uploaded_in (emitted (uploadAttachments env atts s))) (files_of atts) processed.
Proof.
  destruct atts as [[|file rest]|].
  - exists []. cbn. repeat split; constructor.
  - unfold uploadAttachments, bind, get. cbn -[uploadEach].
    destruct (isOffline s) eqn:Hoff; cbn -[uploadEach].
    + exists (file :: rest). repeat split; auto using Forall2_uploaded_form_refl.
      clear. induction (file :: rest); constructor; auto. left. reflexivity.
    + destruct (mock_uploadEach_spec (file :: rest) [] s)
        as (processed & Ho & Hf & Hd & Hoff' & Hi & He & Hl).
      exists processed. rewrite Ho.
      repeat split; auto; try congruence; try discriminate;
        try (apply (Forall2_uploaded_in_form Hf)).
  - exists []. cbn. repeat split; constructor.
Qed.

(** The common tail of the write methods. *)
Lemma mock_thenCommit_spec (call : bool -> event) (s : DatabaseService) :
  let r := thenCommit env (await env call) s in
  outcome r = Normal tt /\
  data (final r) = data s /\
  initialized (final r) = initialized s /\
  ( (isOffline s = true /\ isOffline (final r) = true /\
     exists b, emitted r = [EvSetItem b])
    \/ (isOffline s = false /\ isOffline (final r) = false /\
        emitted r = [call true])
    \/ (isOffline s = false /\ isOffline (final r) = true /\
        exists b, emitted r = [call false; EvSetItem b]) ).
Proof.
  unfold thenCommit, saveToLocal, await, bind, get, try_catch, when, modify, ret. cbn.
  destruct (isOffline s) eqn:Hoff; cbn.
  - rewrite Hoff. cbn. destruct (answer env (calls s)); cbn; rewrite ?Hoff;
      repeat split; auto; left; repeat split; eauto.
  - destruct (answer env (calls s)); cbn.
    + rewrite Hoff. repeat split; auto.
    + destruct (answer env (S (calls s))); cbn;
        repeat split; auto; right; right; repeat split; eauto.
Qed.

Lemma mock_write_then_commit (c : collection) (f : AppData -> AppData)
      (call : bool -> event) (s : DatabaseService) :
  let r := (writeLocal c f ;; thenCommit env (await env call)) s in
  outcome r = Normal tt /\
  data (final r) = f (data s) /\
  initialized (final r) = initialized s /\
  exists tail,
    emitted r = EvLocal c :: tail /\
    ( (isOffline s = true /\ isOffline (final r) = true /\
       exists b, tail = [EvSetItem b])
      \/ (isOffline s = false /\ isOffline (final r) = false /\
          tail = [call true])
      \/ (isOffline s = false /\ isOffline (final r) = true /\
          exists b, tail = [call false; EvSetItem b]) ).
Proof.
  pose proof (mock_thenCommit_spec call (set_data (f (data s)) s)) as H.
  cbv zeta in H. destruct H as (Ho & Hd & Hi & Hcases).
  cbv zeta. unfold bind.
  change (writeLocal c f s)
    with {| outcome := Normal tt; final := set_data (f (data s)) s;
            emitted := [EvLocal c] |}.
  cbn [outcome final emitted app].
  repeat split; auto.
  eexists. split; [reflexivity|]. exact Hcases.
Qed.

(** What a write does, in full: attachments first, then the collection,
    then the commit or the local save. *)
Lemma mock_perform_spec (w : write) (s : DatabaseService) :
  let r := perform env w s in
  outcome r = Normal tt /\
  stored_as w (data s) (data (final r)) /\
  initialized (final r) = initialized s /\
  exists uploads tail,
    emitted r = uploads ++ EvLocal (target w) :: tail /\
    forallb is_upload uploads = true /\
    (isOffline s = true -> uploads = []) /\
    ( (isOffline s = true /\ isOffline (final r) = true /\
       exists b, tail = [EvSetItem b])
      \/ (isOffline s = false /\ isOffline (final r) = false /\
          tail = [commit_event w true])
      \/ (isOffline s = false /\ isOffline (final r) = true /\
          exists b, tail = [commit_event w false; EvSetItem b]) ).
Proof.
  destruct w as [org|id updates|u|userId updates|customer|plan|planId updates];
    cbn [perform target commit_event stored_as].
  1-5: unfold addOrganization, updateOrganization, addUser, updateUser, addCustomer;
       cbv zeta;
       match goal with
       | |- context [(writeLocal ?c ?f ;; thenCommit _ (await _ ?call)) ?t] =>
           destruct (mock_write_then_commit c f call t) as (Ho & Hd & Hi & tail & He & Hc)
       end;
       rewrite Ho, Hd, Hi, He; cbn [organizations users customers plans
         set_organizations set_users set_customers set_plans];
       repeat split; auto; exists [], tail; repeat split; auto.
  - (* addPlan *)
    destruct (mock_uploadAttachments_spec (attachments plan) s)
      as (processed & Ho & Hf & Hd & Hoff & Hi & He & Hoffline & _).
    cbv zeta. unfold addPlan. rewrite (bind_run _ _ _ Ho).
    match goal with
    | |- context [(writeLocal ?c ?f ;; thenCommit _ (await _ ?call)) ?t] =>
        destruct (mock_write_then_commit c f call t) as (Ho' & Hd' & Hi' & tail & He' & Hc)
    end.
    cbn [outcome final emitted]. rewrite Ho', Hd', Hi', He', Hd, Hi.
    rewrite Hoff in Hc. cbn [plans set_plans].
    repeat split; auto.
    + exists processed. split; auto.
    + exists (emitted (uploadAttachments env (attachments plan) s)), tail.
      repeat split; auto. intros H. apply Hoffline in H. tauto.
  - (* updatePlan *)
    cbv zeta. unfold updatePlan.
    destruct (pp_attachments updates) as [[files|]|] eqn:Hatt.
    + destruct (mock_uploadAttachments_spec (Some files) s)
        as (processed & Ho & Hf & Hd & Hoff & Hi & He & Hoffline & _).
      assert (Hup : outcome
                ((processed <- uploadAttachments env (Some files) ;;
                  ret {| pp_id := pp_id updates; pp_attachments := Some (Some processed);
                         pp_fields := pp_fields updates |}) s)
              = Normal {| pp_id := pp_id updates; pp_attachments := Some (Some processed);
                          pp_fields := pp_fields updates |})
        by (rewrite (bind_run _ _ _ Ho); reflexivity).
      rewrite (bind_run _ _ _ Hup). rewrite (bind_run _ _ _ Ho).
      cbn [ret outcome final emitted].
      match goal with
      | |- context [(writeLocal ?c ?f ;; thenCommit _ (await _ ?call)) ?t] =>
          destruct (mock_write_then_commit c f call t) as (Ho' & Hd' & Hi' & tail & He' & Hc)
      end.
      rewrite Ho', Hd', Hi', He', Hd, Hi.
      rewrite Hoff in Hc. cbn [plans set_plans]. rewrite app_nil_r.
      repeat split; auto.
      * exists {| pp_id := pp_id updates; pp_attachments := Some (Some processed);
                  pp_fields := pp_fields updates |}.
        cbn [pp_id pp_fields pp_attachments].
        split; [reflexivity|]. split; [reflexivity|]. split; [|reflexivity].
        exists processed. split; auto.
      * exists (emitted (uploadAttachments env (Some files) s)), tail.
        repeat split; auto. intros H. apply Hoffline in H. tauto.
    + rewrite (bind_run (ret updates) _ s (a := updates) eq_refl).
      cbn [ret outcome final emitted].
      match goal with
      | |- context [(writeLocal ?c ?f ;; thenCommit _ (await _ ?call)) ?t] =>
          destruct (mock_write_then_commit c f call t) as (Ho' & Hd' & Hi' & tail & He' & Hc)
      end.
      rewrite Ho', Hd', Hi', He'.
      cbn [plans set_plans app].
      repeat split; auto.
      * exists updates. repeat split; auto.
      * exists [], tail. repeat split; auto.
    + rewrite (bind_run (ret updates) _ s (a := updates) eq_refl).
      cbn [ret outcome final emitted].
      match goal with
      | |- context [(writeLocal ?c ?f ;; thenCommit _ (await _ ?call)) ?t] =>
          destruct (mock_write_then_commit c f call t) as (Ho' & Hd' & Hi' & tail & He' & Hc)
      end.
      rewrite Ho', Hd', Hi', He'.
      cbn [plans set_plans app].
      repeat split; auto.
      * exists updates. repeat split; auto.
      * exists [], tail. repeat split; auto.
Qed.

Lemma try_catch_normal {S A : Type} (m : M S A) (h : string -> M S A) (s : S) (a : A) :
  outcome (m s) = Normal a -> try_catch m h s = m s.
Proof. intros H. unfold try_catch. rewrite H. reflexivity. Qed.


End MockDbFacts.

(** ** The online-only service *)

Section OnlineDbFacts.
Variable env : Env.

Import OnlineDb.

(** The loop of [uploadAttachments] either processes every file or throws
    at the first upload that fails; it touches neither the collections nor
    the mode. *)
Lemma online_uploadEach_spec (files uploaded : list Attachment) (s : DatabaseService) :
  let r := uploadEach env files uploaded s in
  data (final r) = data s /\
  isOnline (final r) = isOnline s /\
  subscribers (final r) = subscribers s /\
  forallb is_upload (emitted r) = true /\
  ( (exists processed,
        outcome r = Normal (uploaded ++ processed) /\
        Forall2 uploaded_form files processed /\
        existsb is_failed_upload (emitted r) = false)
    \/ (exists e, outcome r = Throw e /\
                  existsb is_failed_upload (emitted r) = true) ).
Proof.
  revert uploaded s. induction files as [|file rest IH]; intros uploaded s; cbv zeta.
  - cbn. repeat split; auto. left. exists []. rewrite app_nil_r. repeat split; constructor.
  - cbn [uploadEach]. destruct (is_url file) eqn:Hurl.
    + destruct (IH (push uploaded file) s) as (Hd & Hon & Hs & He & Hc).
      repeat split; auto.
      destruct Hc as [(processed & Ho & Hf & Hn) | (e & Ho & Hy)].
      * left. exists (file :: processed). unfold push in Ho. rewrite <- app_assoc in Ho.
        repeat split; auto. constructor; auto using uploaded_form_refl.
      * right. exists e. auto.
    + unfold bind at 1. unfold try_catch, await, bind, ret, throw.
      cbn -[uploadEach].
      destruct (answer env (calls s)) as [v|] eqn:Ha; cbn -[uploadEach].
      * destruct (answer env (S (calls s))) as [url|] eqn:Hb; cbn -[uploadEach].
        -- match goal with |- context [uploadEach env rest ?u ?t] =>
             destruct (IH u t) as (Hd & Hon & Hs & He & Hc) end.
           rewrite Hd, Hon, Hs, He.
           repeat split; auto.
           destruct Hc as [(processed & Ho & Hf & Hn) | (e & Ho & Hy)].
           ++ left. eexists (_ :: processed). unfold push in *.
              rewrite <- app_assoc in Ho. rewrite Ho, Hn.
              repeat split; auto. constructor; auto.
              right. split; [exact Hurl|]. eexists. reflexivity.
           ++ right. exists e. rewrite Ho, Hy. auto.
        -- repeat split; auto. right. eexists. split; reflexivity.
      * repeat split; auto. right. eexists. split; reflexivity.
Qed.

Lemma online_uploadAttachments_spec (atts : option (list Attachment)) (s : DatabaseService) :
  let r := uploadAttachments env atts s in
  data (final r) = data s /\
  isOnline (final r) = isOnline s /\
  subscribers (final r) = subscribers s /\
  forallb is_upload (emitted r) = true /\
  ( (exists processed,
        outcome r = Normal processed /\
        Forall2 uploaded_form (files_of atts) processed /\
        existsb is_failed_upload (emitted r) = false /\
        (files_of atts = [] \/ isOnline s = true))
    \/ (outcome r = Throw "Cannot upload files while offline" /\
        files_of atts <> [] /\ isOnline s = false /\ emitted r = [])
    \/ (exists e, outcome r = Throw e /\
                  files_of atts <> [] /\ isOnline s = true /\
                  existsb is_failed_upload (emitted r) = true) ).
Proof.
  destruct atts as [[|file rest]|]; cbv zeta.
  - cbn. repeat split; auto. left. exists []. repeat split; auto.
  - unfold uploadAttachments, bind, get, throw. cbn -[uploadEach].
    destruct (isOnline s) eqn:Hon; cbn -[uploadEach].
    + destruct (online_uploadEach_spec (file :: rest) [] s) as (Hd & Hon' & Hs & He & Hc).
      cbv zeta in *. repeat split; auto; try congruence.
      destruct Hc as [(processed & Ho & Hf & Hn) | (e & Ho & Hy)].
      * left. exists processed. rewrite Ho. repeat split; auto.
      * right. right. exists e. repeat split; auto. discriminate.
    + repeat split; auto. right. left. repeat split; auto. discriminate.
  - cbn. repeat split; auto. left. exists []. repeat split; auto.
Qed.

Lemma online_commit_then_write (call : bool -> event) (c : collection)
      (f : AppData -> AppData) (s : DatabaseService) :
  let r := (_ <- await env call ;; writeLocal c f) s in
  isOnline (final r) = isOnline s /\
  subscribers (final r) = subscribers s /\
  ( (outcome r = Normal tt /\ data (final r) = f (data s) /\
     emitted r = [call true; EvLocal c])
    \/ (outcome r = Throw "rejected" /\ data (final r) = data s /\
        emitted r = [call false]) ).
Proof.
  unfold bind, await, writeLocal, bind, modify, emit. cbn.
  destruct (answer env (calls s)); cbn; repeat split; auto.
Qed.

(** What a write does, in full: attachments first, then the remote commit,
    then, if the commit succeeded, the collection. *)
Lemma online_perform_spec (w : write) (s : DatabaseService) :
  let r := perform env w s in
  isOnline (final r) = isOnline s /\
  subscribers (final r) = subscribers s /\
  exists uploads,
    forallb is_upload uploads = true /\
    ( (outcome r = Normal tt /\
       stored_as w (data s) (data (final r)) /\
       emitted r = uploads ++ [commit_event w true; EvLocal (target w)] /\
       existsb is_failed_upload uploads = false)
      \/ (outcome r = Throw "rejected" /\
          data (final r) = data s /\
          emitted r = uploads ++ [commit_event w false] /\
          existsb is_failed_upload uploads = false)
      \/ (outcome r = Throw "Cannot upload files while offline" /\
          data (final r) = data s /\
          emitted r = [] /\ uploads = [] /\ isOnline s = false)
      \/ (exists e, outcome r = Throw e /\
                    data (final r) = data s /\
                    emitted r = uploads /\ isOnline s = true /\
                    existsb is_failed_upload uploads = true) ).
Proof.
  destruct w as [org|id updates|u|userId updates|customer|plan|planId updates];
    cbn [perform target commit_event stored_as].
  1-5: unfold addOrganization, updateOrganization, addUser, updateUser, addCustomer;
       cbv zeta;
       match goal with
       | |- context [(_ <- await _ ?call ;; writeLocal ?c ?f) ?t] =>
           destruct (online_commit_then_write call c f t)
             as (Hon & Hs & [(Ho & Hd & He) | (Ho & Hd & He)])
       end;
       rewrite Ho, Hd, He, Hon, Hs;
       cbn [organizations users customers plans
            set_organizations set_users set_customers set_plans];
       repeat split; auto; exists []; split; auto;
       first [ solve [left; repeat split; auto]
             | solve [right; left; repeat split; auto] ].
  - (* addPlan *)
    cbv zeta. unfold addPlan.
    destruct (online_uploadAttachments_spec (attachments plan) s)
      as (Hd & Hon & Hs & He & Hc). cbv zeta in *.
    destruct Hc as [(processed & Ho & Hf & Hn & _) | [(Ho & _ & Hoff & Hnil) | (e & Ho & _ & Hon' & Hy)]].
    + rewrite (bind_run _ _ _ Ho). cbn [outcome final emitted].
      match goal with
      | |- context [(_ <- await _ ?call ;; writeLocal ?c ?f) ?t] =>
          destruct (online_commit_then_write call c f t)
            as (Hon2 & Hs2 & [(Ho2 & Hd2 & He2) | (Ho2 & Hd2 & He2)])
      end;
        rewrite Ho2, Hd2, He2, Hon2, Hs2, Hd, Hon, Hs; cbn [plans set_plans];
        repeat split; auto;
        exists (emitted (uploadAttachments env (attachments plan) s)); split; auto.
      * left. repeat split; auto. exists processed. split; auto.
      * right. left. repeat split; auto.
    + rewrite (bind_throw _ _ _ Ho). cbn [outcome final emitted].
      rewrite Hd, Hon, Hs, Hnil. repeat split; auto. exists []. split; auto.
      right. right. left. repeat split; auto.
    + rewrite (bind_throw _ _ _ Ho). cbn [outcome final emitted].
      rewrite Hd, Hon, Hs. repeat split; auto.
      exists (emitted (uploadAttachments env (attachments plan) s)). split; auto.
      right. right. right. exists e. repeat split; auto.
  - (* updatePlan *)
    cbv zeta. unfold updatePlan.
    destruct (pp_attachments updates) as [[files|]|] eqn:Hatt.
    + destruct (online_uploadAttachments_spec (Some files) s)
        as (Hd & Hon & Hs & He & Hc). cbv zeta in *.
      destruct Hc as [(processed & Ho & Hf & Hn & _) | [(Ho & _ & Hoff & Hnil) | (e & Ho & _ & Hon' & Hy)]].
      * assert (Hup : outcome
                  ((processed <- uploadAttachments env (Some files) ;;
                    ret {| pp_id := pp_id updates; pp_attachments := Some (Some processed);
                           pp_fields := pp_fields updates |}) s)
                = Normal {| pp_id := pp_id updates; pp_attachments := Some (Some processed);
                            pp_fields := pp_fields updates |})
          by (rewrite (bind_run _ _ _ Ho); reflexivity).
        rewrite (bind_run _ _ _ Hup). rewrite (bind_run _ _ _ Ho).
        cbn [ret outcome final emitted]. rewrite app_nil_r.
        match goal with
        | |- context [(_ <- await _ ?call ;; writeLocal ?c ?f) ?t] =>
            destruct (online_commit_then_write call c f t)
              as (Hon2 & Hs2 & [(Ho2 & Hd2 & He2) | (Ho2 & Hd2 & He2)])
        end;
          rewrite Ho2, Hd2, He2, Hon2, Hs2, Hd, Hon, Hs; cbn [plans set_plans];
          repeat split; auto;
          exists (emitted (uploadAttachments env (Some files) s)); split; auto.
        -- left. repeat split; auto.
           exists {| pp_id := pp_id updates; pp_attachments := Some (Some processed);
                     pp_fields := pp_fields updates |}.
           cbn [pp_id pp_fields pp_attachments].
           split; [reflexivity|]. split; [reflexivity|]. split; [|reflexivity].
           exists processed. split; auto.
        -- right. left. repeat split; auto.
      * assert (Hup : outcome
                  ((processed <- uploadAttachments env (Some files) ;;
                    ret {| pp_id := pp_id updates; pp_attachments := Some (Some processed);
                           pp_fields := pp_fields updates |}) s)
                = Throw "Cannot upload files while offline")
          by (rewrite (bind_throw _ _ _ Ho); reflexivity).
        rewrite (bind_throw _ _ _ Hup). rewrite (bind_throw _ _ _ Ho).
        cbn [outcome final emitted].
        rewrite Hd, Hon, Hs, Hnil. repeat split; auto. exists []. split; auto.
        right. right. left. repeat split; auto.
      * assert (Hup : outcome
                  ((processed <- uploadAttachments env (Some files) ;;
                    ret {| pp_id := pp_id updates; pp_attachments := Some (Some processed);
                           pp_fields := pp_fields updates |}) s)
                = Throw e)
          by (rewrite (bind_throw _ _ _ Ho); reflexivity).
        rewrite (bind_throw _ _ _ Hup). rewrite (bind_throw _ _ _ Ho).
        cbn [outcome final emitted].
        rewrite Hd, Hon, Hs. repeat split; auto.
        exists (emitted (uploadAttachments env (Some files) s)). split; auto.
        right. right. right. exists e. repeat split; auto.
    + rewrite (bind_run (ret updates) _ s (a := updates) eq_refl).
      cbn [ret outcome final emitted app].
      match goal with
      | |- context [(_ <- await _ ?call ;; writeLocal ?c ?f) ?t] =>
          destruct (online_commit_then_write call c f t)
            as (Hon2 & Hs2 & [(Ho2 & Hd2 & He2) | (Ho2 & Hd2 & He2)])
      end;
        rewrite Ho2, Hd2, He2, Hon2, Hs2; cbn [plans set_plans];
        repeat split; auto; exists []; split; auto.
      * left. repeat split; auto. exists updates. repeat split; auto.
      * right. left. repeat split; auto.
    + rewrite (bind_run (ret updates) _ s (a := updates) eq_refl).
      cbn [ret outcome final emitted app].
      match goal with
      | |- context [(_ <- await _ ?call ;; writeLocal ?c ?f) ?t] =>
          destruct (online_commit_then_write call c f t)
            as (Hon2 & Hs2 & [(Ho2 & Hd2 & He2) | (Ho2 & Hd2 & He2)])
      end;
        rewrite Ho2, Hd2, He2, Hon2, Hs2; cbn [plans set_plans];
        repeat split; auto; exists []; split; auto.
      * left. repeat split; auto. exists updates. repeat split; auto.
      * right. left. repeat split; auto.
Qed.

End OnlineDbFacts.

(** ** Order of remote commit and local write (C1) *)

Lemma commit_first_uploads (b : bool) (uploads rest : list event) :
  forallb is_upload uploads = true ->
  commit_first b (uploads ++ rest) = commit_first b rest.
Proof.
  induction uploads as [|e us IH]; intros H; [reflexivity|].
  cbn in H. apply andb_prop in H. destruct H as [He Hus].
  cbn [app]. destruct e; try discriminate; cbn; auto.
Qed.

Lemma local_first_uploads (b : bool) (uploads rest : list event) :
  forallb is_upload uploads = true ->
  local_first b (uploads ++ rest) = local_first b rest.
Proof.
  induction uploads as [|e us IH]; intros H; [reflexivity|].
  cbn in H. apply andb_prop in H. destruct H as [He Hus].
  cbn [app]. destruct e; try discriminate; cbn; auto.
Qed.

Lemma existsb_uploads (p : event -> bool) (uploads : list event) :
  (forall e, is_upload e = true -> p e = false) ->
  forallb is_upload uploads = true ->
  existsb p uploads = false.
Proof.
  intros Hp. induction uploads as [|e us IH]; intros H; [reflexivity|].
  cbn in H. apply andb_prop in H. destruct H as [He Hus].
  cbn. rewrite (Hp e He), (IH Hus). reflexivity.
Qed.

Lemma upload_not_local (e : event) : is_upload e = true -> is_local e = false.
Proof. destruct e; cbn; congruence. Qed.


(** C1, at an input where the claim fails: the service with a local
    fallback is connected, [addCustomer] is called and the document store
    rejects the commit.  The customer is pushed before the commit is
    attempted and stays in the collection although no commit succeeded. *)
Lemma C1_counterexample :
  let r := MockDb.addCustomer firstCallFails sampleCustomer connected in
  MockDb.isOffline connected = false /\
  emitted r = [EvLocal c_customers; EvSetDoc c_customers "cust_1" false; EvSetItem true] /\
  MockDb.getCustomers (final r) = [sampleCustomer] /\
  commit_first false (emitted r) = false.
Proof. cbv zeta. repeat split. Qed.

(** C1, amended.  In the online-only service every write commits remotely
    first: a collection is written only after a commit that succeeded, and a
    write that does not return normally leaves the collections as they were.
    In the service with a local fallback every write changes its collection
    first and attempts the remote commit afterwards, so in connected mode the
    collection is written before any commit has succeeded. *)
Theorem C1_commit_order :
  (forall (env : Env) (w : write) (s : OnlineDb.DatabaseService),
     let r := OnlineDb.perform env w s in
     commit_first false (emitted r) = true /\
     (outcome r <> Normal tt ->
      OnlineDb.data (final r) = OnlineDb.data s /\ existsb is_local (emitted r) = false))
  /\
  (forall (env : Env) (w : write) (s : MockDb.DatabaseService),
     let r := MockDb.perform env w s in
     local_first false (emitted r) = true /\
     existsb is_local (emitted r) = true /\
     (MockDb.isOffline s = false -> commit_first false (emitted r) = false)).
Proof.
  split.
  - intros env w s r.
    destruct (online_perform_spec env w s) as (_ & _ & uploads & Hup & Hc).
    fold r in Hc.
    destruct Hc as [(Ho & _ & He & _) | [(Ho & Hd & He & _) |
                    [(Ho & Hd & He & _) | (e & Ho & Hd & He & _)]]].
    + rewrite He, commit_first_uploads by assumption. split.
      * destruct w; reflexivity.
      * congruence.
    + rewrite He, commit_first_uploads by assumption. split.
      * destruct w; reflexivity.
      * intros _. split; [assumption|]. rewrite existsb_app.
        rewrite (existsb_uploads is_local uploads upload_not_local Hup).
        destruct w; reflexivity.
    + rewrite He. cbn. auto.
    + rewrite He. split.
      * rewrite <- (app_nil_r uploads), commit_first_uploads by assumption. reflexivity.
      * intros _. split; [assumption|].
        exact (existsb_uploads is_local uploads upload_not_local Hup).
  - intros env w s r.
    destruct (mock_perform_spec env w s) as (_ & _ & _ & uploads & tail & He & Hup & _ & Hc).
    fold r in He, Hc. rewrite He.
    rewrite local_first_uploads, commit_first_uploads by assumption.
    rewrite existsb_app. cbn [existsb is_local]. rewrite orb_true_r.
    split; [|split; [reflexivity|]].
    + cbn [local_first].
      destruct Hc as [(_ & _ & b & Ht) | [(_ & _ & Ht) | (_ & _ & b & Ht)]];
        rewrite Ht; destruct w; reflexivity.
    + intros _. reflexivity.
Qed.

Lemma C1_witness :
  outcome (OnlineDb.perform firstCallFails (AddCustomer sampleCustomer) online) <> Normal tt /\
  OnlineDb.data (final (OnlineDb.perform firstCallFails (AddCustomer sampleCustomer) online))
    = OnlineDb.data online /\
  MockDb.isOffline connected = false /\
  commit_first false
    (emitted (MockDb.perform firstCallFails (AddCustomer sampleCustomer) connected)) = false.
Proof.
  split; [discriminate|].
  destruct C1_commit_order as [Honline Hmock].
  split.
  - apply (Honline firstCallFails (AddCustomer sampleCustomer) online). discriminate.
  - split; [reflexivity|].
    apply (Hmock firstCallFails (AddCustomer sampleCustomer) connected). reflexivity.
Defined.

(** ** Attachments (C6) *)





(** ** The bootstrap account (C10) *)

Lemma find_existsb {A : Type} (p : A -> bool) (l : list A) :
  existsb p l = match find p l with Some _ => true | None => false end.
Proof. induction l as [|x l IH]; cbn; [reflexivity|]. destruct (p x); auto. Qed.

Lemma mock_ensureSuperAdmin_spec (s : MockDb.DatabaseService) :
  MockDb.ensureSuperAdmin s =
  {| outcome := Normal tt;
     final := if existsb MockDb.isSuperAdminAccount (users (MockDb.data s)) then s
              else MockDb.set_data
                     (set_users (MockDb.data s)
                        (push (users (MockDb.data s)) MockDb.bootstrapAdmin)) s;
     emitted := [] |}.
Proof.
  unfold MockDb.ensureSuperAdmin, bind, get. cbn.
  rewrite find_existsb. unfold array_find.
  destruct (find MockDb.isSuperAdminAccount (users (MockDb.data s))); reflexivity.
Qed.

Lemma existsb_push {A : Type} (p : A -> bool) (l : list A) (x : A) :
  existsb p (push l x) = existsb p l || p x.
Proof. unfold push. rewrite existsb_app. cbn. rewrite orb_false_r. reflexivity. Qed.

Lemma mock_awaitAll_events (env : Env) (s : MockDb.DatabaseService) :
  emitted (MockDb.awaitAll env [c_organizations; c_users; c_customers; c_plans] s) =
  [EvGetDocs c_organizations (resolves env (MockDb.calls s));
   EvGetDocs c_users (resolves env (1 + MockDb.calls s));
   EvGetDocs c_customers (resolves env (2 + MockDb.calls s));
   EvGetDocs c_plans (resolves env (3 + MockDb.calls s))].
Proof. reflexivity. Qed.

Lemma appdata_eta (d : AppData) :
  {| organizations := organizations d; users := users d;
     customers := customers d; plans := plans d |} = d.
Proof. destruct d; reflexivity. Qed.

Lemma mock_ensureSuperAdmin_data (s : MockDb.DatabaseService) :
  MockDb.data (final (MockDb.ensureSuperAdmin s)) =
  set_users (MockDb.data s) (ensured (users (MockDb.data s))).
Proof.
  rewrite mock_ensureSuperAdmin_spec. cbn [final]. unfold ensured.
  destruct (existsb MockDb.isSuperAdminAccount (users (MockDb.data s))); cbn.
  - destruct (MockDb.data s); reflexivity.
  - reflexivity.
Qed.

Lemma mock_seedOfflineData_spec (env : Env) (s : MockDb.DatabaseService) :
  let r := MockDb.seedOfflineData env s in
  outcome r = Normal tt /\
  MockDb.data (final r)
    = {| organizations := []; customers := []; plans := []; users := [] |} /\
  MockDb.isOffline (final r) = MockDb.isOffline s /\
  MockDb.initialized (final r) = MockDb.initialized s /\
  forallb (fun e => negb (is_remote e)) (emitted r) = true.
Proof.
  unfold MockDb.seedOfflineData, MockDb.saveToLocal, bind, get, modify, when, try_catch, ret.
  cbn. destruct (MockDb.isOffline s) eqn:Hoff; cbn; auto.
  destruct (answer env (MockDb.calls s)); cbn; rewrite ?Hoff; repeat split; auto.
Qed.

(** [loadFromLocal]: it returns; [this.data] is what the browser storage
    gives, an [AppData] or not. *)
Lemma mock_loadFromLocal_spec (env : Env) (s : MockDb.DatabaseService) :
  let r := MockDb.loadFromLocal env s in
  outcome r = Normal tt /\
  MockDb.isOffline (MockDb.service (final r)) = MockDb.isOffline s /\
  MockDb.initialized (MockDb.service (final r)) = MockDb.initialized s /\
  forallb (fun e => negb (is_remote e)) (emitted r) = true /\
  match localData (MockDb.localStorage s) with
  | Some d => exists t, final r = MockDb.Sound t /\ MockDb.data t = d
  | None =>
      exists v, MockDb.localStorage s = Some (MockDb.Parsed v) /\
                readAppData v = None /\
                final r = MockDb.Astray v s
  end.
Proof.
  cbv zeta. unfold MockDb.loadFromLocal, localData, entering.
  destruct (MockDb.localStorage s) as [[text|v]|].
  - destruct (mock_seedOfflineData_spec env s) as (Ho & Hd & Hoff & Hi & He).
    cbn [outcome final emitted MockDb.service]. repeat split; auto. eexists. split; eauto.
  - cbn [outcome final emitted]. destruct (readAppData v) as [d|] eqn:Hread.
    + cbn. repeat split; auto. eexists. split; reflexivity.
    + cbn. repeat split; auto. exists v. auto.
  - destruct (mock_seedOfflineData_spec env s) as (Ho & Hd & Hoff & Hi & He).
    cbn [outcome final emitted MockDb.service]. repeat split; auto. eexists. split; eauto.
Qed.

(** The end of [init]: [this.initialized = true; this.ensureSuperAdmin()]. *)
Lemma mock_init_end_spec (l : MockDb.Loaded) :
  let finish := modify (MockDb.onFields (MockDb.set_initialized true)) ;;
                MockDb.ensureSuperAdminLoaded in
  emitted (finish l) = [] /\
  MockDb.initialized (MockDb.service (final (finish l))) = true /\
  MockDb.isOffline (MockDb.service (final (finish l)))
    = MockDb.isOffline (MockDb.service l) /\
  match l with
  | MockDb.Sound s =>
      outcome (finish l) = Normal tt /\
      exists t, final (finish l) = MockDb.Sound t /\
                MockDb.data t
                  = set_users (MockDb.data s) (ensured (users (MockDb.data s)))
  | MockDb.Astray v s =>
      match MockDb.ensureSuperAdminOn v with
      | Normal v' =>
          outcome (finish l) = Normal tt /\
          final (finish l) = MockDb.Astray v' (MockDb.set_initialized true s)
      | Throw e =>
          outcome (finish l) = Throw e /\
          final (finish l) = MockDb.Astray v (MockDb.set_initialized true s)
      end
  end.
Proof.
  cbv zeta.
  rewrite (bind_run (modify (MockDb.onFields (MockDb.set_initialized true))) _ l
             (a := tt) eq_refl).
  cbn [outcome final emitted modify app].
  destruct l as [s|v s]; cbn [MockDb.onFields MockDb.ensureSuperAdminLoaded MockDb.service].
  - unfold entering. rewrite (mock_ensureSuperAdmin_spec (MockDb.set_initialized true s)).
    cbn [outcome final emitted MockDb.service]. unfold ensured.
    cbn [MockDb.data MockDb.set_initialized].
    destruct (existsb MockDb.isSuperAdminAccount (users (MockDb.data s)));
      (split; [reflexivity|]); (split; [reflexivity|]); (split; [reflexivity|]);
      (split; [reflexivity|]); eexists; (split; [reflexivity|]); cbn;
      [destruct (MockDb.data s); reflexivity | reflexivity].
  - destruct (MockDb.ensureSuperAdminOn v) as [v'|e]; cbn; repeat split; reflexivity.
Qed.

Lemma try_catch_throw {S A : Type} (m : M S A) (h : string -> M S A) (s : S) (e : string) :
  outcome (m s) = Throw e ->
  try_catch m h s =
  {| outcome := outcome (h e (final (m s)));
     final := final (h e (final (m s)));
     emitted := emitted (m s) ++ emitted (h e (final (m s))) |}.
Proof. intros H. unfold try_catch. rewrite H. reflexivity. Qed.

Lemma try_finally_run {S A : Type} (body : M S A) (cleanup : M S unit) (s : S) :
  outcome (cleanup (final (body s))) = Normal tt ->
  try_finally body cleanup s =
  {| outcome := outcome (body s);
     final := final (cleanup (final (body s)));
     emitted := emitted (body s) ++ emitted (cleanup (final (body s))) |}.
Proof. intros H. unfold try_finally. rewrite H. reflexivity. Qed.

Lemma forallb_seq_shift (P : nat -> bool) (n a m : nat) :
  forallb (fun k => P (S n + k)) (seq a m) = forallb (fun k => P (n + k)) (seq (S a) m).
Proof.
  revert a. induction m as [|m IH]; intros a; cbn [seq forallb]; [reflexivity|].
  rewrite IH. f_equal. f_equal. lia.
Qed.

Lemma mock_awaitAll_spec (env : Env) (cs : list collection) (s : MockDb.DatabaseService) :
  let r := MockDb.awaitAll env cs s in
  outcome r =
    Normal (forallb (fun k => match answer env (MockDb.calls s + k) with
                              | Some _ => true | None => false end)
                    (seq 0 (List.length cs))) /\
  MockDb.data (final r) = MockDb.data s /\
  MockDb.localStorage (final r) = MockDb.localStorage s /\
  MockDb.initialized (final r) = MockDb.initialized s /\
  MockDb.calls (final r) = MockDb.calls s + List.length cs.
Proof.
  revert s. induction cs as [|c rest IH]; intros s; cbv zeta.
  - cbn. rewrite Nat.add_0_r. auto.
  - cbn [MockDb.awaitAll outcome final emitted List.length seq forallb].
    destruct (IH (MockDb.tick s)) as (Ho & Hd & Hl & Hi & Hc).
    rewrite Ho, Hd, Hl, Hi, Hc. rewrite Nat.add_0_r. cbn [MockDb.tick MockDb.calls MockDb.data MockDb.localStorage MockDb.initialized].
    repeat split; auto; try lia.
    f_equal. f_equal.
    apply (forallb_seq_shift
             (fun i => match answer env i with Some _ => true | None => false end)).
Qed.

(** The load step of [init] with a configuration: bulk read, or the
    browser storage when a read is rejected. *)
Lemma mock_init_load_spec (env : Env) (s : MockDb.DatabaseService) :
  let body :=
    try_catch_into MockDb.Sound
      (ok <- MockDb.awaitAll env [c_organizations; c_users; c_customers; c_plans] ;;
       if ok then
         modify (fun s => MockDb.set_data (set_organizations (MockDb.data s) (organizations (cloud env))) s) ;;
         modify (fun s => MockDb.set_data (set_users (MockDb.data s) (users (cloud env))) s) ;;
         modify (fun s => MockDb.set_data (set_customers (MockDb.data s) (customers (cloud env))) s) ;;
         modify (fun s => MockDb.set_data (set_plans (MockDb.data s) (plans (cloud env))) s) ;;
         modify (MockDb.set_isOffline false)
       else throw "rejected")
      (fun _ s => MockDb.loadFromLocal env (MockDb.set_isOffline true s)) in
  outcome (body s) = Normal tt /\
  MockDb.initialized (MockDb.service (final (body s))) = MockDb.initialized s /\
  MockDb.isOffline (MockDb.service (final (body s)))
    = negb (cloudReads env (MockDb.calls s)) /\
  (exists rest,
     emitted (body s) =
       emitted (MockDb.awaitAll env [c_organizations; c_users; c_customers; c_plans] s)
       ++ rest /\
     forallb (fun e => negb (is_remote e)) rest = true) /\
  match (if cloudReads env (MockDb.calls s) then Some (cloud env)
         else localData (MockDb.localStorage s)) with
  | Some d => exists t, final (body s) = MockDb.Sound t /\ MockDb.data t = d
  | None =>
      exists v t, MockDb.localStorage s = Some (MockDb.Parsed v) /\
                  readAppData v = None /\
                  final (body s) = MockDb.Astray v t
  end.
Proof.
  cbv zeta.
  destruct (mock_awaitAll_spec env [c_organizations; c_users; c_customers; c_plans] s)
    as (Ho & Hd & Hl & Hi & Hc).
  change (forallb _ (seq 0 _)) with (cloudReads env (MockDb.calls s)) in Ho.
  unfold try_catch_into.
  destruct (cloudReads env (MockDb.calls s)) eqn:Hreads.
  - rewrite (bind_run _ _ _ Ho). cbn [outcome final emitted app MockDb.service].
    cbn. rewrite ?Hi. repeat split; auto.
    + exists []. split; reflexivity.
    + eexists. split; [reflexivity|]. cbn. destruct (cloud env); reflexivity.
  - rewrite (bind_run _ _ _ Ho). cbn [outcome final emitted throw].
    match goal with |- context [MockDb.loadFromLocal env ?t] =>
      destruct (mock_loadFromLocal_spec env t) as (Ho2 & Hoff2 & Hi2 & He2 & Hcase) end.
    rewrite Ho2, Hoff2, Hi2.
    cbn [MockDb.localStorage MockDb.set_isOffline MockDb.initialized MockDb.isOffline negb]
      in *.
    rewrite Hl in Hcase. rewrite Hi, app_nil_r.
    split; [reflexivity|]. split; [reflexivity|]. split; [reflexivity|]. split.
    + eexists. split; [reflexivity|]. exact He2.
    + destruct (localData (MockDb.localStorage s)) as [d|].
      * exact Hcase.
      * destruct Hcase as (v & Hs & Hread & Hfinal). exists v. eexists. eauto.
Qed.

(** [init], in full. *)
Lemma mock_init_spec (env : Env) (firebaseConfig : list (string * string))
      (s : MockDb.DatabaseService) :
  MockDb.initialized s = false ->
  let r := MockDb.init env firebaseConfig s in
  MockDb.initialized (MockDb.service (final r)) = true /\
  MockDb.isOffline (MockDb.service (final r)) = turnsToStorage env firebaseConfig s /\
  (firebaseConfig = [] ->
   forallb (fun e => negb (is_remote e)) (emitted r) = true) /\
  (firebaseConfig <> [] ->
   exists rest,
     emitted r =
       [EvGetDocs c_organizations (resolves env (MockDb.calls s));
        EvGetDocs c_users (resolves env (1 + MockDb.calls s));
        EvGetDocs c_customers (resolves env (2 + MockDb.calls s));
        EvGetDocs c_plans (resolves env (3 + MockDb.calls s))] ++ rest /\
     forallb (fun e => negb (is_remote e)) rest = true) /\
  match loadedData env firebaseConfig s with
  | Some d =>
      outcome r = Normal tt /\
      exists t, final r = MockDb.Sound t /\
                MockDb.data t = set_users d (ensured (users d))
  | None =>
      turnsToStorage env firebaseConfig s = true /\
      exists v t, MockDb.localStorage s = Some (MockDb.Parsed v) /\
                  readAppData v = None /\
                  match MockDb.ensureSuperAdminOn v with
                  | Normal v' => outcome r = Normal tt /\ final r = MockDb.Astray v' t
                  | Throw e => outcome r = Throw e /\ final r = MockDb.Astray v t
                  end
  end.
Proof.
  intros Hinit. cbv zeta. unfold MockDb.init, loadedData, turnsToStorage.
  rewrite Hinit.
  destruct firebaseConfig as [|entry entries]; cbn [List.length Nat.eqb orb].
  - unfold bind_from.
    destruct (mock_loadFromLocal_spec env (MockDb.set_isOffline true s))
      as (Ho & Hoff & Hi & He & Hcase).
    rewrite Ho.
    match goal with |- context [(modify ?f ;; ?k) ?l] =>
      pose proof (mock_init_end_spec l) as Hend end.
    cbv zeta in Hend. destruct Hend as (Hev & Hinit' & Hoff' & Hend).
    cbn [outcome final emitted]. rewrite Hev, app_nil_r, Hinit', Hoff', Hoff.
    cbn [MockDb.localStorage MockDb.set_isOffline MockDb.isOffline] in *.
    split; [reflexivity|]. split; [reflexivity|]. split; [intros _; exact He|].
    split; [intros H; congruence|].
    destruct (localData (MockDb.localStorage s)) as [d|].
    + destruct Hcase as (t & Hfinal & Hd). rewrite Hfinal in Hend |- *.
      destruct Hend as (Hout & t' & Hfinal' & Hd'). split; [exact Hout|].
      exists t'. split; [exact Hfinal'|]. rewrite Hd', Hd. reflexivity.
    + destruct Hcase as (v & Hs & Hread & Hfinal). rewrite Hfinal in Hend |- *.
      split; [reflexivity|]. exists v. eexists. split; [exact Hs|]. split; [exact Hread|].
      destruct (MockDb.ensureSuperAdminOn v); exact Hend.
  - unfold try_finally_from.
    destruct (mock_init_load_spec env s) as (Ho & Hi & Hoff & (rest & He & Hrest) & Hcase).
    cbv zeta in Ho, Hi, Hoff, He, Hcase.
    match goal with |- context [(modify ?f ;; ?k) ?l] =>
      pose proof (mock_init_end_spec l) as Hend end.
    cbv zeta in Hend. destruct Hend as (Hev & Hinit' & Hoff' & Hend).
    assert (Hshape : forall (o : completion unit) (P : Prop),
              (o = Normal tt -> P) -> (forall e, o = Throw e -> P) -> P).
    { intros [[]|e] P H1 H2; eauto. }
    rewrite mock_awaitAll_events in He.
    match goal with |- context [match outcome ?x with _ => _ end] =>
      apply (Hshape (outcome x)); [intros Hx | intros e Hx]; rewrite Hx
    end; cbn [outcome final emitted]; rewrite ?Hev, ?app_nil_r, ?Hinit', ?Hoff', ?Hoff, ?He;
      (split; [reflexivity|]); (split; [reflexivity|]);
      (split; [intros H; discriminate H|]);
      (split; [intros _; exists rest; split; [reflexivity|exact Hrest]|]).
    + destruct (cloudReads env (MockDb.calls s)); cbn [negb].
      * destruct Hcase as (t & Hfinal & Hd). rewrite Hfinal in Hend, Hx |- *.
        destruct Hend as (Hout & t' & Hfinal' & Hd'). split; [exact Ho|].
        exists t'. split; [exact Hfinal'|]. rewrite Hd', Hd. reflexivity.
      * destruct (localData (MockDb.localStorage s)) as [d|].
        -- destruct Hcase as (t & Hfinal & Hd). rewrite Hfinal in Hend, Hx |- *.
           destruct Hend as (Hout & t' & Hfinal' & Hd'). split; [exact Ho|].
           exists t'. split; [exact Hfinal'|]. rewrite Hd', Hd. reflexivity.
        -- destruct Hcase as (v & t & Hs & Hread & Hfinal). rewrite Hfinal in Hend, Hx |- *.
           split; [reflexivity|]. exists v. eexists. split; [exact Hs|].
           split; [exact Hread|].
           destruct (MockDb.ensureSuperAdminOn v) as [v'|e'];
             destruct Hend as [Hout Hfin]; [|congruence].
           split; [exact Ho|exact Hfin].
    + destruct (cloudReads env (MockDb.calls s)); cbn [negb].
      * destruct Hcase as (t & Hfinal & Hd). rewrite Hfinal in Hend, Hx.
        destruct Hend as (Hout & _). congruence.
      * destruct (localData (MockDb.localStorage s)) as [d|].
        -- destruct Hcase as (t & Hfinal & Hd). rewrite Hfinal in Hend, Hx.
           destruct Hend as (Hout & _). congruence.
        -- destruct Hcase as (v & t & Hs & Hread & Hfinal). rewrite Hfinal in Hend, Hx |- *.
           split; [reflexivity|]. exists v. eexists. split; [exact Hs|].
           split; [exact Hread|].
           destruct (MockDb.ensureSuperAdminOn v) as [v'|e'];
             destruct Hend as [Hout Hfin]; [congruence|].
           split; [congruence|exact Hfin].
Qed.

Lemma lookup_assign_same {A : Type} (key : string) (x : A) (props : list (string * A)) :
  lookup key (assign key x props) = Some x.
Proof.
  induction props as [|[k y] rest IH]; cbn.
  - rewrite String.eqb_refl. reflexivity.
  - destruct (String.eqb k key) eqn:Hk; cbn; rewrite Hk; [reflexivity|exact IH].
Qed.

Lemma findSuperAdminValue_push (us : list jsval) :
  MockDb.findSuperAdminValue us = Normal None ->
  MockDb.findSuperAdminValue (push us MockDb.bootstrapAdminObject)
  = Normal (Some MockDb.bootstrapAdminObject).
Proof.
  unfold push. induction us as [|u rest IH].
  - intros _. reflexivity.
  - change ((u :: rest) ++ [MockDb.bootstrapAdminObject])
      with (u :: (rest ++ [MockDb.bootstrapAdminObject])).
    cbn [MockDb.findSuperAdminValue].
    destruct (MockDb.isSuperAdminValue u) as [[|]|e]; try discriminate. exact IH.
Qed.

(** [ensureSuperAdmin] on a value that is no [AppData]: it throws unless
    the value has an array [users]; when it returns, that array holds an
    account with the role SUPER_ADMIN and a hard-coded address. *)
Lemma mock_ensureSuperAdminOn_spec (v : jsval) :
  (usersArray v = None -> MockDb.ensureSuperAdminOn v = Throw "TypeError") /\
  (forall v', MockDb.ensureSuperAdminOn v = Normal v' ->
     exists us account,
       usersArray v' = Some us /\
       MockDb.findSuperAdminValue us = Normal (Some account)).
Proof.
  unfold MockDb.ensureSuperAdminOn, usersArray. split.
  - destruct v as [| | | | |items|props]; try reflexivity.
    destruct (lookup "users" props) as [[| | | | |us|]|]; try reflexivity. discriminate.
  - intros v'. destruct v as [| | | | |items|props]; try discriminate.
    destruct (lookup "users" props) as [[| | | | |us|]|] eqn:Hus; try discriminate.
    destruct (MockDb.findSuperAdminValue us) as [[account|]|e] eqn:Hfind; try discriminate.
    + intros H. injection H as <-. exists us, account. rewrite Hus. auto.
    + intros H. injection H as <-.
      exists (push us MockDb.bootstrapAdminObject), MockDb.bootstrapAdminObject.
      rewrite lookup_assign_same. split; [reflexivity|].
      apply findSuperAdminValue_push. exact Hfind.
Qed.

(** C10, at inputs where the claim fails.  First, the store is configured
    and answers, and its users collection holds a super-admin account with
    the hard-coded address whose approval flag is false: [init] finds the
    account, inserts nothing, and no approved super admin exists.  Second,
    there is no configuration and the browser storage holds the text of an
    empty object: [init] assigns the object to [this.data], and
    [ensureSuperAdmin] throws out of [init]. *)
Lemma C10_counterexample :
  (let r := MockDb.init storeWithUnapprovedAdmin someConfig (MockDb.create None) in
   outcome r = Normal tt /\
   MockDb.isOffline (MockDb.service (final r)) = false /\
   match final r with
   | MockDb.Sound t =>
       MockDb.getUsers t = [unapprovedAdmin] /\
       existsb isApprovedSuperAdmin (MockDb.getUsers t) = false
   | MockDb.Astray _ _ => False
   end)
  /\
  (let r := MockDb.init allCallsResolve [] (MockDb.create (Some (MockDb.Parsed (VObj [])))) in
   outcome r = Throw "TypeError" /\
   MockDb.initialized (MockDb.service (final r)) = true /\
   match final r with
   | MockDb.Sound _ => False
   | MockDb.Astray v _ => v = VObj []
   end).
Proof. vm_compute. repeat split. Qed.

(** C10, amended.  After a first [init] that loaded an [AppData] (from a
    bulk read that succeeded, or from the browser storage when there is no
    configuration or a read was rejected: the collections stored there, or
    the empty seed when nothing is stored or the text does not parse), the
    users collection holds an account with role SUPER_ADMIN and one of the
    two hard-coded addresses; the account need not be approved.  If the
    loaded users hold no such account, the bootstrap account, which is
    approved and has the hard-coded address and password, is appended, also
    after a bulk read that succeeded.  When the text in the browser storage
    parses to a value that is no [AppData], [this.data] becomes that value:
    [init] then throws a TypeError if the value has no array [users], and
    where it returns, that array holds such an account.  In every case
    [initialized] is set, and a later [init] does nothing. *)
Theorem C10_init_ensures_super_admin_account :
  forall (env : Env) (firebaseConfig : list (string * string))
         (s : MockDb.DatabaseService),
    let r := MockDb.init env firebaseConfig s in
    (MockDb.initialized s = true ->
     r = {| outcome := Normal tt; final := MockDb.Sound s; emitted := [] |})
    /\
    (MockDb.initialized s = false ->
     MockDb.initialized (MockDb.service (final r)) = true /\
     (forall loaded : AppData,
        loadedData env firebaseConfig s = Some loaded ->
        outcome r = Normal tt /\
        exists t,
          final r = MockDb.Sound t /\
          existsb MockDb.isSuperAdminAccount (MockDb.getUsers t) = true /\
          (existsb MockDb.isSuperAdminAccount (users loaded) = true ->
           MockDb.getUsers t = users loaded) /\
          (existsb MockDb.isSuperAdminAccount (users loaded) = false ->
           MockDb.getUsers t = push (users loaded) MockDb.bootstrapAdmin /\
           isApprovedSuperAdmin MockDb.bootstrapAdmin = true /\
           email MockDb.bootstrapAdmin = "keerthithiruvarasan@gmail.com" /\
           password MockDb.bootstrapAdmin = Some "123456789@Asdf")) /\
     (firebaseConfig <> [] -> cloudReads env (MockDb.calls s) = true ->
      MockDb.isOffline (MockDb.service (final r)) = false /\
      loadedData env firebaseConfig s = Some (cloud env)) /\
     (loadedData env firebaseConfig s = None ->
      exists v t,
        MockDb.localStorage s = Some (MockDb.Parsed v) /\
        readAppData v = None /\
        (usersArray v = None ->
         outcome r = Throw "TypeError" /\ final r = MockDb.Astray v t) /\
        (outcome r = Normal tt ->
         exists v' us account,
           final r = MockDb.Astray v' t /\
           usersArray v' = Some us /\
           MockDb.findSuperAdminValue us = Normal (Some account)))).
Proof.
  intros env firebaseConfig s r. split.
  - intros Hinit. unfold r, MockDb.init. rewrite Hinit. reflexivity.
  - intros Hinit.
    destruct (mock_init_spec env firebaseConfig s Hinit) as (Hi & Hoff & _ & _ & Hcase).
    fold r in Hi, Hoff, Hcase.
    split; [exact Hi|]. split; [|split].
    + intros loaded Hloaded. rewrite Hloaded in Hcase.
      destruct Hcase as (Ho & t & Hfinal & Hd). split; [exact Ho|].
      exists t. split; [exact Hfinal|]. unfold MockDb.getUsers. rewrite Hd.
      cbn [users set_users]. unfold ensured.
      split; [|split].
      * destruct (existsb MockDb.isSuperAdminAccount (users loaded)) eqn:He; [exact He|].
        rewrite existsb_push, He. reflexivity.
      * intros He. rewrite He. reflexivity.
      * intros He. rewrite He. repeat split.
    + intros Hcfg Hreads. rewrite Hoff. unfold loadedData, turnsToStorage. rewrite Hreads.
      destruct firebaseConfig; [congruence|]. split; reflexivity.
    + intros Hnone. rewrite Hnone in Hcase.
      destruct Hcase as (_ & v & t & Hs & Hread & Hend).
      exists v, t. split; [exact Hs|]. split; [exact Hread|].
      destruct (mock_ensureSuperAdminOn_spec v) as [Hthrow Hret]. split.
      * intros Hno. rewrite (Hthrow Hno) in Hend. exact Hend.
      * intros Ho. destruct (MockDb.ensureSuperAdminOn v) as [v'|e].
        -- destruct Hend as [_ Hfinal].
           destruct (Hret v' eq_refl) as (us & account & Hus & Hfind).
           exists v', us, account. auto.
        -- destruct Hend as [Hout _]. congruence.
Qed.

Lemma C10_witness :
  MockDb.initialized (MockDb.create None) = false /\
  loadedData firstCallFails someConfig (MockDb.create None)
    = Some {| organizations := []; customers := []; plans := []; users := [] |} /\
  (exists t,
     final (MockDb.init firstCallFails someConfig (MockDb.create None)) = MockDb.Sound t /\
     MockDb.getUsers t = [MockDb.bootstrapAdmin]).
Proof.
  split; [reflexivity|]. split; [reflexivity|].
  destruct (C10_init_ensures_super_admin_account firstCallFails someConfig
              (MockDb.create None)) as [_ Hfirst].
  destruct (Hfirst eq_refl) as (_ & Hloaded & _).
  destruct (Hloaded _ eq_refl) as (_ & t & Hfinal & _ & _ & Hpush).
  exists t. split; [exact Hfinal|]. apply Hpush. reflexivity.
Defined.

(** ** Observers (C9) *)

Section Observers.
Variable env : Env.
Variable reactions : nat -> list OnlineDb.reaction.
Variable cb : nat.
(** No observer registers [cb] again. *)
Hypothesis not_registered_again : forall c, ~ In (OnlineDb.Subscribe cb) (reactions c).

Import OnlineDb.

Lemma absent_unsubscribe (s : DatabaseService) :
  absent cb (final (unsubscribe cb s)).
Proof.
  unfold absent. cbn. rewrite filter_In. intros [_ H].
  rewrite Nat.eqb_refl in H. discriminate.
Qed.

Lemma react_spec (r : reaction) (s : DatabaseService) :
  r <> Subscribe cb -> absent cb s ->
  outcome (react r s) = Normal tt /\ emitted (react r s) = [] /\ absent cb (final (react r s)).
Proof.
  intros Hr Ha. destruct r as [c|c]; cbn; repeat split; auto; unfold absent in *; cbn.
  - unfold push. rewrite in_app_iff. intros [H|[H|[]]]; [auto|]. subst. congruence.
  - rewrite filter_In. tauto.
Qed.

Lemma reactions_spec (rs : list reaction) (s : DatabaseService) :
  ~ In (Subscribe cb) rs -> absent cb s ->
  outcome (forEach react rs s) = Normal tt /\
  emitted (forEach react rs s) = [] /\
  absent cb (final (forEach react rs s)).
Proof.
  revert s. induction rs as [|r rest IH]; intros s Hrs Ha.
  - cbn. auto.
  - cbn [forEach].
    destruct (@react_spec r s) as (Ho & He & Ha'); auto.
    { intros ->. apply Hrs. left. reflexivity. }
    rewrite (bind_run _ _ _ Ho). cbn [outcome final emitted]. rewrite He.
    apply IH; auto. intros H. apply Hrs. right. exact H.
Qed.

Lemma invoke_spec (c : nat) (s : DatabaseService) :
  c <> cb -> absent cb s ->
  outcome (invoke reactions c s) = Normal tt /\
  existsb (is_callback_of cb) (emitted (invoke reactions c s)) = false /\
  absent cb (final (invoke reactions c s)).
Proof.
  intros Hc Ha. unfold invoke.
  rewrite (bind_run (emit (EvCallback c)) _ _ (a := tt) eq_refl).
  cbn [outcome final emitted emit].
  destruct (@reactions_spec (reactions c) s) as (Ho & He & Ha'); auto.
  rewrite Ho, He. cbn. repeat split; auto.
  destruct (Nat.eqb_spec c cb); [contradiction|reflexivity].
Qed.

(** One round of notification visits the subscribers that were there when
    it started. *)
Lemma round_spec (l : list nat) (s : DatabaseService) :
  ~ In cb l -> absent cb s ->
  outcome (forEach (invoke reactions) l s) = Normal tt /\
  existsb (is_callback_of cb) (emitted (forEach (invoke reactions) l s)) = false /\
  absent cb (final (forEach (invoke reactions) l s)).
Proof.
  revert s. induction l as [|c rest IH]; intros s Hl Ha.
  - cbn. auto.
  - cbn [forEach].
    destruct (@invoke_spec c s) as (Ho & He & Ha'); auto.
    { intros ->. apply Hl. left. reflexivity. }
    rewrite (bind_run _ _ _ Ho). cbn [outcome final emitted].
    destruct (IH (final (invoke reactions c s))) as (Ho2 & He2 & Ha2); auto.
    { intros H. apply Hl. right. exact H. }
    rewrite existsb_app, He, He2. auto.
Qed.

Lemma notifySubscribers_spec (s : DatabaseService) :
  absent cb s ->
  outcome (notifySubscribers reactions s) = Normal tt /\
  existsb (is_callback_of cb) (emitted (notifySubscribers reactions s)) = false /\
  absent cb (final (notifySubscribers reactions s)).
Proof.
  intros Ha. unfold notifySubscribers.
  rewrite (bind_run get _ s (a := s) eq_refl). cbn [get outcome final emitted app].
  apply round_spec; auto.
Qed.

Lemma onSnapshotDelivered_spec (snap : snapshot) (s : DatabaseService) :
  absent cb s ->
  outcome (onSnapshotDelivered reactions snap s) = Normal tt /\
  existsb (is_callback_of cb) (emitted (onSnapshotDelivered reactions snap s)) = false /\
  absent cb (final (onSnapshotDelivered reactions snap s)).
Proof.
  intros Ha. unfold onSnapshotDelivered.
  match goal with |- context [bind ?m _ s] =>
    assert (Hm : outcome (m s) = Normal tt) by (destruct snap; reflexivity);
    assert (Hs : subscribers (final (m s)) = subscribers s) by (destruct snap; reflexivity);
    assert (He : existsb (is_callback_of cb) (emitted (m s)) = false)
      by (destruct snap; reflexivity);
    rewrite (bind_run _ _ _ Hm)
  end.
  cbn [outcome final emitted].
  match goal with |- context [notifySubscribers reactions ?t] =>
    destruct (@notifySubscribers_spec t) as (Ho2 & He2 & Ha2) end.
  { unfold absent. rewrite Hs. exact Ha. }
  rewrite existsb_app, He, He2. auto.
Qed.

Lemma request_spec (w : write) (s : DatabaseService) :
  absent cb s ->
  let r := try_catch (perform env w) (fun _ => ret tt) s in
  outcome r = Normal tt /\
  existsb (is_callback_of cb) (emitted r) = false /\
  absent cb (final r).
Proof.
  intros Ha.
  destruct (online_perform_spec env w s) as (_ & Hs & uploads & Hup & Hc).
  assert (Hnone : existsb (is_callback_of cb) uploads = false).
  { apply existsb_uploads; auto. intros e. destruct e; cbn; congruence. }
  assert (He : existsb (is_callback_of cb) (emitted (perform env w s)) = false).
  { destruct Hc as [(_ & _ & He & _) | [(_ & _ & He & _) |
                    [(_ & _ & He & _) | (e & _ & _ & He & _)]]];
      rewrite He; rewrite ?existsb_app, ?Hnone; auto; destruct w; reflexivity. }
  assert (Habs : absent cb (final (perform env w s))).
  { unfold absent. rewrite Hs. exact Ha. }
  cbv zeta. unfold try_catch.
  destruct (outcome (perform env w s)) as [[]|e] eqn:Hout;
    cbn [outcome final emitted ret]; rewrite ?app_nil_r; repeat split; auto.
Qed.

Lemma session_spec (acts : list activity) (s : DatabaseService) :
  ~ In (Register cb) acts -> absent cb s ->
  outcome (session env reactions acts s) = Normal tt /\
  existsb (is_callback_of cb) (emitted (session env reactions acts s)) = false /\
  absent cb (final (session env reactions acts s)).
Proof.
  revert s. induction acts as [|a rest IH]; intros s Hacts Ha.
  - cbn. auto.
  - cbn [session].
    assert (Hstep : outcome (act env reactions a s) = Normal tt /\
                    existsb (is_callback_of cb) (emitted (act env reactions a s)) = false /\
                    absent cb (final (act env reactions a s))).
    { destruct a as [snap|w|c|c]; cbn [act].
      - apply onSnapshotDelivered_spec; auto.
      - apply request_spec; auto.
      - cbn. repeat split; auto. unfold absent in *. cbn. unfold push.
        rewrite in_app_iff. intros [H|[H|[]]]; [auto|]. subst.
        apply Hacts. left. reflexivity.
      - cbn. repeat split; auto. unfold absent in *. cbn. rewrite filter_In. tauto. }
    destruct Hstep as (Ho & He & Ha').
    rewrite (bind_run _ _ _ Ho). cbn [outcome final emitted].
    destruct (IH (final (act env reactions a s))) as (Ho2 & He2 & Ha2); auto.
    { intros H. apply Hacts. right. exact H. }
    rewrite existsb_app, He, He2. auto.
Qed.

End Observers.

Lemma no_callback_event (cb : nat) (evs : list event) :
  existsb (is_callback_of cb) evs = false -> ~ In (EvCallback cb) evs.
Proof.
  intros H Hin.
  assert (Ht : existsb (is_callback_of cb) evs = true).
  { apply existsb_exists. exists (EvCallback cb). split; [assumption|].
    cbn. apply Nat.eqb_refl. }
  congruence.
Qed.

(** C9.  An observer is registered with [subscribe], the session goes on,
    and the handle that [subscribe] returned is invoked.  Whatever happens
    afterwards (snapshots delivered by the store, writes, other observers
    registered or deregistered, also from inside a callback), the callback
    of that observer is not invoked, as long as nobody registers it anew. *)
Theorem C9_no_callback_after_deregistration :
  forall (env : Env) (reactions : nat -> list OnlineDb.reaction) (cb : nat)
         (s0 : OnlineDb.DatabaseService) (before after : list OnlineDb.activity),
    (forall c, ~ In (OnlineDb.Subscribe cb) (reactions c)) ->
    ~ In (OnlineDb.Register cb) after ->
    let registered := OnlineDb.subscribe cb s0 in
    forall handle : nat,
      outcome registered = Normal handle ->
      let s1 := final (OnlineDb.session env reactions before (final registered)) in
      let s2 := final (OnlineDb.unsubscribe handle s1) in
      ~ In (EvCallback cb) (emitted (OnlineDb.session env reactions after s2)).
Proof.
  intros env reactions cb s0 before after Hreact Hafter registered handle Hh s1 s2.
  assert (handle = cb) by (cbn in Hh; congruence). subst handle.
  apply no_callback_event.
  apply session_spec; auto.
  apply absent_unsubscribe.
Qed.

Lemma C9_witness :
  In (EvCallback 7)
     (emitted (OnlineDb.session firstCallFails quiet [OnlineDb.Deliver (OnlineDb.SnapUsers [])]
                 (final (OnlineDb.subscribe 7 online)))) /\
  ~ In (EvCallback 7)
       (emitted
          (OnlineDb.session firstCallFails quiet
             [OnlineDb.Deliver (OnlineDb.SnapUsers []);
              OnlineDb.Request (AddCustomer sampleCustomer);
              OnlineDb.Deliver (OnlineDb.SnapCustomers [sampleCustomer])]
             (final (OnlineDb.unsubscribe 7
                (final (OnlineDb.session firstCallFails quiet
                          [OnlineDb.Deliver (OnlineDb.SnapUsers [])]
                          (final (OnlineDb.subscribe 7 online)))))))).
Proof.
  split.
  - cbn. auto.
  - apply (@C9_no_callback_after_deregistration firstCallFails quiet 7 online
             [OnlineDb.Deliver (OnlineDb.SnapUsers [])]
             [OnlineDb.Deliver (OnlineDb.SnapUsers []);
              OnlineDb.Request (AddCustomer sampleCustomer);
              OnlineDb.Deliver (OnlineDb.SnapCustomers [sampleCustomer])]).
    + intros c H. exact H.
    + cbn. intros [H|[H|[H|[]]]]; discriminate H.
    + reflexivity.
Defined.

(** ** Login (C7) *)

(** C7, at an input where the claim fails: in the [App] with a local
    fallback, a user of an unapproved organization, which is not the
    system-global one, registered with the address and password that the
    [App] accepts first.  Login with the credentials of that user succeeds,
    with the session of the super admin. *)
Lemma C7_counterexample :
  let '(result, st) :=
    AppLocal.login [acme] [MockDb.bootstrapAdmin; acmeAdmin; acmeIntruder] "Acme"
                   (email acmeIntruder) "123456789@Asdf" loggedOut in
  org_isApproved acme = false /\
  org_id acme <> "system_global" /\
  organizationId acmeIntruder = org_id acme /\
  password acmeIntruder = Some "123456789@Asdf" /\
  success result = true /\
  user st = Some MockDb.bootstrapAdmin.
Proof. cbn. repeat split. discriminate. Qed.

(** C7, amended.  [login] resolves the organization from the name entered
    (first match, letter case ignored).  If the approval flag of that
    organization is false, login fails with the pending-approval message and
    the session is left as it was, whatever the credentials (those of a user
    of that organization in particular), except: in the [App] of the
    online-only service, when the id of the organization is [system_global];
    in the [App] with a local fallback, when the address and password
    entered are the hard-coded ones, which are accepted before any
    organization is looked at. *)
Theorem C7_unapproved_organization_cannot_log_in :
  forall (orgs : list Organization) (usrs : list User) (org : Organization)
         (orgName address pass : string) (st : AppState),
    array_find (orgNamed orgName) orgs = Some org ->
    org_isApproved org = false ->
    (org_id org <> "system_global" ->
     AppOnline.login orgs usrs orgName address pass st = (pendingApproval, st))
    /\
    (AppLocal.hardcoded (trim address) (trim pass) = false ->
     AppLocal.login orgs usrs orgName address pass st = (pendingApproval, st)).
Proof.
  intros orgs usrs org orgName address pass st Hfind Happ. split.
  - intros Hid. unfold AppOnline.login. rewrite Hfind, Happ.
    destruct (String.eqb_spec (org_id org) "system_global"); [contradiction|].
    reflexivity.
  - intros Hhard. unfold AppLocal.login. rewrite Hhard, Hfind, Happ. reflexivity.
Qed.

Lemma C7_witness :
  array_find (orgNamed " acme ") [acme] = Some acme /\
  org_isApproved acme = false /\
  AppOnline.login [acme] [acmeAdmin] " acme " (email acmeAdmin) "pass1234" loggedOut
    = (pendingApproval, loggedOut) /\
  AppLocal.login [acme] [acmeAdmin] " acme " (email acmeAdmin) "pass1234" loggedOut
    = (pendingApproval, loggedOut).
Proof.
  split; [reflexivity|]. split; [reflexivity|].
  destruct (@C7_unapproved_organization_cannot_log_in
              [acme] [acmeAdmin] acme " acme " (email acmeAdmin) "pass1234" loggedOut
              eq_refl eq_refl) as [Honline Hlocal].
  split.
  - apply Honline. discriminate.
  - apply Hlocal. reflexivity.
Defined.

(** *** The codec reads what it writes *)

Module CompactJsonFacts.
Import CompactJson.
Local Open Scope char_scope.

Lemma read_digits_uint_chars (u : uint) (rest : list ascii) :
  match rest with [] => True | c :: _ => digit_of c = None end ->
  read_digits (uint_chars u ++ rest) = (u, rest).
Proof.
  intros Hrest. induction u as [|u IH|u IH|u IH|u IH|u IH|u IH|u IH|u IH|u IH|u IH].
  - destruct rest as [|c r]; [reflexivity|]. cbn in Hrest |- *. rewrite Hrest. reflexivity.
  - change (read_digits (uint_chars (D0 u) ++ rest))
      with (let (v, r') := read_digits (uint_chars u ++ rest) in (D0 v, r')).
    rewrite IH. reflexivity.
  - change (read_digits (uint_chars (D1 u) ++ rest))
      with (let (v, r') := read_digits (uint_chars u ++ rest) in (D1 v, r')).
    rewrite IH. reflexivity.
  - change (read_digits (uint_chars (D2 u) ++ rest))
      with (let (v, r') := read_digits (uint_chars u ++ rest) in (D2 v, r')).
    rewrite IH. reflexivity.
  - change (read_digits (uint_chars (D3 u) ++ rest))
      with (let (v, r') := read_digits (uint_chars u ++ rest) in (D3 v, r')).
    rewrite IH. reflexivity.
  - change (read_digits (uint_chars (D4 u) ++ rest))
      with (let (v, r') := read_digits (uint_chars u ++ rest) in (D4 v, r')).
    rewrite IH. reflexivity.
  - change (read_digits (uint_chars (D5 u) ++ rest))
      with (let (v, r') := read_digits (uint_chars u ++ rest) in (D5 v, r')).
    rewrite IH. reflexivity.
  - change (read_digits (uint_chars (D6 u) ++ rest))
      with (let (v, r') := read_digits (uint_chars u ++ rest) in (D6 v, r')).
    rewrite IH. reflexivity.
  - change (read_digits (uint_chars (D7 u) ++ rest))
      with (let (v, r') := read_digits (uint_chars u ++ rest) in (D7 v, r')).
    rewrite IH. reflexivity.
  - change (read_digits (uint_chars (D8 u) ++ rest))
      with (let (v, r') := read_digits (uint_chars u ++ rest) in (D8 v, r')).
    rewrite IH. reflexivity.
  - change (read_digits (uint_chars (D9 u) ++ rest))
      with (let (v, r') := read_digits (uint_chars u ++ rest) in (D9 v, r')).
    rewrite IH. reflexivity.
Qed.

Lemma to_int_nonnil (z : Z) :
  match Z.to_int z with Pos d | Neg d => d <> Nil end.
Proof.
  destruct z as [|p|p]; cbn.
  - discriminate.
  - apply Unsigned.to_uint_nonnil.
  - apply Unsigned.to_uint_nonnil.
Qed.

Lemma read_number_digits (z : Z) (rest : list ascii) :
  match rest with [] => True | c :: _ => digit_of c = None end ->
  read_number (print_Z z ++ rest) = read_exponent z rest.
Proof.
  intros Hrest. unfold print_Z.
  pose proof (to_int_nonnil z) as Hnil. pose proof (DecimalZ.of_to z) as Hz.
  destruct (Z.to_int z) as [d|d].
  - assert (Hd : read_digits (uint_chars d ++ rest) = (d, rest))
      by (apply read_digits_uint_chars; assumption).
    unfold read_number.
    destruct d; try contradiction; cbn [uint_chars] in *;
      rewrite <- app_comm_cons in Hd |- *; cbv beta iota;
      match goal with
      | |- context [Ascii.eqb ?c "-"] => change (Ascii.eqb c "-") with false
      end; cbv iota; rewrite Hd; rewrite Hz; reflexivity.
  - rewrite <- app_comm_cons. unfold read_number.
    change (Ascii.eqb "-" "-") with true. cbv iota.
    rewrite read_digits_uint_chars by assumption.
    destruct d; try contradiction; rewrite Hz; reflexivity.
Qed.

Lemma no_digit_head (rest : list ascii) :
  no_digit rest -> match rest with [] => True | c :: _ => digit_of c = None end.
Proof. destruct rest as [|c r]; [trivial|]. intros [H _]. exact H. Qed.

Lemma read_number_print_Z (z : Z) (rest : list ascii) :
  no_digit rest -> read_number (print_Z z ++ rest) = Some (JNum z, rest).
Proof.
  intros Hrest. rewrite read_number_digits by (apply no_digit_head; exact Hrest).
  destruct rest as [|c r]; [reflexivity|]. destruct Hrest as [_ He].
  unfold read_exponent. rewrite He. reflexivity.
Qed.

Lemma read_number_print_dec (m : Z) (e : positive) (rest : list ascii) :
  no_digit rest ->
  read_number (print_Z m ++ "e" :: "-" :: uint_chars (Pos.to_uint e) ++ rest)
  = Some (JDec m e, rest).
Proof.
  intros Hrest. rewrite read_number_digits by reflexivity.
  unfold read_exponent.
  change (Ascii.eqb "e" "e") with true. change (Ascii.eqb "-" "-") with true. cbv iota.
  rewrite read_digits_uint_chars by (apply no_digit_head; exact Hrest).
  pose proof (DecimalPos.Unsigned.to_uint_nonnil e) as Hnil.
  pose proof (DecimalPos.Unsigned.of_to e) as He.
  destruct (Pos.to_uint e); try contradiction; rewrite He; reflexivity.
Qed.

Lemma read_string_escaped (l : list ascii) (rest : list ascii) :
  read_string (flat_map escape l ++ quote :: rest) = Some (l, rest).
Proof.
  induction l as [|c l IH].
  - cbn. reflexivity.
  - cbn [flat_map]. unfold escape at 1.
    destruct (Ascii.eqb c quote) eqn:Hq; cbn [orb].
    + apply Ascii.eqb_eq in Hq. subst c.
      change (read_string (backslash :: quote :: flat_map escape l ++ quote :: rest)
              = Some (quote :: l, rest)).
      cbn [read_string].
      change (Ascii.eqb backslash quote) with false.
      change (Ascii.eqb backslash backslash) with true.
      change (Ascii.eqb quote quote) with true.
      cbn [orb]. rewrite IH. reflexivity.
    + destruct (Ascii.eqb c backslash) eqn:Hb.
      * apply Ascii.eqb_eq in Hb. subst c.
        change (read_string (backslash :: backslash :: flat_map escape l ++ quote :: rest)
                = Some (backslash :: l, rest)).
        cbn [read_string].
        change (Ascii.eqb backslash quote) with false.
        change (Ascii.eqb backslash backslash) with true.
        cbn [orb]. rewrite IH. reflexivity.
      * change (read_string (c :: flat_map escape l ++ quote :: rest) = Some (c :: l, rest)).
        cbn [read_string]. rewrite Hq, Hb, IH. reflexivity.
Qed.

Lemma no_close_bracket (j : json) (rest : list ascii) :
  starts_with "]" (print_chars j ++ rest) = false.
Proof.
  destruct j as [|[|]|z|z e|s|items|members]; try reflexivity;
    cbn [print_chars]; unfold print_Z; pose proof (to_int_nonnil z) as Hnil;
    (destruct (Z.to_int z) as [d|d]; [|reflexivity]);
    destruct d; try contradiction; reflexivity.
Qed.

Lemma join_cons (sep : ascii) (t : list ascii) (ts : list (list ascii)) (rest : list ascii) :
  join sep (t :: ts) ++ rest =
  t ++ match ts with [] => rest | _ :: _ => sep :: join sep ts ++ rest end.
Proof.
  destruct ts as [|t' ts']; cbn [join]; [reflexivity|].
  rewrite <- app_assoc. reflexivity.
Qed.

Lemma read_items_printed (items : list json) :
  items <> [] -> Forall reads items ->
  forall (fuel : nat) (rest : list ascii),
    list_sum (map (fun x => S (need x)) items) <= fuel ->
    read_items fuel (join "," (map print_chars items) ++ "]" :: rest) = Some (items, rest).
Proof.
  induction items as [|x xs IH]; intros Hne Hall fuel rest Hfuel; [congruence|].
  inversion Hall as [|? ? Hx Hxs]; subst.
  cbn [map list_sum] in Hfuel. destruct fuel as [|fuel]; [cbn in Hfuel; lia|].
  cbn [map]. rewrite join_cons. cbn [read_items].
  destruct xs as [|y ys].
  - cbn [map]. rewrite (Hx fuel ("]" :: rest)); [reflexivity | cbn in *; lia | split; reflexivity].
  - cbn [map]. rewrite (Hx fuel); [| cbn in *; lia | split; reflexivity].
    change (Ascii.eqb "," ",") with true. cbv iota.
    change (join "," (print_chars y :: map print_chars ys))
      with (join "," (map print_chars (y :: ys))).
    rewrite IH; [reflexivity | discriminate | assumption | cbn in *; lia].
Qed.

Lemma print_member_app (k : string) (v : json) (rest : list ascii) :
  print_member (k, v) ++ rest =
  quote :: flat_map escape (list_ascii_of_string k) ++ quote :: ":" :: print_chars v ++ rest.
Proof.
  unfold print_member, print_string.
  rewrite <- !app_assoc, <- !app_comm_cons, <- !app_assoc. reflexivity.
Qed.

Lemma read_members_printed (members : list (string * json)) :
  members <> [] -> Forall (fun kv => reads (snd kv)) members ->
  forall (fuel : nat) (rest : list ascii),
    list_sum (map (fun kv => match kv with (_, v) => S (need v) end) members) <= fuel ->
    read_members fuel (join "," (map print_member members) ++ "}" :: rest)
    = Some (members, rest).
Proof.
  induction members as [|[k v] ms IH]; intros Hne Hall fuel rest Hfuel; [congruence|].
  inversion Hall as [|? ? Hv Hms]; subst. cbn [snd] in Hv.
  cbn [map list_sum] in Hfuel. destruct fuel as [|fuel]; [cbn in Hfuel; lia|].
  cbn [map]. rewrite join_cons, print_member_app. cbn [read_members].
  change (Ascii.eqb quote quote) with true. cbv iota.
  rewrite read_string_escaped.
  change (Ascii.eqb ":" ":") with true. cbv iota.
  rewrite string_of_list_ascii_of_string.
  destruct ms as [|m ms'].
  - cbn [map]. rewrite (Hv fuel ("}" :: rest)); [reflexivity | cbn in *; lia | split; reflexivity].
  - cbn [map]. rewrite (Hv fuel); [| cbn in *; lia | split; reflexivity].
    change (Ascii.eqb "," ",") with true. cbv iota.
    change (join "," (print_member m :: map print_member ms'))
      with (join "," (map print_member (m :: ms'))).
    rewrite IH; [reflexivity | discriminate | assumption | cbn in *; lia].
Qed.

Lemma read_value_printed (j : json) : reads j.
Proof.
  induction j as [|b|z|z e|s|items IH|members IH] using json_nested_ind;
    intros fuel rest Hfuel Hrest;
    (destruct fuel as [|fuel]; [cbn in Hfuel; lia|]).
  - reflexivity.
  - destruct b; reflexivity.
  - pose proof (read_number_print_Z z rest Hrest) as Hn.
    cbn [print_chars] in *. unfold print_Z in *.
    pose proof (to_int_nonnil z) as Hnil.
    destruct (Z.to_int z) as [d|d]; [destruct d; try contradiction|]; exact Hn.
  - pose proof (read_number_print_dec z e rest Hrest) as Hn.
    cbn [print_chars] in *. rewrite <- app_assoc, <- !app_comm_cons. unfold print_Z in *.
    pose proof (to_int_nonnil z) as Hnil.
    destruct (Z.to_int z) as [d|d]; [destruct d; try contradiction|]; exact Hn.
  - cbn [print_chars]. unfold print_string. rewrite <- app_comm_cons, <- app_assoc.
    cbn [app read_value].
    change (Ascii.eqb quote "n") with false. change (Ascii.eqb quote "t") with false.
    change (Ascii.eqb quote "f") with false. change (Ascii.eqb quote quote) with true.
    cbv iota. change ([quote] ++ rest) with (quote :: rest).
    rewrite read_string_escaped, string_of_list_ascii_of_string. reflexivity.
  - cbn [print_chars need] in *. rewrite <- app_comm_cons, <- app_assoc.
    cbn [app read_value].
    change (Ascii.eqb "[" "n") with false. change (Ascii.eqb "[" "t") with false.
    change (Ascii.eqb "[" "f") with false. change (Ascii.eqb "[" quote) with false.
    change (Ascii.eqb "[" "[") with true. cbv iota.
    change (["]"] ++ rest) with ("]" :: rest).
    destruct items as [|x xs]; [reflexivity|].
    cbn [map]. rewrite join_cons, no_close_bracket, <- join_cons.
    change (print_chars x :: map print_chars xs) with (map print_chars (x :: xs)).
    rewrite read_items_printed; [reflexivity | discriminate | assumption | lia].
  - cbn [print_chars need] in *. rewrite <- app_comm_cons, <- app_assoc.
    cbn [app read_value].
    change (Ascii.eqb "{" "n") with false. change (Ascii.eqb "{" "t") with false.
    change (Ascii.eqb "{" "f") with false. change (Ascii.eqb "{" quote) with false.
    change (Ascii.eqb "{" "[") with false. change (Ascii.eqb "{" "{") with true.
    cbv iota. change (["}"] ++ rest) with ("}" :: rest).
    destruct members as [|[k v] ms]; [reflexivity|].
    change (map (fun kv => match kv with (k0, v0) => print_string k0 ++ ":" :: print_chars v0 end)
                ((k, v) :: ms))
      with (map print_member ((k, v) :: ms)).
    assert (Hstart : starts_with "}" (join "," (map print_member ((k, v) :: ms)) ++ "}" :: rest)
                     = false)
      by (cbn [map]; rewrite join_cons, print_member_app; reflexivity).
    rewrite Hstart.
    rewrite read_members_printed; [reflexivity | discriminate | assumption | lia].
Qed.

Lemma length_join_items (items : list json) :
  Forall (fun x => need x <= List.length (print_chars x)) items ->
  list_sum (map (fun x => S (need x)) items)
  <= S (List.length (join "," (map print_chars items))).
Proof.
  induction items as [|x xs IH]; intros Hall; [cbn; lia|].
  inversion Hall as [|? ? Hx Hxs]; subst. specialize (IH Hxs).
  cbn [map list_sum]. destruct xs as [|y ys].
  - cbn in *. lia.
  - change (join "," (print_chars x :: map print_chars (y :: ys)))
      with (print_chars x ++ "," :: join "," (map print_chars (y :: ys))).
    rewrite length_app. cbn [List.length map list_sum fold_right] in *. lia.
Qed.

Lemma length_join_members (members : list (string * json)) :
  Forall (fun kv => need (snd kv) <= List.length (print_chars (snd kv))) members ->
  list_sum (map (fun kv => match kv with (_, v) => S (need v) end) members)
  <= S (List.length (join "," (map print_member members))).
Proof.
  induction members as [|[k v] ms IH]; intros Hall; [cbn; lia|].
  inversion Hall as [|? ? Hv Hms]; subst. specialize (IH Hms). cbn [snd] in Hv.
  assert (Hm : need v <= List.length (print_member (k, v))).
  { unfold print_member. rewrite length_app. cbn [List.length]. lia. }
  cbn [map list_sum]. destruct ms as [|m ms'].
  - cbn [join map list_sum fold_right] in *. lia.
  - change (join "," (print_member (k, v) :: map print_member (m :: ms')))
      with (print_member (k, v) ++ "," :: join "," (map print_member (m :: ms'))).
    rewrite length_app. cbn [List.length map list_sum fold_right] in *. lia.
Qed.

Lemma need_le_length (j : json) : need j <= List.length (print_chars j).
Proof.
  induction j as [|b|z|z e|s|items IH|members IH] using json_nested_ind.
  - cbn. lia.
  - destruct b; cbn; lia.
  - cbn [need print_chars]. unfold print_Z. pose proof (to_int_nonnil z) as Hnil.
    destruct (Z.to_int z) as [d|d]; [destruct d; try contradiction|]; cbn; lia.
  - cbn [need print_chars]. rewrite length_app. cbn [List.length]. lia.
  - cbn. lia.
  - cbn [need print_chars]. pose proof (length_join_items IH) as H.
    cbn [List.length]. rewrite length_app. cbn [List.length]. lia.
  - cbn [need print_chars]. pose proof (length_join_members IH) as H.
    change (map (fun kv => match kv with (k0, v0) => print_string k0 ++ ":" :: print_chars v0 end)
                members)
      with (map print_member members).
    cbn [List.length]. rewrite length_app. cbn [List.length]. lia.
Qed.

Lemma length_string_of_list_ascii (l : list ascii) :
  String.length (string_of_list_ascii l) = List.length l.
Proof. induction l as [|c l IH]; cbn; [reflexivity|]. rewrite IH. reflexivity. Qed.

Lemma parse_text_print_text (j : json) : parse_text (print_text j) = Normal j.
Proof.
  unfold parse_text, print_text.
  rewrite list_ascii_of_string_of_list_ascii, length_string_of_list_ascii.
  pose proof (read_value_printed j) as H. unfold reads in H.
  specialize (H (S (List.length (print_chars j))) []).
  rewrite app_nil_r in H. rewrite H; [reflexivity| |exact I].
  pose proof (need_le_length j). lia.
Qed.

End CompactJsonFacts.

Lemma compactJson_correct : JsonText_correct compactJson.
Proof. intros j. apply CompactJsonFacts.parse_text_print_text. Qed.

Lemma xor_ascii_twice (c k : ascii) :
  StreamCipher.xor_ascii (StreamCipher.xor_ascii c k) k = c.
Proof.
  destruct c as [c0 c1 c2 c3 c4 c5 c6 c7], k as [k0 k1 k2 k3 k4 k5 k6 k7]. cbn.
  rewrite !xorb_assoc, !xorb_nilpotent, !xorb_false_r. reflexivity.
Qed.

Lemma combine_twice (key ahead message : list ascii) :
  StreamCipher.combine key ahead (StreamCipher.combine key ahead message) = message.
Proof.
  revert ahead. induction message as [|c rest IH]; intros ahead; [reflexivity|].
  cbn [StreamCipher.combine].
  destruct ahead as [|k ks]; [destruct key as [|k ks]|];
    cbn [StreamCipher.combine]; rewrite ?xor_ascii_twice, IH; reflexivity.
Qed.

Lemma streamCipher_correct : CryptoJS_correct streamCipher.
Proof.
  intros entropy message passphrase.
  exists (StreamCipher.apply passphrase message), message.
  cbn. repeat split. f_equal. unfold StreamCipher.apply.
  rewrite list_ascii_of_string_of_list_ascii, combine_twice.
  apply string_of_list_ascii_of_string.
Qed.

(* ===================================================================== *)
(** ** The envelope codec (C3, C4) *)
(* ===================================================================== *)

Lemma assign_fresh {A : Type} (k : string) (v : A) (props : list (string * A)) :
  existsb (String.eqb k) (map fst props) = false ->
  assign k v props = props ++ [(k, v)].
Proof.
  induction props as [|[k' w] rest IH]; intros H; [reflexivity|].
  cbn in H |- *. apply orb_false_elim in H. destruct H as [Hk Hrest].
  rewrite String.eqb_sym, Hk, (IH Hrest). reflexivity.
Qed.

Lemma define_distinct {A B : Type} (f : A -> B) (members : list (string * A))
      (acc : list (string * B)) :
  distinct (map fst members) = true ->
  (forall k, In k (map fst members) -> existsb (String.eqb k) (map fst acc) = false) ->
  define f members acc = acc ++ map (fun kv => (fst kv, f (snd kv))) members.
Proof.
  revert acc. induction members as [|[k x] rest IH]; intros acc Hd Hfresh.
  - cbn. rewrite app_nil_r. reflexivity.
  - cbn [define map fst snd]. cbn [map fst distinct] in Hd.
    apply andb_prop in Hd. destruct Hd as [Hk Hd]. apply negb_true_iff in Hk.
    rewrite assign_fresh by (apply Hfresh; left; reflexivity).
    rewrite IH; [rewrite <- app_assoc; reflexivity | assumption |].
    intros k' Hin. rewrite map_app, existsb_app. cbn.
    rewrite (Hfresh k') by (right; assumption). cbn. rewrite orb_false_r.
    destruct (String.eqb_spec k' k) as [->|]; [|reflexivity].
    assert (Ht : existsb (String.eqb k) (map fst rest) = true).
    { apply existsb_exists. exists k. split; [assumption|]. apply String.eqb_refl. }
    congruence.
Qed.

(** On plain data, serializing and reviving gives the value back. *)
Lemma revive_serialize (v : jsval) :
  plain v = true -> exists j, serialize v = Some j /\ revive j = v.
Proof.
  induction v as [| |b|n|s|items IH|props IH] using jsval_nested_ind; intros Hp;
    try discriminate; try (eexists; split; reflexivity).
  - destruct n; try discriminate; eexists; split; reflexivity.
  - exists (JArr (map (fun x => match serialize x with
                                   | Some j => j
                                   | None => JNull
                                   end) items)).
    split; [reflexivity|]. cbn [revive]. f_equal.
    cbn [plain] in Hp. rewrite map_map.
    induction items as [|x xs IHxs]; [reflexivity|].
    inversion IH as [|? ? Hx Hxs]; subst.
    cbn [forallb] in Hp. apply andb_prop in Hp. destruct Hp as [Hpx Hpxs].
    cbn [map]. destruct (Hx Hpx) as (j & Hs & Hr). rewrite Hs, Hr.
    f_equal. apply IHxs; assumption.
  - cbn [plain] in Hp. apply andb_prop in Hp. destruct Hp as [Hd Hall].
    exists (JObj (collect serialize props)).
    split; [reflexivity|]. cbn [revive]. f_equal.
    assert (Hc : map (fun kv => (fst kv, revive (snd kv))) (collect serialize props) = props
                 /\ map fst (collect serialize props) = map fst props).
    { clear Hd. induction props as [|[k x] rest IHrest]; [split; reflexivity|].
      inversion IH as [|? ? Hx Hrest]; subst. cbn [snd] in Hx.
      cbn [forallb] in Hall. apply andb_prop in Hall. destruct Hall as [Hpx Hprest].
      destruct (Hx Hpx) as (j & Hs & Hr).
      destruct (IHrest Hrest Hprest) as [H1 H2].
      cbn [collect]. rewrite Hs. cbn [map fst snd]. rewrite Hr, H1, H2. split; reflexivity. }
    destruct Hc as [Hmap Hkeys].
    rewrite define_distinct; [exact Hmap | rewrite Hkeys; exact Hd | reflexivity].
Qed.

Section Codec.
Context {J : JsonText} {C : CryptoJS}.
Variable gmail : MailService.Gmail.

Import MailService.

Lemma packetObject_plain (p : SyncPacket) :
  plain (pkt_data p) = true -> plain (packetObject p) = true.
Proof. intros H. cbn. rewrite H. reflexivity. Qed.

Lemma decrypt_encrypt (v : jsval) :
  JsonText_correct J -> CryptoJS_correct C ->
  plain v = true ->
  exists envelope, encrypt gmail v = Normal envelope /\ decrypt envelope = Normal v.
Proof.
  intros HJ HC Hp.
  destruct (revive_serialize v Hp) as (j & Hs & Hr).
  destruct (HC (entropy gmail) (print j) APP_SECRET_KEY) as (envelope & bytes & He & Hd & Hu).
  exists envelope. unfold encrypt, decrypt, JSON_stringify, JSON_parse.
  rewrite Hs. cbn [option_map]. split; [exact He|].
  rewrite Hd. cbn [andThen]. rewrite Hu. cbn [andThen]. rewrite HJ. cbn. rewrite Hr.
  reflexivity.
Qed.

(** [decrypt] returns: whatever the text, there is no exception. *)
Lemma decrypt_returns (ciphertext : string) :
  exists v, decrypt ciphertext = Normal v.
Proof.
  unfold decrypt, JSON_parse.
  destruct (AES_decrypt ciphertext APP_SECRET_KEY) as [bytes|e]; cbn; [|eauto].
  destruct (Utf8_stringify bytes) as [text|e]; cbn; [|eauto].
  destruct (parse text) as [j|e]; cbn; eauto.
Qed.

End Codec.

Section Inbox.
Context {J : JsonText} {C : CryptoJS} {B : Base64}.
Variable gmail : MailService.Gmail.

Import MailService.

(** The loop of [fetchLatestData] goes through the whole batch when the
    mail API delivers every message: a message that does not decode is
    skipped, the ones after it are still read. *)
Lemma fetchEach_spec (bodies : string -> string) (ids : list string)
      (packets : list jsval) (s : MailService) :
  (forall id, In id ids ->
     exists detail, getResult gmail id = Some detail /\
                    messageBody detail = Normal (bodies id)) ->
  fetchEach gmail ids packets s =
  {| outcome := Normal (packets ++ filter truthy (map (fun id => decoded (bodies id)) ids));
     final := s;
     emitted := map (fun id => EvGetMessage id true) ids |}.
Proof.
  revert packets. induction ids as [|id rest IH]; intros packets Hall.
  - cbn. rewrite app_nil_r. reflexivity.
  - destruct (Hall id (or_introl eq_refl)) as (detail & Hget & Hbody).
    destruct (decrypt_returns (bodies id)) as (v & Hv).
    assert (Hone : fetchOne gmail id packets s =
                   {| outcome := Normal (if truthy v then push packets v else packets);
                      final := s; emitted := [EvGetMessage id true] |}).
    { unfold fetchOne. rewrite Hget. unfold bind, emit, lift. cbn.
      rewrite Hbody. cbn. rewrite Hv. cbn. destruct (truthy v); reflexivity. }
    assert (Hdec : decoded (bodies id) = v) by (unfold decoded; rewrite Hv; reflexivity).
    cbn [fetchEach]. unfold bind at 1. rewrite Hone. cbn [outcome final emitted].
    rewrite IH by (intros id' Hin; apply Hall; right; exact Hin).
    cbn [outcome final emitted map app filter]. rewrite Hdec.
    destruct (truthy v); unfold push; rewrite <- ?app_assoc; reflexivity.
Qed.

End Inbox.

(** C3, at inputs where the claim fails.  The payload of the first packet
    holds the number NaN: the envelope decodes, to a packet whose payload
    holds [null] in its place.  The payload of the second packet holds the
    negative zero: the envelope decodes, to a packet whose payload holds the
    zero in its place.  (Run with the compact JSON codec and the stream
    cipher; [serialize] writes [null] for NaN and [0] for the negative zero
    whatever the codec and the cipher.) *)
Lemma C3_counterexample :
  match MailService.encrypt inbox (MailService.packetObject nanPacket) with
  | Normal envelope =>
      MailService.decrypt envelope = Normal (MailService.packetObject nulledPacket) /\
      MailService.packetObject nulledPacket <> MailService.packetObject nanPacket
  | Throw _ => False
  end /\
  match MailService.encrypt inbox (MailService.packetObject negZeroPacket) with
  | Normal envelope =>
      MailService.decrypt envelope = Normal (MailService.packetObject zeroedPacket) /\
      MailService.packetObject zeroedPacket <> MailService.packetObject negZeroPacket
  | Throw _ => False
  end.
Proof. vm_compute. repeat split; discriminate. Qed.

(** C3, amended.  For every packet whose payload is data that JSON
    represents (null, booleans, strings, the finite numbers other than the
    negative zero, whole or fractional, and arrays and objects of these with
    distinct property names), encrypting it gives an envelope, and
    decrypting the envelope gives the packet back.  This holds for every
    JSON text codec and every cipher that do what the platform and crypto-js
    promise. *)
Theorem C3_round_trip_of_plain_packets :
  forall (J : JsonText) (C : CryptoJS) (gmail : MailService.Gmail)
         (p : MailService.SyncPacket),
    JsonText_correct J ->
    CryptoJS_correct C ->
    plain (MailService.pkt_data p) = true ->
    exists envelope,
      MailService.encrypt gmail (MailService.packetObject p) = Normal envelope /\
      MailService.decrypt envelope = Normal (MailService.packetObject p).
Proof.
  intros J C gmail p HJ HC Hp.
  apply decrypt_encrypt; auto. apply packetObject_plain. exact Hp.
Qed.

Lemma C3_witness :
  plain (MailService.pkt_data fractionPacket) = true /\
  exists envelope,
    MailService.encrypt inbox (MailService.packetObject fractionPacket) = Normal envelope /\
    MailService.decrypt envelope = Normal (MailService.packetObject fractionPacket).
Proof.
  split; [reflexivity|].
  apply (@C3_round_trip_of_plain_packets compactJson streamCipher inbox fractionPacket
           compactJson_correct streamCipher_correct).
  reflexivity.
Defined.

(** C4.  [decrypt] returns for every text: when the decryption throws, when
    the bytes are no UTF-8 text, or when the text is no JSON, the value
    returned is [null] and nothing is thrown.  Hence the loop of
    [fetchLatestData] reads every message of a batch that the mail API
    delivers, and returns the packets of those that decode to a truthy
    value. *)
Theorem C4_decode_returns_null_on_failure :
  forall (J : JsonText) (C : CryptoJS),
    (forall ciphertext : string,
       (exists v, MailService.decrypt ciphertext = Normal v) /\
       ((exists e, AES_decrypt ciphertext MailService.APP_SECRET_KEY = Throw e) ->
        MailService.decrypt ciphertext = Normal VNull) /\
       (forall bytes,
          AES_decrypt ciphertext MailService.APP_SECRET_KEY = Normal bytes ->
          (exists e, Utf8_stringify bytes = Throw e) ->
          MailService.decrypt ciphertext = Normal VNull) /\
       (forall bytes text,
          AES_decrypt ciphertext MailService.APP_SECRET_KEY = Normal bytes ->
          Utf8_stringify bytes = Normal text ->
          (exists e, parse text = Throw e) ->
          MailService.decrypt ciphertext = Normal VNull))
    /\
    (forall (B : Base64) (gmail : MailService.Gmail) (bodies : string -> string)
            (ids : list string) (s : MailService.MailService),
       (forall id, In id ids ->
          exists detail, MailService.getResult gmail id = Some detail /\
                         MailService.messageBody detail = Normal (bodies id)) ->
       MailService.fetchEach gmail ids [] s =
       {| outcome := Normal (filter truthy (map (fun id => decoded (bodies id)) ids));
          final := s;
          emitted := map (fun id => EvGetMessage id true) ids |}).
Proof.
  intros J C. split.
  - intros ciphertext. split; [apply decrypt_returns|].
    unfold MailService.decrypt, MailService.JSON_parse. repeat split.
    + intros [e He]. rewrite He. reflexivity.
    + intros bytes Hb [e He]. rewrite Hb. cbn. rewrite He. reflexivity.
    + intros bytes text Hb Ht [e He]. rewrite Hb. cbn. rewrite Ht. cbn. rewrite He.
      reflexivity.
  - intros B gmail bodies ids s Hall.
    rewrite (fetchEach_spec gmail bodies ids [] s Hall). reflexivity.
Qed.

Lemma C4_witness :
  (exists e, parse (StreamCipher.apply MailService.APP_SECRET_KEY "Meeting moved to Friday")
             = Throw e) /\
  MailService.decrypt "Meeting moved to Friday" = Normal VNull /\
  outcome (MailService.fetchEach inbox ["m1"; "m2"; "m3"] [] signedIn)
  = Normal [MailService.packetObject customerPacket;
            MailService.packetObject customerPacket].
Proof.
  destruct (C4_decode_returns_null_on_failure compactJson streamCipher) as [Hdecode Hbatch].
  split; [exists "SyntaxError"; vm_compute; reflexivity|]. split.
  - destruct (Hdecode "Meeting moved to Friday") as (_ & _ & _ & Hparse).
    apply (Hparse (StreamCipher.apply MailService.APP_SECRET_KEY "Meeting moved to Friday")
                  (StreamCipher.apply MailService.APP_SECRET_KEY "Meeting moved to Friday"));
      try reflexivity.
    exists "SyntaxError". vm_compute. reflexivity.
  - rewrite (Hbatch identityCoding inbox
               (fun id => match MailService.getResult inbox id with
                          | Some detail =>
                              match MailService.messageBody detail with
                              | Normal text => text
                              | Throw _ => EmptyString
                              end
                          | None => EmptyString
                          end)).
    + vm_compute. reflexivity.
    + intros id [<-|[<-|[<-|[]]]]; eexists; split; vm_compute; reflexivity.
Defined.

(* ===================================================================== *)
(** ** Recipients (C5) *)
(* ===================================================================== *)

Section Recipients.
Import MailService.

Lemma existsb_eqb_In (x : string) (l : list string) :
  existsb (String.eqb x) l = true <-> In x l.
Proof.
  rewrite existsb_exists. split.
  - intros (y & Hin & Heq). apply String.eqb_eq in Heq. subst. exact Hin.
  - intros Hin. exists x. split; [exact Hin|apply String.eqb_refl].
Qed.

Lemma set_add_In (x y : string) (set : list string) :
  In y (set_add x set) <-> y = x \/ In y set.
Proof.
  unfold set_add. destruct (existsb (String.eqb x) set) eqn:He.
  - apply existsb_eqb_In in He. split; [auto|]. intros [->|H]; assumption.
  - rewrite in_app_iff. cbn. intuition.
Qed.

Lemma set_add_NoDup (x : string) (set : list string) :
  NoDup set -> NoDup (set_add x set).
Proof.
  intros Hnd. unfold set_add. destruct (existsb (String.eqb x) set) eqn:He; [assumption|].
  apply NoDup_app.
  - assumption.
  - constructor; [intros []|constructor].
  - intros y Hin Hy. destruct Hy as [<-|[]].
    apply existsb_eqb_In in Hin. congruence.
Qed.

Lemma add_all_In (xs : option (list string)) (y : string) (set : list string) :
  In y (add_all xs set) <-> In y set \/ exists l, xs = Some l /\ In y l.
Proof.
  destruct xs as [l|]; cbn [add_all].
  - revert set. induction l as [|x l IH]; intros set; cbn [fold_left].
    + split; [auto|]. intros [H|(l' & Hl & Hin)]; [assumption|].
      injection Hl as <-. destruct Hin.
    + rewrite IH, set_add_In. split.
      * intros [[->|H]|(l' & Hl & Hin)]; [right|left; assumption|right].
        -- exists (x :: l). split; [reflexivity|left; reflexivity].
        -- injection Hl as <-. exists (x :: l). split; [reflexivity|right; assumption].
      * intros [H|(l' & Hl & Hin)]; [left; right; assumption|].
        injection Hl as <-. destruct Hin as [->|Hin]; [left; left; reflexivity|].
        right. exists l. split; [reflexivity|assumption].
  - split; [auto|]. intros [H|(l & Hl & _)]; [assumption|discriminate].
Qed.

Lemma add_all_NoDup (xs : option (list string)) (set : list string) :
  NoDup set -> NoDup (add_all xs set).
Proof.
  destruct xs as [l|]; cbn [add_all]; [|auto].
  revert set. induction l as [|x l IH]; intros set Hnd; cbn [fold_left]; [assumption|].
  apply IH, set_add_NoDup, Hnd.
Qed.

Lemma recipients_NoDup (u : User) : NoDup (recipients u).
Proof.
  unfold recipients.
  assert (H0 : NoDup (set_add (email u) [])) by (apply set_add_NoDup; constructor).
  destruct (hierarchy u) as [h|]; [|assumption].
  repeat apply add_all_NoDup.
  destruct (rsmEmail h) as [m|]; [|assumption].
  destruct (truthy_string m); [apply set_add_NoDup|]; assumption.
Qed.

(** The members of the set [recipients]. *)
Lemma recipients_In (u : User) (e : string) :
  In e (recipients u) <->
  e = email u \/
  exists h, hierarchy u = Some h /\
    ( (rsmEmail h = Some e /\ truthy_string e = true)
      \/ (exists l, seEmails h = Some l /\ In e l)
      \/ (exists l, dealerEmails h = Some l /\ In e l)
      \/ (exists l, dseEmails h = Some l /\ In e l) ).
Proof.
  unfold recipients. destruct (hierarchy u) as [h|].
  - rewrite !add_all_In.
    assert (Hm : In e match rsmEmail h with
                      | Some m => if truthy_string m then set_add m (set_add (email u) [])
                                  else set_add (email u) []
                      | None => set_add (email u) []
                      end
                 <-> e = email u \/ (rsmEmail h = Some e /\ truthy_string e = true)).
    { destruct (rsmEmail h) as [m|].
      - destruct (truthy_string m) eqn:Ht.
        + rewrite !set_add_In. cbn. split.
          * intros [->|[->|[]]]; [right; split; [reflexivity|assumption]|left; reflexivity].
          * intros [->|[Hm _]]; [right; left; reflexivity|].
            injection Hm as ->. left. reflexivity.
        + rewrite set_add_In. cbn. split.
          * intros [->|[]]. left. reflexivity.
          * intros [->|[Hm Hy]]; [left; reflexivity|].
            injection Hm as ->. congruence.
      - rewrite set_add_In. cbn. split.
        + intros [->|[]]. left. reflexivity.
        + intros [->|[Hm _]]; [left; reflexivity|discriminate]. }
    rewrite Hm. split.
    + intros [[[[->|Hr]|Hse]|Hde]|Hds]; [left; reflexivity| | | |];
        right; exists h; split; auto.
    + intros [->|(h' & Hh & Hc)]; [left; left; left; left; reflexivity|].
      injection Hh as <-. destruct Hc as [Hr|[Hse|[Hde|Hds]]]; tauto.
  - rewrite set_add_In. cbn. split.
    + intros [->|[]]. left. reflexivity.
    + intros [->|(h & Hh & _)]; [left; reflexivity|discriminate].
Qed.

End Recipients.

(** C5, at an input where the claim fails: the acting user is known by a
    login name that is no mail address.  The list of recipients is empty
    and does not hold the address of the user. *)
Lemma C5_counterexample :
  MailService.recipientList (plainUser "field.engineer" None) = [] /\
  ~ In (email (plainUser "field.engineer" None))
       (MailService.recipientList (plainUser "field.engineer" None)).
Proof. split; [reflexivity|]. intros H. exact H. Qed.

(** C5, amended.  The list of recipients has no duplicates and every
    address in it contains the marker [@].  It holds the address of the
    acting user, the address of the manager and every address of every
    listed subordinate tier, each provided that it contains the marker; an
    address without the marker is left out, that of the acting user
    included.  When the address of the acting user is in the list, it is the
    first. *)
Theorem C5_recipients :
  forall (u : User),
    NoDup (MailService.recipientList u) /\
    (forall e, In e (MailService.recipientList u) -> includes "@" e = true) /\
    (MailService.validAddress (email u) = true ->
     exists others, MailService.recipientList u = email u :: others) /\
    (forall h, hierarchy u = Some h ->
       (forall m, rsmEmail h = Some m -> MailService.validAddress m = true ->
                  In m (MailService.recipientList u)) /\
       (forall tier l e,
          In tier [seEmails h; dealerEmails h; dseEmails h] ->
          tier = Some l -> In e l -> MailService.validAddress e = true ->
          In e (MailService.recipientList u))).
Proof.
  intros u. unfold MailService.recipientList. repeat split.
  - apply NoDup_filter, recipients_NoDup.
  - intros e He. apply filter_In in He. destruct He as [_ Hv].
    unfold MailService.validAddress in Hv. apply andb_prop in Hv. tauto.
  - intros Hv.
    assert (Hhead : exists rest, MailService.recipients u = email u :: rest).
    { assert (Hgrow : forall x set a r, set = a :: r ->
                        exists r', MailService.set_add x set = a :: r').
      { intros x set a r ->. unfold MailService.set_add.
        destruct (existsb (String.eqb x) (a :: r)); eexists; cbn; reflexivity. }
      assert (Hall : forall xs set a r, set = a :: r ->
                       exists r', MailService.add_all xs set = a :: r').
      { intros [l|] set; cbn [MailService.add_all]; [|eauto].
        revert set. induction l as [|x l IH]; intros set a r Hs; cbn [fold_left]; [eauto|].
        destruct (Hgrow x set a r Hs) as (r' & Hr'). eapply IH. exact Hr'. }
      unfold MailService.recipients.
      destruct (hierarchy u) as [h|]; [|eexists; reflexivity].
      assert (H1 : exists r1, match rsmEmail h with
                              | Some m => if truthy_string m
                                          then MailService.set_add m
                                                 (MailService.set_add (email u) [])
                                          else MailService.set_add (email u) []
                              | None => MailService.set_add (email u) []
                              end = email u :: r1).
      { destruct (rsmEmail h) as [m|]; [|eexists; reflexivity].
        destruct (truthy_string m); [|eexists; reflexivity].
        eapply Hgrow. reflexivity. }
      destruct H1 as (r1 & H1).
      destruct (Hall (seEmails h) _ _ _ H1) as (r2 & H2).
      destruct (Hall (dealerEmails h) _ _ _ H2) as (r3 & H3).
      destruct (Hall (dseEmails h) _ _ _ H3) as (r4 & H4).
      exists r4. exact H4. }
    destruct Hhead as (rest & Hrest). rewrite Hrest. cbn [filter]. rewrite Hv.
    eexists. reflexivity.
  - intros m Hm Hv. apply filter_In. split; [|assumption].
    apply recipients_In. right. exists h. split; [assumption|]. left. split; [assumption|].
    unfold MailService.validAddress in Hv. apply andb_prop in Hv. tauto.
  - intros tier l e Htier -> Hin Hv. apply filter_In. split; [|assumption].
    apply recipients_In. right. exists h. split; [assumption|]. right.
    destruct Htier as [Ht|[Ht|[Ht|[]]]]; symmetry in Ht; eauto.
Qed.

Lemma C5_witness :
  MailService.validAddress "se@acme.test" = true /\
  MailService.recipientList (plainUser "se@acme.test" (Some sampleHierarchy))
  = ["se@acme.test"; "rsm@acme.test"; "dealer@acme.test"] /\
  In "dealer@acme.test"
     (MailService.recipientList (plainUser "se@acme.test" (Some sampleHierarchy))).
Proof.
  split; [reflexivity|]. split; [reflexivity|].
  destruct (C5_recipients (plainUser "se@acme.test" (Some sampleHierarchy)))
    as (_ & _ & _ & Hh).
  destruct (Hh sampleHierarchy eq_refl) as [_ Htier].
  apply (Htier (dealerEmails sampleHierarchy) ["dealer-without-address"; "dealer@acme.test"]).
  - right. left. reflexivity.
  - reflexivity.
  - right. left. reflexivity.
  - reflexivity.
Defined.

(* ===================================================================== *)
(** ** The mail channel before sign-in (C8) *)
(* ===================================================================== *)

(** C8, at an input where the claim fails: no token is held and the inbox
    is fetched.  [fetchLatestData] returns the empty list; no error reaches
    the caller. *)
Lemma C8_counterexample :
  MailService.hasToken signedOut = false /\
  MailService.fetchLatestData inbox signedOut =
  {| outcome := Normal []; final := signedOut; emitted := [] |}.
Proof. split; reflexivity. Qed.

(** C8, amended.  While no token is held, [broadcastData] throws the error
    [Not Authenticated] to its caller before anything is encrypted or sent,
    and [fetchLatestData] returns the empty list without an error; neither
    of them calls the mail API or starts the consent flow. *)
Theorem C8_mail_channel_without_token :
  forall (J : JsonText) (C : CryptoJS) (B : Base64) (gmail : MailService.Gmail)
         (packet : MailService.SyncPacket) (u : User) (s : MailService.MailService),
    MailService.hasToken s = false ->
    MailService.broadcastData gmail packet u s =
      {| outcome := Throw "Not Authenticated"; final := s; emitted := [] |}
    /\
    MailService.fetchLatestData gmail s =
      {| outcome := Normal []; final := s; emitted := [] |}.
Proof.
  intros J C B gmail packet u s Htoken. split.
  - unfold MailService.broadcastData, bind, get, throw. cbn. rewrite Htoken. reflexivity.
  - unfold MailService.fetchLatestData, bind, get, ret. cbn. rewrite Htoken.
    rewrite orb_true_r. reflexivity.
Qed.

Lemma C8_witness :
  MailService.hasToken signedOut = false /\
  outcome (MailService.broadcastData inbox customerPacket
             (plainUser "se@acme.test" (Some sampleHierarchy)) signedOut)
  = Throw "Not Authenticated".
Proof.
  split; [reflexivity|].
  destruct (@C8_mail_channel_without_token compactJson streamCipher identityCoding inbox
              customerPacket (plainUser "se@acme.test" (Some sampleHierarchy))
              signedOut eq_refl) as [Hb _].
  rewrite Hb. reflexivity.
Defined.

(** ** [sanitizeDoc] *)

(** Copying an object key by key: with distinct keys the copy has the same
    keys in the same order. *)
Lemma define_map {A B : Type} (f : A -> B) (fields : list (string * A)) :
  distinct (map fst fields) = true ->
  define f fields [] = map (fun kv => (fst kv, f (snd kv))) fields.
Proof.
  intros Hd. rewrite define_distinct; [reflexivity | exact Hd | reflexivity].
Qed.

Lemma lookup_map {A B : Type} (f : A -> B) (key : string) (fields : list (string * A)) :
  lookup key (map (fun kv => (fst kv, f (snd kv))) fields) = option_map f (lookup key fields).
Proof.
  induction fields as [|[k x] rest IH]; [reflexivity|].
  cbn. destruct (String.eqb k key); [reflexivity|exact IH].
Qed.

(** [sanitizeDoc] makes nothing truthy that was falsy. *)
Lemma truthy_sanitizeDoc (x : docval) :
  truthy_doc x = false -> sanitizeDoc x = x.
Proof. destruct x; cbn; try discriminate; reflexivity. Qed.

Lemma looks_like_reference_sanitized (fields : list (string * docval)) :
  looks_like_reference fields = false ->
  looks_like_reference (map (fun kv => (fst kv, sanitizeDoc (snd kv))) fields) = false.
Proof.
  unfold looks_like_reference. rewrite !lookup_map.
  destruct (lookup "firestore" fields) as [f|]; [|reflexivity].
  destruct (lookup "path" fields) as [p|]; [|reflexivity]. cbn [option_map].
  intros H. apply andb_false_iff in H. apply andb_false_iff.
  destruct H as [H|H]; [left|right]; rewrite (truthy_sanitizeDoc _ H); exact H.
Qed.

Lemma sanitizeDoc_map (fields : list (string * docval)) :
  looks_like_reference fields = false ->
  distinct (map fst fields) = true ->
  sanitizeDoc (DMap fields) = DMap (map (fun kv => (fst kv, sanitizeDoc (snd kv))) fields).
Proof.
  intros Hl Hd. cbn [sanitizeDoc]. unfold looks_like_reference in Hl.
  rewrite (define_map sanitizeDoc fields Hd).
  destruct (lookup "firestore" fields) as [f|]; [|reflexivity].
  destruct (lookup "path" fields) as [p|]; [|reflexivity].
  rewrite Hl. reflexivity.
Qed.

Lemma map_fst_sanitized (fields : list (string * docval)) :
  map fst (map (fun kv => (fst kv, sanitizeDoc (snd kv))) fields) = map fst fields.
Proof. rewrite map_map. apply map_ext. reflexivity. Qed.

(** Documents without timestamps and references pass unchanged. *)
Lemma sanitizeDoc_fixed :
  forall v : docval,
    regular v = true -> jsonlike v = true -> sanitizeDoc v = v.
Proof.
  induction v as [|b|n|s|items IH|fields IH|iso|path] using docval_nested_ind;
    intros Hr Hj; try reflexivity; try discriminate.
  - cbn [sanitizeDoc]. f_equal. cbn [regular jsonlike] in Hr, Hj.
    induction items as [|x xs IHxs]; [reflexivity|].
    inversion IH as [|? ? Hx Hxs]; subst.
    cbn [forallb] in Hr, Hj. apply andb_prop in Hr, Hj.
    destruct Hr as [Hrx Hrxs], Hj as [Hjx Hjxs].
    cbn [map]. rewrite (Hx Hrx Hjx). f_equal. apply IHxs; assumption.
  - cbn [regular] in Hr. apply andb_prop in Hr. destruct Hr as [Hr Hall].
    apply andb_prop in Hr. destruct Hr as [Hd Hl]. apply negb_true_iff in Hl.
    rewrite (sanitizeDoc_map fields Hl Hd). f_equal.
    cbn [jsonlike] in Hj. clear Hd Hl.
    induction fields as [|[k x] rest IHrest]; [reflexivity|].
    inversion IH as [|? ? Hx Hrest]; subst. cbn [snd] in Hx.
    cbn [forallb] in Hall, Hj. apply andb_prop in Hall, Hj.
    destruct Hall as [Hrx Hrrest], Hj as [Hjx Hjrest].
    cbn [map fst snd]. rewrite (Hx Hrx Hjx). f_equal. apply IHrest; assumption.
Qed.

Lemma sanitizeDoc_regular (v : docval) :
  regular v = true ->
  regular (sanitizeDoc v) = true /\ jsonlike (sanitizeDoc v) = true.
Proof.
  induction v as [|b|n|s|items IH|fields IH|iso|path] using docval_nested_ind;
    intros Hr; try (split; reflexivity).
  - cbn [sanitizeDoc regular jsonlike]. cbn [regular] in Hr.
    induction items as [|x xs IHxs]; [split; reflexivity|].
    inversion IH as [|? ? Hx Hxs]; subst.
    cbn [forallb] in Hr. apply andb_prop in Hr. destruct Hr as [Hrx Hrxs].
    destruct (Hx Hrx) as [H1 H2]. destruct (IHxs Hxs Hrxs) as [H3 H4].
    cbn [map forallb]. rewrite H1, H2, H3, H4. split; reflexivity.
  - cbn [regular] in Hr. apply andb_prop in Hr. destruct Hr as [Hr Hall].
    apply andb_prop in Hr. destruct Hr as [Hd Hl]. apply negb_true_iff in Hl.
    rewrite (sanitizeDoc_map fields Hl Hd). cbn [regular jsonlike].
    rewrite map_fst_sanitized, Hd, (looks_like_reference_sanitized fields Hl).
    cbn [negb andb]. clear Hd Hl.
    induction fields as [|[k x] rest IHrest]; [split; reflexivity|].
    inversion IH as [|? ? Hx Hrest]; subst. cbn [snd] in Hx.
    cbn [forallb] in Hall. apply andb_prop in Hall. destruct Hall as [Hrx Hrrest].
    destruct (Hx Hrx) as [H1 H2]. destruct (IHrest Hrest Hrrest) as [H3 H4].
    cbn [map forallb fst snd]. rewrite H1, H2, H3, H4. split; reflexivity.
Qed.

(** The result is the document with each timestamp replaced by its ISO
    text and each reference by its path. *)
Lemma sanitizeDoc_sanitized (v : docval) :
  regular v = true -> sanitized v (sanitizeDoc v).
Proof.
  induction v as [|b|n|s|items IH|fields IH|iso|path] using docval_nested_ind;
    intros Hr; try (cbn [sanitizeDoc]; constructor).
  - cbn [regular] in Hr.
    induction items as [|x xs IHxs]; [constructor|].
    inversion IH as [|? ? Hx Hxs]; subst.
    cbn [forallb] in Hr. apply andb_prop in Hr. destruct Hr as [Hrx Hrxs].
    cbn [map]. constructor; [apply Hx; exact Hrx|apply IHxs; assumption].
  - cbn [regular] in Hr. apply andb_prop in Hr. destruct Hr as [Hr Hall].
    apply andb_prop in Hr. destruct Hr as [Hd Hl]. apply negb_true_iff in Hl.
    rewrite (sanitizeDoc_map fields Hl Hd). constructor. clear Hd Hl.
    induction fields as [|[k x] rest IHrest]; [constructor|].
    inversion IH as [|? ? Hx Hrest]; subst. cbn [snd] in Hx.
    cbn [forallb] in Hall. apply andb_prop in Hall. destruct Hall as [Hrx Hrrest].
    cbn [map fst snd]. constructor; [|apply IHrest; assumption].
    split; [reflexivity|]. apply Hx. exact Hrx.
Qed.

(** X1.  [sanitizeDoc] turns a document of the store into plain data.  For
    every document whose maps are objects that are not taken for references,
    the result is the document with every timestamp replaced by its ISO text
    and every reference by its path, all else (atoms, the order and length
    of arrays, the names and order of fields) as it was; so the result holds
    no timestamp and no reference, sanitizing it again changes nothing, and
    a document that held neither is returned as it was. *)
Theorem sanitizeDoc_normalizes :
  forall v : docval,
    regular v = true ->
    sanitized v (sanitizeDoc v) /\
    jsonlike (sanitizeDoc v) = true /\
    regular (sanitizeDoc v) = true /\
    sanitizeDoc (sanitizeDoc v) = sanitizeDoc v /\
    (jsonlike v = true -> sanitizeDoc v = v).
Proof.
  intros v Hr. destruct (sanitizeDoc_regular v Hr) as [H1 H2].
  split; [apply sanitizeDoc_sanitized; exact Hr|].
  split; [exact H2|]. split; [exact H1|]. split.
  - apply sanitizeDoc_fixed; assumption.
  - intros Hj. apply sanitizeDoc_fixed; assumption.
Qed.

Lemma sanitizeDoc_normalizes_witness :
  regular planDocument = true /\
  jsonlike planDocument = false /\
  sanitizeDoc planDocument =
    DMap [("id", DStr "plan_1");
          ("createdAt", DStr "2024-05-01T10:00:00.000Z");
          ("customer", DStr "customers/cust_1");
          ("updateStatusLog",
           DArr [DMap [("status", DStr "OPEN");
                       ("timestamp", DStr "2024-05-02T08:30:00.000Z")]]);
          ("valueLakhs", DNum (Finite 3))] /\
  jsonlike (sanitizeDoc planDocument) = true /\
  sanitizeDoc (sanitizeDoc planDocument) = sanitizeDoc planDocument.
Proof.
  split; [reflexivity|]. split; [reflexivity|]. split; [reflexivity|].
  destruct (@sanitizeDoc_normalizes planDocument eq_refl) as (_ & Hplain & _ & Hagain & _).
  split; [exact Hplain|exact Hagain].
Defined.

(** Without the condition on the maps: a map of the document that has
    truthy fields [firestore] and [path] is replaced by the value of its
    [path], which is not sanitized. *)
Example sanitizeDoc_takes_a_map_for_a_reference :
  sanitizeDoc (DMap [("firestore", DStr "default"); ("path", DTimestamp "2024-05-01T10:00:00.000Z")])
  = DTimestamp "2024-05-01T10:00:00.000Z".
Proof. reflexivity. Qed.

(** ** The service with a local fallback: browser storage *)

Section MockDbStorage.
Variable env : Env.

Import MockDb.

Lemma mock_saveToLocal_offline (s : DatabaseService) :
  isOffline s = true ->
  saveToLocal env s =
  {| outcome := Normal tt; final := saved env s;
     emitted := [EvSetItem (resolves env (calls s))] |}.
Proof.
  intros Hoff. unfold saveToLocal, saved, resolves, bind, get, when, try_catch, ret. cbn.
  rewrite Hoff. cbn. destruct (answer env (calls s)); reflexivity.
Qed.

Lemma mock_offline_tail (c : collection) (f : AppData -> AppData)
      (remote : Eff string) (s : DatabaseService) :
  isOffline s = true ->
  (writeLocal c f ;; thenCommit env remote) s =
  {| outcome := Normal tt; final := saved env (set_data (f (data s)) s);
     emitted := [EvLocal c; EvSetItem (resolves env (calls s))] |}.
Proof.
  intros Hoff.
  assert (Hw : outcome (writeLocal c f s) = Normal tt) by reflexivity.
  rewrite (bind_run _ _ _ Hw).
  change (final (writeLocal c f s)) with (set_data (f (data s)) s).
  change (emitted (writeLocal c f s)) with [EvLocal c].
  unfold thenCommit.
  rewrite (bind_run get _ _ (a := set_data (f (data s)) s) eq_refl).
  cbn [get outcome final emitted app isOffline set_data]. rewrite Hoff.
  rewrite mock_saveToLocal_offline by exact Hoff. reflexivity.
Qed.

Lemma mock_uploadAttachments_offline (atts : option (list Attachment)) (s : DatabaseService) :
  isOffline s = true ->
  uploadAttachments env atts s =
  {| outcome := Normal (files_of atts); final := s; emitted := [] |}.
Proof.
  intros Hoff. destruct atts as [[|file rest]|]; try reflexivity.
  unfold uploadAttachments, bind, get. cbn -[uploadEach]. rewrite Hoff. reflexivity.
Qed.

(** A write in offline mode, in full. *)
Lemma mock_offline_write (w : write) (s : DatabaseService) :
  isOffline s = true ->
  let r := perform env w s in
  outcome r = Normal tt /\
  emitted r = [EvLocal (target w); EvSetItem (resolves env (calls s))] /\
  isOffline (final r) = true /\
  initialized (final r) = initialized s /\
  localStorage (final r) =
    (if resolves env (calls s) then Some (Snapshot (data (final r))) else localStorage s).
Proof.
  intros Hoff.
  assert (Hsaved : forall t, isOffline t = true -> calls t = calls s ->
            localStorage t = localStorage s -> initialized t = initialized s ->
            isOffline (saved env t) = true /\
            initialized (saved env t) = initialized s /\
            localStorage (saved env t) =
              (if resolves env (calls s) then Some (Snapshot (data (saved env t)))
               else localStorage s)).
  { intros t Ht Hc Hl Hi. unfold saved. rewrite Hc.
    destruct (resolves env (calls s)); cbn; auto. }
  destruct w as [org|id updates|u|userId updates|customer|plan|planId updates];
    cbv zeta; cbn [perform target].
  1-5: unfold addOrganization, updateOrganization, addUser, updateUser, addCustomer;
       rewrite mock_offline_tail by exact Hoff; cbn [outcome final emitted];
       split; [reflexivity|]; split; [reflexivity|];
       apply Hsaved; auto.
  - unfold addPlan.
    rewrite (bind_run _ _ _ (a := files_of (attachments plan)))
      by (rewrite mock_uploadAttachments_offline by exact Hoff; reflexivity).
    rewrite mock_uploadAttachments_offline by exact Hoff.
    cbn [outcome final emitted app].
    rewrite mock_offline_tail by exact Hoff. cbn [outcome final emitted].
    split; [reflexivity|]. split; [reflexivity|]. apply Hsaved; auto.
  - unfold updatePlan.
    destruct (pp_attachments updates) as [[files|]|] eqn:Hatt.
    + assert (Hup : (processed <- uploadAttachments env (Some files) ;;
                     ret {| pp_id := pp_id updates; pp_attachments := Some (Some processed);
                            pp_fields := pp_fields updates |}) s
                    = {| outcome := Normal {| pp_id := pp_id updates;
                                              pp_attachments := Some (Some files);
                                              pp_fields := pp_fields updates |};
                         final := s; emitted := [] |}).
      { rewrite (bind_run _ _ _ (a := files))
          by (rewrite mock_uploadAttachments_offline by exact Hoff; reflexivity).
        rewrite mock_uploadAttachments_offline by exact Hoff. reflexivity. }
      rewrite (bind_run _ _ _ (a := {| pp_id := pp_id updates;
                                       pp_attachments := Some (Some files);
                                       pp_fields := pp_fields updates |}))
        by (rewrite Hup; reflexivity).
      rewrite Hup. cbn [outcome final emitted app].
      rewrite mock_offline_tail by exact Hoff. cbn [outcome final emitted].
      split; [reflexivity|]. split; [reflexivity|]. apply Hsaved; auto.
    + rewrite (bind_run (ret updates) _ s (a := updates) eq_refl).
      cbn [ret outcome final emitted app].
      rewrite mock_offline_tail by exact Hoff. cbn [outcome final emitted].
      split; [reflexivity|]. split; [reflexivity|]. apply Hsaved; auto.
    + rewrite (bind_run (ret updates) _ s (a := updates) eq_refl).
      cbn [ret outcome final emitted app].
      rewrite mock_offline_tail by exact Hoff. cbn [outcome final emitted].
      split; [reflexivity|]. split; [reflexivity|]. apply Hsaved; auto.
Qed.

End MockDbStorage.

(** ** The service with a local fallback: what the browser storage gives back *)

Lemma readAll_map {A : Type} (read : jsval -> option A) (f : A -> jsval) (l : list A) :
  (forall a, In a l -> read (f a) = Some a) -> readAll read (map f l) = Some l.
Proof.
  induction l as [|a rest IH]; intros H; [reflexivity|].
  cbn [map readAll]. rewrite (H a (or_introl eq_refl)).
  rewrite IH by (intros b Hb; apply H; right; exact Hb). reflexivity.
Qed.

Lemma readAll_strings (l : list string) : readAll readString (map VStr l) = Some l.
Proof. apply readAll_map. reflexivity. Qed.

Lemma readOrganization_object (o : Organization) :
  readOrganization (organizationObject o) = Some o.
Proof. destruct o. reflexivity. Qed.

Lemma readHierarchy_object (h : UserHierarchy) :
  readHierarchy (hierarchyObject h) = Some h.
Proof.
  destruct h as [[rsm|] [se|] [dealer|] [dse|]];
    cbn -[readAll]; rewrite ?readAll_strings; reflexivity.
Qed.

Lemma readUserRole_name (r : UserRole) : readUserRole (VStr (UserRole_name r)) = Some r.
Proof. destruct r; reflexivity. Qed.

Lemma readUser_object (u : User) : readUser (userObject u) = Some u.
Proof.
  destruct u as [id mail name [pw|] [parent|] r orgId orgName approved [h|]];
    unfold userObject, readUser, required, allowed;
    cbn -[readUserRole readHierarchy hierarchyObject UserRole_name];
    rewrite readUserRole_name; cbn -[readHierarchy hierarchyObject];
    try reflexivity;
    (assert (Hh : hierarchyObject h <> VUndefined) by (unfold hierarchyObject; discriminate));
    (destruct (hierarchyObject h) eqn:Hobj; try congruence);
    rewrite <- Hobj, readHierarchy_object; reflexivity.
Qed.

Lemma readCompetitor_object (c : string * number) :
  readCompetitor (competitorObject c) = Some c.
Proof. destruct c. reflexivity. Qed.

Lemma readCustomer_object (c : Customer) : readCustomer (customerObject c) = Some c.
Proof.
  destruct c. unfold customerObject, readCustomer, required.
  cbn -[readAll competitorObject readCompetitor].
  rewrite (readAll_map readCompetitor competitorObject)
    by (intros; apply readCompetitor_object).
  reflexivity.
Qed.

Lemma readAttachment_object (a : Attachment) : readAttachment (attachmentObject a) = Some a.
Proof. destruct a as [name payload []]; reflexivity. Qed.

Lemma lookup_tidy (fields : list (string * jsval)) :
  forallb (fun kv => negb (String.eqb (fst kv) "id" || String.eqb (fst kv) "attachments"))
          fields = true ->
  lookup "attachments" fields = None /\ otherFields fields = fields.
Proof.
  unfold otherFields. induction fields as [|[k x] rest IH]; [split; reflexivity|].
  cbn [forallb fst]. intros H. apply andb_prop in H. destruct H as [Hk Hrest].
  destruct (IH Hrest) as [Hl Hf]. cbn [lookup filter fst]. rewrite Hk, Hf.
  apply negb_true_iff, orb_false_elim in Hk. destruct Hk as [_ Hk]. rewrite Hk.
  split; [exact Hl|reflexivity].
Qed.

Lemma readPlan_object (p : AnyPlan) : tidy p = true -> readPlan (planObject p) = Some p.
Proof.
  destruct p as [id atts fields]. unfold tidy. cbn [plan_fields]. intros Ht.
  destruct (lookup_tidy fields Ht) as [Hl Hf].
  unfold planObject, readPlan, required, allowed, otherFields in *.
  cbn [plan_id attachments plan_fields].
  destruct atts as [files|]; cbn -[readAll attachmentObject readAttachment filter].
  - cbn [filter fst String.eqb Ascii.eqb Bool.eqb orb negb]. rewrite Hf.
    rewrite (readAll_map readAttachment attachmentObject)
      by (intros; apply readAttachment_object).
    reflexivity.
  - rewrite Hl. cbn [filter fst String.eqb Ascii.eqb Bool.eqb orb negb]. rewrite Hf.
    reflexivity.
Qed.

(** Reading the object of the collections gives the collections. *)
Lemma readAppData_object (d : AppData) :
  forallb tidy (plans d) = true -> readAppData (dataObject d) = Some d.
Proof.
  destruct d as [orgs usrs custs pls]. cbn [plans]. intros Ht.
  unfold dataObject, readAppData, required.
  cbn -[readAll organizationObject readOrganization userObject readUser
        customerObject readCustomer planObject readPlan].
  rewrite (readAll_map readOrganization organizationObject)
    by (intros; apply readOrganization_object).
  rewrite (readAll_map readUser userObject) by (intros; apply readUser_object).
  rewrite (readAll_map readCustomer customerObject) by (intros; apply readCustomer_object).
  rewrite (readAll_map readPlan planObject).
  - reflexivity.
  - intros p Hp. apply readPlan_object.
    rewrite forallb_forall in Ht. apply Ht. exact Hp.
Qed.

(** What was written for storable collections reads back as they were. *)
Lemma readAppData_reparsed (d : AppData) :
  storable d = true -> readAppData (reparsed (dataObject d)) = Some d.
Proof.
  unfold storable. intros H. apply andb_prop in H. destruct H as [Hp Ht].
  unfold reparsed. destruct (revive_serialize (dataObject d) Hp) as (j & Hs & Hr).
  rewrite Hs, Hr. apply readAppData_object. exact Ht.
Qed.

(** ** The service with a local fallback: the shape of a write *)

Section MockDbShape.
Variable env : Env.

Import MockDb.

Lemma mock_uploadEach_storage (files uploaded : list Attachment) (s : DatabaseService) :
  localStorage (final (uploadEach env files uploaded s)) = localStorage s.
Proof.
  revert uploaded s. induction files as [|file rest IH]; intros uploaded s; [reflexivity|].
  cbn [uploadEach]. destruct (is_url file); [apply IH|].
  unfold bind at 1. unfold try_catch, await, bind, ret. cbn.
  destruct (answer env (calls s)); cbn;
    [destruct (answer env (S (calls s))); cbn|]; rewrite IH; reflexivity.
Qed.

Lemma mock_uploadAttachments_storage (atts : option (list Attachment)) (s : DatabaseService) :
  localStorage (final (uploadAttachments env atts s)) = localStorage s.
Proof.
  destruct atts as [[|file rest]|]; try reflexivity.
  unfold uploadAttachments, bind, get. cbn -[uploadEach].
  destruct (isOffline s); cbn -[uploadEach]; [reflexivity|apply mock_uploadEach_storage].
Qed.

Lemma result_eta {S A : Type} (r : Result S A) :
  {| outcome := outcome r; final := final r; emitted := [] ++ emitted r |} = r.
Proof. destruct r; reflexivity. Qed.

(** Every write method is: uploads, then a change [f] of the target
    collection, then the commit or the local save. *)
Lemma mock_perform_shape (w : write) (s : DatabaseService) :
  exists (f : AppData -> AppData) (t : DatabaseService) (uploads : list event),
    let tail := (writeLocal (target w) f ;; thenCommit env (await env (commit_event w))) t in
    perform env w s =
      {| outcome := outcome tail; final := final tail;
         emitted := uploads ++ emitted tail |} /\
    data t = data s /\ isOffline t = isOffline s /\
    localStorage t = localStorage s /\ initialized t = initialized s /\
    forallb is_upload uploads = true /\
    (forall d, same_except (target w) d (f d)) /\
    (updates_unknown_id w (data s) = true -> f (data s) = data s).
Proof.
  assert (Hmap : forall (A : Type) (p : A -> bool) (g : A -> A) (l : list A),
            existsb p l = false -> map (fun x => if p x then g x else x) l = l).
  { intros A p g l. induction l as [|x l IH]; [reflexivity|].
    cbn. intros H. apply orb_false_elim in H. destruct H as [Hx Hl].
    rewrite Hx, (IH Hl). reflexivity. }
  assert (Hsame : forall c d d', 
            match c with
            | c_organizations => d' = set_organizations d (organizations d')
            | c_users => d' = set_users d (users d')
            | c_customers => d' = set_customers d (customers d')
            | c_plans => d' = set_plans d (plans d')
            end -> same_except c d d').
  { intros c d d' H. unfold same_except.
    destruct c; rewrite H; cbn; repeat split; auto; congruence. }
  destruct w as [org|id updates|u|userId updates|customer|plan|planId updates];
    cbn [perform target commit_event updates_unknown_id].
  1-5: unfold addOrganization, updateOrganization, addUser, updateUser, addCustomer;
       match goal with
       | |- context [(writeLocal ?c ?f ;; _) ?t] => exists f, t, []
       end;
       cbv zeta; rewrite result_eta;
       split; [reflexivity|]; split; [reflexivity|]; split; [reflexivity|];
       split; [reflexivity|]; split; [reflexivity|]; split; [reflexivity|];
       split; [intros d; apply Hsame; reflexivity|];
       first [ discriminate
             | intros H; apply negb_true_iff in H; cbn;
               rewrite (Hmap _ _ _ _ H); destruct (data s); reflexivity ].
  - destruct (mock_uploadAttachments_spec env (attachments plan) s)
      as (processed & Ho & _ & Hd & Hoff & Hi & He & _).
    unfold addPlan. rewrite (bind_run _ _ _ Ho).
    match goal with
    | |- context [(writeLocal ?c ?f ;; _) ?t] =>
        exists f, t, (emitted (uploadAttachments env (attachments plan) s))
    end.
    cbv zeta. split; [reflexivity|].
    split; [exact Hd|]. split; [exact Hoff|].
    split; [apply mock_uploadAttachments_storage|]. split; [exact Hi|].
    split; [exact He|]. split; [intros d; apply Hsame; reflexivity|]. discriminate.
  - unfold updatePlan.
    destruct (pp_attachments updates) as [[files|]|] eqn:Hatt.
    + destruct (mock_uploadAttachments_spec env (Some files) s)
        as (processed & Ho & _ & Hd & Hoff & Hi & He & _).
      assert (Hup : outcome
                ((processed <- uploadAttachments env (Some files) ;;
                  ret {| pp_id := pp_id updates; pp_attachments := Some (Some processed);
                         pp_fields := pp_fields updates |}) s)
              = Normal {| pp_id := pp_id updates; pp_attachments := Some (Some processed);
                          pp_fields := pp_fields updates |})
        by (rewrite (bind_run _ _ _ Ho); reflexivity).
      rewrite (bind_run _ _ _ Hup). rewrite (bind_run _ _ _ Ho).
      cbn [ret outcome final emitted]. rewrite app_nil_r.
      match goal with
      | |- context [(writeLocal ?c ?f ;; _) ?t] =>
          exists f, t, (emitted (uploadAttachments env (Some files) s))
      end.
      cbv zeta. split; [reflexivity|].
      split; [exact Hd|]. split; [exact Hoff|].
      split; [apply mock_uploadAttachments_storage|]. split; [exact Hi|].
      split; [exact He|]. split; [intros d; apply Hsame; reflexivity|].
      intros H; apply negb_true_iff in H; cbn;
        rewrite (Hmap _ _ _ _ H); destruct (data s); reflexivity.
    + rewrite (bind_run (ret updates) _ s (a := updates) eq_refl).
      cbn [ret outcome final emitted].
      match goal with
      | |- context [(writeLocal ?c ?f ;; _) ?t] => exists f, t, []
      end.
      cbv zeta. split; [reflexivity|].
      split; [reflexivity|]. split; [reflexivity|]. split; [reflexivity|].
      split; [reflexivity|]. split; [reflexivity|].
      split; [intros d; apply Hsame; reflexivity|].
      intros H; apply negb_true_iff in H; cbn;
        rewrite (Hmap _ _ _ _ H); destruct (data s); reflexivity.
    + rewrite (bind_run (ret updates) _ s (a := updates) eq_refl).
      cbn [ret outcome final emitted].
      match goal with
      | |- context [(writeLocal ?c ?f ;; _) ?t] => exists f, t, []
      end.
      cbv zeta. split; [reflexivity|].
      split; [reflexivity|]. split; [reflexivity|]. split; [reflexivity|].
      split; [reflexivity|]. split; [reflexivity|].
      split; [intros d; apply Hsame; reflexivity|].
      intros H; apply negb_true_iff in H; cbn;
        rewrite (Hmap _ _ _ _ H); destruct (data s); reflexivity.
Qed.

(** The tail of a write, in full. *)
Lemma mock_tail_cases (c : collection) (f : AppData -> AppData)
      (call : bool -> event) (t : DatabaseService) :
  let r := (writeLocal c f ;; thenCommit env (await env call)) t in
  outcome r = Normal tt /\
  data (final r) = f (data t) /\
  ( (isOffline t = true /\ r = {| outcome := Normal tt; final := saved env (set_data (f (data t)) t);
                                  emitted := [EvLocal c; EvSetItem (resolves env (calls t))] |})
    \/ (isOffline t = false /\ resolves env (calls t) = true /\
        isOffline (final r) = false /\ localStorage (final r) = localStorage t /\
        emitted r = [EvLocal c; call true])
    \/ (isOffline t = false /\ resolves env (calls t) = false /\
        isOffline (final r) = true /\
        localStorage (final r) =
          (if resolves env (S (calls t)) then Some (Snapshot (f (data t)))
           else localStorage t) /\
        emitted r = [EvLocal c; call false; EvSetItem (resolves env (S (calls t)))]) ).
Proof.
  cbv zeta. destruct (isOffline t) eqn:Hoff.
  - rewrite (mock_offline_tail env c f _ t Hoff). cbn [outcome final emitted].
    split; [reflexivity|]. split.
    + unfold saved. destruct (resolves env _); reflexivity.
    + left. auto.
  - unfold bind, writeLocal, thenCommit, saveToLocal, await, bind, get, try_catch, when,
      modify, emit, ret, resolves. cbn. rewrite Hoff. cbn.
    destruct (answer env (calls t)); cbn.
    + rewrite Hoff. repeat split; auto. right. left. repeat split; auto.
    + destruct (answer env (S (calls t))); cbn; repeat split; auto;
        right; right; repeat split; auto.
Qed.

End MockDbShape.

Lemma failed_commit_event (w : write) : is_failed_commit (commit_event w false) = true.
Proof. destruct w; reflexivity. Qed.

Lemma commit_event_not_save (w : write) (ok : bool) : is_save (commit_event w ok) = false.
Proof. destruct w; reflexivity. Qed.

Lemma upload_not_save (e : event) : is_upload e = true -> is_save e = false.
Proof. destruct e; cbn; congruence. Qed.

Lemma upload_not_failed_commit (e : event) : is_upload e = true -> is_failed_commit e = false.
Proof. destruct e; cbn; congruence. Qed.

(** A write in connected mode none of whose commits fails. *)
Lemma mock_connected_write (env : Env) (w : write) (s : MockDb.DatabaseService) :
  MockDb.isOffline s = false ->
  existsb is_failed_commit (emitted (MockDb.perform env w s)) = false ->
  let r := MockDb.perform env w s in
  outcome r = Normal tt /\
  MockDb.isOffline (final r) = false /\
  MockDb.localStorage (final r) = MockDb.localStorage s /\
  existsb is_save (emitted r) = false.
Proof.
  intros Hoff Hnone. cbv zeta.
  destruct (mock_perform_shape env w s)
    as (f & t & uploads & Hshape & _ & Hofft & Hlt & _ & Hup & _).
  cbv zeta in Hshape. rewrite Hshape in Hnone |- *. cbn [outcome final emitted] in *.
  rewrite existsb_app in Hnone. apply orb_false_elim in Hnone. destruct Hnone as [_ Htail].
  destruct (mock_tail_cases env (target w) f (commit_event w) t) as (Ho & _ & Hc).
  cbv zeta in Ho, Hc.
  destruct Hc as [(Hx & _) | [(_ & _ & Hoff' & Hl & He) | (_ & _ & _ & _ & He)]].
  - congruence.
  - rewrite Ho, Hoff', Hl, Hlt, He, existsb_app.
    rewrite (existsb_uploads is_save uploads upload_not_save Hup).
    cbn. rewrite commit_event_not_save. auto.
  - exfalso. rewrite He in Htail. cbn in Htail. rewrite failed_commit_event in Htail.
    discriminate.
Qed.

(** X2.  [init] of the service with a local fallback (not yet
    initialized) takes [this.data] from one source: from the store when it
    is configured and all four bulk reads resolve, from the browser storage
    otherwise; it is offline exactly in the second case, and [initialized]
    is set in both.  The storage gives the empty seed when it holds no text
    or a text that [JSON.parse] rejects, and otherwise what the text parses
    to.  When what is loaded is an [AppData], [init] returns and holds its
    collections, with the bootstrap account added if the users need it;
    nothing read from the store is kept when one read is rejected.  When the
    text parses to a value that is no [AppData], [this.data] is that value
    as [ensureSuperAdmin] leaves it, and [init] throws where
    [ensureSuperAdmin] does.  Without a configuration no call reaches the
    remote side; with one, the four reads are all issued, whatever the
    earlier ones answer. *)
Theorem mock_init_loads_from_one_source :
  forall (env : Env) (firebaseConfig : list (string * string))
         (s : MockDb.DatabaseService),
    MockDb.initialized s = false ->
    let r := MockDb.init env firebaseConfig s in
    MockDb.initialized (MockDb.service (final r)) = true /\
    MockDb.isOffline (MockDb.service (final r)) =
      (Nat.eqb (List.length firebaseConfig) 0 || negb (cloudReads env (MockDb.calls s))) /\
    loadedData env firebaseConfig s =
      (if Nat.eqb (List.length firebaseConfig) 0 || negb (cloudReads env (MockDb.calls s))
       then match MockDb.localStorage s with
            | Some (MockDb.Parsed v) => readAppData v
            | Some (MockDb.Corrupt _) | None =>
                Some {| organizations := []; customers := []; plans := []; users := [] |}
            end
       else Some (cloud env)) /\
    (forall d : AppData,
       loadedData env firebaseConfig s = Some d ->
       outcome r = Normal tt /\
       exists t, final r = MockDb.Sound t /\
                 MockDb.data t = set_users d (ensured (users d))) /\
    (loadedData env firebaseConfig s = None ->
     exists v t,
       MockDb.localStorage s = Some (MockDb.Parsed v) /\
       match MockDb.ensureSuperAdminOn v with
       | Normal v' => outcome r = Normal tt /\ final r = MockDb.Astray v' t
       | Throw e => outcome r = Throw e /\ final r = MockDb.Astray v t
       end) /\
    (firebaseConfig = [] ->
     forallb (fun e => negb (is_remote e)) (emitted r) = true) /\
    (firebaseConfig <> [] ->
     exists rest,
       emitted r =
         [EvGetDocs c_organizations (resolves env (MockDb.calls s));
          EvGetDocs c_users (resolves env (1 + MockDb.calls s));
          EvGetDocs c_customers (resolves env (2 + MockDb.calls s));
          EvGetDocs c_plans (resolves env (3 + MockDb.calls s))] ++ rest /\
       forallb (fun e => negb (is_remote e)) rest = true).
Proof.
  intros env firebaseConfig s Hinit r.
  destruct (mock_init_spec env firebaseConfig s Hinit) as (Hi & Hoff & Hnone & Hreads & Hcase).
  fold r in Hi, Hoff, Hnone, Hreads, Hcase.
  split; [exact Hi|]. split; [exact Hoff|].
  split.
  { unfold loadedData, turnsToStorage, localData.
    destruct (Nat.eqb (List.length firebaseConfig) 0 || negb (cloudReads env (MockDb.calls s)));
      [|reflexivity].
    destruct (MockDb.localStorage s) as [[text|v]|]; reflexivity. }
  split.
  { intros d Hd. rewrite Hd in Hcase. exact Hcase. }
  split.
  { intros Hd. rewrite Hd in Hcase. destruct Hcase as (_ & v & t & Hs & _ & Hend).
    exists v, t. split; [exact Hs|exact Hend]. }
  split; [exact Hnone|exact Hreads].
Qed.

Lemma mock_init_loads_from_one_source_witness :
  MockDb.initialized (MockDb.create (Some (MockDb.Snapshot earlierSession))) = false /\
  loadedData firstCallFails someConfig (MockDb.create (Some (MockDb.Snapshot earlierSession)))
    = Some earlierSession /\
  (exists t,
     final (MockDb.init firstCallFails someConfig
              (MockDb.create (Some (MockDb.Snapshot earlierSession)))) = MockDb.Sound t /\
     MockDb.data t = set_users earlierSession [acmeAdmin; MockDb.bootstrapAdmin]) /\
  MockDb.isOffline
    (MockDb.service
       (final (MockDb.init firstCallFails someConfig
                 (MockDb.create (Some (MockDb.Snapshot earlierSession)))))) = true.
Proof.
  split; [reflexivity|]. split; [reflexivity|].
  destruct (@mock_init_loads_from_one_source firstCallFails someConfig
              (MockDb.create (Some (MockDb.Snapshot earlierSession))) eq_refl)
    as (_ & Hoff & _ & Hd & _).
  destruct (Hd earlierSession eq_refl) as (_ & t & Hfinal & Hdata).
  split; [exists t; split; [exact Hfinal|exact Hdata]|exact Hoff].
Defined.

(** X3.  A write in offline mode whose save to the browser storage
    succeeds leaves there what [JSON.parse] reads from the text that
    [JSON.stringify] wrote for the collections held after the write.  When
    these are collections that JSON represents, the write survives a reload:
    a new service, started in the same browser without a configuration or
    with a store that does not answer, is offline and holds after [init] the
    collections that the old one held after the write (with the bootstrap
    account added if the users need it). *)
Theorem mock_offline_write_survives_reload :
  forall (env env' : Env) (firebaseConfig : list (string * string))
         (w : write) (s : MockDb.DatabaseService),
    MockDb.isOffline s = true ->
    resolves env (MockDb.calls s) = true ->
    firebaseConfig = [] \/ cloudReads env' 0 = false ->
    let r := MockDb.perform env w s in
    let held := MockDb.data (final r) in
    let reloaded :=
      MockDb.init env' firebaseConfig (MockDb.create (MockDb.localStorage (final r))) in
    outcome r = Normal tt /\
    stored_as w (MockDb.data s) held /\
    MockDb.localStorage (final r) = Some (MockDb.Parsed (reparsed (dataObject held))) /\
    MockDb.isOffline (MockDb.service (final reloaded)) = true /\
    (storable held = true ->
     outcome reloaded = Normal tt /\
     exists t, final reloaded = MockDb.Sound t /\
               MockDb.data t = set_users held (ensured (users held))).
Proof.
  intros env env' firebaseConfig w s Hoff Hsave Hsource r held reloaded.
  destruct (mock_offline_write env w s Hoff) as (Ho & _ & _ & _ & Hl).
  destruct (mock_perform_spec env w s) as (_ & Hst & _).
  fold r in Ho, Hl, Hst. rewrite Hsave in Hl. fold held in Hl.
  assert (Hinit : MockDb.initialized (MockDb.create (MockDb.localStorage (final r))) = false)
    by reflexivity.
  destruct (mock_init_spec env' firebaseConfig _ Hinit) as (_ & Hoff' & _ & _ & Hcase).
  fold reloaded in Hoff', Hcase.
  assert (Hlocal : turnsToStorage env' firebaseConfig
                     (MockDb.create (MockDb.localStorage (final r))) = true).
  { unfold turnsToStorage. destruct Hsource as [-> | Hreads]; [reflexivity|].
    cbn [MockDb.create MockDb.calls]. rewrite Hreads. apply orb_true_r. }
  split; [exact Ho|]. split; [exact Hst|]. split; [exact Hl|].
  split; [rewrite Hoff'; exact Hlocal|].
  intros Hstorable.
  assert (Hloaded : loadedData env' firebaseConfig
                      (MockDb.create (MockDb.localStorage (final r))) = Some held).
  { unfold loadedData. rewrite Hlocal. cbn [MockDb.create MockDb.localStorage].
    rewrite Hl. cbn [localData]. apply readAppData_reparsed. exact Hstorable. }
  rewrite Hloaded in Hcase. exact Hcase.
Qed.

Lemma mock_offline_write_survives_reload_witness :
  MockDb.isOffline disconnected = true /\
  resolves allCallsResolve (MockDb.calls disconnected) = true /\
  cloudReads noCallResolves 0 = false /\
  storable (MockDb.data (final (MockDb.perform allCallsResolve (AddCustomer sampleCustomer)
                                  disconnected))) = true /\
  exists t,
    final (MockDb.init noCallResolves someConfig
             (MockDb.create
                (MockDb.localStorage
                   (final (MockDb.perform allCallsResolve (AddCustomer sampleCustomer)
                             disconnected))))) = MockDb.Sound t /\
    customers (MockDb.data t) = [sampleCustomer].
Proof.
  split; [reflexivity|]. split; [reflexivity|]. split; [reflexivity|].
  split; [reflexivity|].
  destruct (@mock_offline_write_survives_reload allCallsResolve noCallResolves someConfig
              (AddCustomer sampleCustomer) disconnected eq_refl eq_refl
              (or_intror eq_refl)) as (_ & _ & _ & _ & Hd).
  destruct (Hd eq_refl) as (_ & t & Hfinal & Hdata).
  exists t. split; [exact Hfinal|]. rewrite Hdata. reflexivity.
Defined.

(** Without the condition: a customer whose potential is NaN is written
    as [null], and what a reload holds is no [AppData]. *)
Example mock_reload_of_a_number_that_json_lacks :
  let held := {| organizations := []; users := []; plans := [];
                 customers := [customerWithoutPotential] |} in
  storable held = false /\
  readAppData (reparsed (dataObject held)) = None.
Proof. vm_compute. split; reflexivity. Qed.

(** X4.  A write in offline mode whose save to the browser storage fails
    (the storage is full) returns normally all the same: the record is in
    the collection in memory, the browser storage holds what it held
    before, and nothing tells the caller. *)
Theorem mock_failed_save_is_silent :
  forall (env : Env) (w : write) (s : MockDb.DatabaseService),
    MockDb.isOffline s = true ->
    resolves env (MockDb.calls s) = false ->
    let r := MockDb.perform env w s in
    outcome r = Normal tt /\
    stored_as w (MockDb.data s) (MockDb.data (final r)) /\
    MockDb.localStorage (final r) = MockDb.localStorage s /\
    emitted r = [EvLocal (target w); EvSetItem false].
Proof.
  intros env w s Hoff Hsave r.
  destruct (mock_offline_write env w s Hoff) as (Ho & He & _ & _ & Hl).
  destruct (mock_perform_spec env w s) as (_ & Hst & _).
  fold r in Ho, He, Hl, Hst. rewrite Hsave in He, Hl.
  split; [exact Ho|]. split; [exact Hst|]. split; [exact Hl|exact He].
Qed.

Lemma mock_failed_save_is_silent_witness :
  MockDb.isOffline disconnected = true /\
  resolves noCallResolves (MockDb.calls disconnected) = false /\
  outcome (MockDb.perform noCallResolves (AddCustomer sampleCustomer) disconnected)
    = Normal tt /\
  MockDb.localStorage
    (final (MockDb.perform noCallResolves (AddCustomer sampleCustomer) disconnected)) = None.
Proof.
  split; [reflexivity|]. split; [reflexivity|].
  destruct (@mock_failed_save_is_silent noCallResolves (AddCustomer sampleCustomer)
              disconnected eq_refl eq_refl) as (Ho & _ & Hl & _).
  split; [exact Ho | exact Hl].
Defined.

(** X5.  In connected mode, as long as no remote commit fails, nothing is
    written to the browser storage and the service stays connected,
    whatever the writes are and whether or not their uploads succeed: the
    snapshot that a later offline start would load is not refreshed. *)
Theorem mock_connected_session_is_not_saved :
  forall (env : Env) (ws : list write) (s : MockDb.DatabaseService),
    MockDb.isOffline s = false ->
    existsb is_failed_commit (emitted (MockDb.performAll env ws s)) = false ->
    let r := MockDb.performAll env ws s in
    outcome r = Normal tt /\
    MockDb.isOffline (final r) = false /\
    MockDb.localStorage (final r) = MockDb.localStorage s /\
    existsb is_save (emitted r) = false.
Proof.
  intros env ws. induction ws as [|w rest IH]; intros s Hoff Hnone; cbv zeta.
  - cbn. auto.
  - destruct (mock_perform_spec env w s) as (Ho & _).
    cbn [MockDb.performAll] in Hnone |- *.
    assert (Hrun : outcome (try_catch (MockDb.perform env w) (fun _ => ret tt) s) = Normal tt)
      by (rewrite (try_catch_normal _ _ _ Ho); exact Ho).
    rewrite (bind_run _ _ _ Hrun) in Hnone |- *.
    rewrite (try_catch_normal _ _ _ Ho) in Hnone |- *.
    cbn [outcome final emitted] in Hnone |- *.
    rewrite existsb_app in Hnone. apply orb_false_elim in Hnone.
    destruct Hnone as [Hw Hrest].
    destruct (mock_connected_write env w s Hoff Hw) as (_ & Hoff1 & Hl1 & Hs1).
    destruct (IH _ Hoff1 Hrest) as (Ho2 & Hoff2 & Hl2 & Hs2).
    rewrite existsb_app, Hs1, Hs2, Ho2, Hoff2, Hl2, Hl1. auto.
Qed.

Lemma mock_connected_session_is_not_saved_witness :
  MockDb.isOffline connected = false /\
  existsb is_failed_commit
    (emitted (MockDb.performAll allCallsResolve
                [AddCustomer sampleCustomer; AddPlan samplePlan] connected)) = false /\
  MockDb.localStorage
    (final (MockDb.performAll allCallsResolve
              [AddCustomer sampleCustomer; AddPlan samplePlan] connected)) = None.
Proof.
  split; [reflexivity|]. split; [reflexivity|].
  destruct (@mock_connected_session_is_not_saved allCallsResolve
              [AddCustomer sampleCustomer; AddPlan samplePlan] connected eq_refl eq_refl)
    as (_ & _ & Hl & _).
  exact Hl.
Defined.

(** ** The online-only service: connection *)

(** One awaited call, then the rest. *)
Lemma online_await_then {A : Type} (env : Env) (call : bool -> event)
      (k : OnlineDb.Eff A) (s : OnlineDb.DatabaseService) :
  (_ <- OnlineDb.await env call ;; k) s =
  match answer env (OnlineDb.calls s) with
  | Some _ =>
      {| outcome := outcome (k (OnlineDb.tick s)); final := final (k (OnlineDb.tick s));
         emitted := call true :: emitted (k (OnlineDb.tick s)) |}
  | None =>
      {| outcome := Throw "rejected"; final := OnlineDb.tick s; emitted := [call false] |}
  end.
Proof. unfold bind, OnlineDb.await. destruct (answer env (OnlineDb.calls s)); reflexivity. Qed.

(** X6.  [init] of the online-only service is all or nothing.  Without a
    configuration it throws and marks the service as not online.  With one,
    either the four listeners attach, and the service is initialized, online
    and holds the four handles; or the registration that fails ends it: the
    error of the caller is the connection message, the service is neither
    initialized nor online, and no handle is kept, also not those of the
    listeners that did attach.  [init] changes neither the collections nor
    the subscribers, and does nothing on a service that is initialized. *)
Theorem online_init_all_or_nothing :
  forall (env : Env) (firebaseConfig : list (string * string))
         (s : OnlineDb.DatabaseService),
    let r := OnlineDb.init env firebaseConfig s in
    (OnlineDb.initialized s = true ->
     r = {| outcome := Normal tt; final := s; emitted := [] |})
    /\
    (OnlineDb.initialized s = false ->
     OnlineDb.data (final r) = OnlineDb.data s /\
     OnlineDb.subscribers (final r) = OnlineDb.subscribers s /\
     forallb is_registration (emitted r) = true /\
     (firebaseConfig = [] ->
      r = {| outcome := Throw "Missing Firebase Configuration. App cannot start in online mode.";
             final := OnlineDb.set_isOnline false s; emitted := [] |}) /\
     (firebaseConfig <> [] -> listenersAttach env (OnlineDb.calls s) = true ->
      outcome r = Normal tt /\
      OnlineDb.initialized (final r) = true /\
      OnlineDb.isOnline (final r) = true /\
      OnlineDb.listeners (final r) =
        OnlineDb.listeners s ++ [c_organizations; c_users; c_customers; c_plans] /\
      emitted r = [EvOnSnapshot c_organizations true; EvOnSnapshot c_users true;
                   EvOnSnapshot c_customers true; EvOnSnapshot c_plans true]) /\
     (firebaseConfig <> [] -> listenersAttach env (OnlineDb.calls s) = false ->
      outcome r =
        Throw "Failed to connect to backend server. Please check internet connection." /\
      OnlineDb.initialized (final r) = false /\
      OnlineDb.isOnline (final r) = false /\
      OnlineDb.listeners (final r) = OnlineDb.listeners s /\
      exists attached c,
        emitted r = map (fun c => EvOnSnapshot c true) attached ++ [EvOnSnapshot c false] /\
        attached ++ [c] =
          firstn (S (List.length attached))
                 [c_organizations; c_users; c_customers; c_plans])).
Proof.
  intros env firebaseConfig s r. subst r. split.
  - intros Hinit. unfold OnlineDb.init.
    rewrite (bind_run get _ s (a := s) eq_refl). cbn [get outcome final emitted app].
    rewrite Hinit. reflexivity.
  - intros Hinit. unfold OnlineDb.init.
    rewrite (bind_run get _ s (a := s) eq_refl). cbn [get outcome final emitted app].
    rewrite Hinit.
    destruct firebaseConfig as [|entry entries]; cbn [List.length Nat.eqb].
    + rewrite (bind_run (modify (OnlineDb.set_isOnline false)) _ _ (a := tt) eq_refl).
      cbn [outcome final emitted modify throw app OnlineDb.data OnlineDb.subscribers
           OnlineDb.set_isOnline forallb].
      repeat split; auto; congruence.
    + match goal with |- context [try_catch ?m ?h s] => set (body := m); set (handler := h) end.
      assert (Hhandler : forall t,
                handler "rejected" t =
                {| outcome := Throw "Failed to connect to backend server. Please check internet connection.";
                   final := OnlineDb.set_isOnline false t; emitted := [] |})
        by reflexivity.
      assert (Hthrow : forall t evs,
                body s = {| outcome := Throw "rejected"; final := t; emitted := evs |} ->
                try_catch body handler s =
                {| outcome := Throw "Failed to connect to backend server. Please check internet connection.";
                   final := OnlineDb.set_isOnline false t; emitted := evs |}).
      { intros t evs Hb. unfold try_catch. rewrite Hb. cbn [outcome final emitted].
        rewrite Hhandler. cbn [outcome final emitted]. rewrite app_nil_r. reflexivity. }
      assert (Hbody : body s =
                (_ <- OnlineDb.await env (EvOnSnapshot c_organizations) ;;
                 _ <- OnlineDb.await env (EvOnSnapshot c_users) ;;
                 _ <- OnlineDb.await env (EvOnSnapshot c_customers) ;;
                 _ <- OnlineDb.await env (EvOnSnapshot c_plans) ;;
                 modify (fun s => OnlineDb.set_listeners
                           (OnlineDb.listeners s
                            ++ [c_organizations; c_users; c_customers; c_plans]) s) ;;
                 modify (OnlineDb.set_initialized true)) (OnlineDb.set_isOnline true s))
        by (unfold body;
            rewrite (bind_run (modify (OnlineDb.set_isOnline true)) _ _ (a := tt) eq_refl);
            cbn [outcome final emitted modify]; apply result_eta).
      unfold listenersAttach, resolves. cbn [Nat.add].
      rewrite online_await_then in Hbody. cbn [OnlineDb.calls OnlineDb.set_isOnline] in Hbody.
      destruct (answer env (OnlineDb.calls s)); cbn [andb].
      2: { rewrite (Hthrow _ _ Hbody). cbn. repeat split; auto; try congruence.
           exists [], c_organizations. split; reflexivity. }
      rewrite online_await_then in Hbody.
      cbn [OnlineDb.calls OnlineDb.tick OnlineDb.set_isOnline] in Hbody.
      destruct (answer env (S (OnlineDb.calls s))); cbn [andb].
      2: { cbn [outcome final emitted] in Hbody.
           rewrite (Hthrow _ _ Hbody). cbn. repeat split; auto; try congruence.
           exists [c_organizations], c_users. split; reflexivity. }
      rewrite online_await_then in Hbody.
      cbn [OnlineDb.calls OnlineDb.tick OnlineDb.set_isOnline] in Hbody.
      destruct (answer env (S (S (OnlineDb.calls s)))); cbn [andb].
      2: { cbn [outcome final emitted] in Hbody.
           rewrite (Hthrow _ _ Hbody). cbn. repeat split; auto; try congruence.
           exists [c_organizations; c_users], c_customers. split; reflexivity. }
      rewrite online_await_then in Hbody.
      cbn [OnlineDb.calls OnlineDb.tick OnlineDb.set_isOnline] in Hbody.
      destruct (answer env (S (S (S (OnlineDb.calls s))))); cbn [andb].
      2: { cbn [outcome final emitted] in Hbody.
           rewrite (Hthrow _ _ Hbody). cbn. repeat split; auto; try congruence.
           exists [c_organizations; c_users; c_customers], c_plans. split; reflexivity. }
      unfold try_catch. rewrite Hbody. cbn.
      repeat split; auto; congruence.
Qed.

Lemma online_init_all_or_nothing_witness :
  OnlineDb.initialized OnlineDb.create = false /\
  listenersAttach thirdCallFails (OnlineDb.calls OnlineDb.create) = false /\
  OnlineDb.listeners (final (OnlineDb.init thirdCallFails someConfig OnlineDb.create)) = [] /\
  OnlineDb.initialized (final (OnlineDb.init thirdCallFails someConfig OnlineDb.create))
    = false /\
  emitted (OnlineDb.init thirdCallFails someConfig OnlineDb.create)
    = [EvOnSnapshot c_organizations true; EvOnSnapshot c_users true;
       EvOnSnapshot c_customers false].
Proof.
  split; [reflexivity|]. split; [reflexivity|].
  destruct (@online_init_all_or_nothing thirdCallFails someConfig OnlineDb.create)
    as [_ Hfirst].
  destruct (Hfirst eq_refl) as (_ & _ & _ & _ & _ & Hfail).
  destruct (Hfail ltac:(discriminate) eq_refl) as (_ & Hi & _ & Hl & _).
  split; [exact Hl|]. split; [exact Hi|]. reflexivity.
Defined.

(** ** The online-only service: notification *)

Section Rounds.
Variable reactions : nat -> list OnlineDb.reaction.

Import OnlineDb.

Lemma react_quiet (rs : list reaction) (s : DatabaseService) :
  outcome (forEach react rs s) = Normal tt /\
  emitted (forEach react rs s) = [] /\
  data (final (forEach react rs s)) = data s.
Proof.
  revert s. induction rs as [|r rest IH]; intros s; [cbn; auto|].
  cbn [forEach].
  assert (Hr : outcome (react r s) = Normal tt /\ emitted (react r s) = [] /\
               data (final (react r s)) = data s)
    by (destruct r; cbn; auto).
  destruct Hr as (Ho & He & Hd).
  rewrite (bind_run _ _ _ Ho). cbn [outcome final emitted]. rewrite He.
  destruct (IH (final (react r s))) as (Ho2 & He2 & Hd2).
  rewrite Ho2, He2, Hd2, Hd. auto.
Qed.

(** A round of notification invokes the subscribers it is given, each
    once, in order, whatever they register or deregister. *)
Lemma round_events (l : list nat) (s : DatabaseService) :
  outcome (forEach (invoke reactions) l s) = Normal tt /\
  emitted (forEach (invoke reactions) l s) = map EvCallback l /\
  data (final (forEach (invoke reactions) l s)) = data s.
Proof.
  revert s. induction l as [|cb rest IH]; intros s; [cbn; auto|].
  cbn [forEach].
  assert (Hi : outcome (invoke reactions cb s) = Normal tt /\
               emitted (invoke reactions cb s) = [EvCallback cb] /\
               data (final (invoke reactions cb s)) = data s).
  { unfold invoke.
    rewrite (bind_run (emit (EvCallback cb)) _ _ (a := tt) eq_refl).
    cbn [outcome final emitted emit].
    destruct (react_quiet (reactions cb) s) as (Ho & He & Hd).
    rewrite Ho, He, Hd. auto. }
  destruct Hi as (Ho & He & Hd).
  rewrite (bind_run _ _ _ Ho). cbn [outcome final emitted]. rewrite He.
  destruct (IH (final (invoke reactions cb s))) as (Ho2 & He2 & Hd2).
  rewrite Ho2, He2, Hd2, Hd. auto.
Qed.

End Rounds.

(** X7.  A snapshot that the store delivers replaces its collection as a
    whole (nothing of the collection held before is kept, the other
    collections are not touched) and then invokes the subscribers that are
    registered at that moment, each once per registration, in the order of
    registration.  What the subscribers do when invoked does not change the
    round: one that is deregistered by an earlier subscriber of the round is
    still invoked in it, one that is registered during the round is not. *)
Theorem online_snapshot_round :
  forall (reactions : nat -> list OnlineDb.reaction) (snap : OnlineDb.snapshot)
         (s : OnlineDb.DatabaseService),
    let r := OnlineDb.onSnapshotDelivered reactions snap s in
    outcome r = Normal tt /\
    OnlineDb.data (final r) = replaced snap (OnlineDb.data s) /\
    same_except (snapshot_collection snap) (OnlineDb.data s) (OnlineDb.data (final r)) /\
    emitted r =
      EvLocal (snapshot_collection snap) :: map EvCallback (OnlineDb.subscribers s).
Proof.
  intros reactions snap s r. subst r. unfold OnlineDb.onSnapshotDelivered.
  match goal with |- context [bind ?m _ s] =>
    assert (Hm : m s = {| outcome := Normal tt;
                          final := OnlineDb.set_data (replaced snap (OnlineDb.data s)) s;
                          emitted := [EvLocal (snapshot_collection snap)] |})
      by (destruct snap; reflexivity);
    rewrite (bind_run m _ s (a := tt)) by (rewrite Hm; reflexivity);
    rewrite Hm
  end.
  cbn [outcome final emitted]. unfold OnlineDb.notifySubscribers.
  rewrite (bind_run get _ _ (a := OnlineDb.set_data (replaced snap (OnlineDb.data s)) s)
             eq_refl).
  cbn [get outcome final emitted app OnlineDb.subscribers OnlineDb.set_data].
  destruct (round_events reactions (OnlineDb.subscribers s)
              (OnlineDb.set_data (replaced snap (OnlineDb.data s)) s)) as (Ho & He & Hd).
  rewrite Ho, He, Hd. cbn [OnlineDb.data OnlineDb.set_data].
  split; [reflexivity|]. split; [reflexivity|]. split; [|reflexivity].
  unfold same_except. destruct snap; cbn; repeat split; auto; congruence.
Qed.

Example a_round_is_fixed_when_it_starts :
  let s := final (OnlineDb.session firstCallFails busy
                    [OnlineDb.Register 7; OnlineDb.Register 8] online) in
  emitted (OnlineDb.onSnapshotDelivered busy (OnlineDb.SnapUsers []) s)
    = [EvLocal c_users; EvCallback 7; EvCallback 8] /\
  OnlineDb.subscribers (final (OnlineDb.onSnapshotDelivered busy (OnlineDb.SnapUsers []) s))
    = [7; 9].
Proof. cbv zeta. split; reflexivity. Qed.

Lemma upload_not_callback (e : event) : is_upload e = true -> is_callback e = false.
Proof. destruct e; cbn; congruence. Qed.

(** X8.  No write method of the online-only service invokes a subscriber,
    whether the write succeeds or throws, and none changes the subscribers
    or the online flag: observers hear of a write only through the snapshot
    that the store delivers for it. *)
Theorem online_write_notifies_nobody :
  forall (env : Env) (w : write) (s : OnlineDb.DatabaseService),
    let r := OnlineDb.perform env w s in
    existsb is_callback (emitted r) = false /\
    OnlineDb.subscribers (final r) = OnlineDb.subscribers s /\
    OnlineDb.isOnline (final r) = OnlineDb.isOnline s.
Proof.
  intros env w s r.
  destruct (online_perform_spec env w s) as (Hon & Hs & uploads & Hup & Hc).
  fold r in Hon, Hs, Hc.
  assert (Hnone : existsb is_callback uploads = false)
    by (apply existsb_uploads; [exact upload_not_callback | exact Hup]).
  split; [|split; assumption].
  destruct Hc as [(_ & _ & He & _) | [(_ & _ & He & _) |
                  [(_ & _ & He & _) | (e & _ & _ & He & _)]]];
    rewrite He; rewrite ?existsb_app, ?Hnone; auto; destruct w; reflexivity.
Qed.

(** X9.  [subscribe] adds a registration also when the callback is
    registered already, and the handle of any one registration removes all
    registrations of that callback: after two registrations and one
    invocation of a handle the callback is not registered any more.  The
    registrations of the other callbacks stay as they are, in their order. *)
Theorem online_handle_removes_every_registration :
  forall (cb : nat) (s : OnlineDb.DatabaseService),
    let twice := final (OnlineDb.subscribe cb (final (OnlineDb.subscribe cb s))) in
    let s' := final (OnlineDb.unsubscribe cb twice) in
    count_occ Nat.eq_dec (OnlineDb.subscribers twice) cb
      = 2 + count_occ Nat.eq_dec (OnlineDb.subscribers s) cb /\
    ~ In cb (OnlineDb.subscribers s') /\
    OnlineDb.subscribers s' =
      filter (fun c => negb (Nat.eqb c cb)) (OnlineDb.subscribers s) /\
    (forall c, c <> cb ->
       count_occ Nat.eq_dec (OnlineDb.subscribers s') c
       = count_occ Nat.eq_dec (OnlineDb.subscribers s) c).
Proof.
  intros cb s twice s'. subst twice s'. cbn. unfold push.
  assert (Hf : filter (fun c => negb (Nat.eqb c cb)) ((OnlineDb.subscribers s ++ [cb]) ++ [cb])
               = filter (fun c => negb (Nat.eqb c cb)) (OnlineDb.subscribers s)).
  { rewrite !filter_app. cbn. rewrite Nat.eqb_refl. cbn. rewrite !app_nil_r. reflexivity. }
  split; [|split; [|split]].
  - rewrite !count_occ_app. cbn. destruct (Nat.eq_dec cb cb); [lia|congruence].
  - rewrite Hf, filter_In. intros [_ H]. rewrite Nat.eqb_refl in H. discriminate.
  - exact Hf.
  - intros c Hc. rewrite Hf. clear Hf.
    induction (OnlineDb.subscribers s) as [|x l IH]; [reflexivity|].
    cbn. destruct (Nat.eqb_spec x cb) as [->|Hx]; cbn.
    + destruct (Nat.eq_dec cb c); [congruence|exact IH].
    + destruct (Nat.eq_dec x c); rewrite IH; reflexivity.
Qed.

(** ** Both services: what a write changes *)

(** Every write method of the online-only service leaves the collections
    as they were or applies one change [f] to its target collection. *)
Lemma online_perform_shape (env : Env) (w : write) (s : OnlineDb.DatabaseService) :
  exists f : AppData -> AppData,
    (forall d, same_except (target w) d (f d)) /\
    (updates_unknown_id w (OnlineDb.data s) = true ->
     f (OnlineDb.data s) = OnlineDb.data s) /\
    (OnlineDb.data (final (OnlineDb.perform env w s)) = f (OnlineDb.data s) \/
     OnlineDb.data (final (OnlineDb.perform env w s)) = OnlineDb.data s).
Proof.
  assert (Hmap : forall (A : Type) (p : A -> bool) (g : A -> A) (l : list A),
            existsb p l = false -> map (fun x => if p x then g x else x) l = l).
  { intros A p g l. induction l as [|x l IH]; [reflexivity|].
    cbn. intros H. apply orb_false_elim in H. destruct H as [Hx Hl].
    rewrite Hx, (IH Hl). reflexivity. }
  assert (Hsame : forall c d d',
            match c with
            | c_organizations => d' = set_organizations d (organizations d')
            | c_users => d' = set_users d (users d')
            | c_customers => d' = set_customers d (customers d')
            | c_plans => d' = set_plans d (plans d')
            end -> same_except c d d').
  { intros c d d' H. unfold same_except.
    destruct c; rewrite H; cbn; repeat split; auto; congruence. }
  destruct w as [org|id updates|u|userId updates|customer|plan|planId updates];
    cbn [OnlineDb.perform target updates_unknown_id].
  1-5: unfold OnlineDb.addOrganization, OnlineDb.updateOrganization, OnlineDb.addUser,
         OnlineDb.updateUser, OnlineDb.addCustomer;
       match goal with
       | |- context [(_ <- OnlineDb.await _ ?call ;; OnlineDb.writeLocal ?c ?f) ?t] =>
           exists f;
           destruct (online_commit_then_write env call c f t)
             as (_ & _ & [(_ & Hd & _) | (_ & Hd & _)])
       end;
       (split; [intros d; apply Hsame; reflexivity|]);
       (split; [first [ discriminate
                      | intros H; apply negb_true_iff in H; cbn;
                        rewrite (Hmap _ _ _ _ H); destruct (OnlineDb.data s); reflexivity ]|]);
       [left; exact Hd | right; exact Hd].
  - unfold OnlineDb.addPlan.
    destruct (online_uploadAttachments_spec env (attachments plan) s)
      as (Hd & _ & _ & _ & Hc). cbv zeta in *.
    destruct Hc as [(processed & Ho & _) | [(Ho & _) | (e & Ho & _)]].
    + rewrite (bind_run _ _ _ Ho). cbn [outcome final emitted].
      match goal with
      | |- context [(_ <- OnlineDb.await _ ?call ;; OnlineDb.writeLocal ?c ?f) ?t] =>
          exists f;
          destruct (online_commit_then_write env call c f t)
            as (_ & _ & [(_ & Hd2 & _) | (_ & Hd2 & _)])
      end;
      (split; [intros d; apply Hsame; reflexivity|]);
      (split; [discriminate|]); rewrite Hd2, Hd; auto.
    + exists (fun d => d). rewrite (bind_throw _ _ _ Ho). cbn [outcome final emitted].
      split; [intros d; unfold same_except; auto|]. split; [auto|]. right. exact Hd.
    + exists (fun d => d). rewrite (bind_throw _ _ _ Ho). cbn [outcome final emitted].
      split; [intros d; unfold same_except; auto|]. split; [auto|]. right. exact Hd.
  - unfold OnlineDb.updatePlan.
    destruct (pp_attachments updates) as [[files|]|] eqn:Hatt.
    + destruct (online_uploadAttachments_spec env (Some files) s)
        as (Hd & _ & _ & _ & Hc). cbv zeta in *.
      destruct Hc as [(processed & Ho & _) | [(Ho & _) | (e & Ho & _)]].
      * assert (Hup : outcome
                  ((processed <- OnlineDb.uploadAttachments env (Some files) ;;
                    ret {| pp_id := pp_id updates; pp_attachments := Some (Some processed);
                           pp_fields := pp_fields updates |}) s)
                = Normal {| pp_id := pp_id updates; pp_attachments := Some (Some processed);
                            pp_fields := pp_fields updates |})
          by (rewrite (bind_run _ _ _ Ho); reflexivity).
        rewrite (bind_run _ _ _ Hup). rewrite (bind_run _ _ _ Ho).
        cbn [ret outcome final emitted].
        match goal with
        | |- context [(_ <- OnlineDb.await _ ?call ;; OnlineDb.writeLocal ?c ?f) ?t] =>
            exists f;
            destruct (online_commit_then_write env call c f t)
              as (_ & _ & [(_ & Hd2 & _) | (_ & Hd2 & _)])
        end;
        (split; [intros d; apply Hsame; reflexivity|]);
        (split; [intros H; apply negb_true_iff in H; cbn;
                 rewrite (Hmap _ _ _ _ H); destruct (OnlineDb.data s); reflexivity|]);
        rewrite Hd2, Hd; auto.
      * assert (Hup : outcome
                  ((processed <- OnlineDb.uploadAttachments env (Some files) ;;
                    ret {| pp_id := pp_id updates; pp_attachments := Some (Some processed);
                           pp_fields := pp_fields updates |}) s)
                = Throw "Cannot upload files while offline")
          by (rewrite (bind_throw _ _ _ Ho); reflexivity).
        exists (fun d => d).
        rewrite (bind_throw _ _ _ Hup). rewrite (bind_throw _ _ _ Ho).
        cbn [outcome final emitted].
        split; [intros d; unfold same_except; auto|]. split; [auto|]. right. exact Hd.
      * assert (Hup : outcome
                  ((processed <- OnlineDb.uploadAttachments env (Some files) ;;
                    ret {| pp_id := pp_id updates; pp_attachments := Some (Some processed);
                           pp_fields := pp_fields updates |}) s)
                = Throw e)
          by (rewrite (bind_throw _ _ _ Ho); reflexivity).
        exists (fun d => d).
        rewrite (bind_throw _ _ _ Hup). rewrite (bind_throw _ _ _ Ho).
        cbn [outcome final emitted].
        split; [intros d; unfold same_except; auto|]. split; [auto|]. right. exact Hd.
    + rewrite (bind_run (ret updates) _ s (a := updates) eq_refl).
      cbn [ret outcome final emitted].
      match goal with
      | |- context [(_ <- OnlineDb.await _ ?call ;; OnlineDb.writeLocal ?c ?f) ?t] =>
          exists f;
          destruct (online_commit_then_write env call c f t)
            as (_ & _ & [(_ & Hd2 & _) | (_ & Hd2 & _)])
      end;
      (split; [intros d; apply Hsame; reflexivity|]);
      (split; [intros H; apply negb_true_iff in H; cbn;
               rewrite (Hmap _ _ _ _ H); destruct (OnlineDb.data s); reflexivity|]);
      rewrite Hd2; auto.
    + rewrite (bind_run (ret updates) _ s (a := updates) eq_refl).
      cbn [ret outcome final emitted].
      match goal with
      | |- context [(_ <- OnlineDb.await _ ?call ;; OnlineDb.writeLocal ?c ?f) ?t] =>
          exists f;
          destruct (online_commit_then_write env call c f t)
            as (_ & _ & [(_ & Hd2 & _) | (_ & Hd2 & _)])
      end;
      (split; [intros d; apply Hsame; reflexivity|]);
      (split; [intros H; apply negb_true_iff in H; cbn;
               rewrite (Hmap _ _ _ _ H); destruct (OnlineDb.data s); reflexivity|]);
      rewrite Hd2; auto.
Qed.

Lemma same_except_refl (c : collection) (d : AppData) : same_except c d d.
Proof. unfold same_except. auto. Qed.

Lemma mock_write_frame (env : Env) (w : write) (s : MockDb.DatabaseService) :
  same_except (target w) (MockDb.data s) (MockDb.data (final (MockDb.perform env w s))).
Proof.
  destruct (mock_perform_shape env w s)
    as (f & t & uploads & Hshape & Hdt & _ & _ & _ & _ & Hf & _).
  cbv zeta in Hshape. rewrite Hshape. cbn [final].
  destruct (mock_tail_cases env (target w) f (commit_event w) t) as (_ & Hd & _).
  cbv zeta in Hd. rewrite Hd, Hdt. apply Hf.
Qed.

Lemma online_write_frame (env : Env) (w : write) (s : OnlineDb.DatabaseService) :
  same_except (target w) (OnlineDb.data s)
              (OnlineDb.data (final (OnlineDb.perform env w s))).
Proof.
  destruct (online_perform_shape env w s) as (f & Hf & _ & [Hd | Hd]); rewrite Hd.
  - apply Hf.
  - apply same_except_refl.
Qed.

(** X10.  A write changes its own collection only: in both services, after
    any write method, whatever its outcome, the three other collections
    are what they were. *)
Theorem write_changes_its_collection_only :
  (forall (env : Env) (w : write) (s : MockDb.DatabaseService),
     same_except (target w) (MockDb.data s) (MockDb.data (final (MockDb.perform env w s))))
  /\
  (forall (env : Env) (w : write) (s : OnlineDb.DatabaseService),
     same_except (target w) (OnlineDb.data s)
                 (OnlineDb.data (final (OnlineDb.perform env w s)))).
Proof.
  split; intros env w s.
  - apply mock_write_frame.
  - apply online_write_frame.
Qed.

(** X11.  An update of a record whose id no record of the collection has
    changes nothing in the collections, in both services, and is no error
    of its own.  In the service with a local fallback the call returns
    normally and, in connected mode, the remote update is still issued. *)
Theorem update_of_an_unknown_id_changes_nothing :
  (forall (env : Env) (w : write) (s : MockDb.DatabaseService),
     updates_unknown_id w (MockDb.data s) = true ->
     let r := MockDb.perform env w s in
     outcome r = Normal tt /\
     MockDb.data (final r) = MockDb.data s /\
     (MockDb.isOffline s = false -> existsb is_commit (emitted r) = true))
  /\
  (forall (env : Env) (w : write) (s : OnlineDb.DatabaseService),
     updates_unknown_id w (OnlineDb.data s) = true ->
     OnlineDb.data (final (OnlineDb.perform env w s)) = OnlineDb.data s).
Proof.
  split; intros env w s Hun.
  - intros r. subst r.
    destruct (mock_perform_shape env w s)
      as (f & t & uploads & Hshape & Hdt & Hofft & _ & _ & _ & _ & Hid).
    cbv zeta in Hshape. rewrite Hshape. cbn [outcome final emitted].
    destruct (mock_tail_cases env (target w) f (commit_event w) t) as (Ho & Hd & Hc).
    cbv zeta in Ho, Hd, Hc. rewrite Ho, Hd, Hdt, (Hid Hun).
    split; [reflexivity|]. split; [reflexivity|].
    intros Hoff. rewrite existsb_app. apply orb_true_iff. right.
    destruct Hc as [(Hx & _) | [(_ & _ & _ & _ & He) | (_ & _ & _ & _ & He)]];
      [congruence| |]; rewrite He; destruct w; reflexivity.
  - destruct (online_perform_shape env w s) as (f & _ & Hid & [Hd | Hd]); rewrite Hd.
    + apply Hid, Hun.
    + reflexivity.
Qed.

Lemma update_of_an_unknown_id_changes_nothing_witness :
  updates_unknown_id (UpdateUser "nobody" approval) (MockDb.data connectedWithRecords) = true /\
  emitted (MockDb.perform allCallsResolve (UpdateUser "nobody" approval) connectedWithRecords)
    = [EvLocal c_users; EvUpdateDoc c_users "nobody" true] /\
  MockDb.data
    (final (MockDb.perform allCallsResolve (UpdateUser "nobody" approval) connectedWithRecords))
    = earlierSession /\
  OnlineDb.data
    (final (OnlineDb.perform allCallsResolve (UpdateUser "nobody" approval) onlineWithRecords))
    = earlierSession.
Proof.
  split; [reflexivity|]. split; [reflexivity|].
  destruct update_of_an_unknown_id_changes_nothing as [Hmock Honline].
  split.
  - apply (Hmock allCallsResolve (UpdateUser "nobody" approval) connectedWithRecords eq_refl).
  - apply (Honline allCallsResolve (UpdateUser "nobody" approval) onlineWithRecords eq_refl).
Defined.

(** ** The service with a local fallback: a failed commit (C2) *)









(** ** Login *)

Lemma array_find_some {A : Type} (p : A -> bool) (l : list A) (x : A) :
  array_find p l = Some x -> In x l /\ p x = true.
Proof. unfold array_find. apply find_some. Qed.

Lemma hasCredentials_true (orgId cleanEmail cleanPass : string) (u : User) :
  hasCredentials orgId cleanEmail cleanPass u = true ->
  organizationId u = orgId /\ email u = cleanEmail /\ password u = Some cleanPass.
Proof.
  unfold hasCredentials. intros H.
  apply andb_prop in H. destruct H as [H Hp].
  apply andb_prop in H. destruct H as [Ho He].
  apply String.eqb_eq in Ho, He.
  destruct (password u) as [p|]; [|discriminate].
  apply String.eqb_eq in Hp. subst. auto.
Qed.

Lemma online_login_admits (orgs : list Organization) (usrs : list User)
      (orgName address pass : string) (st : AppState) :
  success (fst (AppOnline.login orgs usrs orgName address pass st)) = true ->
  exists org found,
    array_find (orgNamed orgName) orgs = Some org /\
    (org_isApproved org = true \/ org_id org = "system_global") /\
    In found usrs /\
    organizationId found = org_id org /\
    email found = trim address /\
    password found = Some (trim pass) /\
    isApproved found = true /\
    AppOnline.login orgs usrs orgName address pass st
      = (admitted, setCurrentPage "home" (setUser found st)).
Proof.
  unfold AppOnline.login.
  destruct (array_find (orgNamed orgName) orgs) as [org|] eqn:Horg; [|discriminate].
  destruct (org_isApproved org) eqn:Happ; cbn [negb andb].
  - destruct (array_find _ usrs) as [found|] eqn:Hfound; [|discriminate].
    destruct (isApproved found) eqn:Hok; cbn [negb]; [|discriminate].
    intros _. apply array_find_some in Hfound. destruct Hfound as [Hin Hc].
    apply hasCredentials_true in Hc. destruct Hc as (H1 & H2 & H3).
    exists org, found. repeat split; auto.
  - destruct (String.eqb_spec (org_id org) "system_global") as [Hid|Hid];
      cbn [negb]; [|discriminate].
    destruct (array_find _ usrs) as [found|] eqn:Hfound; [|discriminate].
    destruct (isApproved found) eqn:Hok; cbn [negb]; [|discriminate].
    intros _. apply array_find_some in Hfound. destruct Hfound as [Hin Hc].
    apply hasCredentials_true in Hc. destruct Hc as (H1 & H2 & H3).
    exists org, found. repeat split; auto.
Qed.

Lemma local_login_admits (orgs : list Organization) (usrs : list User)
      (orgName address pass : string) (st : AppState) :
  AppLocal.hardcoded (trim address) (trim pass) = false ->
  success (fst (AppLocal.login orgs usrs orgName address pass st)) = true ->
  exists org found,
    array_find (orgNamed orgName) orgs = Some org /\
    org_isApproved org = true /\
    In found usrs /\
    organizationId found = org_id org /\
    email found = trim address /\
    password found = Some (trim pass) /\
    isApproved found = true /\
    AppLocal.login orgs usrs orgName address pass st
      = (admitted, setCurrentPage "home" (setUser found st)).
Proof.
  intros Hhard. unfold AppLocal.login. rewrite Hhard.
  destruct (array_find (orgNamed orgName) orgs) as [org|] eqn:Horg; [|discriminate].
  destruct (org_isApproved org) eqn:Happ; cbn [negb]; [|discriminate].
  destruct (array_find _ usrs) as [found|] eqn:Hfound; [|discriminate].
  destruct (isApproved found) eqn:Hok; cbn [negb]; [|discriminate].
  intros _. apply array_find_some in Hfound. destruct Hfound as [Hin Hc].
  apply hasCredentials_true in Hc. destruct Hc as (H1 & H2 & H3).
  exists org, found. repeat split; auto.
Qed.

(** X12.  Whom [login] admits.  In the [App] of the online-only service a
    login succeeds only for a user of the list whose organization is the
    first one with the name entered, approved or the system-global one,
    whose address and password are the ones entered (white space around
    them apart) and who is approved; the session is that user, on the page
    [home].  In the [App] with a local fallback the same holds (without the
    exemption of the system-global organization) unless the hard-coded
    address and password were entered. *)
Theorem login_admits_stored_approved_users :
  forall (orgs : list Organization) (usrs : list User)
         (orgName address pass : string) (st : AppState),
    (success (fst (AppOnline.login orgs usrs orgName address pass st)) = true ->
     exists org found,
       array_find (orgNamed orgName) orgs = Some org /\
       (org_isApproved org = true \/ org_id org = "system_global") /\
       In found usrs /\
       organizationId found = org_id org /\
       email found = trim address /\
       password found = Some (trim pass) /\
       isApproved found = true /\
       AppOnline.login orgs usrs orgName address pass st
         = (admitted, setCurrentPage "home" (setUser found st)))
    /\
    (success (fst (AppLocal.login orgs usrs orgName address pass st)) = true ->
     AppLocal.hardcoded (trim address) (trim pass) = true \/
     exists org found,
       array_find (orgNamed orgName) orgs = Some org /\
       org_isApproved org = true /\
       In found usrs /\
       organizationId found = org_id org /\
       email found = trim address /\
       password found = Some (trim pass) /\
       isApproved found = true /\
       AppLocal.login orgs usrs orgName address pass st
         = (admitted, setCurrentPage "home" (setUser found st))).
Proof.
  intros orgs usrs orgName address pass st. split.
  - apply online_login_admits.
  - intros Hok.
    destruct (AppLocal.hardcoded (trim address) (trim pass)) eqn:Hhard; [left; reflexivity|].
    right. apply local_login_admits; assumption.
Qed.

Lemma login_admits_stored_approved_users_witness :
  success (fst (AppOnline.login [acmeApproved] [acmeAdmin; acmeDealer] "ACME "
                  " dealer@acme.test" "dealer-pass" loggedOut)) = true /\
  exists found,
    In found [acmeAdmin; acmeDealer] /\
    email found = "dealer@acme.test" /\
    isApproved found = true /\
    user (snd (AppOnline.login [acmeApproved] [acmeAdmin; acmeDealer] "ACME "
                 " dealer@acme.test" "dealer-pass" loggedOut)) = Some found.
Proof.
  split; [reflexivity|].
  destruct (@login_admits_stored_approved_users [acmeApproved] [acmeAdmin; acmeDealer]
              "ACME " " dealer@acme.test" "dealer-pass" loggedOut) as [Honline _].
  destruct (Honline eq_refl) as (org & found & _ & _ & Hin & _ & Hmail & _ & Hok & Hlogin).
  exists found. rewrite Hlogin.
  split; [exact Hin|]. split; [exact Hmail|]. split; [exact Hok|reflexivity].
Defined.

(** The answers of [login]. *)
Lemma online_login_answer (orgs : list Organization) (usrs : list User)
      (orgName address pass : string) (st : AppState) :
  let r := AppOnline.login orgs usrs orgName address pass st in
  (fst r = admitted /\ exists found, snd r = setCurrentPage "home" (setUser found st))
  \/ (exists text, In text refusals /\ r = (failure text, st)).
Proof.
  cbv zeta. unfold AppOnline.login, refusals.
  destruct (array_find (orgNamed orgName) orgs) as [org|].
  - destruct (negb (org_isApproved org) && _).
    + right. eexists. split; [|reflexivity]. cbn. tauto.
    + destruct (array_find _ usrs) as [found|].
      * destruct (negb (isApproved found)).
        -- right. eexists. split; [|reflexivity]. cbn. tauto.
        -- left. split; [reflexivity|]. exists found. reflexivity.
      * right. eexists. split; [|reflexivity]. cbn. tauto.
  - right. eexists. split; [|reflexivity]. cbn. tauto.
Qed.

Lemma local_login_answer (orgs : list Organization) (usrs : list User)
      (orgName address pass : string) (st : AppState) :
  let r := AppLocal.login orgs usrs orgName address pass st in
  (fst r = admitted /\ exists found, snd r = setCurrentPage "home" (setUser found st))
  \/ (exists text, In text refusals /\ r = (failure text, st)).
Proof.
  cbv zeta. unfold AppLocal.login, refusals.
  destruct (AppLocal.hardcoded (trim address) (trim pass)).
  { left. split; [reflexivity|]. eexists. reflexivity. }
  destruct (array_find (orgNamed orgName) orgs) as [org|].
  - destruct (negb (org_isApproved org)).
    + right. eexists. split; [|reflexivity]. cbn. tauto.
    + destruct (array_find _ usrs) as [found|].
      * destruct (negb (isApproved found)).
        -- right. eexists. split; [|reflexivity]. cbn. tauto.
        -- left. split; [reflexivity|]. exists found. reflexivity.
      * right. eexists. split; [|reflexivity]. cbn. tauto.
  - right. eexists. split; [|reflexivity]. cbn. tauto.
Qed.

(** X13.  A login that is refused leaves the session as it was: no user is
    set, the page is not changed, and the answer carries one of the four
    refusal messages.  A login that succeeds carries no message.  This
    holds in both [App] components. *)
Theorem login_refused_leaves_the_session :
  forall (orgs : list Organization) (usrs : list User)
         (orgName address pass : string) (st : AppState),
    let online := AppOnline.login orgs usrs orgName address pass st in
    let local := AppLocal.login orgs usrs orgName address pass st in
    (if success (fst online)
     then fst online = admitted
     else snd online = st /\
          exists text, message (fst online) = Some text /\ In text refusals)
    /\
    (if success (fst local)
     then fst local = admitted
     else snd local = st /\
          exists text, message (fst local) = Some text /\ In text refusals).
Proof.
  intros orgs usrs orgName address pass st online local. subst online local. split.
  - destruct (online_login_answer orgs usrs orgName address pass st)
      as [(Hok & _) | (text & Hin & Hr)]; cbv zeta in *.
    + rewrite Hok. reflexivity.
    + rewrite Hr. cbn. split; [reflexivity|]. exists text. split; [reflexivity|exact Hin].
  - destruct (local_login_answer orgs usrs orgName address pass st)
      as [(Hok & _) | (text & Hin & Hr)]; cbv zeta in *.
    + rewrite Hok. reflexivity.
    + rewrite Hr. cbn. split; [reflexivity|]. exists text. split; [reflexivity|exact Hin].
Qed.

(** X14.  After an [init] of the service with a local fallback that
    loaded an [AppData] (from the store, or from the browser storage unless
    the text there parses to something else), a login with the hard-coded
    address and password gets the session of an account of the users
    collection: the first one with the role SUPER_ADMIN, whatever its
    address and its approval flag.  The account made up for the case that
    the collection has none is never used, since [init] has seen to it that
    there is one.  Organization name and organizations play no part. *)
Theorem hardcoded_login_after_init :
  forall (env : Env) (firebaseConfig : list (string * string))
         (s : MockDb.DatabaseService) (loaded : AppData)
         (orgName address pass : string) (st : AppState),
    MockDb.initialized s = false ->
    loadedData env firebaseConfig s = Some loaded ->
    AppLocal.hardcoded (trim address) (trim pass) = true ->
    exists db account,
      final (MockDb.init env firebaseConfig s) = MockDb.Sound db /\
      array_find (fun u => UserRole_eqb (role u) SUPER_ADMIN) (MockDb.getUsers db)
        = Some account /\
      In account (MockDb.getUsers db) /\
      role account = SUPER_ADMIN /\
      AppLocal.login (MockDb.getOrganizations db) (MockDb.getUsers db)
                     orgName address pass st
        = (admitted, setCurrentPage "home" (setUser account st)).
Proof.
  intros env firebaseConfig s loaded orgName address pass st Hinit Hloaded Hhard.
  destruct (mock_init_spec env firebaseConfig s Hinit) as (_ & _ & _ & _ & Hcase).
  rewrite Hloaded in Hcase. destruct Hcase as (_ & db & Hfinal & Hu).
  assert (Hex : existsb (fun u => UserRole_eqb (role u) SUPER_ADMIN) (MockDb.getUsers db)
                = true).
  { unfold MockDb.getUsers. rewrite Hu. cbn [users set_users]. unfold ensured.
    destruct (existsb MockDb.isSuperAdminAccount _) eqn:He.
    - apply existsb_exists in He. destruct He as (u & Hin & Hacc).
      apply existsb_exists. exists u. split; [exact Hin|].
      unfold MockDb.isSuperAdminAccount in Hacc. apply andb_prop in Hacc. tauto.
    - rewrite existsb_push. apply orb_true_r. }
  rewrite find_existsb in Hex.
  destruct (find (fun u => UserRole_eqb (role u) SUPER_ADMIN) (MockDb.getUsers db))
    as [account|] eqn:Hfind; [|discriminate].
  exists db, account. unfold array_find. rewrite Hfind.
  destruct (find_some _ _ Hfind) as [Hin Hrole].
  split; [exact Hfinal|]. split; [reflexivity|]. split; [exact Hin|]. split.
  - destruct (role account); try discriminate. reflexivity.
  - unfold AppLocal.login. rewrite Hhard. unfold array_find. rewrite Hfind. reflexivity.
Qed.

Lemma hardcoded_login_after_init_witness :
  MockDb.initialized (MockDb.create None) = false /\
  loadedData storeWithUnapprovedAdmin someConfig (MockDb.create None)
    = Some (cloud storeWithUnapprovedAdmin) /\
  AppLocal.hardcoded (trim "keerthithiruvarasan@gmail.com ") (trim "123456789@Asdf") = true /\
  exists db,
    final (MockDb.init storeWithUnapprovedAdmin someConfig (MockDb.create None))
      = MockDb.Sound db /\
    user (snd (AppLocal.login (MockDb.getOrganizations db) (MockDb.getUsers db)
                 EmptyString "keerthithiruvarasan@gmail.com " "123456789@Asdf" loggedOut))
      = Some unapprovedAdmin.
Proof.
  split; [reflexivity|]. split; [reflexivity|]. split; [reflexivity|].
  destruct (@hardcoded_login_after_init storeWithUnapprovedAdmin someConfig (MockDb.create None)
              (cloud storeWithUnapprovedAdmin)
              EmptyString "keerthithiruvarasan@gmail.com " "123456789@Asdf" loggedOut
              eq_refl eq_refl eq_refl) as (db & account & Hfinal & Hfind & _ & _ & Hlogin).
  exists db. split; [exact Hfinal|].
  rewrite Hlogin. cbn [snd user setCurrentPage setUser].
  rewrite <- Hfind.
  assert (Hdb : MockDb.Sound db
                = final (MockDb.init storeWithUnapprovedAdmin someConfig (MockDb.create None)))
    by (symmetry; exact Hfinal).
  vm_compute in Hdb. injection Hdb as ->. reflexivity.
Defined.

(** *** [trim] *)

Lemma string_app_assoc (a b c : string) : ((a ++ b) ++ c = a ++ (b ++ c))%string.
Proof. induction a as [|x a IH]; cbn; [reflexivity|]. rewrite IH. reflexivity. Qed.

Lemma string_app_nil_r (a : string) : (a ++ EmptyString)%string = a.
Proof. induction a as [|x a IH]; cbn; [reflexivity|]. rewrite IH. reflexivity. Qed.

Lemma string_rev_app (a b : string) :
  string_rev (a ++ b) = (string_rev b ++ string_rev a)%string.
Proof.
  induction a as [|x a IH]; cbn.
  - rewrite string_app_nil_r. reflexivity.
  - rewrite IH, string_app_assoc. reflexivity.
Qed.

Lemma string_rev_involutive (a : string) : string_rev (string_rev a) = a.
Proof.
  induction a as [|x a IH]; cbn; [reflexivity|].
  rewrite string_rev_app, IH. reflexivity.
Qed.

Lemma string_length_app (a b : string) :
  String.length (a ++ b) = String.length a + String.length b.
Proof. induction a as [|x a IH]; cbn; [reflexivity|]. rewrite IH. reflexivity. Qed.

Section StripSpace.
Variable two : ascii -> ascii -> bool.
Variable three : ascii -> ascii -> ascii -> bool.

(** A string that starts with no white space is left as it is. *)
Lemma stripSpace_none (s : string) :
  spaceAhead two three s = 0 -> stripSpace two three s = s.
Proof.
  destruct s as [|c1 [|c2 [|c3 r3]]]; cbn [spaceAhead stripSpace]; try reflexivity.
  - destruct (space1 c1); [discriminate|reflexivity].
  - destruct (space1 c1); [discriminate|]. destruct (two c1 c2); [discriminate|reflexivity].
  - destruct (space1 c1); [discriminate|]. destruct (two c1 c2); [discriminate|].
    destruct (three c1 c2 c3); [discriminate|reflexivity].
Qed.

(** A string that starts with white space is that character and a rest,
    and the character is dropped whatever follows it. *)
Lemma stripSpace_some (s : string) :
  spaceAhead two three s <> 0 ->
  exists c r, s = (c ++ r)%string /\ String.length r < String.length s /\
              forall y, stripSpace two three (c ++ y) = stripSpace two three y.
Proof.
  destruct s as [|c1 r1]; cbn [spaceAhead]; [congruence|].
  destruct (space1 c1) eqn:H1.
  { intros _. exists (String c1 EmptyString), r1. split; [reflexivity|].
    split; [cbn; lia|]. intros y. cbn [append stripSpace]. rewrite H1. reflexivity. }
  destruct r1 as [|c2 r2]; [congruence|].
  destruct (two c1 c2) eqn:H2.
  { intros _. exists (String c1 (String c2 EmptyString)), r2. split; [reflexivity|].
    split; [cbn; lia|]. intros y. cbn [append stripSpace]. rewrite H1, H2. reflexivity. }
  destruct r2 as [|c3 r3]; [congruence|].
  destruct (three c1 c2 c3) eqn:H3; [|congruence].
  intros _. exists (String c1 (String c2 (String c3 EmptyString))), r3.
  split; [reflexivity|]. split; [cbn; lia|].
  intros y. cbn [append stripSpace]. rewrite H1, H2, H3. reflexivity.
Qed.

(** What is stripped is a prefix that is dropped whatever follows it, and
    what is left starts with no white space. *)
Lemma stripSpace_split (s : string) :
  exists b, s = (b ++ stripSpace two three s)%string /\
            (forall y, stripSpace two three (b ++ y) = stripSpace two three y) /\
            spaceAhead two three (stripSpace two three s) = 0.
Proof.
  remember (String.length s) as n eqn:Hn.
  revert s Hn. induction n as [n IH] using lt_wf_ind. intros s Hn.
  destruct (Nat.eq_dec (spaceAhead two three s) 0) as [H0|H0].
  - exists EmptyString. rewrite (@stripSpace_none s H0). auto.
  - destruct (@stripSpace_some s H0) as (c & r & Hs & Hlen & Hc).
    destruct (IH (String.length r) ltac:(lia) r eq_refl) as (b & Hr & Hb & Ha).
    exists (c ++ b)%string. rewrite Hs, Hc.
    split; [rewrite string_app_assoc, <- Hr; reflexivity|].
    split; [|exact Ha].
    intros y. rewrite string_app_assoc, Hc. apply Hb.
Qed.

Lemma stripSpace_idempotent (s : string) :
  stripSpace two three (stripSpace two three s) = stripSpace two three s.
Proof.
  destruct (stripSpace_split s) as (_ & _ & _ & Ha). apply stripSpace_none. exact Ha.
Qed.

Lemma stripSpace_fixed (s : string) :
  stripSpace two three s = s -> spaceAhead two three s = 0.
Proof.
  intros H. destruct (stripSpace_split s) as (_ & _ & _ & Ha). rewrite H in Ha. exact Ha.
Qed.

(** The start of a string that starts with no white space starts with
    none. *)
Lemma spaceAhead_prefix (u w : string) :
  spaceAhead two three (u ++ w) = 0 -> spaceAhead two three u = 0.
Proof.
  destruct u as [|c1 [|c2 [|c3 r3]]]; cbn [append spaceAhead]; try reflexivity.
  - destruct (space1 c1); [|reflexivity]. auto.
  - destruct (space1 c1); [auto|]. destruct (two c1 c2); [|reflexivity]. auto.
  - auto.
Qed.

Lemma stripSpace_prefix (u w : string) :
  stripSpace two three (u ++ w) = (u ++ w)%string -> stripSpace two three u = u.
Proof.
  intros H. apply stripSpace_none, (@spaceAhead_prefix u w), stripSpace_fixed. exact H.
Qed.

End StripSpace.

Lemma trimEnd_idempotent (s : string) : trimEnd (trimEnd s) = trimEnd s.
Proof.
  unfold trimEnd. rewrite string_rev_involutive, stripSpace_idempotent. reflexivity.
Qed.

(** What [trimEnd] returns is a start of the string. *)
Lemma trimEnd_prefix (s : string) : exists w, s = (trimEnd s ++ w)%string.
Proof.
  unfold trimEnd.
  destruct (stripSpace_split (fun c2 c1 => space2 c1 c2) (fun c3 c2 c1 => space3 c1 c2 c3)
              (string_rev s)) as (b & Hs & _).
  exists (string_rev b). rewrite <- string_rev_app, <- Hs. symmetry.
  apply string_rev_involutive.
Qed.

Lemma trim_idempotent (s : string) : trim (trim s) = trim s.
Proof.
  unfold trim.
  assert (Hstart : trimStart (trimEnd (trimStart s)) = trimEnd (trimStart s)).
  { destruct (trimEnd_prefix (trimStart s)) as (w & Hw).
    apply (@stripSpace_prefix space2 space3 _ w). rewrite <- Hw.
    apply stripSpace_idempotent. }
  rewrite Hstart. apply trimEnd_idempotent.
Qed.

(** *** White space around a string *)

Lemma joined_cons (c : string) (chars : list string) :
  joined (c :: chars) = (c ++ joined chars)%string.
Proof.
  unfold joined. destruct chars as [|d rest]; cbn [String.concat].
  - symmetry. apply string_app_nil_r.
  - reflexivity.
Qed.

(** Each white space character is dropped from the start. *)
Lemma trimStart_character (c y : string) :
  In c whiteSpace -> trimStart (c ++ y) = trimStart y.
Proof.
  intros Hc. repeat (destruct Hc as [<-|Hc]; [reflexivity|]). destruct Hc.
Qed.

(** ... and, its bytes last first, from the start of the reversed string. *)
Lemma trimEnd_character (c y : string) :
  In c whiteSpace ->
  stripSpace (fun c2 c1 => space2 c1 c2) (fun c3 c2 c1 => space3 c1 c2 c3)
             (string_rev c ++ y)
  = stripSpace (fun c2 c1 => space2 c1 c2) (fun c3 c2 c1 => space3 c1 c2 c3) y.
Proof.
  intros Hc. repeat (destruct Hc as [<-|Hc]; [reflexivity|]). destruct Hc.
Qed.

Lemma trimStart_blank (p x : string) : blank p -> trimStart (p ++ x) = trimStart x.
Proof.
  intros (chars & Hall & ->). induction Hall as [|c rest Hc Hrest IH]; [reflexivity|].
  rewrite joined_cons, string_app_assoc, (@trimStart_character c _ Hc). exact IH.
Qed.

Lemma trimEnd_blank (x q : string) : blank q -> trimEnd (x ++ q) = trimEnd x.
Proof.
  intros (chars & Hall & ->). unfold trimEnd. f_equal. rewrite string_rev_app.
  generalize (string_rev x). induction Hall as [|c rest Hc Hrest IH]; intros y; [reflexivity|].
  rewrite joined_cons, string_rev_app, string_app_assoc, IH.
  apply trimEnd_character. exact Hc.
Qed.

(** A byte that follows the first one in the form of a character. *)
Lemma space2_continues (c1 c2 : ascii) :
  space2 c1 c2 = true -> 128 <= nat_of_ascii c2 <= 191.
Proof.
  unfold space2, byte. rewrite andb_true_iff, !Nat.eqb_eq. lia.
Qed.

Lemma space3_continues (c1 c2 c3 : ascii) :
  space3 c1 c2 c3 = true ->
  128 <= nat_of_ascii c2 <= 191 /\ 128 <= nat_of_ascii c3 <= 191.
Proof.
  unfold space3, byte.
  rewrite ?orb_true_iff, ?andb_true_iff, ?orb_true_iff, ?andb_true_iff, ?orb_true_iff,
    ?Nat.eqb_eq.
  lia.
Qed.

(** White space does not start with such a byte. *)
Lemma blank_starts (q : string) (c : ascii) (rest : string) :
  blank q -> q = String c rest -> ~ 128 <= nat_of_ascii c <= 191.
Proof.
  intros (chars & Hall & ->) Hq.
  destruct Hall as [|d more Hd _]; [discriminate|].
  rewrite joined_cons in Hq.
  repeat (destruct Hd as [<-|Hd]; [injection Hq as <- _; cbn; lia|]). destruct Hd.
Qed.

(** White space after a string that starts with none does not make it
    start with white space. *)
Lemma spaceAhead_blank_after (t q : string) :
  t <> EmptyString -> blank q ->
  spaceAhead space2 space3 t = 0 -> spaceAhead space2 space3 (t ++ q) = 0.
Proof.
  intros Ht Hq.
  destruct t as [|c1 [|c2 [|c3 r3]]]; [congruence| | |];
    cbn [append spaceAhead]; try (intros H; exact H).
  - destruct (space1 c1); [intros H; exact H|]. intros _.
    destruct q as [|d1 q1] eqn:Hq1; [reflexivity|].
    pose proof (@blank_starts _ d1 q1 Hq eq_refl) as Hd1.
    destruct (space2 c1 d1) eqn:H2; [apply space2_continues in H2; contradiction|].
    destruct q1 as [|d2 q2]; [reflexivity|].
    destruct (space3 c1 d1 d2) eqn:H3; [apply space3_continues in H3; tauto|reflexivity].
  - destruct (space1 c1); [intros H; exact H|].
    destruct (space2 c1 c2); [intros H; exact H|]. intros _.
    destruct q as [|d1 q1] eqn:Hq1; [reflexivity|].
    pose proof (@blank_starts _ d1 q1 Hq eq_refl) as Hd1.
    destruct (space3 c1 c2 d1) eqn:H3; [apply space3_continues in H3; tauto|reflexivity].
Qed.

(** White space around a string does not change what [trim] returns. *)
Lemma trim_padded (p s q : string) :
  blank p -> blank q -> trim (p ++ s ++ q) = trim s.
Proof.
  intros Hp Hq. unfold trim. rewrite (@trimStart_blank p _ Hp).
  destruct (stripSpace_split space2 space3 s) as (b & Hs & Hb & Ha).
  fold (trimStart s) in Hs, Ha.
  assert (Hstart : trimStart (s ++ q) = trimStart (trimStart s ++ q)).
  { rewrite Hs at 1. rewrite string_app_assoc. apply Hb. }
  rewrite Hstart.
  destruct (trimStart s) as [|c t] eqn:Ht.
  - cbn [append]. rewrite <- (string_app_nil_r q), (@trimStart_blank q _ Hq). reflexivity.
  - rewrite <- Ht in *. unfold trimStart at 1.
    rewrite stripSpace_none
      by (apply spaceAhead_blank_after; [rewrite Ht; discriminate|exact Hq|exact Ha]).
    apply trimEnd_blank. exact Hq.
Qed.

(** X15.  [login] normalizes what is entered: white space around the name
    of the organization, the address and the password is dropped (every
    white space character and line terminator of ECMAScript, and each of
    the three entries has its own), and the name of the organization is
    compared in lower case.  In both [App] components the answer and the
    session are the same for entries that differ in these respects only:
    for two names that [trim] and [toLowerCase] make equal, with any white
    space around the first name, the address and the password. *)
Theorem login_ignores_case_and_surrounding_blanks :
  forall (orgs : list Organization) (usrs : list User) (st : AppState)
         (p1 q1 p2 q2 p3 q3 orgName orgName' address pass : string),
    blank p1 -> blank q1 -> blank p2 -> blank q2 -> blank p3 -> blank q3 ->
    toLowerCase (trim orgName) = toLowerCase (trim orgName') ->
    AppOnline.login orgs usrs (p1 ++ orgName ++ q1) (p2 ++ address ++ q2) (p3 ++ pass ++ q3) st
      = AppOnline.login orgs usrs orgName' address pass st
    /\
    AppLocal.login orgs usrs (p1 ++ orgName ++ q1) (p2 ++ address ++ q2) (p3 ++ pass ++ q3) st
      = AppLocal.login orgs usrs orgName' address pass st.
Proof.
  intros orgs usrs st p1 q1 p2 q2 p3 q3 orgName orgName' address pass
         Hp1 Hq1 Hp2 Hq2 Hp3 Hq3 Hcase.
  assert (Horg : forall o, orgNamed (p1 ++ orgName ++ q1) o = orgNamed orgName' o).
  { intros o. unfold orgNamed. rewrite (@trim_padded p1 orgName q1 Hp1 Hq1), Hcase. reflexivity. }
  assert (Hfind : array_find (orgNamed (p1 ++ orgName ++ q1)) orgs
                  = array_find (orgNamed orgName') orgs).
  { unfold array_find. induction orgs as [|o rest IH]; [reflexivity|].
    cbn. rewrite Horg, IH. reflexivity. }
  unfold AppOnline.login, AppLocal.login.
  rewrite Hfind, (@trim_padded p2 address q2 Hp2 Hq2), (@trim_padded p3 pass q3 Hp3 Hq3).
  split; reflexivity.
Qed.

Lemma login_ignores_case_and_surrounding_blanks_witness :
  blank paddingA /\ blank paddingB /\ blank " " /\ blank EmptyString /\
  toLowerCase (trim "ACME") = toLowerCase (trim " acme") /\
  AppOnline.login [acmeApproved] [acmeAdmin]
                  (paddingA ++ "ACME" ++ paddingB) (" " ++ "admin@acme.test" ++ paddingA)
                  (EmptyString ++ "pass1234" ++ paddingB) loggedOut
    = AppOnline.login [acmeApproved] [acmeAdmin] " acme" "admin@acme.test" "pass1234" loggedOut.
Proof.
  assert (HA : blank paddingA).
  { exists [bytes [194; 160]; bytes [32]; bytes [227; 128; 128]].
    split; [|reflexivity]. repeat constructor; cbn; tauto. }
  assert (HB : blank paddingB).
  { exists [bytes [9]; bytes [226; 128; 168]]. split; [|reflexivity].
    repeat constructor; cbn; tauto. }
  assert (H1 : blank " ").
  { exists [bytes [32]]. split; [|reflexivity]. repeat constructor; cbn; tauto. }
  assert (H0 : blank EmptyString).
  { exists []. split; [constructor|reflexivity]. }
  split; [exact HA|]. split; [exact HB|]. split; [exact H1|]. split; [exact H0|].
  split; [reflexivity|].
  apply (@login_ignores_case_and_surrounding_blanks [acmeApproved] [acmeAdmin] loggedOut
           paddingA paddingB " " paddingA EmptyString paddingB
           "ACME" " acme" "admin@acme.test" "pass1234" HA HB H1 HA H0 HB eq_refl).
Defined.

(** X16.  What is stored is not normalized, so an account whose stored
    address or password begins or ends with white space, or that has no
    password, can never log in: in the [App] of the online-only service no
    entry makes its session, and in the [App] with a local fallback none
    except the hard-coded one. *)
Theorem login_never_admits_unnormalized_accounts :
  forall (orgs : list Organization) (usrs : list User)
         (orgName address pass : string) (st : AppState) (account : User),
    password account = None \/
    trim (email account) <> email account \/
    (exists pw, password account = Some pw /\ trim pw <> pw) ->
    (success (fst (AppOnline.login orgs usrs orgName address pass st)) = true ->
     user (snd (AppOnline.login orgs usrs orgName address pass st)) <> Some account)
    /\
    (AppLocal.hardcoded (trim address) (trim pass) = false ->
     success (fst (AppLocal.login orgs usrs orgName address pass st)) = true ->
     user (snd (AppLocal.login orgs usrs orgName address pass st)) <> Some account).
Proof.
  intros orgs usrs orgName address pass st account Hbad.
  assert (Hno : forall found,
            email found = trim address -> password found = Some (trim pass) ->
            found <> account).
  { intros found Hmail Hpass ->.
    destruct Hbad as [Hnone | [Hm | (pw & Hpw & Htrim)]].
    - congruence.
    - apply Hm. rewrite Hmail. apply trim_idempotent.
    - apply Htrim. rewrite Hpw in Hpass. injection Hpass as ->. apply trim_idempotent. }
  split.
  - intros Hok.
    destruct (online_login_admits orgs usrs orgName address pass st Hok)
      as (org & found & _ & _ & _ & _ & Hmail & Hpass & _ & Hlogin).
    rewrite Hlogin. cbn. intros H. injection H as H. exact (Hno found Hmail Hpass H).
  - intros Hhard Hok.
    destruct (local_login_admits orgs usrs orgName address pass st Hhard Hok)
      as (org & found & _ & _ & _ & _ & Hmail & Hpass & _ & Hlogin).
    rewrite Hlogin. cbn. intros H. injection H as H. exact (Hno found Hmail Hpass H).
Qed.

Lemma login_never_admits_unnormalized_accounts_witness :
  (exists pw, password paddedAccount = Some pw /\ trim pw <> pw) /\
  success (fst (AppOnline.login [acmeApproved] [paddedAccount; acmeDealer] "Acme"
                  "se@acme.test" "se-pass " loggedOut)) = false /\
  success (fst (AppOnline.login [acmeApproved] [paddedAccount; acmeDealer] "Acme"
                  "dealer@acme.test" "dealer-pass" loggedOut)) = true /\
  user (snd (AppOnline.login [acmeApproved] [paddedAccount; acmeDealer] "Acme"
               "dealer@acme.test" "dealer-pass" loggedOut)) <> Some paddedAccount.
Proof.
  assert (Hbad : exists pw, password paddedAccount = Some pw /\ trim pw <> pw)
    by (exists "se-pass "; split; [reflexivity|discriminate]).
  split; [exact Hbad|]. split; [reflexivity|]. split; [reflexivity|].
  destruct (@login_never_admits_unnormalized_accounts [acmeApproved]
              [paddedAccount; acmeDealer] "Acme" "dealer@acme.test" "dealer-pass"
              loggedOut paddedAccount (or_intror (or_intror Hbad))) as [Honline _].
  apply Honline. reflexivity.
Defined.

(** ** Pages *)

(** X17.  What [renderPage] shows depends on the session and on the name
    of the page, not on the role.  Without a user it is the login form, and
    no gesture in the header or on a page changes that.  With a user, of
    whatever role: each of the five pages without props is shown under its
    name, [admin] among them (the role only decides whether the header shows
    the button); each of the three plan pages gets the id of the record
    under edit after [handleEdit] and none after [handleNavigate]; every
    name that is none of the eight shows the dashboard; and [logout] leads
    to the login form. *)
Theorem pages_depend_on_the_session_only :
  forall (gs : list gesture) (st : AppState),
    (user st = None -> renderPage (handleAll gs st) = LoginPage) /\
    (forall (account : User) (id : string),
       user st = Some account ->
       renderPage (handleNavigate "admin" st) = AdminPanelPage /\
       (forall (name : string) (page : element),
          In (name, page) plainPages ->
          renderPage (handleNavigate name st) = page) /\
       (forall (name : string) (page : option string -> element),
          In (name, page) planPages ->
          renderPage (handleEdit id name st) = page (Some id) /\
          renderPage (handleNavigate name (handleEdit id name st)) = page None) /\
       (forall name : string,
          ~ In name pageNames ->
          renderPage (handleNavigate name st) = DashboardPage /\
          renderPage (handleEdit id name st) = DashboardPage) /\
       renderPage (logout st) = LoginPage).
Proof.
  intros gs st. split.
  - revert st. induction gs as [|g rest IH]; intros st Hnone.
    + unfold handleAll. cbn. unfold renderPage. rewrite Hnone. reflexivity.
    + unfold handleAll. cbn [fold_left]. apply IH.
      destruct g; cbn; auto.
  - intros account id Huser. unfold renderPage. cbn [handleNavigate handleEdit logout user
      currentPage editingId]. rewrite Huser.
    split; [reflexivity|]. split; [|split; [|split; [|reflexivity]]].
    + intros name page Hin.
      repeat (destruct Hin as [Hin|Hin]; [injection Hin as <- <-; reflexivity|]).
      destruct Hin.
    + intros name page Hin.
      repeat (destruct Hin as [Hin|Hin]; [injection Hin as <- <-; split; reflexivity|]).
      destruct Hin.
    + intros name Hnot.
      assert (Hno : forall known, In known pageNames -> String.eqb name known = false).
      { intros known Hk. apply String.eqb_neq. intros ->. exact (Hnot Hk). }
      rewrite !Hno by (cbn; tauto). split; reflexivity.
Qed.

Lemma pages_depend_on_the_session_only_witness :
  user dealerSession = Some acmeDealer /\
  isAdmin dealerSession = false /\
  renderPage (handleNavigate "admin" dealerSession) = AdminPanelPage /\
  renderPage (handleEdit "plan_1" "retention" dealerSession) = RetentionPlanPage (Some "plan_1") /\
  renderPage (handleNavigate "settings" dealerSession) = DashboardPage /\
  renderPage (handleAll [Navigate "admin"; Edit "plan_1" "conversion"] loggedOut) = LoginPage.
Proof.
  split; [reflexivity|]. split; [reflexivity|].
  destruct (@pages_depend_on_the_session_only
              [Navigate "admin"; Edit "plan_1" "conversion"] loggedOut) as [Hout _].
  destruct (@pages_depend_on_the_session_only [] dealerSession) as [_ Hin].
  destruct (Hin acmeDealer "plan_1" eq_refl) as (Hadmin & _ & Hplan & Hother & _).
  split; [exact Hadmin|].
  split; [apply (Hplan "retention" RetentionPlanPage); cbn; tauto|].
  split; [|apply Hout; reflexivity].
  apply (Hother "settings"). cbn.
  intros H. repeat (destruct H as [H|H]; [discriminate H|]). exact H.
Defined.

(** ** The registration form *)

Lemma setState_then {F S A : Type} (f : F -> F) (k : M (F * S) A) (fs : F * S) :
  (setState f ;; k) fs = k (f (fst fs), snd fs).
Proof.
  unfold bind, setState, modify. cbn. destruct (k (f (fst fs), snd fs)); reflexivity.
Qed.

Lemma get_then {S A : Type} (k : S -> M S A) (s : S) :
  (x <- get ;; k x) s = k s s.
Proof. unfold bind, get. cbn. destruct (k s s); reflexivity. Qed.

Lemma onService_returns {F S A B : Type} (m : M S A) (k : A -> M (F * S) B)
      (form : F) (db db' : S) (a : A) (evs : list event) :
  m db = {| outcome := Normal a; final := db'; emitted := evs |} ->
  (x <- onService m ;; k x) (form, db) =
  {| outcome := outcome (k a (form, db')); final := final (k a (form, db'));
     emitted := evs ++ emitted (k a (form, db')) |}.
Proof. intros H. unfold bind, onService. cbn. rewrite H. reflexivity. Qed.

Lemma onService_throws {F S A B : Type} (m : M S A) (k : A -> M (F * S) B)
      (form : F) (db db' : S) (e : string) (evs : list event) :
  m db = {| outcome := Throw e; final := db'; emitted := evs |} ->
  (x <- onService m ;; k x) (form, db) =
  {| outcome := Throw e; final := (form, db'); emitted := evs |}.
Proof. intros H. unfold bind, onService. cbn. rewrite H. reflexivity. Qed.

Lemma setState_run {F S : Type} (f : F -> F) (fs : F * S) :
  setState f fs = {| outcome := Normal tt; final := (f (fst fs), snd fs); emitted := [] |}.
Proof. reflexivity. Qed.

Section RegistrationFacts.
Variable S : Type.
Variable getOrganizations : S -> list Organization.
Variable addOrganization : Organization -> M S unit.
Variable addUser : User -> M S unit.
Variable orgRandom : string.
Variable userRandom : string.
Variable now : string.

Lemma register_taken (form : LoginForm) (db : S) :
  existsb (orgNamed (regOrgName form)) (getOrganizations db) = true ->
  handleRegisterSubmit getOrganizations addOrganization addUser orgRandom userRandom now
    (form, db) =
  {| outcome := Normal tt;
     final := (setLoading false
                 (refusedWith "Organization name already registered." form), db);
     emitted := [] |}.
Proof.
  intros Htaken. unfold handleRegisterSubmit, refusedWith, submitting.
  rewrite get_then. cbn [fst snd]. rewrite !setState_then. cbn [fst snd].
  unfold try_finally, try_catch.
  rewrite get_then. cbn [fst snd]. rewrite Htaken.
  rewrite setState_then. cbn [fst snd]. rewrite !setState_run. reflexivity.
Qed.

Lemma register_runs (form : LoginForm) (db db1 db2 : S) (ev1 ev2 : list event) :
  existsb (orgNamed (regOrgName form)) (getOrganizations db) = false ->
  addOrganization (registeredOrganization orgRandom now form) db
    = {| outcome := Normal tt; final := db1; emitted := ev1 |} ->
  addUser (registeredAdmin orgRandom userRandom form) db1
    = {| outcome := Normal tt; final := db2; emitted := ev2 |} ->
  handleRegisterSubmit getOrganizations addOrganization addUser orgRandom userRandom now
    (form, db) =
  {| outcome := Normal tt; final := (registered form, db2); emitted := ev1 ++ ev2 |}.
Proof.
  intros Hfree Horg Huser.
  unfold handleRegisterSubmit, registered, submitting.
  rewrite get_then. cbn [fst snd]. rewrite !setState_then. cbn [fst snd].
  unfold try_finally, try_catch.
  rewrite get_then. cbn [fst snd]. rewrite Hfree.
  unfold registeredOrganization in Horg. unfold registeredAdmin in Huser.
  rewrite (@onService_returns _ _ _ _ _ _ _ _ _ _ _ Horg).
  rewrite (@onService_returns _ _ _ _ _ _ _ _ _ _ _ Huser).
  rewrite !setState_then. cbn [fst snd]. rewrite !setState_run.
  cbn [outcome final emitted fst snd]. rewrite !app_nil_r. reflexivity.
Qed.

Lemma register_fails_first (form : LoginForm) (db db1 : S) (ev1 : list event) (e : string) :
  existsb (orgNamed (regOrgName form)) (getOrganizations db) = false ->
  addOrganization (registeredOrganization orgRandom now form) db
    = {| outcome := Throw e; final := db1; emitted := ev1 |} ->
  handleRegisterSubmit getOrganizations addOrganization addUser orgRandom userRandom now
    (form, db) =
  {| outcome := Normal tt;
     final := (refusedWith ("Registration failed: " ++ e) form, db1);
     emitted := ev1 |}.
Proof.
  intros Hfree Horg.
  unfold handleRegisterSubmit, refusedWith, submitting.
  rewrite get_then. cbn [fst snd]. rewrite !setState_then. cbn [fst snd].
  unfold try_finally, try_catch.
  rewrite get_then. cbn [fst snd]. rewrite Hfree.
  unfold registeredOrganization in Horg.
  rewrite (@onService_throws _ _ _ _ _ _ _ _ _ _ _ Horg).
  cbn [outcome final emitted fst snd]. rewrite !setState_run.
  cbn [outcome final emitted fst snd]. rewrite !app_nil_r. reflexivity.
Qed.

Lemma register_fails_second (form : LoginForm) (db db1 db2 : S) (ev1 ev2 : list event)
      (e : string) :
  existsb (orgNamed (regOrgName form)) (getOrganizations db) = false ->
  addOrganization (registeredOrganization orgRandom now form) db
    = {| outcome := Normal tt; final := db1; emitted := ev1 |} ->
  addUser (registeredAdmin orgRandom userRandom form) db1
    = {| outcome := Throw e; final := db2; emitted := ev2 |} ->
  handleRegisterSubmit getOrganizations addOrganization addUser orgRandom userRandom now
    (form, db) =
  {| outcome := Normal tt;
     final := (refusedWith ("Registration failed: " ++ e) form, db2);
     emitted := ev1 ++ ev2 |}.
Proof.
  intros Hfree Horg Huser.
  unfold handleRegisterSubmit, refusedWith, submitting.
  rewrite get_then. cbn [fst snd]. rewrite !setState_then. cbn [fst snd].
  unfold try_finally, try_catch.
  rewrite get_then. cbn [fst snd]. rewrite Hfree.
  unfold registeredOrganization in Horg. unfold registeredAdmin in Huser.
  rewrite (@onService_returns _ _ _ _ _ _ _ _ _ _ _ Horg).
  rewrite (@onService_throws _ _ _ _ _ _ _ _ _ _ _ Huser).
  cbn [outcome final emitted fst snd]. rewrite !setState_run.
  cbn [outcome final emitted fst snd]. rewrite !app_nil_r. reflexivity.
Qed.

End RegistrationFacts.

Lemma result_normal_eta {S A : Type} (r : Result S A) (a : A) :
  outcome r = Normal a ->
  r = {| outcome := Normal a; final := final r; emitted := emitted r |}.
Proof. destruct r as [o t evs]. cbn. intros ->. reflexivity. Qed.

Lemma find_app_last {A : Type} (p : A -> bool) (l : list A) (x : A) :
  existsb p l = false -> find p (l ++ [x]) = if p x then Some x else None.
Proof.
  induction l as [|y l IH]; cbn; [reflexivity|].
  intros H. apply orb_false_elim in H. destruct H as [Hy Hl]. rewrite Hy. exact (IH Hl).
Qed.

Lemma find_map_invariant {A : Type} (p : A -> bool) (g : A -> A) (l : list A) :
  (forall x, p (g x) = p x) -> find p (map g l) = option_map g (find p l).
Proof.
  intros Hg. induction l as [|x l IH]; cbn; [reflexivity|].
  rewrite Hg. destruct (p x); [reflexivity|exact IH].
Qed.

Lemma existsb_weaken {A : Type} (p q : A -> bool) (l : list A) :
  (forall x, q x = true -> p x = true) -> existsb p l = false -> existsb q l = false.
Proof.
  intros Hpq. induction l as [|x l IH]; cbn; [reflexivity|].
  intros H. apply orb_false_elim in H. destruct H as [Hx Hl]. rewrite (IH Hl).
  destruct (q x) eqn:Hq; [rewrite (Hpq x Hq) in Hx; discriminate|reflexivity].
Qed.

(** What the two writes of a registration do to the service with a local
    fallback. *)
Lemma mock_registration_writes (env : Env) (org : Organization) (admin : User)
      (db : MockDb.DatabaseService) :
  let r1 := MockDb.addOrganization env org db in
  let r2 := MockDb.addUser env admin (final r1) in
  outcome r1 = Normal tt /\ outcome r2 = Normal tt /\
  MockDb.getOrganizations (final r2) = push (MockDb.getOrganizations db) org /\
  MockDb.getUsers (final r2) = push (MockDb.getUsers db) admin.
Proof.
  cbv zeta.
  destruct (mock_perform_spec env (AddOrganization org) db) as (Ho1 & Hst1 & _).
  destruct (mock_write_frame env (AddOrganization org) db) as (_ & Hu1 & _).
  cbn [MockDb.perform stored_as target] in Ho1, Hst1, Hu1.
  destruct (mock_perform_spec env (AddUser admin) (final (MockDb.addOrganization env org db)))
    as (Ho2 & Hst2 & _).
  destruct (mock_write_frame env (AddUser admin) (final (MockDb.addOrganization env org db)))
    as (Hg2 & _).
  cbn [MockDb.perform stored_as target] in Ho2, Hst2, Hg2.
  unfold MockDb.getOrganizations, MockDb.getUsers.
  split; [exact Ho1|]. split; [exact Ho2|]. split.
  - rewrite Hg2 by discriminate. exact Hst1.
  - rewrite Hst2, Hu1 by discriminate. reflexivity.
Qed.

(** X18.  A registration whose organization name is taken (letter case and
    surrounding white space apart) is refused before anything is written:
    whatever the database service, none of its methods is called, the form
    shows the message and stays as it was filled in. *)
Theorem registration_refuses_a_taken_name :
  forall (S : Type) (getOrganizations : S -> list Organization)
         (addOrganization : Organization -> M S unit) (addUser : User -> M S unit)
         (orgRandom userRandom now : string) (form : LoginForm) (db : S),
    existsb (orgNamed (regOrgName form)) (getOrganizations db) = true ->
    let r := handleRegisterSubmit getOrganizations addOrganization addUser
               orgRandom userRandom now (form, db) in
    outcome r = Normal tt /\
    snd (final r) = db /\
    emitted r = [] /\
    error (fst (final r)) = "Organization name already registered." /\
    notice (fst (final r)) = EmptyString /\
    loading (fst (final r)) = false /\
    isRegistering (fst (final r)) = isRegistering form /\
    (regOrgName (fst (final r)), regAdminName (fst (final r)),
     regEmail (fst (final r)), regPassword (fst (final r)))
    = (regOrgName form, regAdminName form, regEmail form, regPassword form).
Proof.
  intros S getOrganizations addOrganization addUser orgRandom userRandom now form db
         Htaken r.
  subst r. rewrite (register_taken getOrganizations addOrganization addUser
                      orgRandom userRandom now form db Htaken).
  cbn. repeat split.
Qed.

Lemma registration_refuses_a_taken_name_witness :
  existsb (orgNamed (regOrgName filledForm))
          (MockDb.getOrganizations
             (MockDb.set_data
                {| organizations := [{| org_id := "org_1"; org_name := "GLOBAL tech";
                                        adminEmail := "it@globaltech.test";
                                        org_isApproved := true;
                                        org_createdAt := "2023-11-05T09:00:00.000Z" |}];
                   users := []; customers := []; plans := [] |} connected)) = true /\
  emitted (handleRegisterSubmit MockDb.getOrganizations
             (MockDb.addOrganization allCallsResolve) (MockDb.addUser allCallsResolve)
             "k3j9x0a1b" "p0o9i8u7y" "2024-05-01T10:00:00.000Z"
             (filledForm,
              MockDb.set_data
                {| organizations := [{| org_id := "org_1"; org_name := "GLOBAL tech";
                                        adminEmail := "it@globaltech.test";
                                        org_isApproved := true;
                                        org_createdAt := "2023-11-05T09:00:00.000Z" |}];
                   users := []; customers := []; plans := [] |} connected)) = [].
Proof.
  split; [reflexivity|].
  destruct (@registration_refuses_a_taken_name MockDb.DatabaseService
              MockDb.getOrganizations
              (MockDb.addOrganization allCallsResolve) (MockDb.addUser allCallsResolve)
              "k3j9x0a1b" "p0o9i8u7y" "2024-05-01T10:00:00.000Z" filledForm
              (MockDb.set_data
                {| organizations := [{| org_id := "org_1"; org_name := "GLOBAL tech";
                                        adminEmail := "it@globaltech.test";
                                        org_isApproved := true;
                                        org_createdAt := "2023-11-05T09:00:00.000Z" |}];
                   users := []; customers := []; plans := [] |} connected)
              eq_refl) as (_ & _ & He & _).
  exact He.
Defined.

(** X19.  Registration, approval, login, with the service with a local
    fallback and its [App].  A registration under a name that is free
    succeeds whatever the store answers (a rejected commit only turns the
    service offline): the organization is stored unapproved and its admin
    approved, with the role ORG_ADMIN.  A login with what was registered is
    then refused as pending; after the organization is approved with
    [updateOrganization], the same login gets the session of that admin.
    (The id drawn for the organization is taken to be new, and the address
    and password not to be the hard-coded ones.) *)
Theorem registration_then_approval_then_login :
  forall (env : Env) (orgRandom userRandom now : string) (form : LoginForm)
         (db : MockDb.DatabaseService) (st : AppState),
    existsb (orgNamed (regOrgName form)) (MockDb.getOrganizations db) = false ->
    existsb (fun u => String.eqb (organizationId u) ("org_" ++ orgRandom))
            (MockDb.getUsers db) = false ->
    AppLocal.hardcoded (trim (regEmail form)) (trim (regPassword form)) = false ->
    let r := handleRegisterSubmit MockDb.getOrganizations (MockDb.addOrganization env)
               (MockDb.addUser env) orgRandom userRandom now (form, db) in
    let form' := fst (final r) in
    let db' := snd (final r) in
    let db'' := final (MockDb.updateOrganization env ("org_" ++ orgRandom)
                         approveOrganization db') in
    outcome r = Normal tt /\
    form' = registered form /\
    MockDb.getOrganizations db'
      = push (MockDb.getOrganizations db) (registeredOrganization orgRandom now form) /\
    MockDb.getUsers db'
      = push (MockDb.getUsers db) (registeredAdmin orgRandom userRandom form) /\
    AppLocal.login (MockDb.getOrganizations db') (MockDb.getUsers db')
                   (fld_orgName form') (fld_email form') (regPassword form) st
      = (pendingApproval, st) /\
    AppLocal.login (MockDb.getOrganizations db'') (MockDb.getUsers db'')
                   (fld_orgName form') (fld_email form') (regPassword form) st
      = (admitted,
         setCurrentPage "home" (setUser (registeredAdmin orgRandom userRandom form) st)).
Proof.
  intros env orgRandom userRandom now form db st Hfree Hnew Hhard r form' db' db''.
  set (org := registeredOrganization orgRandom now form).
  set (admin := registeredAdmin orgRandom userRandom form).
  destruct (mock_registration_writes env org admin db) as (Ho1 & Ho2 & Horgs & Husers).
  cbv zeta in Ho1, Ho2, Horgs, Husers.
  assert (Hr : r = {| outcome := Normal tt;
                      final := (registered form,
                                final (MockDb.addUser env admin
                                         (final (MockDb.addOrganization env org db))));
                      emitted := emitted (MockDb.addOrganization env org db)
                                 ++ emitted (MockDb.addUser env admin
                                               (final (MockDb.addOrganization env org db))) |}).
  { eapply register_runs;
      [exact Hfree | apply result_normal_eta; exact Ho1 | apply result_normal_eta; exact Ho2]. }
  assert (Hform : form' = registered form) by (unfold form'; rewrite Hr; reflexivity).
  assert (Hdb : db' = final (MockDb.addUser env admin
                               (final (MockDb.addOrganization env org db))))
    by (unfold db'; rewrite Hr; reflexivity).
  assert (Hname : fld_orgName form' = regOrgName form) by (rewrite Hform; reflexivity).
  assert (Hmail : fld_email form' = regEmail form) by (rewrite Hform; reflexivity).
  assert (Hnamed : orgNamed (regOrgName form) org = true)
    by (unfold orgNamed, org; cbn; apply String.eqb_refl).
  assert (Hcred : hasCredentials ("org_" ++ orgRandom) (trim (regEmail form))
                                 (trim (regPassword form)) admin = true)
    by (unfold hasCredentials, admin; cbn; rewrite !String.eqb_refl; reflexivity).
  assert (Hold : existsb (hasCredentials ("org_" ++ orgRandom) (trim (regEmail form))
                                         (trim (regPassword form))) (MockDb.getUsers db)
                 = false).
  { apply (existsb_weaken _ _ _ (fun u H => proj1 (andb_prop _ _ (proj1 (andb_prop _ _ H))))
             Hnew). }
  rewrite <- Hdb in Horgs, Husers.
  split; [rewrite Hr; reflexivity|]. split; [exact Hform|].
  split; [exact Horgs|]. split; [exact Husers|]. split.
  - unfold AppLocal.login. rewrite Hmail, Hname, Hhard, Horgs.
    unfold array_find, push. rewrite (find_app_last _ _ _ Hfree), Hnamed. reflexivity.
  - destruct (mock_perform_spec env (UpdateOrganization ("org_" ++ orgRandom)
                                       approveOrganization) db') as (_ & Hst & _).
    destruct (mock_write_frame env (UpdateOrganization ("org_" ++ orgRandom)
                                      approveOrganization) db') as (_ & Hu & _).
    cbn [MockDb.perform stored_as target] in Hst, Hu. fold db'' in Hst, Hu.
    unfold AppLocal.login. rewrite Hmail, Hname, Hhard.
    unfold MockDb.getOrganizations, MockDb.getUsers in *.
    rewrite Hst, Hu by discriminate. rewrite Horgs, Husers.
    unfold array_find, push.
    rewrite find_map_invariant
      by (intros o; unfold orgNamed; destruct (String.eqb (org_id o) _); reflexivity).
    rewrite (find_app_last _ _ _ Hfree), Hnamed. cbn [option_map].
    assert (Hid : String.eqb (org_id org) ("org_" ++ orgRandom) = true)
      by apply String.eqb_refl.
    rewrite Hid. cbn [spreadOrganization approveOrganization merge po_isApproved
                      org_isApproved negb org_id po_id].
    rewrite (find_app_last _ _ _ Hold). cbn [org org_id registeredOrganization].
    rewrite Hcred. reflexivity.
Qed.

Lemma registration_then_approval_then_login_witness :
  existsb (orgNamed (regOrgName filledForm)) (MockDb.getOrganizations connected) = false /\
  AppLocal.hardcoded (trim (regEmail filledForm)) (trim (regPassword filledForm)) = false /\
  notice (fst (final (handleRegisterSubmit MockDb.getOrganizations
                        (MockDb.addOrganization noCallResolves)
                        (MockDb.addUser noCallResolves)
                        "k3j9x0a1b" "p0o9i8u7y" "2024-05-01T10:00:00.000Z"
                        (filledForm, connected))))
    = "Registration successful! Please wait for Super Admin approval." /\
  MockDb.getOrganizations
    (snd (final (handleRegisterSubmit MockDb.getOrganizations
                   (MockDb.addOrganization noCallResolves)
                   (MockDb.addUser noCallResolves)
                   "k3j9x0a1b" "p0o9i8u7y" "2024-05-01T10:00:00.000Z"
                   (filledForm, connected))))
    = [registeredOrganization "k3j9x0a1b" "2024-05-01T10:00:00.000Z" filledForm].
Proof.
  split; [reflexivity|]. split; [reflexivity|].
  destruct (@registration_then_approval_then_login noCallResolves
              "k3j9x0a1b" "p0o9i8u7y" "2024-05-01T10:00:00.000Z" filledForm connected
              loggedOut eq_refl eq_refl eq_refl) as (_ & Hform & Horgs & _).
  split; [rewrite Hform; reflexivity|exact Horgs].
Defined.

Lemma online_add_commits (env : Env) (call : bool -> event) (c : collection)
      (f : AppData -> AppData) (s : OnlineDb.DatabaseService) :
  (_ <- OnlineDb.await env call ;; OnlineDb.writeLocal c f) s =
  if resolves env (OnlineDb.calls s)
  then {| outcome := Normal tt;
          final := OnlineDb.set_data (f (OnlineDb.data s)) (OnlineDb.tick s);
          emitted := [call true; EvLocal c] |}
  else {| outcome := Throw "rejected"; final := OnlineDb.tick s; emitted := [call false] |}.
Proof.
  rewrite online_await_then. unfold resolves.
  destruct (answer env (OnlineDb.calls s)); reflexivity.
Qed.

(** X20.  Registration is two writes, and with the online-only service it
    is not atomic.  When the store commits the organization and rejects the
    user, the form reports that the registration failed, but the
    organization stays, committed and in the collection, without any
    account; and a second submission of the same form is refused because the
    name is now taken. *)
Theorem online_registration_is_not_atomic :
  forall (env env' : Env) (orgRandom userRandom now orgRandom' userRandom' now' : string)
         (form : LoginForm) (db : OnlineDb.DatabaseService),
    existsb (orgNamed (regOrgName form)) (OnlineDb.getOrganizations db) = false ->
    resolves env (OnlineDb.calls db) = true ->
    resolves env (1 + OnlineDb.calls db) = false ->
    let r := handleRegisterSubmit OnlineDb.getOrganizations (OnlineDb.addOrganization env)
               (OnlineDb.addUser env) orgRandom userRandom now (form, db) in
    let again := handleRegisterSubmit OnlineDb.getOrganizations
                   (OnlineDb.addOrganization env') (OnlineDb.addUser env')
                   orgRandom' userRandom' now' (final r) in
    outcome r = Normal tt /\
    fst (final r) = refusedWith "Registration failed: rejected" form /\
    emitted r = [EvSetDoc c_organizations ("org_" ++ orgRandom) true;
                 EvLocal c_organizations;
                 EvSetDoc c_users ("user_" ++ userRandom) false] /\
    OnlineDb.getOrganizations (snd (final r))
      = push (OnlineDb.getOrganizations db) (registeredOrganization orgRandom now form) /\
    OnlineDb.getUsers (snd (final r)) = OnlineDb.getUsers db /\
    emitted again = [] /\
    snd (final again) = snd (final r) /\
    error (fst (final again)) = "Organization name already registered.".
Proof.
  intros env env' orgRandom userRandom now orgRandom' userRandom' now' form db
         Hfree Hfirst Hsecond r again.
  set (org := registeredOrganization orgRandom now form).
  set (admin := registeredAdmin orgRandom userRandom form).
  assert (Horg : OnlineDb.addOrganization env org db =
                 {| outcome := Normal tt;
                    final := OnlineDb.set_data
                               (set_organizations (OnlineDb.data db)
                                  (push (organizations (OnlineDb.data db)) org))
                               (OnlineDb.tick db);
                    emitted := [EvSetDoc c_organizations (org_id org) true;
                                EvLocal c_organizations] |}).
  { unfold OnlineDb.addOrganization. rewrite online_add_commits, Hfirst. reflexivity. }
  assert (Huser : OnlineDb.addUser env admin
                    (OnlineDb.set_data
                       (set_organizations (OnlineDb.data db)
                          (push (organizations (OnlineDb.data db)) org))
                       (OnlineDb.tick db)) =
                  {| outcome := Throw "rejected";
                     final := OnlineDb.tick
                                (OnlineDb.set_data
                                   (set_organizations (OnlineDb.data db)
                                      (push (organizations (OnlineDb.data db)) org))
                                   (OnlineDb.tick db));
                     emitted := [EvSetDoc c_users (user_id admin) false] |}).
  { unfold OnlineDb.addUser. rewrite online_add_commits.
    cbn [OnlineDb.calls OnlineDb.set_data OnlineDb.tick].
    change (S (OnlineDb.calls db)) with (1 + OnlineDb.calls db). rewrite Hsecond.
    reflexivity. }
  assert (Hr : r = {| outcome := Normal tt;
                      final := (refusedWith "Registration failed: rejected" form,
                                OnlineDb.tick
                                  (OnlineDb.set_data
                                     (set_organizations (OnlineDb.data db)
                                        (push (organizations (OnlineDb.data db)) org))
                                     (OnlineDb.tick db)));
                      emitted := [EvSetDoc c_organizations (org_id org) true;
                                  EvLocal c_organizations]
                                 ++ [EvSetDoc c_users (user_id admin) false] |})
    by (eapply register_fails_second; [exact Hfree | exact Horg | exact Huser]).
  assert (Htaken : existsb (orgNamed (regOrgName (fst (final r))))
                           (OnlineDb.getOrganizations (snd (final r))) = true).
  { rewrite Hr. cbn [final fst snd]. unfold OnlineDb.getOrganizations. cbn.
    unfold push. rewrite existsb_app. apply orb_true_iff. right. cbn.
    unfold orgNamed. cbn. rewrite String.eqb_refl. reflexivity. }
  assert (Hagain : again =
            {| outcome := Normal tt;
               final := (setLoading false
                           (refusedWith "Organization name already registered."
                              (fst (final r))), snd (final r));
               emitted := [] |}).
  { unfold again. rewrite (surjective_pairing (final r)) at 1.
    apply register_taken. exact Htaken. }
  rewrite Hagain, Hr. cbn. repeat split.
Qed.

Lemma online_registration_is_not_atomic_witness :
  existsb (orgNamed (regOrgName filledForm)) (OnlineDb.getOrganizations online) = false /\
  resolves secondCallFails (OnlineDb.calls online) = true /\
  resolves secondCallFails (1 + OnlineDb.calls online) = false /\
  OnlineDb.getOrganizations
    (snd (final (handleRegisterSubmit OnlineDb.getOrganizations
                   (OnlineDb.addOrganization secondCallFails)
                   (OnlineDb.addUser secondCallFails)
                   "k3j9x0a1b" "p0o9i8u7y" "2024-05-01T10:00:00.000Z"
                   (filledForm, online))))
    = [registeredOrganization "k3j9x0a1b" "2024-05-01T10:00:00.000Z" filledForm] /\
  OnlineDb.getUsers
    (snd (final (handleRegisterSubmit OnlineDb.getOrganizations
                   (OnlineDb.addOrganization secondCallFails)
                   (OnlineDb.addUser secondCallFails)
                   "k3j9x0a1b" "p0o9i8u7y" "2024-05-01T10:00:00.000Z"
                   (filledForm, online))))
    = [].
Proof.
  split; [reflexivity|]. split; [reflexivity|]. split; [reflexivity|].
  destruct (@online_registration_is_not_atomic secondCallFails allCallsResolve
              "k3j9x0a1b" "p0o9i8u7y" "2024-05-01T10:00:00.000Z"
              "z9y8x7w6v" "q1w2e3r4t" "2024-05-01T10:01:00.000Z"
              filledForm online eq_refl eq_refl eq_refl) as (_ & _ & _ & Horgs & Husers & _).
  split; [exact Horgs | exact Husers].
Defined.

(** ** The login form *)

Lemma login_form_run (login : string -> string -> string -> AppState -> LoginResult * AppState)
      (form : LoginForm) (st : AppState) :
  handleLoginSubmit (asProp login) (form, st) =
  let answered := login (fld_orgName form) (fld_email form) (fld_password form) st in
  {| outcome := Normal tt;
     final := (setLoading false
                 (if negb (success (fst answered))
                  then setError (messageOr "Login failed" (message (fst answered)))
                         (submitting form)
                  else submitting form),
               snd answered);
     emitted := [] |}.
Proof.
  cbv zeta. unfold handleLoginSubmit, submitting.
  rewrite get_then. cbn [fst snd]. rewrite !setState_then. cbn [fst snd].
  unfold try_finally, try_catch.
  rewrite (@onService_returns _ _ _ _ _ _ _ _ _ _ _ 
             (eq_refl : asProp login (fld_orgName form) (fld_email form) (fld_password form) st
                        = {| outcome := Normal _; final := _; emitted := [] |})).
  destruct (negb (success (fst (login (fld_orgName form) (fld_email form)
                                  (fld_password form) st)))); reflexivity.
Qed.

(** X21.  The login form with the [login] of either [App] as its prop.  The
    handler always returns and ends with [loading] off.  After a login that
    succeeded no error is shown; after one that was refused the error shown
    is the message of [login], one of the four.  The two texts that the
    handler holds for an answer without a message and for an exception are
    never shown, since [login] neither answers without a message nor
    throws. *)
Theorem login_form_shows_the_answer_of_login :
  forall (orgs : list Organization) (usrs : list User) (form : LoginForm) (st : AppState),
    let shown (login : string -> string -> string -> AppState -> LoginResult * AppState) :=
      let r := handleLoginSubmit (asProp login) (form, st) in
      let answered := login (fld_orgName form) (fld_email form) (fld_password form) st in
      outcome r = Normal tt /\
      snd (final r) = snd answered /\
      loading (fst (final r)) = false /\
      notice (fst (final r)) = EmptyString /\
      (if success (fst answered)
       then error (fst (final r)) = EmptyString
       else message (fst answered) = Some (error (fst (final r))) /\
            In (error (fst (final r))) refusals) in
    shown (AppOnline.login orgs usrs) /\ shown (AppLocal.login orgs usrs).
Proof.
  intros orgs usrs form st shown. subst shown. cbv beta zeta. split.
  - rewrite login_form_run. cbv zeta. cbn [outcome final fst snd].
    destruct (online_login_answer orgs usrs (fld_orgName form) (fld_email form)
                (fld_password form) st) as [(Hok & _) | (text & Hin & Hr)]; cbv zeta in *.
    + rewrite Hok. cbn. repeat split.
    + rewrite Hr. cbn [fst snd failure success message negb messageOr].
      assert (Ht : truthy_string text = true)
        by (cbn in Hin; destruct Hin as [<-|[<-|[<-|[<-|[]]]]]; reflexivity).
      rewrite Ht. cbn. repeat split; auto.
  - rewrite login_form_run. cbv zeta. cbn [outcome final fst snd].
    destruct (local_login_answer orgs usrs (fld_orgName form) (fld_email form)
                (fld_password form) st) as [(Hok & _) | (text & Hin & Hr)]; cbv zeta in *.
    + rewrite Hok. cbn. repeat split.
    + rewrite Hr. cbn [fst snd failure success message negb messageOr].
      assert (Ht : truthy_string text = true)
        by (cbn in Hin; destruct Hin as [<-|[<-|[<-|[<-|[]]]]]; reflexivity).
      rewrite Ht. cbn. repeat split; auto.
Qed.

(** ** The mail channel: the coding of a mail *)

Lemma replaceAll_nil (a b : ascii) : MailService.replaceAll a b EmptyString = EmptyString.
Proof. reflexivity. Qed.

Lemma replaceAll_cons (a b c : ascii) (s : string) :
  MailService.replaceAll a b (String c s)
  = String (if Ascii.eqb c a then b else c) (MailService.replaceAll a b s).
Proof. reflexivity. Qed.

Lemma replaceAll_app (a b : ascii) (s t : string) :
  MailService.replaceAll a b (s ++ t)
  = (MailService.replaceAll a b s ++ MailService.replaceAll a b t)%string.
Proof.
  induction s as [|c s IH]; [reflexivity|].
  cbn [String.append]. rewrite !replaceAll_cons, IH. reflexivity.
Qed.

Lemma replaceAll_rev (a b : ascii) (s : string) :
  MailService.replaceAll a b (string_rev s) = string_rev (MailService.replaceAll a b s).
Proof.
  induction s as [|c s IH]; [reflexivity|].
  cbn [string_rev]. rewrite replaceAll_app, IH, !replaceAll_cons, replaceAll_nil.
  reflexivity.
Qed.

Lemma replaceAll_dropPadding (a b : ascii) (t : string) :
  Ascii.eqb a "=" = false -> Ascii.eqb b "=" = false ->
  MailService.replaceAll a b (dropPadding t) = dropPadding (MailService.replaceAll a b t).
Proof.
  intros Ha Hb. induction t as [|c t IH]; [reflexivity|].
  rewrite replaceAll_cons.
  destruct (Ascii.eqb c "=") eqn:Hc.
  - apply Ascii.eqb_eq in Hc. subst c.
    replace (Ascii.eqb "=" a) with false by (rewrite Ascii.eqb_sym; symmetry; exact Ha).
    cbn [dropPadding]. rewrite Ascii.eqb_refl. exact IH.
  - destruct (Ascii.eqb c a) eqn:Hca.
    + cbn [dropPadding]. rewrite Hc, Hb, replaceAll_cons, Hca. reflexivity.
    + cbn [dropPadding]. rewrite Hc, replaceAll_cons, Hca. reflexivity.
Qed.

Lemma stripPadding_dropPadding (s : string) :
  MailService.stripPadding s = string_rev (dropPadding (string_rev s)).
Proof. reflexivity. Qed.

Lemma replaceAll_stripPadding (a b : ascii) (s : string) :
  Ascii.eqb a "=" = false -> Ascii.eqb b "=" = false ->
  MailService.replaceAll a b (MailService.stripPadding s)
  = MailService.stripPadding (MailService.replaceAll a b s).
Proof.
  intros Ha Hb. rewrite !stripPadding_dropPadding.
  rewrite replaceAll_rev, (@replaceAll_dropPadding a b _ Ha Hb), replaceAll_rev. reflexivity.
Qed.

Lemma dropPadding_idempotent (t : string) : dropPadding (dropPadding t) = dropPadding t.
Proof.
  induction t as [|c t IH]; [reflexivity|].
  cbn [dropPadding]. destruct (Ascii.eqb c "=") eqn:Hc; [exact IH|].
  cbn [dropPadding]. rewrite Hc. reflexivity.
Qed.

Lemma dropPadding_split (t : string) :
  exists pad, t = (pad ++ dropPadding t)%string.
Proof.
  induction t as [|c t IH]; [exists EmptyString; reflexivity|].
  cbn [dropPadding]. destruct (Ascii.eqb c "=").
  - destruct IH as (pad & Ht). exists (String c pad). cbn. rewrite <- Ht. reflexivity.
  - exists EmptyString. reflexivity.
Qed.

Lemma includes_app (c : ascii) (s t : string) :
  includes c (s ++ t) = includes c s || includes c t.
Proof.
  induction s as [|d s IH]; [reflexivity|].
  cbn. rewrite IH, orb_assoc. reflexivity.
Qed.

Lemma includes_rev (c : ascii) (s : string) : includes c (string_rev s) = includes c s.
Proof.
  induction s as [|d s IH]; [reflexivity|].
  cbn. rewrite includes_app, IH. cbn. rewrite orb_false_r. apply orb_comm.
Qed.

Lemma includes_stripPadding (c : ascii) (s : string) :
  includes c s = false -> includes c (MailService.stripPadding s) = false.
Proof.
  intros H. rewrite stripPadding_dropPadding, includes_rev.
  destruct (dropPadding_split (string_rev s)) as (pad & Hs).
  rewrite <- includes_rev, Hs, includes_app in H.
  apply orb_false_elim in H. tauto.
Qed.

Lemma includes_replaceAll (a b : ascii) (s : string) :
  Ascii.eqb b a = false -> includes a (MailService.replaceAll a b s) = false.
Proof.
  intros Hab. induction s as [|c s IH]; [reflexivity|].
  rewrite replaceAll_cons. cbn [includes]. rewrite IH, orb_false_r.
  destruct (Ascii.eqb_spec c a) as [->|Hc]; [exact Hab|].
  destruct (Ascii.eqb_spec c a); [congruence|reflexivity].
Qed.

Lemma includes_replaceAll_other (a b c : ascii) (s : string) :
  Ascii.eqb b c = false -> includes c s = false ->
  includes c (MailService.replaceAll a b s) = false.
Proof.
  intros Hb. induction s as [|d s IH]; [reflexivity|].
  rewrite replaceAll_cons. cbn [includes]. intros H.
  apply orb_false_elim in H. destruct H as [Hd Hs]. rewrite (IH Hs), orb_false_r.
  destruct (Ascii.eqb d a); assumption.
Qed.

Lemma fromUrlSafe_replaced (s : string) :
  includes "-" s = false -> includes "_" s = false ->
  fromUrlSafe (MailService.replaceAll "/" "_" (MailService.replaceAll "+" "-" s)) = s.
Proof.
  unfold fromUrlSafe. induction s as [|c s IH]; [reflexivity|].
  cbn [includes]. intros H1 H2.
  apply orb_false_elim in H1, H2. destruct H1 as [Hc1 Hs1], H2 as [Hc2 Hs2].
  rewrite !replaceAll_cons, (IH Hs1 Hs2). f_equal.
  destruct c as [[] [] [] [] [] [] [] []]; cbn in Hc1, Hc2 |- *;
    try reflexivity; discriminate.
Qed.

(** X22.  The coding of a mail.  [sendEmail] makes the base64 text of a mail
    safe for a URL: what it hands to the mail API holds neither [+] nor [/]
    and does not end with [=].  [fetchLatestData] undoes the two
    replacements before it decodes: applied to what [sendEmail] made of a
    base64 text, its replacements give that text back, without the padding
    at its end. *)
Theorem url_safe_coding_round_trip :
  forall encoded : string,
    includes "+" (toUrlSafe encoded) = false /\
    includes "/" (toUrlSafe encoded) = false /\
    MailService.stripPadding (toUrlSafe encoded) = toUrlSafe encoded /\
    (includes "-" encoded = false -> includes "_" encoded = false ->
     fromUrlSafe (toUrlSafe encoded) = MailService.stripPadding encoded).
Proof.
  intros encoded. unfold toUrlSafe. split; [|split; [|split]].
  - apply includes_stripPadding, includes_replaceAll_other; [reflexivity|].
    apply includes_replaceAll. reflexivity.
  - apply includes_stripPadding, includes_replaceAll. reflexivity.
  - rewrite !stripPadding_dropPadding, string_rev_involutive, dropPadding_idempotent.
    reflexivity.
  - intros H1 H2. unfold fromUrlSafe.
    rewrite !replaceAll_stripPadding by reflexivity.
    fold (fromUrlSafe (MailService.replaceAll "/" "_" (MailService.replaceAll "+" "-" encoded))).
    rewrite (fromUrlSafe_replaced encoded H1 H2). reflexivity.
Qed.

Lemma url_safe_coding_round_trip_witness :
  includes "-" "VG86IHNl+2Fj/WU=" = false /\
  includes "_" "VG86IHNl+2Fj/WU=" = false /\
  toUrlSafe "VG86IHNl+2Fj/WU=" = "VG86IHNl-2Fj_WU" /\
  fromUrlSafe (toUrlSafe "VG86IHNl+2Fj/WU=") = "VG86IHNl+2Fj/WU".
Proof.
  split; [reflexivity|]. split; [reflexivity|]. split; [reflexivity|].
  destruct (url_safe_coding_round_trip "VG86IHNl+2Fj/WU=") as (_ & _ & _ & Hback).
  rewrite (Hback eq_refl eq_refl). reflexivity.
Defined.

Lemma try_catch_ret_returns {S A : Type} (m : M S A) (a : A) (s : S) :
  exists x, outcome (try_catch m (fun _ => ret a) s) = Normal x.
Proof.
  destruct (outcome (m s)) as [x|e] eqn:H.
  - rewrite (try_catch_normal _ _ _ H). exists x. exact H.
  - rewrite (try_catch_throw _ _ _ H). exists a. reflexivity.
Qed.

Lemma try_catch_ret_final {S A : Type} (m : M S A) (a : A) (s : S) :
  final (m s) = s -> final (try_catch m (fun _ => ret a) s) = s.
Proof.
  intros Hfinal. destruct (outcome (m s)) as [x|e] eqn:H.
  - rewrite (try_catch_normal _ _ _ H). exact Hfinal.
  - rewrite (try_catch_throw _ _ _ H). exact Hfinal.
Qed.

(** ** The mail channel: reading the inbox *)

Section InboxFailures.
Context {J : JsonText} {C : CryptoJS} {B : Base64}.
Variable gmail : MailService.Gmail.

Import MailService.

Lemma fetchOne_final (id : string) (packets : list jsval) (s : MailService) :
  final (fetchOne gmail id packets s) = s.
Proof.
  unfold fetchOne. destruct (getResult gmail id) as [detail|]; [|reflexivity].
  unfold bind, emit, lift. cbn [outcome final emitted].
  destruct (messageBody detail) as [body|e]; cbn [outcome final emitted]; [|reflexivity].
  destruct (decrypt body) as [v|e]; cbn [outcome final emitted]; [|reflexivity].
  destruct (truthy v); reflexivity.
Qed.

Lemma fetchOne_unreadable (id : string) (packets : list jsval) (s : MailService) :
  unreadable gmail id = true ->
  exists e, outcome (fetchOne gmail id packets s) = Throw e.
Proof.
  unfold unreadable, fetchOne. destruct (getResult gmail id) as [detail|].
  - destruct (messageBody detail) as [body|e]; [discriminate|].
    intros _. exists e. reflexivity.
  - intros _. exists "rejected". reflexivity.
Qed.

Lemma fetchEach_final (ids : list string) (packets : list jsval) (s : MailService) :
  final (fetchEach gmail ids packets s) = s.
Proof.
  revert packets. induction ids as [|id rest IH]; intros packets; [reflexivity|].
  cbn [fetchEach].
  destruct (outcome (fetchOne gmail id packets s)) as [packets'|e] eqn:Hone.
  - rewrite (bind_run _ _ _ Hone). cbn [final]. rewrite fetchOne_final. apply IH.
  - rewrite (bind_throw _ _ _ Hone). cbn [final]. apply fetchOne_final.
Qed.

Lemma fetchEach_unreadable (ids : list string) (packets : list jsval) (s : MailService) :
  existsb (unreadable gmail) ids = true ->
  exists e, outcome (fetchEach gmail ids packets s) = Throw e.
Proof.
  revert packets. induction ids as [|id rest IH]; intros packets H; [discriminate|].
  cbn [fetchEach].
  destruct (outcome (fetchOne gmail id packets s)) as [packets'|e] eqn:Hone.
  - rewrite (bind_run _ _ _ Hone). cbn [outcome]. rewrite fetchOne_final.
    apply IH. cbn [existsb] in H. apply orb_true_iff in H. destruct H as [H|H]; [|exact H].
    destruct (fetchOne_unreadable id packets s H) as (e & He). congruence.
  - rewrite (bind_throw _ _ _ Hone). exists e. reflexivity.
Qed.

(** The part of [fetchLatestData] inside [try]. *)
Lemma listing_final (s : MailService) :
  final (match listResult gmail with
         | None => emit (EvListMessages false) ;; throw "rejected"
         | Some found =>
             emit (EvListMessages true) ;;
             match found with
             | None => ret []
             | Some [] => ret []
             | Some messages => fetchEach gmail messages []
             end
         end s) = s.
Proof.
  destruct (listResult gmail) as [[[|id rest]|]|]; try reflexivity.
  pose proof (fetchEach_final (id :: rest) [] s) as Hfinal.
  unfold bind at 1. cbn [emit outcome final].
  destruct (fetchEach gmail (id :: rest) [] s) as [o t evs]. exact Hfinal.
Qed.

Lemma fetchLatestData_final (s : MailService) : final (fetchLatestData gmail s) = s.
Proof.
  unfold fetchLatestData. rewrite get_then.
  destruct (negb (gapiInited s) || negb (hasToken s)); [reflexivity|].
  apply try_catch_ret_final, listing_final.
Qed.

Lemma fetchLatestData_returns (s : MailService) :
  exists packets, outcome (fetchLatestData gmail s) = Normal packets.
Proof.
  unfold fetchLatestData. rewrite get_then.
  destruct (negb (gapiInited s) || negb (hasToken s)); [exists []; reflexivity|].
  apply try_catch_ret_returns.
Qed.

Lemma fetchLatestData_rejected (s : MailService) :
  listResult gmail = None -> outcome (fetchLatestData gmail s) = Normal [].
Proof.
  intros Hlist. unfold fetchLatestData. rewrite get_then.
  destruct (negb (gapiInited s) || negb (hasToken s)); [reflexivity|].
  rewrite Hlist. reflexivity.
Qed.

Lemma fetchLatestData_unreadable (ids : list string) (s : MailService) :
  listResult gmail = Some (Some ids) ->
  existsb (unreadable gmail) ids = true ->
  outcome (fetchLatestData gmail s) = Normal [].
Proof.
  intros Hlist Hsome. unfold fetchLatestData. rewrite get_then.
  destruct (negb (gapiInited s) || negb (hasToken s)); [reflexivity|].
  rewrite Hlist. destruct ids as [|id rest]; [discriminate|].
  destruct (fetchEach_unreadable (id :: rest) [] s Hsome) as (e & He).
  assert (Hbody : outcome ((emit (EvListMessages true) ;; fetchEach gmail (id :: rest) []) s)
                  = Throw e).
  { unfold bind at 1. cbn [emit outcome final]. rewrite He. reflexivity. }
  rewrite (try_catch_throw _ _ _ Hbody). reflexivity.
Qed.

End InboxFailures.

(** X23.  Reading the inbox is all or nothing.  [fetchLatestData] never
    throws and leaves the service as it was.  When the mail API rejects the
    listing, or does not deliver one of the listed messages, or [atob]
    throws on the body of one of them, the result is the empty list: the
    packets read from the messages before it are lost with it. *)
Theorem fetch_fails_as_a_whole :
  forall (J : JsonText) (C : CryptoJS) (B : Base64) (gmail : MailService.Gmail)
         (s : MailService.MailService),
    let r := MailService.fetchLatestData gmail s in
    (exists packets, outcome r = Normal packets) /\
    final r = s /\
    (MailService.listResult gmail = None -> outcome r = Normal []) /\
    (forall ids,
       MailService.listResult gmail = Some (Some ids) ->
       existsb (unreadable gmail) ids = true ->
       outcome r = Normal []).
Proof.
  intros J C B gmail s r. subst r. split; [|split; [|split]].
  - apply fetchLatestData_returns.
  - apply fetchLatestData_final.
  - apply fetchLatestData_rejected.
  - intros ids. apply fetchLatestData_unreadable.
Qed.

Lemma fetch_fails_as_a_whole_witness :
  MailService.listResult brokenInbox = Some (Some ["m1"; "m2"; "m3"]) /\
  existsb (unreadable brokenInbox) ["m1"; "m2"; "m3"] = true /\
  outcome (MailService.fetchOne brokenInbox "m1" [] signedIn)
  = Normal [MailService.packetObject customerPacket] /\
  outcome (MailService.fetchLatestData brokenInbox signedIn) = Normal [].
Proof.
  split; [reflexivity|]. split; [reflexivity|]. split; [vm_compute; reflexivity|].
  destruct (@fetch_fails_as_a_whole compactJson streamCipher identityCoding brokenInbox
              signedIn) as (_ & _ & _ & Hbatch).
  apply (Hbatch ["m1"; "m2"; "m3"]); reflexivity.
Defined.

(** ** The mail channel: sending *)

Section Sending.
Context {J : JsonText} {C : CryptoJS} {B : Base64}.
Variable gmail : MailService.Gmail.

Import MailService.

Lemma lift_then {A R : Type} (c : completion A) (k : A -> Eff R) (s : MailService) :
  (x <- lift c ;; k x) s =
  match c with
  | Normal a => k a s
  | Throw e => {| outcome := Throw e; final := s; emitted := [] |}
  end.
Proof.
  unfold bind, lift. cbn [outcome final emitted]. destruct c as [a|e]; [|reflexivity].
  destruct (k a s); reflexivity.
Qed.

Lemma sendEmail_run (to : list string) (subject body : string) (s : MailService) :
  sendEmail gmail to subject body s =
  match btoa (emailContent to subject body) with
  | Normal encoded =>
      {| outcome := if sendResult gmail then Normal tt else Throw "rejected";
         final := s;
         emitted := [EvSendMail (toUrlSafe encoded) (sendResult gmail)] |}
  | Throw e => {| outcome := Throw e; final := s; emitted := [] |}
  end.
Proof.
  unfold sendEmail. rewrite lift_then.
  destruct (btoa (emailContent to subject body)) as [encoded|e]; [|reflexivity].
  unfold toUrlSafe. destruct (sendResult gmail); reflexivity.
Qed.

Lemma broadcastData_run (packet : SyncPacket) (u : User) (s : MailService) :
  hasToken s = true ->
  broadcastData gmail packet u s =
  match encrypt gmail (packetObject packet) with
  | Normal envelope =>
      match recipientList u with
      | [] => {| outcome := Normal tt; final := s; emitted := [] |}
      | to => sendEmail gmail to (subjectOf packet) envelope s
      end
  | Throw e => {| outcome := Throw e; final := s; emitted := [] |}
  end.
Proof.
  intros Htoken. unfold broadcastData. rewrite get_then, Htoken. cbn [negb].
  rewrite lift_then. destruct (encrypt gmail (packetObject packet)) as [envelope|e];
    [|reflexivity].
  destruct (recipientList u); reflexivity.
Qed.

End Sending.

(** X24.  One broadcast, at most one mail.  With a token, [broadcastData]
    leaves the service as it was and hands the mail API at most one
    message, whatever the number of recipients, and does nothing else.  It
    returns without an error only when that message was accepted or when no
    recipient has a valid address.  When the envelope and the base64 text
    can be made, the message is the URL-safe form of the mail addressed to
    the valid recipients, under the subject of the packet. *)
Theorem broadcast_sends_at_most_one_mail :
  forall (J : JsonText) (C : CryptoJS) (B : Base64) (gmail : MailService.Gmail)
         (packet : MailService.SyncPacket) (u : User) (s : MailService.MailService),
    MailService.hasToken s = true ->
    let r := MailService.broadcastData gmail packet u s in
    final r = s /\
    (emitted r = [] \/ exists raw ok, emitted r = [EvSendMail raw ok]) /\
    (outcome r = Normal tt ->
     (MailService.recipientList u = [] /\ emitted r = []) \/
     (exists raw, emitted r = [EvSendMail raw true])) /\
    (forall envelope encoded,
       MailService.encrypt gmail (MailService.packetObject packet) = Normal envelope ->
       MailService.recipientList u <> [] ->
       btoa (MailService.emailContent (MailService.recipientList u) (subjectOf packet)
               envelope) = Normal encoded ->
       emitted r = [EvSendMail (toUrlSafe encoded) (MailService.sendResult gmail)] /\
       outcome r = if MailService.sendResult gmail then Normal tt else Throw "rejected").
Proof.
  intros J C B gmail packet u s Htoken r. subst r.
  rewrite (broadcastData_run gmail packet u s Htoken).
  destruct (MailService.encrypt gmail (MailService.packetObject packet)) as [envelope|e].
  - destruct (MailService.recipientList u) as [|first others] eqn:Hto.
    + split; [reflexivity|]. split; [left; reflexivity|]. split.
      * intros _. left. split; reflexivity.
      * intros envelope' encoded _ Hsome. congruence.
    + rewrite sendEmail_run.
      destruct (btoa (MailService.emailContent (first :: others) (subjectOf packet) envelope))
        as [encoded|e] eqn:Hcode.
      * split; [reflexivity|].
        split; [right; exists (toUrlSafe encoded), (MailService.sendResult gmail); reflexivity|].
        split.
        -- cbn [outcome emitted]. destruct (MailService.sendResult gmail); [|discriminate].
           intros _. right. exists (toUrlSafe encoded). reflexivity.
        -- intros envelope' encoded' Henvelope _ Hcode'.
           injection Henvelope as <-. rewrite Hcode in Hcode'. injection Hcode' as <-.
           split; reflexivity.
      * split; [reflexivity|]. split; [left; reflexivity|]. split; [discriminate|].
        intros envelope' encoded' Henvelope _ Hcode'.
        injection Henvelope as <-. congruence.
  - split; [reflexivity|]. split; [left; reflexivity|]. split; [discriminate|].
    intros envelope encoded Henvelope. discriminate.
Qed.

Lemma broadcast_sends_at_most_one_mail_witness :
  MailService.hasToken signedIn = true /\
  List.length (MailService.recipientList (plainUser "se@acme.test" (Some sampleHierarchy))) = 3 /\
  List.length
    (emitted (MailService.broadcastData inbox customerPacket
                (plainUser "se@acme.test" (Some sampleHierarchy)) signedIn)) <= 1.
Proof.
  split; [reflexivity|]. split; [reflexivity|].
  destruct (@broadcast_sends_at_most_one_mail compactJson streamCipher identityCoding inbox
              customerPacket (plainUser "se@acme.test" (Some sampleHierarchy)) signedIn
              eq_refl) as (_ & [Hnone|(raw & ok & Hone)] & _).
  - rewrite Hnone. cbn. lia.
  - rewrite Hone. cbn. lia.
Defined.
